(** * DimensionalDirectory: addressing, deduplication and relation engine

    A shallow embedding of the Python sources under [app/] :

    - [app/core/addressing/zero_index_mapper.py]  (module [ZeroIndexMapper])
    - [app/services/address_manager.py]           (module [AddressManager])
    - [app/services/document_manager.py]          (module [DocumentManager])
    - [app/services/lstable_manager.py]           (module [LStableManager])
    - [app/services/function_service.py]          (module [FunctionService])
    - [app/core/dd_manager.py] and
      [app/services/processors/text.py]           (module [DDManager])
    - [app/services/dd_service.py]                (module [DDService])
    - [app/api/v1/endpoints.py]                   (module [Endpoints])

    Conventions of the model.

    - A Python [str] is a [string]; character classes ([str.isspace], the
      regular-expression classes [\w], [\d], [\s]) are those of the ASCII
      code points, characters above 127 belong to none of them.
    - A Python [int] is a [Z].
    - The SQLite database and the HDF5 file are fields of one record
      [World]; a table is the list of its rows in insertion order, and
      [fetchone] returns the first row that matches.  The schema is taken
      as provisioned by the constructors (every [CREATE TABLE IF NOT
      EXISTS] of an [__init__] has run); the table [relations] is created
      by none of them but by [set_relation], and until then a statement
      that reads it raises [OperationalError] ([relations_created],
      [with_relations]).
      [AUTOINCREMENT] surrogate keys and [created_at] time stamps that no
      modelled code reads are left out of the rows.
    - A query that sorts by [created_at], or that states no order, lists
      its rows in insertion order.  The time stamps have a grain of one
      second and the order SQLite gives to equal rows is not specified, so
      the statements read such lists by membership and by length only.
    - An [int] bound to a parameter of a statement fits a 64-bit integer
      or the call raises [OverflowError] ([sqlite_integer]); this is
      modelled where a position read from an address is bound.
    - The texts written to the HDF5 file hold no NUL character, which
      [h5py] does not store.
    - [uuid.uuid4()] draws from a stream of strings, [hashlib.sha256] is a
      function on strings; both are parameters of the model.  The stream
      may yield any strings; [uuid4_stream] says that it yields texts of
      the shape [uuid.uuid4()] prints, and the statements that depend on
      that shape assume it.
    - A Python exception is a value of [exn]; a method is a function
      [World -> World * result A], the world returned with a [Raise] being
      what had been committed when the exception left the method. *)

From Stdlib Require Import String Ascii List ZArith NArith Arith Bool Lia.
From Stdlib Require Import DecimalString DecimalZ DecimalPos Permutation.
Import ListNotations.

Local Open Scope string_scope.
Local Open Scope list_scope.

(* ===================================================================== *)
(** * Part I: definitions                                                 *)
(* ===================================================================== *)

(** ** Python strings *)

Module PyStr.

Definition code (c : ascii) : N := N_of_ascii c.

Definition in_range (lo hi : N) (c : ascii) : bool :=
  (lo <=? code c)%N && (code c <=? hi)%N.

(** [str.isspace] and the class [\s] on ASCII: TAB, LF, VT, FF, CR, the
    four separators 0x1c..0x1f and the space. *)
Definition is_space (c : ascii) : bool :=
  in_range 9 13 c || in_range 28 31 c || (code c =? 32)%N.

Definition is_digit (c : ascii) : bool := in_range 48 57 c.
Definition is_upper (c : ascii) : bool := in_range 65 90 c.
Definition is_lower (c : ascii) : bool := in_range 97 122 c.
Definition is_alpha (c : ascii) : bool := is_upper c || is_lower c.

(** The class [\w]. *)
Definition is_word (c : ascii) : bool :=
  is_alpha c || is_digit c || (code c =? 95)%N.

Definition is_newline (c : ascii) : bool := (code c =? 10)%N.

(** The double quote and the newline. *)
Definition dquote : ascii := "034"%char.
Definition newline : ascii := "010"%char.

Definition to_lower (c : ascii) : ascii :=
  if is_upper c then ascii_of_N (code c + 32) else c.

Definition to_upper (c : ascii) : ascii :=
  if is_lower c then ascii_of_N (code c - 32) else c.

Fixpoint forallb_str (p : ascii -> bool) (s : string) : bool :=
  match s with
  | EmptyString => true
  | String c r => p c && forallb_str p r
  end.

Fixpoint existsb_str (p : ascii -> bool) (s : string) : bool :=
  match s with
  | EmptyString => false
  | String c r => p c || existsb_str p r
  end.

Fixpoint map_str (f : ascii -> ascii) (s : string) : string :=
  match s with
  | EmptyString => EmptyString
  | String c r => String (f c) (map_str f r)
  end.

(** [c in s] for a one-character [c]. *)
Definition contains (c : ascii) (s : string) : bool :=
  existsb_str (Ascii.eqb c) s.

(** [s.lower()]. *)
Definition lower (s : string) : string := map_str to_lower s.

(** [not s]: the empty string is the only falsy string. *)
Definition is_empty (s : string) : bool :=
  match s with EmptyString => true | _ => false end.

(** [s.strip()]. *)
Fixpoint lstrip (s : string) : string :=
  match s with
  | EmptyString => EmptyString
  | String c r => if is_space c then lstrip r else s
  end.

Fixpoint rstrip (s : string) : string :=
  match s with
  | EmptyString => EmptyString
  | String c r =>
      let r' := rstrip r in
      if is_empty r' && is_space c then EmptyString else String c r'
  end.

Definition strip (s : string) : string := rstrip (lstrip s).

(** A text that is empty or made of white space only. *)
Definition blank (s : string) : Prop := forallb_str is_space s = true.

(** [s.startswith(p)] and [s.endswith(p)]. *)
Definition startswith (s p : string) : bool := String.prefix p s.

Fixpoint last_char (s : string) : option ascii :=
  match s with
  | EmptyString => None
  | String c EmptyString => Some c
  | String _ r => last_char r
  end.

(** [s[:-1]]. *)
Fixpoint drop_last (s : string) : string :=
  match s with
  | EmptyString => EmptyString
  | String _ EmptyString => EmptyString
  | String c r => String c (drop_last r)
  end.

Definition ends_with_char (s : string) (c : ascii) : bool :=
  match last_char s with
  | Some d => Ascii.eqb d c
  | None => false
  end.

(** [s[1:]]. *)
Definition drop_first (s : string) : string :=
  match s with
  | EmptyString => EmptyString
  | String _ r => r
  end.

(** [s[:n]]. *)
Definition take (n : nat) (s : string) : string := String.substring 0 n s.

(** [s.split(sep)] for a separator of one character. *)
Fixpoint split_char (sep : ascii) (s : string) : list string :=
  match s with
  | EmptyString => [EmptyString]
  | String c r =>
      if Ascii.eqb c sep then EmptyString :: split_char sep r
      else match split_char sep r with
           | p :: ps => String c p :: ps
           | [] => [String c EmptyString]
           end
  end.

(** [s.split(sep)] for any non-empty separator: occurrences are taken
    from the left and do not overlap; [skip] counts the characters of a
    matched separator that are still to be passed over. *)
Fixpoint split_str_aux (sep s : string) (skip : nat) : list string :=
  match s with
  | EmptyString => [EmptyString]
  | String c r =>
      match skip with
      | S k => split_str_aux sep r k
      | O =>
          if String.prefix sep s
          then EmptyString :: split_str_aux sep r (String.length sep - 1)
          else match split_str_aux sep r 0 with
               | p :: ps => String c p :: ps
               | [] => [String c EmptyString]
               end
      end
  end.

Definition split_str (sep s : string) : list string := split_str_aux sep s 0.

(** [s.split(sep, 1)] for a one-character separator that occurs in
    [s]: what stands before the first occurrence and what stands after
    it. *)
Fixpoint split_once (sep : ascii) (s : string) : string * string :=
  match s with
  | EmptyString => (EmptyString, EmptyString)
  | String c r =>
      if Ascii.eqb c sep then (EmptyString, r)
      else let (a, b) := split_once sep r in (String c a, b)
  end.

(** [sep.join(parts)]. *)
Definition join (sep : string) (parts : list string) : string :=
  String.concat sep parts.

(** [parts[:-1]] and [parts[-1]]. *)
Definition all_but_last (parts : list string) : list string := removelast parts.
Definition last_part (parts : list string) : string := last parts EmptyString.

(** [str(n)] and the [{n}] of an f-string, for an [int]. *)
Definition str_of_Z (z : Z) : string := NilEmpty.string_of_int (Z.to_int z).

(** The white space that [int] skips around an ASCII numeral: the class
    [isspace] of C, TAB to CR and the space.  ([str.strip] takes off the
    separators 0x1c..0x1f as well.) *)
Definition is_c_space (c : ascii) : bool := in_range 9 13 c || (code c =? 32)%N.

Fixpoint lstrip_c (s : string) : string :=
  match s with
  | EmptyString => EmptyString
  | String c r => if is_c_space c then lstrip_c r else s
  end.

Fixpoint rstrip_c (s : string) : string :=
  match s with
  | EmptyString => EmptyString
  | String c r =>
      let r' := rstrip_c r in
      if is_empty r' && is_c_space c then EmptyString else String c r'
  end.

Definition int_strip (s : string) : string := rstrip_c (lstrip_c s).

(** [int(s)].  The white space around the text is skipped; the text may
    carry one sign, and is a run of decimal digits in which single
    underscores may separate digits.  [None] stands for [ValueError]. *)
Fixpoint int_body_ok (prev_is_digit : bool) (s : string) : bool :=
  match s with
  | EmptyString => prev_is_digit
  | String c r =>
      if is_digit c then int_body_ok true r
      else if Ascii.eqb c "_" then prev_is_digit && int_body_ok false r
      else false
  end.

Fixpoint remove_underscores (s : string) : string :=
  match s with
  | EmptyString => EmptyString
  | String c r =>
      if Ascii.eqb c "_" then remove_underscores r
      else String c (remove_underscores r)
  end.

Definition int_unsigned (body : string) : option Z :=
  if int_body_ok false body
  then option_map Z.of_uint (NilEmpty.uint_of_string (remove_underscores body))
  else None.

Definition py_int (s : string) : option Z :=
  match int_strip s with
  | String "-" body => option_map Z.opp (int_unsigned body)
  | String "+" body => int_unsigned body
  | body => int_unsigned body
  end.

End PyStr.

Import PyStr.

(** ** Exceptions, results and the state monad *)

Inductive exn : Type :=
| ValueError (msg : string)
| TypeError
| AttributeError
| IntegrityError
| InterfaceError
| OverflowError
| OperationalError (msg : string)
| OutsideModel (what : string).

Inductive result (A : Type) : Type :=
| Ok (a : A)
| Raise (e : exn).
Arguments Ok {A} a.
Arguments Raise {A} e.

Definition result_bind {A B : Type} (r : result A) (f : A -> result B) : result B :=
  match r with
  | Ok a => f a
  | Raise e => Raise e
  end.

(** A method over a store [S]: the store is threaded through, and survives
    an exception. *)
Definition M (S A : Type) : Type := S -> S * result A.

Definition ret {S A : Type} (a : A) : M S A := fun w => (w, Ok a).

Definition raise {S A : Type} (e : exn) : M S A := fun w => (w, Raise e).

Definition bind {S A B : Type} (m : M S A) (f : A -> M S B) : M S B :=
  fun w =>
    match m w with
    | (w', Ok a) => f a w'
    | (w', Raise e) => (w', Raise e)
    end.

Definition gets {S A : Type} (f : S -> A) : M S A := fun w => (w, Ok (f w)).

Definition modify {S : Type} (f : S -> S) : M S unit := fun w => (f w, Ok tt).

(** A query that may raise but writes nothing. *)
Definition query {S A : Type} (q : S -> result A) : M S A := fun w => (w, q w).

Declare Scope py_scope.
Delimit Scope py_scope with py.
Notation "x <- m ;; k" := (bind m (fun x => k))
  (at level 61, m at next level, right associativity) : py_scope.
Notation "m ;;; k" := (bind m (fun _ => k))
  (at level 61, right associativity) : py_scope.
Local Open Scope py_scope.

(** ** The relational store and the blob store *)

(** Table [documents]. *)
Record DocumentRow : Type := {
  doc_uuid : string;
  doc_dbidL : string;
  doc_dbidS : string;
  doc_title : option string;
  doc_source : option string;
  doc_metadata : option string
}.

(** Table [sentences]; the [embedding] column is never written here. *)
Record SentenceRow : Type := {
  sent_uuid : string;
  sent_text : string;
  sent_hash : string
}.

(** Table [doc_sentence_map]. *)
Record DocSentenceRow : Type := {
  dsm_doc_uuid : string;
  dsm_sentence_uuid : string;
  dsm_position : Z
}.

(** Table [tokens]; [id] is read back by [_get_or_create_token]. *)
Record TokenRow : Type := {
  tok_id : Z;
  tok_text : string;
  tok_hash : string
}.

(** Table [sentence_token_map]. *)
Record SentenceTokenRow : Type := {
  stm_sentence_uuid : string;
  stm_token_id : Z;
  stm_position : Z
}.

(** Table [address_book]. *)
Record AddressRow : Type := {
  ab_addr : string;
  ab_uuid : option string;
  ab_type : option string;
  ab_parent_addr : option string;
  ab_coordinate_system : option string;
  ab_is_origin : Z;
  ab_zero_index : Z
}.

(** Table [address_attributes]. *)
Record AttributeRow : Type := {
  attr_addr : string;
  attr_key : string;
  attr_value : string
}.

(** Table [relations]. *)
Record RelationRow : Type := {
  rel_source_uuid : string;
  rel_target_uuid : string;
  rel_relation_type : string
}.

(** HDF5 groups [documents/<uuid>], [sentences/<uuid>], [tokens/<addr>]. *)
Record H5Document : Type := {
  h5d_dbidL : string;
  h5d_dbidS : string;
  h5d_title : string;
  h5d_source : string;
  h5d_content : string;
  h5d_sentences : list (string * string)
}.

Record H5Sentence : Type := {
  h5s_hash : string;
  h5s_text : string
}.

Record H5Token : Type := {
  h5t_sentence_uuid : string;
  h5t_position : Z;
  h5t_text : string
}.

(** The source of [uuid.uuid4()]: a stream and how far it has been read.
    The record holds any stream; [uuid4_stream] below says that a
    stream yields texts of the shape [uuid.uuid4()] prints, and what
    depends on that shape assumes it. *)
Record Rng : Type := {
  entropy : nat -> string;
  drawn : nat
}.

Definition rng_next (r : Rng) : string := entropy r (drawn r).
Definition rng_advance (r : Rng) : Rng :=
  {| entropy := entropy r; drawn := S (drawn r) |}.

Record World : Type := {
  documents : list DocumentRow;
  sentences : list SentenceRow;
  doc_sentence_map : list DocSentenceRow;
  tokens : list TokenRow;
  tokens_seq : Z;
  sentence_token_map : list SentenceTokenRow;
  address_book : list AddressRow;
  address_attributes : list AttributeRow;
  relations : list RelationRow;
  relations_created : bool;
  h5_documents : list (string * H5Document);
  h5_sentences : list (string * H5Sentence);
  h5_tokens : list (string * H5Token);
  rng : Rng
}.

Definition empty_world (e : nat -> string) : World :=
  {| documents := []; sentences := []; doc_sentence_map := []; tokens := [];
     tokens_seq := 0; sentence_token_map := []; address_book := [];
     address_attributes := []; relations := []; relations_created := false;
     h5_documents := [];
     h5_sentences := []; h5_tokens := [];
     rng := {| entropy := e; drawn := 0 |} |}.

Definition set_documents (v : list DocumentRow) (w : World) : World :=
  {| documents := v; sentences := sentences w;
     doc_sentence_map := doc_sentence_map w; tokens := tokens w;
     tokens_seq := tokens_seq w; sentence_token_map := sentence_token_map w;
     address_book := address_book w;
     address_attributes := address_attributes w; relations := relations w;
     relations_created := relations_created w;
     h5_documents := h5_documents w; h5_sentences := h5_sentences w;
     h5_tokens := h5_tokens w; rng := rng w |}.

Definition set_sentences (v : list SentenceRow) (w : World) : World :=
  {| documents := documents w; sentences := v;
     doc_sentence_map := doc_sentence_map w; tokens := tokens w;
     tokens_seq := tokens_seq w; sentence_token_map := sentence_token_map w;
     address_book := address_book w;
     address_attributes := address_attributes w; relations := relations w;
     relations_created := relations_created w;
     h5_documents := h5_documents w; h5_sentences := h5_sentences w;
     h5_tokens := h5_tokens w; rng := rng w |}.

Definition set_doc_sentence_map (v : list DocSentenceRow) (w : World) : World :=
  {| documents := documents w; sentences := sentences w;
     doc_sentence_map := v; tokens := tokens w;
     tokens_seq := tokens_seq w; sentence_token_map := sentence_token_map w;
     address_book := address_book w;
     address_attributes := address_attributes w; relations := relations w;
     relations_created := relations_created w;
     h5_documents := h5_documents w; h5_sentences := h5_sentences w;
     h5_tokens := h5_tokens w; rng := rng w |}.

Definition set_tokens (v : list TokenRow) (seq : Z) (w : World) : World :=
  {| documents := documents w; sentences := sentences w;
     doc_sentence_map := doc_sentence_map w; tokens := v;
     tokens_seq := seq; sentence_token_map := sentence_token_map w;
     address_book := address_book w;
     address_attributes := address_attributes w; relations := relations w;
     relations_created := relations_created w;
     h5_documents := h5_documents w; h5_sentences := h5_sentences w;
     h5_tokens := h5_tokens w; rng := rng w |}.

Definition set_sentence_token_map (v : list SentenceTokenRow) (w : World) : World :=
  {| documents := documents w; sentences := sentences w;
     doc_sentence_map := doc_sentence_map w; tokens := tokens w;
     tokens_seq := tokens_seq w; sentence_token_map := v;
     address_book := address_book w;
     address_attributes := address_attributes w; relations := relations w;
     relations_created := relations_created w;
     h5_documents := h5_documents w; h5_sentences := h5_sentences w;
     h5_tokens := h5_tokens w; rng := rng w |}.

Definition set_address_book (v : list AddressRow) (w : World) : World :=
  {| documents := documents w; sentences := sentences w;
     doc_sentence_map := doc_sentence_map w; tokens := tokens w;
     tokens_seq := tokens_seq w; sentence_token_map := sentence_token_map w;
     address_book := v;
     address_attributes := address_attributes w; relations := relations w;
     relations_created := relations_created w;
     h5_documents := h5_documents w; h5_sentences := h5_sentences w;
     h5_tokens := h5_tokens w; rng := rng w |}.

Definition set_address_attributes (v : list AttributeRow) (w : World) : World :=
  {| documents := documents w; sentences := sentences w;
     doc_sentence_map := doc_sentence_map w; tokens := tokens w;
     tokens_seq := tokens_seq w; sentence_token_map := sentence_token_map w;
     address_book := address_book w;
     address_attributes := v; relations := relations w;
     relations_created := relations_created w;
     h5_documents := h5_documents w; h5_sentences := h5_sentences w;
     h5_tokens := h5_tokens w; rng := rng w |}.

Definition set_relations (v : list RelationRow) (w : World) : World :=
  {| documents := documents w; sentences := sentences w;
     doc_sentence_map := doc_sentence_map w; tokens := tokens w;
     tokens_seq := tokens_seq w; sentence_token_map := sentence_token_map w;
     address_book := address_book w;
     address_attributes := address_attributes w; relations := v;
     relations_created := relations_created w;
     h5_documents := h5_documents w; h5_sentences := h5_sentences w;
     h5_tokens := h5_tokens w; rng := rng w |}.

Definition set_relations_created (v : bool) (w : World) : World :=
  {| documents := documents w; sentences := sentences w;
     doc_sentence_map := doc_sentence_map w; tokens := tokens w;
     tokens_seq := tokens_seq w; sentence_token_map := sentence_token_map w;
     address_book := address_book w;
     address_attributes := address_attributes w; relations := relations w;
     relations_created := v;
     h5_documents := h5_documents w; h5_sentences := h5_sentences w;
     h5_tokens := h5_tokens w; rng := rng w |}.

Definition set_h5_documents (v : list (string * H5Document)) (w : World) : World :=
  {| documents := documents w; sentences := sentences w;
     doc_sentence_map := doc_sentence_map w; tokens := tokens w;
     tokens_seq := tokens_seq w; sentence_token_map := sentence_token_map w;
     address_book := address_book w;
     address_attributes := address_attributes w; relations := relations w;
     relations_created := relations_created w;
     h5_documents := v; h5_sentences := h5_sentences w;
     h5_tokens := h5_tokens w; rng := rng w |}.

Definition set_h5_sentences (v : list (string * H5Sentence)) (w : World) : World :=
  {| documents := documents w; sentences := sentences w;
     doc_sentence_map := doc_sentence_map w; tokens := tokens w;
     tokens_seq := tokens_seq w; sentence_token_map := sentence_token_map w;
     address_book := address_book w;
     address_attributes := address_attributes w; relations := relations w;
     relations_created := relations_created w;
     h5_documents := h5_documents w; h5_sentences := v;
     h5_tokens := h5_tokens w; rng := rng w |}.

Definition set_h5_tokens (v : list (string * H5Token)) (w : World) : World :=
  {| documents := documents w; sentences := sentences w;
     doc_sentence_map := doc_sentence_map w; tokens := tokens w;
     tokens_seq := tokens_seq w; sentence_token_map := sentence_token_map w;
     address_book := address_book w;
     address_attributes := address_attributes w; relations := relations w;
     relations_created := relations_created w;
     h5_documents := h5_documents w; h5_sentences := h5_sentences w;
     h5_tokens := v; rng := rng w |}.

Definition set_rng (v : Rng) (w : World) : World :=
  {| documents := documents w; sentences := sentences w;
     doc_sentence_map := doc_sentence_map w; tokens := tokens w;
     tokens_seq := tokens_seq w; sentence_token_map := sentence_token_map w;
     address_book := address_book w;
     address_attributes := address_attributes w; relations := relations w;
     relations_created := relations_created w;
     h5_documents := h5_documents w; h5_sentences := h5_sentences w;
     h5_tokens := h5_tokens w; rng := v |}.

(** The table [relations] is created by no constructor: only
    [set_relation] creates it, inside its [try], and [relations_created]
    tells whether it has.  A statement over a table that does not exist
    fails when it is prepared, before its parameters are bound. *)
Definition with_relations {A : Type} (w : World) (r : result A) : result A :=
  if relations_created w then r
  else Raise (OperationalError "no such table: relations").

(** [str(uuid.uuid4())]. *)
Definition uuid4 : M World string :=
  fun w => (set_rng (rng_advance (rng w)) w, Ok (rng_next (rng w))).

(** The text of [str(uuid.uuid4())]: 32 lower-case hexadecimal digits
    in groups of 8, 4, 4, 4 and 12 joined by dashes; the third group
    starts with the version [4], the fourth with [8], [9], [a] or
    [b]. *)
Definition is_hex (c : ascii) : bool := is_digit c || in_range 97 102 c.

Definition hex_group (n : nat) (s : string) : bool :=
  (String.length s =? n)%nat && forallb_str is_hex s.

Definition uuid4_text (s : string) : bool :=
  match split_char "-" s with
  | [a; b; c; d; e] =>
      hex_group 8 a && hex_group 4 b && hex_group 4 c && hex_group 4 d &&
      hex_group 12 e && startswith c "4" &&
      (startswith d "8" || startswith d "9" || startswith d "a" ||
       startswith d "b")
  | _ => false
  end.

(** A source of [uuid.uuid4()] yields such texts only. *)
Definition uuid4_stream (r : Rng) : Prop :=
  forall n, uuid4_text (entropy r n) = true.

(** [name in group] for an HDF5 group kept as an association list. *)
Definition h5_has {A : Type} (name : string) (g : list (string * A)) : bool :=
  existsb (fun e => String.eqb (fst e) name) g.

(** A Python [int] bound to a [?] of a statement: the [sqlite3] module
    raises [OverflowError] for one that does not fit a 64-bit signed
    integer. *)
Definition sqlite_integer (z : Z) : bool :=
  (- 2 ^ 63 <=? z)%Z && (z <=? 2 ^ 63 - 1)%Z.

(** A stable insertion sort, for [ORDER BY]. *)
Section Sort.
Context {A : Type} (le : A -> A -> bool).

Fixpoint insert_sorted (x : A) (l : list A) : list A :=
  match l with
  | [] => [x]
  | y :: ys => if le x y then x :: l else y :: insert_sorted x ys
  end.

Definition order_by (l : list A) : list A :=
  fold_right insert_sorted [] l.
End Sort.

(** ** Keys of the schema and readings of the tables *)

Module Schema.

(** [sentences.uuid] is the primary key and [sentences.hash] is
    [UNIQUE]; [relations.target_uuid] references [sentences.uuid]. *)
Definition sentence_uuids_unique (w : World) : Prop :=
  NoDup (map sent_uuid (sentences w)).

Definition unique_hashes (w : World) : Prop :=
  NoDup (map sent_hash (sentences w)).

Definition targets_are_sentences (w : World) : Prop :=
  forall r, In r (relations w) ->
            In (rel_target_uuid r) (map sent_uuid (sentences w)).

(** [doc_sentence_map.doc_uuid] references [documents.uuid]. *)
Definition map_documents_exist (w : World) : Prop :=
  forall m, In m (doc_sentence_map w) ->
            In (dsm_doc_uuid m) (map doc_uuid (documents w)).

(** Every row of [sentences] carries the digest of its text, [digest]
    being [hashlib.sha256]. *)
Definition hashes_of_texts (digest : string -> string) (w : World) : Prop :=
  forall r, In r (sentences w) -> sent_hash r = digest (sent_text r).

(** The three together. *)
Definition store_keys (w : World) : Prop :=
  sentence_uuids_unique w /\ unique_hashes w /\ targets_are_sentences w.

(** The identifiers of the sentences that carry a hash. *)
Definition uuids_with_hash (w : World) (h : string) : list string :=
  map sent_uuid (filter (fun r => String.eqb (sent_hash r) h) (sentences w)).

(** The [position] column of the rows of [doc_sentence_map] of one
    document, in the order of the table. *)
Definition positions_of (doc : string) (w : World) : list Z :=
  map dsm_position
    (filter (fun m => String.eqb (dsm_doc_uuid m) doc) (doc_sentence_map w)).

(** The positions [start, start + 1, ...], [n] of them. *)
Definition positions_from (start : Z) (n : nat) : list Z :=
  map (fun i => (start + Z.of_nat i)%Z) (seq 0 n).

(** The invariant of the loop of [process_document]: the document that
    is being processed is in [documents]. *)
Definition mapping_document (doc : string) (w : World) : Prop :=
  map_documents_exist w /\ In doc (map doc_uuid (documents w)).

(** Every document of [doc_sentence_map] is named by a text with a
    dash, as the texts of [uuid.uuid4()] are. *)
Definition documents_dashed (w : World) : Prop :=
  forall m, In m (doc_sentence_map w) -> contains "-" (dsm_doc_uuid m) = true.

(** The edges of one relation type among those [src] selects. *)
Definition count_type (src : RelationRow -> bool) (R : list RelationRow)
           (ty : string) : nat :=
  List.length (filter (fun r => src r && String.eqb (rel_relation_type r) ty) R).

End Schema.

(** ** app/core/addressing/zero_index_mapper.py *)

Module ZeroIndexMapper.

Record SentenceInfo : Type := {
  si_uuid : string;
  si_text : string;
  si_hash : string;
  si_addresses : list string;
  si_tokens : list (string * Z)
}.

Record TokenInfo : Type := {
  ti_token_addr : string;
  ti_token_id : Z;
  ti_text : string;
  ti_hash : string;
  ti_position : Z;
  ti_sentence_uuid : string;
  ti_sentence_text : string
}.

(** The rows of [sentences s JOIN doc_sentence_map m ON s.uuid =
    m.sentence_uuid WHERE m.doc_uuid = ? AND m.position = ?], as the
    selected [s.uuid]. *)
Definition sentences_at (w : World) (doc_id : string) (position : Z) : list string :=
  flat_map
    (fun m =>
       if String.eqb (dsm_doc_uuid m) doc_id && (dsm_position m =? position)%Z
       then map sent_uuid
              (filter (fun s => String.eqb (sent_uuid s) (dsm_sentence_uuid m))
                 (sentences w))
       else [])
    (doc_sentence_map w).

(** [map_addr_to_uuid].  [int(parts[1])] raises [ValueError] on a
    second part that is not a numeral, and binding a position that does
    not fit a 64-bit integer raises [OverflowError]. *)
Definition map_addr_to_uuid (w : World) (address : string) : result (option string) :=
  let parts := split_char "-" address in
  if (List.length parts <? 2)%nat then Ok None
  else
    let p0 := nth 0 parts EmptyString in
    let doc_id :=
      if contains ":" p0 then nth 1 (split_char ":" p0) EmptyString else p0 in
    match py_int (nth 1 parts EmptyString) with
    | None => Raise (ValueError "invalid literal for int() with base 10")
    | Some position =>
        if sqlite_integer position
        then Ok (hd_error (sentences_at w doc_id position))
        else Raise OverflowError
    end.

Definition dsm_le_doc_position (a b : DocSentenceRow) : bool :=
  match String.compare (dsm_doc_uuid a) (dsm_doc_uuid b) with
  | Lt => true
  | Eq => (dsm_position a <=? dsm_position b)%Z
  | Gt => false
  end.

Definition dsm_le_position (a b : DocSentenceRow) : bool :=
  (dsm_position a <=? dsm_position b)%Z.

Definition occurrence_addr (m : DocSentenceRow) : string :=
  "doc:" ++ dsm_doc_uuid m ++ "-" ++ str_of_Z (dsm_position m).

(** [map_uuid_to_addr]; [if doc_id:] is false for [None] and for [""]. *)
Definition map_uuid_to_addr (w : World) (uuid : string) (doc_id : option string)
  : list string :=
  let filtered := match doc_id with
                  | Some d => negb (is_empty d)
                  | None => false
                  end in
  let rows :=
    if filtered
    then order_by dsm_le_position
           (filter (fun m => String.eqb (dsm_sentence_uuid m) uuid &&
                             String.eqb (dsm_doc_uuid m)
                               (match doc_id with Some d => d | None => EmptyString end))
              (doc_sentence_map w))
    else order_by dsm_le_doc_position
           (filter (fun m => String.eqb (dsm_sentence_uuid m) uuid)
              (doc_sentence_map w)) in
  map occurrence_addr rows.

Definition stm_le_position (a b : SentenceTokenRow) : bool :=
  (stm_position a <=? stm_position b)%Z.

(** The rows of [tokens t JOIN sentence_token_map m ON t.id =
    m.token_id] for the map rows [ms]. *)
Definition join_tokens (w : World) (ms : list SentenceTokenRow)
  : list (TokenRow * SentenceTokenRow) :=
  flat_map
    (fun m => map (fun t => (t, m))
                (filter (fun t => (tok_id t =? stm_token_id m)%Z) (tokens w)))
    ms.

(** [get_sentence_info]. *)
Definition get_sentence_info (w : World) (uuid : string) : option SentenceInfo :=
  match find (fun s => String.eqb (sent_uuid s) uuid) (sentences w) with
  | None => None
  | Some row =>
      let addresses := map_uuid_to_addr w uuid None in
      let ms := order_by stm_le_position
                  (filter (fun m => String.eqb (stm_sentence_uuid m) uuid)
                     (sentence_token_map w)) in
      let toks := map (fun tm => (tok_text (fst tm), stm_position (snd tm)))
                    (join_tokens w ms) in
      Some {| si_uuid := uuid; si_text := sent_text row;
              si_hash := sent_hash row; si_addresses := addresses;
              si_tokens := toks |}
  end.

(** [get_token_addr]: [f"{sentence_uuid}-{token_position}"]. *)
Definition get_token_addr (sentence_uuid : string) (token_position : Z) : string :=
  sentence_uuid ++ "-" ++ str_of_Z token_position.

(** [resolve_token_addr]: [None] both for fewer than two parts and for a
    last part that [int] rejects. *)
Definition resolve_token_addr (token_addr : string) : option (string * Z) :=
  let parts := split_char "-" token_addr in
  if (List.length parts <? 2)%nat then None
  else
    let sentence_uuid := join "-" (all_but_last parts) in
    match py_int (last_part parts) with
    | Some position => Some (sentence_uuid, position)
    | None => None
    end.

(** [get_token_info]; the position is bound to the first query, which
    raises [OverflowError] for one that does not fit a 64-bit
    integer. *)
Definition get_token_info (w : World) (token_addr : string)
  : result (option TokenInfo) :=
  match resolve_token_addr token_addr with
  | None => Ok None
  | Some (sentence_uuid, position) =>
      if negb (sqlite_integer position) then Raise OverflowError
      else
        let ms := filter (fun m => String.eqb (stm_sentence_uuid m) sentence_uuid &&
                                   (stm_position m =? position)%Z)
                    (sentence_token_map w) in
        match join_tokens w ms with
        | [] => Ok None
        | (t, _) :: _ =>
            match find (fun s => String.eqb (sent_uuid s) sentence_uuid)
                    (sentences w) with
            | None => Ok None
            | Some srow =>
                Ok (Some {| ti_token_addr := token_addr; ti_token_id := tok_id t;
                            ti_text := tok_text t; ti_hash := tok_hash t;
                            ti_position := position;
                            ti_sentence_uuid := sentence_uuid;
                            ti_sentence_text := sent_text srow |})
            end
        end
  end.

End ZeroIndexMapper.

(** ** app/services/address_manager.py *)

Module AddressManager.
Import ZeroIndexMapper.

(** The dictionary built by [get_address]; ["attributes"] is present
    only when the address has some. *)
Record AddressInfo : Type := {
  ai_addr : string;
  ai_uuid : option string;
  ai_type : option string;
  ai_parent_addr : option string;
  ai_coordinate_system : option string;
  ai_is_origin : bool;
  ai_zero_index : Z;
  ai_attributes : option (list (string * string))
}.

(** What [resolve_address] returns without [relative_to]: either the
    dictionary made from the zero-index mapper for an address that is
    not in the book, or the [get_address] dictionary with the keys added
    for a sentence or a token. *)
Inductive Resolved : Type :=
| ViaMapper (resolved uuid content : string) (occurrences : list string)
| Registered (info : AddressInfo)
             (content : option string)
             (occurrences : option (list string))
             (toks : option (list (string * Z)))
             (sentence_uuid : option string)
             (position : option Z).

Record Resolution : Type := {
  res_main : Resolved;
  res_relative_to : option Resolved;
  res_forward_relations : option (list string);
  res_backward_relations : option (list string)
}.

(** The ["uuid"] and ["type"] keys of a resolved dictionary. *)
Definition resolved_uuid (r : Resolved) : option string :=
  match r with
  | ViaMapper _ uuid _ _ => Some uuid
  | Registered info _ _ _ _ _ => ai_uuid info
  end.

Definition resolved_type (r : Resolved) : option string :=
  match r with
  | ViaMapper _ _ _ _ => Some "sentence"
  | Registered info _ _ _ _ _ => ai_type info
  end.

(** Truth value of an optional string: [None] and [""] are false. *)
Definition truthy (o : option string) : bool :=
  match o with
  | Some s => negb (is_empty s)
  | None => false
  end.

Definition has_addr (w : World) (addr : string) : bool :=
  existsb (fun r => String.eqb (ab_addr r) addr) (address_book w).

(** The parent parsed from the address text. *)
Definition parent_of (addr : string) : option string :=
  if contains "-" addr then
    let parts := split_char "-" addr in
    if (1 <? List.length parts)%nat then Some (join "-" (all_but_last parts))
    else None
  else None.

Definition coalesce {A : Type} (new old : option A) : option A :=
  match new with
  | Some _ => new
  | None => old
  end.

(** [UPDATE address_book SET uuid = COALESCE(?, uuid), type =
    COALESCE(?, type), zero_index = ? WHERE addr = ?]. *)
Definition update_address (addr : string) (uuid_value addr_type : option string)
           (zero_index : Z) (w : World) : World :=
  set_address_book
    (map (fun r =>
            if String.eqb (ab_addr r) addr
            then {| ab_addr := ab_addr r;
                    ab_uuid := coalesce uuid_value (ab_uuid r);
                    ab_type := coalesce addr_type (ab_type r);
                    ab_parent_addr := ab_parent_addr r;
                    ab_coordinate_system := ab_coordinate_system r;
                    ab_is_origin := ab_is_origin r;
                    ab_zero_index := zero_index |}
            else r)
       (address_book w))
    w.

(** [INSERT INTO address_book (addr, uuid, type, parent_addr,
    zero_index)]; [addr] is [UNIQUE]. *)
Definition insert_address (addr : string) (uuid_value addr_type parent_addr : option string)
           (zero_index : Z) : M World unit :=
  fun w =>
    if has_addr w addr then (w, Raise IntegrityError)
    else (set_address_book
            (address_book w ++
               [{| ab_addr := addr; ab_uuid := uuid_value; ab_type := addr_type;
                   ab_parent_addr := parent_addr;
                   ab_coordinate_system := None; ab_is_origin := 0;
                   ab_zero_index := zero_index |}])
            w, Ok tt).

(** The block [if parent_addr: ...] of [create_address]: a parent that
    is not in the book is created by the recursive call [create]. *)
Definition ensure_parent (create : string -> M World string)
           (parent_addr : option string) : M World unit :=
  if truthy parent_addr then
    let parent := match parent_addr with Some p => p | None => EmptyString end in
    parent_exists <- gets (fun w => has_addr w parent) ;;
    if (parent_exists : bool) then ret tt
    else create parent ;;; ret tt
  else ret tt.

(** [create_address].  The recursion on the parent is bounded by [fuel];
    [create_address] below gives it more than the length of the
    address, which is never used up. *)
Fixpoint create_address_rec (fuel : nat) (addr : string)
         (uuid_value addr_type : option string) (zero_index : Z)
  : M World string :=
  match fuel with
  | O => raise (OutsideModel "recursion depth")
  | S fuel' =>
      let parent_addr := parent_of addr in
      exists_ <- gets (fun w => has_addr w addr) ;;
      if (exists_ : bool) then
        modify (update_address addr uuid_value addr_type zero_index) ;;;
        ret addr
      else
        ensure_parent
          (fun parent => create_address_rec fuel' parent None addr_type 0)
          parent_addr ;;;
        insert_address addr uuid_value addr_type parent_addr zero_index ;;;
        ret addr
  end.

Definition create_address (addr : string) (uuid_value addr_type : option string)
           (zero_index : Z) : M World string :=
  create_address_rec (S (String.length addr)) addr uuid_value addr_type zero_index.

(** [get_address]. *)
Definition get_address (w : World) (addr : string) : option AddressInfo :=
  match find (fun r => String.eqb (ab_addr r) addr) (address_book w) with
  | None => None
  | Some row =>
      let attributes :=
        map (fun a => (attr_key a, attr_value a))
          (filter (fun a => String.eqb (attr_addr a) addr) (address_attributes w)) in
      Some {| ai_addr := ab_addr row; ai_uuid := ab_uuid row;
              ai_type := ab_type row; ai_parent_addr := ab_parent_addr row;
              ai_coordinate_system := ab_coordinate_system row;
              ai_is_origin := negb (ab_is_origin row =? 0)%Z;
              ai_zero_index := ab_zero_index row;
              ai_attributes := match attributes with
                               | [] => None
                               | _ => Some attributes
                               end |}
  end.

Definition is_type (t : option string) (name : string) : bool :=
  match t with
  | Some s => String.eqb s name
  | None => false
  end.

(** The token branch of [resolve_address] for an address with a dot:
    the [try] body with its [except ValueError: pass].  A [ValueError]
    from [int] or from [map_addr_to_uuid] is swallowed; any other
    exception, such as the [OverflowError] of a position that cannot be
    bound, leaves [resolve_address]. *)
Definition resolve_dotted_token (w : World) (addr : string)
  : result (option (string * string * Z)) :=
  let parts := split_char "." addr in
  let sentence_addr := nth 0 parts EmptyString in
  match py_int (nth 1 parts EmptyString) with
  | None => Ok None
  | Some token_position =>
      match map_addr_to_uuid w sentence_addr with
      | Ok (Some sentence_uuid) =>
          if is_empty sentence_uuid then Ok None
          else
            match get_token_info w (get_token_addr sentence_uuid token_position) with
            | Ok (Some ti) => Ok (Some (ti_text ti, sentence_uuid, token_position))
            | Ok None => Ok None
            | Raise (ValueError _) => Ok None
            | Raise e => Raise e
            end
      | Ok None => Ok None
      | Raise (ValueError _) => Ok None
      | Raise e => Raise e
      end
  end.

(** [resolve_address(addr)] with no [relative_to]. *)
Definition resolve_plain (w : World) (addr : string) : result Resolved :=
  match get_address w addr with
  | None =>
      result_bind (map_addr_to_uuid w addr)
        (fun uuid =>
           match (if truthy uuid then uuid else None) with
           | Some u =>
               match get_sentence_info w u with
               | Some si => Ok (ViaMapper addr u (si_text si) (si_addresses si))
               | None => Raise (ValueError ("Address not found: " ++ addr))
               end
           | None => Raise (ValueError ("Address not found: " ++ addr))
           end)
  | Some info =>
      let plain := Registered info None None None None None in
      if is_type (ai_type info) "sentence" && truthy (ai_uuid info) then
        match get_sentence_info w
                (match ai_uuid info with Some u => u | None => EmptyString end) with
        | Some si =>
            Ok (Registered info (Some (si_text si)) (Some (si_addresses si))
                  (Some (si_tokens si)) None None)
        | None => Ok plain
        end
      else if is_type (ai_type info) "token" && truthy (ai_uuid info) then
        if contains "." addr then
          result_bind (resolve_dotted_token w addr)
            (fun found =>
               match found with
               | Some (text, sentence_uuid, position) =>
                   Ok (Registered info (Some text) None None
                         (Some sentence_uuid) (Some position))
               | None => Ok plain
               end)
        else if contains "-"
                  (match ai_uuid info with Some u => u | None => EmptyString end) then
          result_bind
            (get_token_info w
               (match ai_uuid info with Some u => u | None => EmptyString end))
            (fun found =>
               match found with
               | Some ti =>
                   Ok (Registered info (Some (ti_text ti)) None None
                         (Some (ti_sentence_uuid ti)) (Some (ti_position ti)))
               | None => Ok plain
               end)
        else Ok plain
      else Ok plain
  end.

Definition relation_types_between (w : World) (source target : string) : list string :=
  map rel_relation_type
    (filter (fun r => String.eqb (rel_source_uuid r) source &&
                      String.eqb (rel_target_uuid r) target)
       (relations w)).

Definition nonempty_list {A : Type} (l : list A) : option (list A) :=
  match l with
  | [] => None
  | _ => Some l
  end.

(** [resolve_address(addr, relative_to)].  An address resolved through
    the zero-index mapper returns before [relative_to] is looked at. *)
Definition resolve_address (w : World) (addr : string) (relative_to : option string)
  : result Resolution :=
  result_bind (resolve_plain w addr)
    (fun main =>
       let alone := {| res_main := main; res_relative_to := None;
                       res_forward_relations := None;
                       res_backward_relations := None |} in
       match main with
       | ViaMapper _ _ _ _ => Ok alone
       | Registered _ _ _ _ _ _ =>
           if truthy relative_to then
             result_bind
               (resolve_plain w
                  (match relative_to with Some r => r | None => EmptyString end))
               (fun rel =>
                  if is_type (resolved_type main) "sentence" &&
                     is_type (resolved_type rel) "sentence" &&
                     truthy (resolved_uuid main) && truthy (resolved_uuid rel)
                  then
                    let a := match resolved_uuid main with Some u => u | None => EmptyString end in
                    let r := match resolved_uuid rel with Some u => u | None => EmptyString end in
                    with_relations w
                      (Ok {| res_main := main; res_relative_to := Some rel;
                             res_forward_relations :=
                               nonempty_list (relation_types_between w r a);
                             res_backward_relations :=
                               nonempty_list (relation_types_between w a r) |})
                  else
                    Ok {| res_main := main; res_relative_to := Some rel;
                          res_forward_relations := None;
                          res_backward_relations := None |})
           else Ok alone
       end).

Definition same_edge (a b c : string) (r : RelationRow) : bool :=
  String.eqb (rel_source_uuid r) a && String.eqb (rel_target_uuid r) b &&
  String.eqb (rel_relation_type r) c.

(** [INSERT OR REPLACE INTO relations]: the row that holds the same
    [(source_uuid, target_uuid, relation_type)] is deleted, the new row
    is added. *)
Definition insert_or_replace_relation (source target relation_type : string)
           (w : World) : World :=
  set_relations
    (filter (fun r => negb (same_edge source target relation_type r)) (relations w)
       ++ [{| rel_source_uuid := source; rel_target_uuid := target;
              rel_relation_type := relation_type |}])
    w.

(** [CREATE TABLE IF NOT EXISTS relations], the first statement of the
    [try] of [set_relation]. *)
Definition create_relations_table (w : World) : World :=
  set_relations_created true w.

(** [set_relation].  An exception of [map_addr_to_uuid] is raised
    before the [try] and leaves the method. *)
Definition set_relation (source_addr target_addr relation_type : string)
  : M World bool :=
  source_uuid <- query (fun w => map_addr_to_uuid w source_addr) ;;
  target_uuid <- query (fun w => map_addr_to_uuid w target_addr) ;;
  if negb (truthy source_uuid) || negb (truthy target_uuid) then ret false
  else
    modify create_relations_table ;;;
    modify (insert_or_replace_relation
              (match source_uuid with Some u => u | None => EmptyString end)
              (match target_uuid with Some u => u | None => EmptyString end)
              relation_type) ;;;
    ret true.

(** The row of [address_book] at an address. *)
Definition row_of (w : World) (addr : string) : option AddressRow :=
  find (fun r => String.eqb (ab_addr r) addr) (address_book w).

(** [add_address_attribute]: [INSERT OR REPLACE] under [UNIQUE(addr,
    attr_key)]; the foreign key on [addr] is declared and, as no
    connection of these classes turns [PRAGMA foreign_keys] on, not
    enforced. *)
Definition same_attribute (addr key : string) (a : AttributeRow) : bool :=
  String.eqb (attr_addr a) addr && String.eqb (attr_key a) key.

Definition add_address_attribute (addr key value : string) : M World bool :=
  modify (fun w =>
            set_address_attributes
              (filter (fun a => negb (same_attribute addr key a))
                 (address_attributes w)
                 ++ [{| attr_addr := addr; attr_key := key; attr_value := value |}])
              w) ;;;
  ret true.

(** [find_addresses_by_uuid] and [find_addresses_by_type]: a [NULL]
    column is equal to nothing. *)
Definition column_is (column : option string) (value : string) : bool :=
  match column with
  | Some s => String.eqb s value
  | None => false
  end.


Definition find_addresses_by_type (w : World) (addr_type : string) : list string :=
  map ab_addr (filter (fun r => column_is (ab_type r) addr_type) (address_book w)).

(** The dictionary [create_coordinate_system] returns; a dimension is
    whatever the caller passes. *)
Record CoordinateSystem (D : Type) : Type := {
  cs_name : string;
  cs_origin_addr : string;
  cs_dimensions : list D
}.
Arguments cs_name {D} _.
Arguments cs_origin_addr {D} _.
Arguments cs_dimensions {D} _.

(** [UPDATE address_book SET is_origin = 1, coordinate_system = ? WHERE
    addr = ?]. *)
Definition mark_origin (name origin_addr : string) (w : World) : World :=
  set_address_book
    (map (fun r =>
            if String.eqb (ab_addr r) origin_addr
            then {| ab_addr := ab_addr r; ab_uuid := ab_uuid r;
                    ab_type := ab_type r; ab_parent_addr := ab_parent_addr r;
                    ab_coordinate_system := Some name;
                    ab_is_origin := 1;
                    ab_zero_index := ab_zero_index r |}
            else r)
       (address_book w))
    w.

(** [create_coordinate_system]; [dimensions or []]. *)
Definition create_coordinate_system {D : Type} (name origin_addr : string)
           (dimensions : option (list D)) : M World (CoordinateSystem D) :=
  origin_info <- gets (fun w => get_address w origin_addr) ;;
  match origin_info with
  | None => raise (ValueError ("Origin address not found: " ++ origin_addr))
  | Some _ =>
      modify (mark_origin name origin_addr) ;;;
      ret {| cs_name := name; cs_origin_addr := origin_addr;
             cs_dimensions := match dimensions with
                              | Some ds => ds
                              | None => []
                              end |}
  end.

(** The address book as [create_address] keeps it: one row per
    address, the recorded parent is the parent read from the text of the
    address, and a parent that is not the empty text has a row. *)
Definition book_well_formed (w : World) : Prop :=
  NoDup (map ab_addr (address_book w)) /\
  forall r, In r (address_book w) ->
            ab_parent_addr r = parent_of (ab_addr r) /\
            forall p, parent_of (ab_addr r) = Some p -> is_empty p = false ->
                      has_addr w p = true.

(** What a step may do to the book: keep it well formed and keep the
    addresses it holds. *)
Definition grows (w w' : World) : Prop :=
  (book_well_formed w -> book_well_formed w') /\
  (forall a, has_addr w a = true -> has_addr w' a = true).

End AddressManager.

(** ** app/services/document_manager.py *)

Module DocumentManager.
Import ZeroIndexMapper AddressManager.

Record ProcessedToken : Type := {
  pt_id : Z;
  pt_text : string;
  pt_position : Z;
  pt_address : string
}.

Record ProcessedSentence : Type := {
  ps_uuid : string;
  ps_text : string;
  ps_position : Z;
  ps_address : string;
  ps_is_new : bool;
  ps_tokens : list ProcessedToken
}.

Record ProcessedDocument : Type := {
  pd_uuid : string;
  pd_dbidL : string;
  pd_dbidS : string;
  pd_title : option string;
  pd_source : option string;
  pd_sentence_count : Z;
  pd_sentences : list ProcessedSentence
}.

(** The pattern of [_split_into_sentences],
    [(?<!\w\.\w.)(?<![A-Z][a-z]\.)(?<=\.|\?|\!)\s]: one white-space
    character [c] that follows ['.'], ['?'] or ['!'], unless the four
    characters before it read [\w\.\w.] or the three before it read
    [[A-Z][a-z]\.].  [prev] holds the characters before [c], the nearest
    first. *)
Definition is_sentence_end (c : ascii) : bool :=
  Ascii.eqb c "." || Ascii.eqb c "?" || Ascii.eqb c "!".

Definition split_point (prev : list ascii) (c : ascii) : bool :=
  is_space c &&
  match prev with
  | p1 :: _ => is_sentence_end p1
  | [] => false
  end &&
  negb match prev with
       | p1 :: p2 :: p3 :: p4 :: _ =>
           is_word p4 && Ascii.eqb p3 "." && is_word p2 && negb (is_newline p1)
       | _ => false
       end &&
  negb match prev with
       | p1 :: p2 :: p3 :: _ =>
           is_upper p3 && is_lower p2 && Ascii.eqb p1 "."
       | _ => false
       end.

(** [re.split] on that pattern. *)
Fixpoint sentence_pieces (prev : list ascii) (s : string) : list string :=
  match s with
  | EmptyString => [EmptyString]
  | String c r =>
      if split_point prev c then EmptyString :: sentence_pieces (c :: prev) r
      else match sentence_pieces (c :: prev) r with
           | p :: ps => String c p :: ps
           | [] => [String c EmptyString]
           end
  end.

(** [_split_into_sentences]: [[s.strip() for s in sentences if s.strip()]]. *)
Definition _split_into_sentences (text : string) : list string :=
  map strip
    (filter (fun s => negb (is_empty (strip s))) (sentence_pieces [] text)).

(** [re.findall(r'\b\w+\b', text)]: the maximal runs of word characters. *)
Fixpoint word_runs (s : string) : list string :=
  match s with
  | EmptyString => []
  | String c r =>
      if is_word c then
        match r with
        | String d _ =>
            if is_word d then
              match word_runs r with
              | p :: ps => String c p :: ps
              | [] => [String c EmptyString]
              end
            else String c EmptyString :: word_runs r
        | EmptyString => [String c EmptyString]
        end
      else word_runs r
  end.

(** [_tokenize_sentence]. *)
Definition _tokenize_sentence (sentence : string) : list string :=
  word_runs (lower sentence).

(** [INSERT INTO documents]: [uuid] is the primary key and
    [(dbidL, dbidS)] is [UNIQUE]. *)
Definition insert_document (row : DocumentRow) : M World unit :=
  fun w =>
    if existsb (fun d => String.eqb (doc_uuid d) (doc_uuid row) ||
                         (String.eqb (doc_dbidL d) (doc_dbidL row) &&
                          String.eqb (doc_dbidS d) (doc_dbidS row)))
         (documents w)
    then (w, Raise IntegrityError)
    else (set_documents (documents w ++ [row]) w, Ok tt).

(** [INSERT INTO sentences]: [uuid] is the primary key, [text] and
    [hash] are [UNIQUE]. *)
Definition insert_sentence (row : SentenceRow) : M World unit :=
  fun w =>
    if existsb (fun r => String.eqb (sent_uuid r) (sent_uuid row) ||
                         String.eqb (sent_text r) (sent_text row) ||
                         String.eqb (sent_hash r) (sent_hash row))
         (sentences w)
    then (w, Raise IntegrityError)
    else (set_sentences (sentences w ++ [row]) w, Ok tt).

(** The groups of the HDF5 file.  [h5py] does not store a text with a
    NUL character; the texts are taken to hold none. *)
Definition h5_store_sentence (uuid hash text : string) : M World unit :=
  modify (fun w =>
            if h5_has uuid (h5_sentences w) then w
            else set_h5_sentences
                   (h5_sentences w ++ [(uuid, {| h5s_hash := hash; h5s_text := text |})])
                   w).

Definition h5_store_token (token_addr sentence_uuid : string) (position : Z)
           (text : string) : M World unit :=
  modify (fun w =>
            if h5_has token_addr (h5_tokens w) then w
            else set_h5_tokens
                   (h5_tokens w ++
                      [(token_addr, {| h5t_sentence_uuid := sentence_uuid;
                                       h5t_position := position;
                                       h5t_text := text |})])
                   w).

Definition h5_store_document (uuid : string) (d : H5Document) : M World unit :=
  modify (fun w =>
            if h5_has uuid (h5_documents w) then w
            else set_h5_documents (h5_documents w ++ [(uuid, d)]) w).

Section WithHash.
(** [hashlib.sha256(text.encode('utf-8')).hexdigest()]. *)
Variable sha256_hex : string -> string.

(** [_get_or_create_sentence]. *)
Definition _get_or_create_sentence (sentence_text : string)
  : M World (string * bool) :=
  let sentence_hash := sha256_hex sentence_text in
  found <- gets (fun w => find (fun r => String.eqb (sent_hash r) sentence_hash)
                            (sentences w)) ;;
  match found with
  | Some row => ret (sent_uuid row, false)
  | None =>
      sentence_uuid <- uuid4 ;;
      insert_sentence {| sent_uuid := sentence_uuid; sent_text := sentence_text;
                         sent_hash := sentence_hash |} ;;;
      h5_store_sentence sentence_uuid sentence_hash sentence_text ;;;
      ret (sentence_uuid, true)
  end.

(** [_map_sentence_to_document]: [INSERT OR IGNORE] under
    [UNIQUE(doc_uuid, sentence_uuid, position)]. *)
Definition _map_sentence_to_document (sentence_uuid doc_uuid : string)
           (position : Z) : M World unit :=
  modify (fun w =>
            if existsb (fun m => String.eqb (dsm_doc_uuid m) doc_uuid &&
                                 String.eqb (dsm_sentence_uuid m) sentence_uuid &&
                                 (dsm_position m =? position)%Z)
                 (doc_sentence_map w)
            then w
            else set_doc_sentence_map
                   (doc_sentence_map w ++
                      [{| dsm_doc_uuid := doc_uuid;
                          dsm_sentence_uuid := sentence_uuid;
                          dsm_position := position |}])
                   w).

Definition token_id_by_hash (w : World) (h : string) : option Z :=
  option_map tok_id (find (fun t => String.eqb (tok_hash t) h) (tokens w)).

(** [INSERT INTO tokens (text, hash)]: [hash] is [UNIQUE], [id] is the
    next [AUTOINCREMENT] value. *)
Definition insert_token (text hash : string) : M World unit :=
  fun w =>
    if existsb (fun t => String.eqb (tok_hash t) hash) (tokens w)
    then (w, Raise IntegrityError)
    else
      let id := (fold_right Z.max (tokens_seq w) (map tok_id (tokens w)) + 1)%Z in
      (set_tokens (tokens w ++ [{| tok_id := id; tok_text := text; tok_hash := hash |}])
         id w, Ok tt).

(** [_get_or_create_token]. *)
Definition _get_or_create_token (token_text : string) : M World Z :=
  let token_hash := sha256_hex token_text in
  found <- gets (fun w => token_id_by_hash w token_hash) ;;
  match found with
  | Some id => ret id
  | None =>
      insert_token token_text token_hash ;;;
      again <- gets (fun w => token_id_by_hash w token_hash) ;;
      match again with
      | Some id => ret id
      | None => raise TypeError
      end
  end.

(** [_map_token_to_sentence]: [INSERT OR IGNORE] under
    [UNIQUE(sentence_uuid, position)]. *)
Definition _map_token_to_sentence (token_id : Z) (sentence_uuid : string)
           (position : Z) : M World unit :=
  modify (fun w =>
            if existsb (fun m => String.eqb (stm_sentence_uuid m) sentence_uuid &&
                                 (stm_position m =? position)%Z)
                 (sentence_token_map w)
            then w
            else set_sentence_token_map
                   (sentence_token_map w ++
                      [{| stm_sentence_uuid := sentence_uuid;
                          stm_token_id := token_id;
                          stm_position := position |}])
                   w).

(** The loop of [_process_sentence_tokens], from [position] on. *)
Fixpoint process_tokens_from (sentence_uuid : string) (position : Z)
         (toks : list string) : M World (list ProcessedToken) :=
  match toks with
  | [] => ret []
  | token_text :: rest =>
      token_id <- _get_or_create_token token_text ;;
      _map_token_to_sentence token_id sentence_uuid position ;;;
      let token_addr := get_token_addr sentence_uuid position in
      create_address (sentence_uuid ++ "." ++ str_of_Z position)
        (Some token_addr) (Some "token") position ;;;
      h5_store_token token_addr sentence_uuid position token_text ;;;
      more <- process_tokens_from sentence_uuid (position + 1) rest ;;
      ret ({| pt_id := token_id; pt_text := token_text;
              pt_position := position; pt_address := token_addr |} :: more)
  end.

(** [_process_sentence_tokens]. *)
Definition _process_sentence_tokens (sentence_text sentence_uuid : string)
  : M World (list ProcessedToken) :=
  process_tokens_from sentence_uuid 0 (_tokenize_sentence sentence_text).

(** The loop of [process_document] over [enumerate(sentences)], from
    [position] on. *)
Fixpoint process_sentences_from (doc_uuid : string) (position : Z)
         (sents : list string) : M World (list ProcessedSentence) :=
  match sents with
  | [] => ret []
  | sentence_text :: rest =>
      created <- _get_or_create_sentence sentence_text ;;
      let sentence_uuid := fst created in
      let is_new := snd created in
      _map_sentence_to_document sentence_uuid doc_uuid position ;;;
      let addr := ("doc:" ++ doc_uuid ++ "-" ++ str_of_Z position)%string in
      create_address addr (Some sentence_uuid) (Some "sentence") 0 ;;;
      toks <- (if is_new then _process_sentence_tokens sentence_text sentence_uuid
               else ret []) ;;
      more <- process_sentences_from doc_uuid (position + 1) rest ;;
      ret ({| ps_uuid := sentence_uuid; ps_text := sentence_text;
              ps_position := position; ps_address := addr;
              ps_is_new := is_new; ps_tokens := toks |} :: more)
  end.

Definition or_empty (o : option string) : string :=
  match o with
  | Some s => s
  | None => EmptyString
  end.

(** [process_document].  [metadata] is the text [json.dumps] gives for
    a non-empty dictionary, [None] otherwise. *)
Definition process_document (content dbidL : string)
           (dbidS title source metadata : option string)
  : M World ProcessedDocument :=
  doc_uuid <- uuid4 ;;
  let dbidS := if truthy dbidS then or_empty dbidS else take 8 doc_uuid in
  insert_document {| doc_uuid := doc_uuid; doc_dbidL := dbidL;
                     doc_dbidS := dbidS; doc_title := title;
                     doc_source := source; doc_metadata := metadata |} ;;;
  let sents := _split_into_sentences content in
  processed <- process_sentences_from doc_uuid 0 sents ;;
  h5_store_document doc_uuid
    {| h5d_dbidL := dbidL; h5d_dbidS := dbidS;
       h5d_title := or_empty title; h5d_source := or_empty source;
       h5d_content := content;
       h5d_sentences :=
         map (fun p => (str_of_Z (ps_position p), ps_uuid p)) processed |} ;;;
  ret {| pd_uuid := doc_uuid; pd_dbidL := dbidL; pd_dbidS := dbidS;
         pd_title := title; pd_source := source;
         pd_sentence_count := Z.of_nat (List.length processed);
         pd_sentences := processed |}.

End WithHash.

(** The row [process_document] inserts into [documents]. *)
Definition document_row (w : World) (dbidL : string)
           (dbidS title source metadata : option string) : DocumentRow :=
  {| doc_uuid := rng_next (rng w); doc_dbidL := dbidL;
     doc_dbidS := if truthy dbidS then or_empty dbidS
                  else take 8 (rng_next (rng w));
     doc_title := title; doc_source := source; doc_metadata := metadata |}.

(** [INSERT INTO documents] accepts the row: no document has its
    identifier or its pair [(dbidL, dbidS)]. *)
Definition row_accepted (row : DocumentRow) (w : World) : Prop :=
  existsb (fun d => String.eqb (doc_uuid d) (doc_uuid row) ||
                    (String.eqb (doc_dbidL d) (doc_dbidL row) &&
                     String.eqb (doc_dbidS d) (doc_dbidS row)))
    (documents w) = false.

(** *** The readers of the document manager *)

(** How a reader ends: with a value, with one of the exceptions above,
    or with the [NameError] of a name that is bound nowhere. *)
Inductive outcome (A : Type) : Type :=
| Returned (a : A)
| Raised (e : exn)
| NameError (name : string).
Arguments Returned {A} a.
Arguments Raised {A} e.
Arguments NameError {A} name.

Record SentenceEntry : Type := {
  se_uuid : string;
  se_text : string;
  se_hash : string;
  se_position : Z;
  se_address : string
}.

Record DocumentInfo : Type := {
  di_uuid : string;
  di_dbidL : string;
  di_dbidS : string;
  di_title : option string;
  di_source : option string;
  di_metadata : option string;
  di_sentences : list SentenceEntry
}.

(** The rows of [sentences s JOIN doc_sentence_map m ON s.uuid =
    m.sentence_uuid WHERE m.doc_uuid = ? ORDER BY m.position], as the
    entries [get_document] makes of them. *)
Definition document_sentences (w : World) (doc : string) : list SentenceEntry :=
  flat_map
    (fun m =>
       map (fun s => {| se_uuid := sent_uuid s; se_text := sent_text s;
                        se_hash := sent_hash s; se_position := dsm_position m;
                        se_address := ("doc:" ++ doc ++ "-"
                                         ++ str_of_Z (dsm_position m))%string |})
         (filter (fun s => String.eqb (sent_uuid s) (dsm_sentence_uuid m))
            (sentences w)))
    (order_by dsm_le_position
       (filter (fun m => String.eqb (dsm_doc_uuid m) doc) (doc_sentence_map w))).

(** [get_document].  The method builds [doc_info] and the list
    [sentences], and ends in [return results]: [results] is assigned
    nowhere in the method and is no name of the module, so the statement
    raises [NameError].  The metadata is kept as the stored text. *)
Definition get_document (w : World) (doc_uuid' dbidL dbidS : option string)
  : outcome (option DocumentInfo) :=
  if negb (truthy doc_uuid') && (negb (truthy dbidL) || negb (truthy dbidS)) then
    Raised (ValueError "Either doc_uuid or both dbidL and dbidS must be provided")
  else
    let result :=
      if truthy doc_uuid'
      then find (fun d => String.eqb (doc_uuid d) (or_empty doc_uuid')) (documents w)
      else find (fun d => String.eqb (doc_dbidL d) (or_empty dbidL) &&
                          String.eqb (doc_dbidS d) (or_empty dbidS))
             (documents w) in
    match result with
    | None => Returned None
    | Some row =>
        let doc_info :=
          {| di_uuid := doc_uuid row; di_dbidL := doc_dbidL row;
             di_dbidS := doc_dbidS row; di_title := doc_title row;
             di_source := doc_source row;
             di_metadata := if truthy (doc_metadata row) then doc_metadata row
                            else None;
             di_sentences := [] |} in
        let sentences := document_sentences w (di_uuid doc_info) in
        NameError "results"
    end.

(** [get_sentence]. *)
Definition get_sentence (w : World) (sentence_uuid : string) : option SentenceInfo :=
  get_sentence_info w sentence_uuid.

Record SentenceSummary : Type := {
  ss_uuid : string;
  ss_text : string;
  ss_hash : string;
  ss_occurrences : list string
}.

(** [get_all_sentences]; [ORDER BY created_at] is the order of
    insertion (rows of one second come in an order that is not
    specified). *)
Definition get_all_sentences (w : World) : list SentenceSummary :=
  map (fun s => {| ss_uuid := sent_uuid s; ss_text := sent_text s;
                   ss_hash := sent_hash s;
                   ss_occurrences := map_uuid_to_addr w (sent_uuid s) None |})
    (sentences w).

Record DocumentSummary : Type := {
  ds_uuid : string;
  ds_dbidL : string;
  ds_dbidS : string;
  ds_title : option string;
  ds_source : option string;
  ds_sentence_count : Z
}.

(** [get_all_documents]: [sentence_count] is the count of the rows of
    [doc_sentence_map] whose [doc_uuid] is the one of the document. *)
Definition get_all_documents (w : World) : list DocumentSummary :=
  map (fun d =>
         {| ds_uuid := doc_uuid d; ds_dbidL := doc_dbidL d;
            ds_dbidS := doc_dbidS d; ds_title := doc_title d;
            ds_source := doc_source d;
            ds_sentence_count :=
              Z.of_nat
                (List.length
                   (filter (fun m => String.eqb (dsm_doc_uuid m) (doc_uuid d))
                      (doc_sentence_map w))) |})
    (documents w).

Record SentenceHit : Type := {
  sh_uuid : string;
  sh_dbidL : string;
  sh_dbidS : string;
  sh_title : option string;
  sh_source : option string;
  sh_position : Z;
  sh_sentence_uuid : string;
  sh_address : string
}.

(** [find_documents_with_sentence]: [documents d JOIN doc_sentence_map m
    ON d.uuid = m.doc_uuid JOIN sentences s ON m.sentence_uuid = s.uuid
    WHERE s.hash = ? ORDER BY d.created_at, m.position].  The documents
    come in insertion order, which is the order of [created_at] up to
    its grain of one second; the list is read by membership. *)
Definition find_documents_with_sentence (sha256_hex : string -> string)
           (w : World) (sentence_text : string) : list SentenceHit :=
  let sentence_hash := sha256_hex sentence_text in
  flat_map
    (fun d =>
       flat_map
         (fun m =>
            map (fun s =>
                   {| sh_uuid := doc_uuid d; sh_dbidL := doc_dbidL d;
                      sh_dbidS := doc_dbidS d; sh_title := doc_title d;
                      sh_source := doc_source d; sh_position := dsm_position m;
                      sh_sentence_uuid := sent_uuid s;
                      sh_address := ("doc:" ++ doc_uuid d ++ "-"
                                       ++ str_of_Z (dsm_position m))%string |})
              (filter (fun s => String.eqb (dsm_sentence_uuid m) (sent_uuid s) &&
                                String.eqb (sent_hash s) sentence_hash)
                 (sentences w)))
         (order_by dsm_le_position
            (filter (fun m => String.eqb (doc_uuid d) (dsm_doc_uuid m))
               (doc_sentence_map w))))
    (documents w).

Record TokenMatch : Type := {
  tm_token_id : Z;
  tm_token_text : string;
  tm_token_position : Z;
  tm_token_address : string;
  tm_sentence_uuid : string;
  tm_sentence_text : string;
  tm_sentence_position : Z;
  tm_sentence_address : string;
  tm_doc_uuid : string;
  tm_doc_title : option string;
  tm_doc_dbidL : string;
  tm_doc_dbidS : string
}.

(** The list [results] that [search_by_token] builds: [tokens t JOIN
    sentence_token_map m1 JOIN sentences s JOIN doc_sentence_map m2 JOIN
    documents d WHERE t.text = ? ORDER BY d.created_at, m2.position,
    m1.position]. *)
Definition token_matches (w : World) (token_text : string) : list TokenMatch :=
  flat_map
    (fun d =>
       flat_map
         (fun m2 =>
            flat_map
              (fun s =>
                 flat_map
                   (fun m1 =>
                      map (fun t =>
                             {| tm_token_id := tok_id t; tm_token_text := tok_text t;
                                tm_token_position := stm_position m1;
                                tm_token_address :=
                                  (sent_uuid s ++ "-" ++ str_of_Z (stm_position m1))%string;
                                tm_sentence_uuid := sent_uuid s;
                                tm_sentence_text := sent_text s;
                                tm_sentence_position := dsm_position m2;
                                tm_sentence_address :=
                                  ("doc:" ++ doc_uuid d ++ "-"
                                     ++ str_of_Z (dsm_position m2))%string;
                                tm_doc_uuid := doc_uuid d;
                                tm_doc_title := doc_title d;
                                tm_doc_dbidL := doc_dbidL d;
                                tm_doc_dbidS := doc_dbidS d |})
                        (filter (fun t => (tok_id t =? stm_token_id m1)%Z &&
                                          String.eqb (tok_text t) token_text)
                           (tokens w)))
                   (order_by stm_le_position
                      (filter (fun m1 => String.eqb (stm_sentence_uuid m1) (sent_uuid s))
                         (sentence_token_map w))))
              (filter (fun s => String.eqb (sent_uuid s) (dsm_sentence_uuid m2))
                 (sentences w)))
         (order_by dsm_le_position
            (filter (fun m2 => String.eqb (dsm_doc_uuid m2) (doc_uuid d))
               (doc_sentence_map w))))
    (documents w).

(** [search_by_token]: the method ends after the loop that fills
    [results], without a [return], and so returns [None]. *)
Definition search_by_token (w : World) (token_text : string)
  : option (list TokenMatch) :=
  let token_text := lower token_text in
  let results := token_matches w token_text in
  None.

End DocumentManager.

(** ** What a method leaves alone *)

Module FrameVocabulary.

(** [keeps proj m]: whatever [m] returns or raises, the component
    [proj] of the world is as before. *)
Definition keeps {X A : Type} (proj : World -> X) (m : M World A) : Prop :=
  forall w w' r, m w = (w', r) -> proj w' = proj w.

(** [preserves I m]: [m] leads from a world in [I] to a world in [I],
    whether it returns or raises. *)
Definition preserves {A : Type} (I : World -> Prop) (m : M World A) : Prop :=
  forall w w' r, I w -> m w = (w', r) -> I w'.

(** A component that a setter does not write. *)
Definition ignores {X V : Type} (proj : World -> X) (set : V -> World -> World) : Prop :=
  forall v w, proj (set v w) = proj w.

(** A component apart from everything but [documents], [sentences],
    [doc_sentence_map] and [relations]: the other setters leave it as it
    is, and so does a draw from the stream of identifiers. *)
Class Apart {X : Type} (proj : World -> X) : Prop := {
  apart_tokens : forall v s w, proj (set_tokens v s w) = proj w;
  apart_sentence_token_map : ignores proj set_sentence_token_map;
  apart_address_book : ignores proj set_address_book;
  apart_h5_documents : ignores proj set_h5_documents;
  apart_h5_sentences : ignores proj set_h5_sentences;
  apart_h5_tokens : ignores proj set_h5_tokens;
  apart_rng : forall w, proj (set_rng (rng_advance (rng w)) w) = proj w
}.

End FrameVocabulary.

(** ** The stores the methods build *)

Module Api.
Import AddressManager DocumentManager.

Section WithHash.
Variable sha256_hex : string -> string.

(** The stores reached from an empty one by [process_document],
    [create_address] and [set_relation], whatever each call returns. *)
Inductive reachable : World -> Prop :=
| reach_empty (e : nat -> string) : reachable (empty_world e)
| reach_process_document (w : World) (content dbidL : string)
                         (dbidS title source metadata : option string) :
    reachable w ->
    reachable (fst (process_document sha256_hex content dbidL dbidS title source
                      metadata w))
| reach_create_address (w : World) (addr : string) (uuid_value addr_type : option string)
                       (zero_index : Z) :
    reachable w ->
    reachable (fst (create_address addr uuid_value addr_type zero_index w))
| reach_set_relation (w : World) (source_addr target_addr relation_type : string) :
    reachable w ->
    reachable (fst (set_relation source_addr target_addr relation_type w)).

End WithHash.

End Api.

(** ** app/services/lstable_manager.py *)

Module LStableManager.
Import AddressManager.

(** Table [lstable]: [dbidL] is the primary key, [dbidS] is [UNIQUE]. *)
Record LSRow : Type := {
  ls_dbidL : string;
  ls_dbidS : string;
  ls_description : option string
}.

(** The store of the manager: the table, the alias files (a text file is
    the list of the lines written to it, directories and I/O errors are
    not modelled), [self.base_dir] and the source of [uuid4]. *)
Record LSWorld : Type := {
  lstable : list LSRow;
  ls_files : list (string * list string);
  ls_base_dir : string;
  ls_rng : Rng
}.

Definition set_lstable (v : list LSRow) (w : LSWorld) : LSWorld :=
  {| lstable := v; ls_files := ls_files w; ls_base_dir := ls_base_dir w;
     ls_rng := ls_rng w |}.

Definition set_ls_files (v : list (string * list string)) (w : LSWorld) : LSWorld :=
  {| lstable := lstable w; ls_files := v; ls_base_dir := ls_base_dir w;
     ls_rng := ls_rng w |}.

Definition set_ls_rng (v : Rng) (w : LSWorld) : LSWorld :=
  {| lstable := lstable w; ls_files := ls_files w; ls_base_dir := ls_base_dir w;
     ls_rng := v |}.

(** [str(uuid.uuid4().hex[:8])]: the first eight characters of the
    identifier written without dashes. *)
Fixpoint remove_dashes (s : string) : string :=
  match s with
  | EmptyString => EmptyString
  | String c r =>
      if Ascii.eqb c "-" then remove_dashes r else String c (remove_dashes r)
  end.

Definition hex8 (uuid : string) : string := take 8 (remove_dashes uuid).

Definition new_short_id : M LSWorld string :=
  fun w => (set_ls_rng (rng_advance (ls_rng w)) w, Ok (hex8 (rng_next (ls_rng w)))).

(** [SELECT dbidS FROM lstable WHERE dbidL = ?] and
    [SELECT dbidL FROM lstable WHERE dbidS = ?]. *)
Definition short_of (w : LSWorld) (dbidL : string) : option string :=
  option_map ls_dbidS (find (fun r => String.eqb (ls_dbidL r) dbidL) (lstable w)).

Definition short_in_use (w : LSWorld) (dbidS : string) : bool :=
  existsb (fun r => String.eqb (ls_dbidS r) dbidS) (lstable w).

(** [INSERT INTO lstable (dbidL, dbidS, description)]. *)
Definition insert_mapping (row : LSRow) : M LSWorld unit :=
  fun w =>
    if existsb (fun r => String.eqb (ls_dbidL r) (ls_dbidL row) ||
                         String.eqb (ls_dbidS r) (ls_dbidS row))
         (lstable w)
    then (w, Raise IntegrityError)
    else (set_lstable (lstable w ++ [row]) w, Ok tt).

(** [os.path.join] of two components. *)
Definition path_join (a b : string) : string :=
  if startswith b "/" then b
  else if is_empty a || ends_with_char a "/" then a ++ b
       else a ++ "/" ++ b.

Definition read_lines (w : LSWorld) (path : string) : option (list string) :=
  option_map snd (find (fun f => String.eqb (fst f) path) (ls_files w)).

Definition write_lines (path : string) (lines : list string) (w : LSWorld) : LSWorld :=
  set_ls_files
    (if existsb (fun f => String.eqb (fst f) path) (ls_files w)
     then map (fun f => if String.eqb (fst f) path then (path, lines) else f)
            (ls_files w)
     else ls_files w ++ [(path, lines)])
    w.

(** The loop over [enumerate(lines)]: the first line that, stripped,
    starts with [prefix] is replaced; [None] when there is none. *)
Fixpoint replace_first (prefix new_line : string) (lines : list string)
  : option (list string) :=
  match lines with
  | [] => None
  | line :: rest =>
      if startswith (strip line) prefix then Some (new_line :: rest)
      else option_map (cons line) (replace_first prefix new_line rest)
  end.

Definition upsert_line (dbidL dbidS : string) (lines : list string) : list string :=
  let new_line := (dbidL ++ "=" ++ dbidS ++ String "010" EmptyString)%string in
  match replace_first (dbidL ++ "=") new_line lines with
  | Some lines' => lines'
  | None => lines ++ [new_line]
  end.

Definition update_file (path dbidL dbidS : string) (w : LSWorld) : LSWorld :=
  let lines := match read_lines w path with
               | Some ls => ls
               | None => []
               end in
  write_lines path (upsert_line dbidL dbidS lines) w.

(** [_update_lstable_file]. *)
Definition _update_lstable_file (dbidL dbidS : string) : M LSWorld unit :=
  modify (fun w =>
            let directory := path_join (ls_base_dir w) dbidL in
            let w1 := update_file (path_join directory ".LStable") dbidL dbidS w in
            update_file (path_join (ls_base_dir w1) ".GlobalLStable") dbidL dbidS w1).

(** The loop [while True] that draws short identifiers until one is
    not in the table; [fuel] bounds the number of draws. *)
Fixpoint regenerate (fuel : nat) : M LSWorld string :=
  match fuel with
  | O => raise (OutsideModel "no unused short identifier drawn")
  | S fuel' =>
      new_dbidS <- new_short_id ;;
      used <- gets (fun w => short_in_use w new_dbidS) ;;
      if (used : bool) then regenerate fuel' else ret new_dbidS
  end.

(** [register_mapping]. *)
Definition register_mapping (fuel : nat) (dbidL : string)
           (dbidS description : option string) : M LSWorld (string * string) :=
  dbidS <- (if truthy dbidS
            then ret (match dbidS with Some s => s | None => EmptyString end)
            else new_short_id) ;;
  existing <- gets (fun w => short_of w dbidL) ;;
  match existing with
  | Some s => ret (dbidL, s)
  | None =>
      taken <- gets (fun w => short_in_use w dbidS) ;;
      dbidS <- (if (taken : bool) then regenerate fuel else ret dbidS) ;;
      insert_mapping {| ls_dbidL := dbidL; ls_dbidS := dbidS;
                        ls_description := description |} ;;;
      _update_lstable_file dbidL dbidS ;;;
      ret (dbidL, dbidS)
  end.


(** [get_mapping]: by the long identifier when one is given, by the
    short one otherwise. *)
Definition get_mapping (w : LSWorld) (dbidL dbidS : option string)
  : result (option LSRow) :=
  if negb (truthy dbidL) && negb (truthy dbidS) then
    Raise (ValueError "Either dbidL or dbidS must be provided")
  else if truthy dbidL then
    Ok (find (fun r => String.eqb (ls_dbidL r)
                         (match dbidL with Some l => l | None => EmptyString end))
          (lstable w))
  else
    Ok (find (fun r => String.eqb (ls_dbidS r)
                         (match dbidS with Some s => s | None => EmptyString end))
          (lstable w)).

(** [list_mappings], in the order of insertion. *)
Definition list_mappings (w : LSWorld) : list LSRow := lstable w.

(** The lines that stay when a mapping is removed from a file. *)
Definition remove_lines (dbidL : string) (lines : list string) : list string :=
  filter (fun line => negb (startswith (strip line) (dbidL ++ "="))) lines.

Definition remove_from_file (path dbidL : string) (w : LSWorld) : LSWorld :=
  match read_lines w path with
  | Some lines => write_lines path (remove_lines dbidL lines) w
  | None => w
  end.

(** [_remove_from_lstable_file]. *)
Definition _remove_from_lstable_file (dbidL dbidS : string) : M LSWorld unit :=
  modify (fun w =>
            let directory := path_join (ls_base_dir w) dbidL in
            let w1 := remove_from_file (path_join directory ".LStable") dbidL w in
            remove_from_file (path_join (ls_base_dir w1) ".GlobalLStable") dbidL w1).

(** [delete_mapping]: the row is looked up and deleted by the long
    identifier when one is given, by the short one otherwise. *)
Definition delete_mapping (dbidL dbidS : option string) : M LSWorld bool :=
  if negb (truthy dbidL) && negb (truthy dbidS) then
    raise (ValueError "Either dbidL or dbidS must be provided")
  else
    mapping <- query (fun w => get_mapping w dbidL dbidS) ;;
    match mapping with
    | None => ret false
    | Some row =>
        modify (fun w =>
                  set_lstable
                    (filter
                       (fun r =>
                          negb (if truthy dbidL
                                then String.eqb (ls_dbidL r)
                                       (match dbidL with Some l => l | None => EmptyString end)
                                else String.eqb (ls_dbidS r)
                                       (match dbidS with Some s => s | None => EmptyString end)))
                       (lstable w))
                    w) ;;;
        _remove_from_lstable_file (ls_dbidL row) (ls_dbidS row) ;;;
        ret true
    end.

(** The keys of [lstable]: [dbidL] is the primary key, [dbidS] is
    [UNIQUE]. *)
Definition one_to_one (w : LSWorld) : Prop :=
  NoDup (map ls_dbidL (lstable w)) /\ NoDup (map ls_dbidS (lstable w)).

End LStableManager.

(** ** app/services/function_service.py *)

Module FunctionService.
Import ZeroIndexMapper AddressManager.

(** The values that arguments resolve to and functions return.  A
    [float] is kept as the numeral it was read from. *)
Inductive value : Type :=
| VNone
| VStr (s : string)
| VInt (z : Z)
| VFloat (numeral : string)
| VBool (b : bool)
| VList (l : list string).

(** Truth value of a Python value. *)
Definition value_truthy (v : value) : bool :=
  match v with
  | VNone => false
  | VStr s => negb (is_empty s)
  | VInt z => negb (z =? 0)%Z
  | VFloat n =>
      negb (forallb_str (fun c => Ascii.eqb c "0" || Ascii.eqb c "." || Ascii.eqb c "-") n)
  | VBool b => b
  | VList l => match l with [] => false | _ => true end
  end.

(** [$] also matches just before a final newline. *)
Definition dollar (s : string) : string :=
  if ends_with_char s "010" then drop_last s else s.

Fixpoint span (p : ascii -> bool) (s : string) : string * string :=
  match s with
  | EmptyString => (EmptyString, EmptyString)
  | String c r =>
      if p c then let (a, b) := span p r in (String c a, b)
      else (EmptyString, s)
  end.

Definition nonempty_all (p : ascii -> bool) (s : string) : bool :=
  negb (is_empty s) && forallb_str p s.

(** [^([A-Za-z]+)([0-9]+)$], with its two groups. *)
Definition match_cell_ref (s : string) : option (string * string) :=
  let (col, row) := span is_alpha (dollar s) in
  if negb (is_empty col) && nonempty_all is_digit row then Some (col, row)
  else None.

(** [^doc:[^-]+-\d+$]. *)
Definition match_doc_addr (s : string) : bool :=
  if startswith s "doc:" then
    match split_char "-" (String.substring 4 (String.length s - 4) (dollar s)) with
    | [x; d] => negb (is_empty x) && nonempty_all is_digit d
    | _ => false
    end
  else false.

(** [^-?\d+(\.\d+)?$]. *)
Definition match_number (s : string) : bool :=
  let t := dollar s in
  let body := match t with
              | String "-" r => r
              | _ => t
              end in
  match split_char "." body with
  | [i] => nonempty_all is_digit i
  | [i; f] => nonempty_all is_digit i && nonempty_all is_digit f
  | _ => false
  end.

(** The pattern of [_parse_formula], a name [\w+] followed by any
    number of [\.\w+], then ['('], any characters but newlines, and
    [')'] at the end, with its two groups: the name is what
    stands before the first ['('] and is made of words joined by dots;
    the arguments are the rest without the closing [')'], and hold no
    newline. *)
Fixpoint split_at_paren (s : string) : option (string * string) :=
  match s with
  | EmptyString => None
  | String c r =>
      if Ascii.eqb c "(" then Some (EmptyString, r)
      else match split_at_paren r with
           | Some (name, rest) => Some (String c name, rest)
           | None => None
           end
  end.

Definition is_dotted_name (name : string) : bool :=
  forallb (nonempty_all is_word) (split_char "." name).

Definition match_formula (formula : string) : option (string * string) :=
  match split_at_paren formula with
  | None => None
  | Some (name, rest) =>
      let body := dollar rest in
      if is_dotted_name name && ends_with_char body ")" &&
         negb (existsb_str is_newline (drop_last body))
      then Some (name, drop_last body)
      else None
  end.

Definition snoc (s : string) (c : ascii) : string := s ++ String c EmptyString.

(** The loop of [_parse_formula] over the characters of [args_str],
    with the final [if current_arg: ...]. *)
Fixpoint parse_args (args_str : string) (args : list string) (current_arg : string)
         (in_quotes : bool) (bracket_level : Z) : list string :=
  match args_str with
  | EmptyString =>
      if is_empty current_arg then args else args ++ [strip current_arg]
  | String char rest =>
      if Ascii.eqb char dquote && negb in_quotes then
        parse_args rest args (snoc current_arg char) true bracket_level
      else if Ascii.eqb char dquote && in_quotes then
        parse_args rest args (snoc current_arg char) false bracket_level
      else if Ascii.eqb char "(" && negb in_quotes then
        parse_args rest args (snoc current_arg char) in_quotes (bracket_level + 1)
      else if Ascii.eqb char ")" && negb in_quotes then
        parse_args rest args (snoc current_arg char) in_quotes (bracket_level - 1)
      else if Ascii.eqb char "," && negb in_quotes && (bracket_level =? 0)%Z then
        parse_args rest (args ++ [strip current_arg]) EmptyString in_quotes bracket_level
      else
        parse_args rest args (snoc current_arg char) in_quotes bracket_level
  end.

(** [_parse_formula]. *)
Definition _parse_formula (formula : string) : result (string * list string) :=
  let formula := if startswith formula "=" then strip (drop_first formula)
                 else formula in
  match match_formula formula with
  | None => Raise (ValueError ("Invalid formula format: " ++ formula))
  | Some (func_name, args_str) =>
      Ok (func_name, parse_args args_str [] EmptyString false 0)
  end.

(** The column index [_cell_to_addr] computes and does not use. *)
Definition column_index (col_str : string) : Z :=
  (fold_left (fun acc c => acc * 26 + (Z.of_N (code (to_upper c)) - 65 + 1))
     (list_ascii_of_string col_str) 0 - 1)%Z.

(** [_cell_to_addr]: the row of the cell is the position in the
    document ["current_document"]. *)
Definition _cell_to_addr (cell_ref : string) : result string :=
  match match_cell_ref cell_ref with
  | None => Raise (ValueError ("Invalid cell reference: " ++ cell_ref))
  | Some (col_str, row_str) =>
      match py_int row_str with
      | None => Raise (ValueError "invalid literal for int() with base 10")
      | Some row =>
          let row_idx := (row - 1)%Z in
          let doc_uuid := "current_document" in
          let position := row_idx in
          Ok ("doc:" ++ doc_uuid ++ "-" ++ str_of_Z position)%string
      end
  end.

Definition registered (func_name : string) : bool :=
  existsb (String.eqb func_name) ["rel"; "rel.all"; "rel.count"; "addr"; "uuid"].

(** An argument used as an address: [address.split] exists on [str]
    only. *)
Definition as_address (v : value) : result string :=
  match v with
  | VStr s => Ok s
  | _ => Raise AttributeError
  end.

(** An argument bound to a [?] that is compared with a [TEXT] column:
    [None] is [NULL], a number is compared as its text, an [int] that
    does not fit a 64-bit integer and a list cannot be bound. *)
Definition sql_text_param (v : value) : result (option string) :=
  match v with
  | VNone => Ok None
  | VStr s => Ok (Some s)
  | VInt z => if sqlite_integer z then Ok (Some (str_of_Z z))
              else Raise OverflowError
  | VBool b => Ok (Some (if b then "1" else "0"))
  | VFloat _ => Raise (OutsideModel "float bound to a query")
  | VList _ => Raise InterfaceError
  end.

Definition sql_eq (column : string) (param : option string) : bool :=
  match param with
  | Some p => String.eqb column p
  | None => false
  end.

(** The [text] of the rows of [sentences t JOIN relations r ON t.uuid =
    r.target_uuid WHERE r.source_uuid = ? AND r.relation_type = ?].  The
    query states no order; the rows come in the insertion order of
    [relations], and the list is read by membership and by length. *)
Definition related_texts (w : World) (source : string) (rel_type : option string)
  : list string :=
  flat_map
    (fun r =>
       if String.eqb (rel_source_uuid r) source &&
          sql_eq (rel_relation_type r) rel_type
       then map sent_text
              (filter (fun t => String.eqb (sent_uuid t) (rel_target_uuid r))
                 (sentences w))
       else [])
    (relations w).

(** The address resolved to an identifier that is not falsy. *)
Definition resolve_source (w : World) (source_addr : value) : result (option string) :=
  result_bind (as_address source_addr)
    (fun a => result_bind (map_addr_to_uuid w a)
                (fun u => Ok (if truthy u then u else None))).

(** [_get_cell_content]. *)
Definition _get_cell_content (w : World) (cell_addr : string) : result (option string) :=
  result_bind (map_addr_to_uuid w cell_addr)
    (fun uuid =>
       if truthy uuid then
         Ok (option_map sent_text
               (find (fun s => String.eqb (sent_uuid s)
                                 (match uuid with Some u => u | None => EmptyString end))
                  (sentences w)))
       else Ok None).

(** [_rel_function]. *)
Definition _rel_function (w : World) (source_addr rel_type : value) : result value :=
  result_bind (resolve_source w source_addr)
    (fun source_uuid =>
       match source_uuid with
       | None => Ok VNone
       | Some u =>
           with_relations w
             (result_bind (sql_text_param rel_type)
                (fun ty => match related_texts w u ty with
                           | text :: _ => Ok (VStr text)
                           | [] => Ok VNone
                           end))
       end).

(** [_rel_all_function]. *)
Definition _rel_all_function (w : World) (source_addr rel_type : value) : result value :=
  result_bind (resolve_source w source_addr)
    (fun source_uuid =>
       match source_uuid with
       | None => Ok (VList [])
       | Some u =>
           with_relations w
             (result_bind (sql_text_param rel_type)
                (fun ty => Ok (VList (related_texts w u ty))))
       end).

(** [_rel_count_function]; [rel_type] is [None] when the argument is
    left out. *)
Definition _rel_count_function (w : World) (source_addr rel_type : value) : result value :=
  result_bind (resolve_source w source_addr)
    (fun source_uuid =>
       match source_uuid with
       | None => Ok (VInt 0)
       | Some u =>
           with_relations w
             (if value_truthy rel_type then
                result_bind (sql_text_param rel_type)
                  (fun ty =>
                     Ok (VInt (Z.of_nat
                                 (List.length
                                    (filter (fun r => String.eqb (rel_source_uuid r) u &&
                                                      sql_eq (rel_relation_type r) ty)
                                       (relations w))))))
              else
                Ok (VInt (Z.of_nat
                            (List.length
                               (filter (fun r => String.eqb (rel_source_uuid r) u)
                                  (relations w))))))
       end).

(** [_addr_function]. *)
Definition _addr_function (w : World) (uuid_value : value) : result value :=
  result_bind (sql_text_param uuid_value)
    (fun u => match u with
              | Some u => Ok (VList (map_uuid_to_addr w u None))
              | None => Ok (VList [])
              end).

(** [_uuid_function]. *)
Definition _uuid_function (w : World) (addr : value) : result value :=
  result_bind (as_address addr)
    (fun a => result_bind (map_addr_to_uuid w a)
                (fun u => match u with
                          | Some u => Ok (VStr u)
                          | None => Ok VNone
                          end)).

(** The call of [self.function_registry[func_name]] on the unpacked
    [resolved_args]: a wrong number of arguments is a [TypeError]. *)
Definition call (w : World) (func_name : string) (args : list value) : result value :=
  if String.eqb func_name "rel" then
    match args with
    | [a; t] => _rel_function w a t
    | _ => Raise TypeError
    end
  else if String.eqb func_name "rel.all" then
    match args with
    | [a; t] => _rel_all_function w a t
    | _ => Raise TypeError
    end
  else if String.eqb func_name "rel.count" then
    match args with
    | [a] => _rel_count_function w a VNone
    | [a; t] => _rel_count_function w a t
    | _ => Raise TypeError
    end
  else if String.eqb func_name "addr" then
    match args with
    | [u] => _addr_function w u
    | _ => Raise TypeError
    end
  else
    match args with
    | [a] => _uuid_function w a
    | _ => Raise TypeError
    end.

(** One step of the loop of [_resolve_args]; [nested] evaluates a
    nested formula. *)
Definition resolve_arg (nested : string -> result value) (arg : string) : result value :=
  if startswith arg (String dquote EmptyString) && ends_with_char arg dquote then
    Ok (VStr (drop_last (drop_first arg)))
  else if match match_cell_ref arg with Some _ => true | None => false end then
    result_bind (_cell_to_addr arg) (fun a => Ok (VStr a))
  else if match_doc_addr arg then Ok (VStr arg)
  else if match_number arg then
    if contains "." arg then Ok (VFloat arg)
    else match py_int arg with
         | Some z => Ok (VInt z)
         | None => Raise (ValueError "invalid literal for int() with base 10")
         end
  else if String.eqb (lower arg) "true" then Ok (VBool true)
  else if String.eqb (lower arg) "false" then Ok (VBool false)
  else if contains "(" arg && contains ")" arg then nested arg
  else Ok (VStr arg).

(** [_resolve_args]. *)
Fixpoint _resolve_args (nested : string -> result value) (args : list string)
  : result (list value) :=
  match args with
  | [] => Ok []
  | arg :: rest =>
      result_bind (resolve_arg nested arg)
        (fun v => result_bind (_resolve_args nested rest)
                    (fun vs => Ok (v :: vs)))
  end.

(** [evaluate]; a nested formula is evaluated by a recursive call,
    bounded by [fuel].  [context_cell] is passed along and never read. *)
Fixpoint evaluate_rec (fuel : nat) (w : World) (formula : string)
         (context_cell : option (Z * Z)) : result value :=
  match fuel with
  | O => Raise (OutsideModel "recursion depth")
  | S fuel' =>
      result_bind (_parse_formula formula)
        (fun parsed =>
           let func_name := fst parsed in
           let args := snd parsed in
           if negb (registered func_name)
           then Raise (ValueError ("Unknown function: " ++ func_name))
           else
             result_bind
               (_resolve_args (fun arg => evaluate_rec fuel' w arg context_cell) args)
               (fun resolved_args => call w func_name resolved_args))
  end.

(** A nested formula is a proper part of the formula it is in, so the
    length of the formula bounds the depth. *)
Definition evaluate (w : World) (formula : string) (context_cell : option (Z * Z))
  : result value :=
  evaluate_rec (S (String.length formula)) w formula context_cell.

(** *** Formulas and readings used in the statements *)

(** A text between double quotes, and the text [name(args)]. *)
Definition quoted (s : string) : string :=
  String dquote (s ++ String dquote EmptyString).

Definition call_text (name args_str : string) : string :=
  name ++ String "(" (args_str ++ ")").

(** A cell reference: letters, then digits. *)
Definition cell_ref (col row : string) : Prop :=
  nonempty_all is_alpha col = true /\ nonempty_all is_digit row = true.

(** The formula [=rel(C, "ty")]. *)
Definition rel_formula (cell ty : string) : string :=
  String "=" (call_text "rel" (cell ++ String "," (String " " (quoted ty)))).

(** The formula [rel.count(C)]. *)
Definition rel_count_formula (cell : string) : string :=
  call_text "rel.count" cell.

(** The types that occur in [relations], each once. *)
Definition relation_types (w : World) : list string :=
  nodup string_dec (map rel_relation_type (relations w)).

(** The content [rel.all] lists for an address, over all the relation
    types of the store: [_rel_all_function] takes one type, so the list
    for all types is the lists for the types, one after the other. *)
Definition related_all_types (w : World) (a : string) : list string :=
  flat_map
    (fun ty => match _rel_all_function w (VStr a) (VStr ty) with
               | Ok (VList l) => l
               | _ => []
               end)
    (relation_types w).

(** Characters that the loop only appends, whatever its state. *)
Definition plain (c : ascii) : bool :=
  negb (Ascii.eqb c dquote) && negb (Ascii.eqb c "(") &&
  negb (Ascii.eqb c ")") && negb (Ascii.eqb c ",").

(** A function name the pattern accepts: words joined by dots. *)
Definition name_ok (name : string) : bool :=
  is_dotted_name name && negb (contains "(" name) &&
  match name with
  | String c _ => is_word c
  | EmptyString => false
  end.

End FunctionService.

(** ** app/core/dd_manager.py and app/services/processors/text.py *)

Module DDManager.

(** Tables [inputs], [units] and [mappings]. *)
Record InputRow : Type := {
  in_uuid : string;
  in_original_text : string;
  in_unit_count : Z;
  in_batch_type : string
}.

Record UnitRow : Type := {
  un_uuid : string;
  un_text : string;
  un_hash : string;
  un_embedding : string
}.

Record MappingRow : Type := {
  mp_input_uuid : string;
  mp_unit_addr : string;
  mp_unit_uuid : string;
  mp_token_addr : string;
  mp_token_text : string;
  mp_embeddingID : string
}.

(** HDF5 group [inputs/<uuid>/<unit address>]. *)
Record H5Unit : Type := {
  h5u_original_unit : string;
  h5u_tokens : list string;
  h5u_token_addrs : list string;
  h5u_embeddings : list string
}.

Record H5Input : Type := {
  h5i_unit_count : Z;
  h5i_units : list (string * H5Unit)
}.

Record DDWorld : Type := {
  inputs : list InputRow;
  units : list UnitRow;
  mappings : list MappingRow;
  h5_inputs : list (string * H5Input);
  dd_rng : Rng
}.

Definition set_inputs (v : list InputRow) (w : DDWorld) : DDWorld :=
  {| inputs := v; units := units w; mappings := mappings w;
     h5_inputs := h5_inputs w; dd_rng := dd_rng w |}.

Definition set_units (v : list UnitRow) (w : DDWorld) : DDWorld :=
  {| inputs := inputs w; units := v; mappings := mappings w;
     h5_inputs := h5_inputs w; dd_rng := dd_rng w |}.

Definition set_mappings (v : list MappingRow) (w : DDWorld) : DDWorld :=
  {| inputs := inputs w; units := units w; mappings := v;
     h5_inputs := h5_inputs w; dd_rng := dd_rng w |}.

Definition set_h5_inputs (v : list (string * H5Input)) (w : DDWorld) : DDWorld :=
  {| inputs := inputs w; units := units w; mappings := mappings w;
     h5_inputs := v; dd_rng := dd_rng w |}.

Definition set_dd_rng (v : Rng) (w : DDWorld) : DDWorld :=
  {| inputs := inputs w; units := units w; mappings := mappings w;
     h5_inputs := h5_inputs w; dd_rng := v |}.

Definition dd_uuid4 : M DDWorld string :=
  fun w => (set_dd_rng (rng_advance (dd_rng w)) w, Ok (rng_next (dd_rng w))).

(** [with sqlite3.connect(...) as conn:] around writes that are
    committed at the end of the block: an exception inside the block
    rolls the tables back. *)
Definition transaction {A : Type} (m : M DDWorld A) : M DDWorld A :=
  fun w =>
    match m w with
    | (w', Ok a) => (w', Ok a)
    | (w', Raise e) =>
        (set_mappings (mappings w) (set_units (units w) (set_inputs (inputs w) w')),
         Raise e)
    end.

Fixpoint enumerate_from {A : Type} (i : Z) (l : list A) : list (string * A) :=
  match l with
  | [] => []
  | x :: xs => (str_of_Z i, x) :: enumerate_from (i + 1) xs
  end.

Section WithProcessor.
(** [hashlib.sha256(...).hexdigest()], the tokens that
    [self.tokenizer.tokenize] gives, the bytes of the embedding of a
    text, and [self.processor.batch_type]. *)
Variable sha256_hex : string -> string.
Variable bert_tokenize : string -> list string.
Variable embedding_bytes : string -> string.
Variable batch_type : string.

Definition stripped_units (sep raw_content : string) : list string :=
  map strip (filter (fun s => negb (is_empty (strip s))) (split_str sep raw_content)).

(** [TextDocumentProcessor.preprocess]: [(address, text, hash)]. *)
Definition preprocess (raw_content : string) : result (list (string * string * string)) :=
  let finish us :=
    Ok (map (fun iu => (fst iu, snd iu, sha256_hex (snd iu))) (enumerate_from 0 us)) in
  if String.eqb batch_type "sentence" then finish (stripped_units "." raw_content)
  else if String.eqb batch_type "paragraph" then
    finish (stripped_units (String newline (String newline EmptyString)) raw_content)
  else if String.eqb batch_type "page" then
    finish (stripped_units (String "012" EmptyString) raw_content)
  else Raise (ValueError ("Unsupported batch_type: " ++ batch_type)).

(** [TextDocumentProcessor.tokenize]. *)
Definition tokenize (text : string) : list (string * string) :=
  enumerate_from 0
    (filter (fun t => negb (startswith t "##") &&
                      negb (String.eqb t "[CLS]" || String.eqb t "[SEP]"))
       (bert_tokenize text)).

(** [_get_or_create_unit]. *)
Definition _get_or_create_unit (text unit_hash : string) : M DDWorld string :=
  found <- gets (fun w => find (fun u => String.eqb (un_hash u) unit_hash) (units w)) ;;
  match found with
  | Some row => ret (un_uuid row)
  | None =>
      unit_uuid <- dd_uuid4 ;;
      let embedding := embedding_bytes text in
      (fun w =>
         if existsb (fun u => String.eqb (un_uuid u) unit_uuid ||
                              String.eqb (un_hash u) unit_hash) (units w)
         then (w, Raise IntegrityError)
         else (set_units (units w ++ [{| un_uuid := unit_uuid; un_text := text;
                                         un_hash := unit_hash;
                                         un_embedding := embedding |}]) w,
               Ok tt)) ;;;
      ret unit_uuid
  end.

Definition insert_input (row : InputRow) : M DDWorld unit :=
  fun w =>
    if existsb (fun i => String.eqb (in_uuid i) (in_uuid row)) (inputs w)
    then (w, Raise IntegrityError)
    else (set_inputs (inputs w ++ [row]) w, Ok tt).

(** The loop over [units] inside the connection. *)
Fixpoint map_units (input_uuid : string) (us : list (string * string * string))
  : M DDWorld unit :=
  match us with
  | [] => ret tt
  | (unit_addr, unit_text, unit_hash) :: rest =>
      let full_unit_addr := (input_uuid ++ "-" ++ unit_addr)%string in
      unit_uuid <- _get_or_create_unit unit_text unit_hash ;;
      modify (fun w =>
                set_mappings
                  (mappings w ++
                     map (fun tk =>
                            {| mp_input_uuid := input_uuid;
                               mp_unit_addr := full_unit_addr;
                               mp_unit_uuid := unit_uuid;
                               mp_token_addr := fst tk;
                               mp_token_text := snd tk;
                               mp_embeddingID :=
                                 ("token-" ++ input_uuid ++ "-" ++ unit_addr
                                    ++ "-" ++ fst tk)%string |})
                       (tokenize unit_text))
                  w) ;;;
      map_units input_uuid rest
  end.

(** The HDF5 block; [create_group] raises [ValueError] on a name that
    exists. *)
Definition h5_store_input (input_uuid : string) (unit_count : Z)
           (us : list (string * string * string)) : M DDWorld unit :=
  fun w =>
    if h5_has input_uuid (h5_inputs w) then (w, Raise (ValueError "name already exists"))
    else
      (set_h5_inputs
         (h5_inputs w ++
            [(input_uuid,
              {| h5i_unit_count := unit_count;
                 h5i_units :=
                   map (fun u =>
                          match u with
                          | (unit_addr, unit_text, _) =>
                              let toks := tokenize unit_text in
                              ((input_uuid ++ "-" ++ unit_addr)%string,
                               {| h5u_original_unit := unit_text;
                                  h5u_tokens := map snd toks;
                                  h5u_token_addrs := map fst toks;
                                  h5u_embeddings :=
                                    map embedding_bytes (map snd toks) |})
                          end)
                     us |})])
         w, Ok tt).

(** [process_input]: the identifier and the unit count, as text. *)
Definition process_input (raw_input : string) : M DDWorld (string * string) :=
  input_uuid <- dd_uuid4 ;;
  match preprocess raw_input with
  | Raise e => raise e
  | Ok us =>
      let unit_count := Z.of_nat (List.length us) in
      match us with
      | [] => raise (ValueError "No valid units found in input text")
      | _ =>
          transaction
            (insert_input {| in_uuid := input_uuid; in_original_text := raw_input;
                             in_unit_count := unit_count;
                             in_batch_type := batch_type |} ;;;
             map_units input_uuid us) ;;;
          h5_store_input input_uuid unit_count us ;;;
          ret (input_uuid, str_of_Z unit_count)
      end
  end.

End WithProcessor.

End DDManager.

(** ** app/services/dd_service.py *)

Module DDService.
Import ZeroIndexMapper AddressManager DocumentManager FunctionService.

(** [create_document] passes its arguments to [process_document]. *)
Definition create_document (sha256_hex : string -> string) (content dbidL : string)
           (dbidS title source metadata : option string)
  : M World ProcessedDocument :=
  process_document sha256_hex content dbidL dbidS title source metadata.

(** [get_document]: an identifier with a colon is read as [L:S]. *)
Definition get_document (w : World) (doc_id : string)
  : outcome (option DocumentInfo) :=
  if contains ":" doc_id then
    let (dbidL, dbidS) := split_once ":" doc_id in
    DocumentManager.get_document w None (Some dbidL) (Some dbidS)
  else DocumentManager.get_document w (Some doc_id) None None.

Definition get_sentence (w : World) (sentence_uuid : string) : option SentenceInfo :=
  DocumentManager.get_sentence w sentence_uuid.

Definition search_by_token (w : World) (token_text : string)
  : option (list TokenMatch) :=
  DocumentManager.search_by_token w token_text.

Definition find_documents_with_sentence (sha256_hex : string -> string)
           (w : World) (sentence_text : string) : list SentenceHit :=
  DocumentManager.find_documents_with_sentence sha256_hex w sentence_text.

(** [create_address]: the levels joined by dashes, then the attributes,
    when there are some, joined by underscores after an underscore; the
    zero-index is [0]. *)
Definition full_address (levels : list string) (attributes : option (list string))
  : string :=
  let base_addr := join "-" levels in
  match attributes with
  | Some (a :: rest) => (base_addr ++ "_" ++ join "_" (a :: rest))%string
  | _ => base_addr
  end.

Definition create_address (levels : list string) (attributes : option (list string))
           (uuid_value addr_type : option string) : M World string :=
  AddressManager.create_address (full_address levels attributes)
    uuid_value addr_type 0.

Definition set_relation (source_addr target_addr relation_type : string)
  : M World bool :=
  AddressManager.set_relation source_addr target_addr relation_type.

End DDService.

(** ** app/api/v1/endpoints.py *)

Module Endpoints.
Import AddressManager DocumentManager.

(** What an endpoint answers: a body (status 200) or an
    [HTTPException] with its status code. *)
Inductive reply (A : Type) : Type :=
| Body (a : A)
| HTTPException (status_code : Z).
Arguments Body {A} a.
Arguments HTTPException {A} status_code.

(** How the [try] block of an endpoint ends: with a body, with an
    [HTTPException] raised in the block, or with another exception. *)
Inductive ending (A : Type) : Type :=
| Ends (r : reply A)
| OtherException.
Arguments Ends {A} r.
Arguments OtherException {A}.

(** [except Exception as e: raise HTTPException(status_code=500, ...)]:
    [HTTPException] derives from [Exception], so one raised in the block
    is caught as well. *)
Definition except_exception {A : Type} (e : ending A) : reply A :=
  match e with
  | Ends (Body a) => Body a
  | Ends (HTTPException _) => HTTPException 500
  | OtherException => HTTPException 500
  end.

(** [GET /documents/{doc_id}]. *)
Definition get_document (w : World) (doc_id : string) : reply DocumentInfo :=
  except_exception
    match DDService.get_document w doc_id with
    | Returned (Some document) => Ends (Body document)
    | Returned None => Ends (HTTPException 404)
    | Raised _ => OtherException
    | NameError _ => OtherException
    end.

(** [GET /sentences/{sentence_uuid}]. *)
Definition get_sentence (w : World) (sentence_uuid : string)
  : reply ZeroIndexMapper.SentenceInfo :=
  except_exception
    match DDService.get_sentence w sentence_uuid with
    | Some sentence => Ends (Body sentence)
    | None => Ends (HTTPException 404)
    end.

(** The body of [POST /search/]: the results and their count. *)
Inductive SearchResults : Type :=
| TokenResults (results : list TokenMatch) (count : Z)
| SentenceResults (results : list SentenceHit) (count : Z).

(** [POST /search/]; [len(results)] of [None] is a [TypeError]. *)
Definition search (sha256_hex : string -> string) (w : World)
           (query search_type : string) : reply SearchResults :=
  except_exception
    (if String.eqb search_type "token" then
       match DDService.search_by_token w query with
       | Some results =>
           Ends (Body (TokenResults results (Z.of_nat (List.length results))))
       | None => OtherException
       end
     else if String.eqb search_type "sentence" then
       let documents := DDService.find_documents_with_sentence sha256_hex w query in
       Ends (Body (SentenceResults documents (Z.of_nat (List.length documents))))
     else Ends (HTTPException 400)).

(** [POST /relations/]. *)
Definition create_relation (source_addr target_addr relation_type : string)
  : M World (reply unit) :=
  fun w =>
    match DDService.set_relation source_addr target_addr relation_type w with
    | (w', Ok success) =>
        (w', Ok (except_exception
                   (if (success : bool) then Ends (Body tt)
                    else Ends (HTTPException 400))))
    | (w', Raise _) => (w', Ok (except_exception OtherException))
    end.

End Endpoints.

(** ** A small store, for running the model *)

Module Sample.
Import DocumentManager.

(** A stream of distinct identifiers and an injective stand-in for the
    digest. *)
Definition sample_entropy (n : nat) : string := "u" ++ str_of_Z (Z.of_nat n).
Definition sample_hash (s : string) : string := s.

Definition two_sentences : string := "Cats are mammals. Dogs are mammals.".

(** The store after one document of two sentences, and what
    [process_document] returned for it. *)
Definition one_document_run : World * result ProcessedDocument :=
  process_document sample_hash two_sentences "Report" None None None None
    (empty_world sample_entropy).

Definition one_document : World := fst one_document_run.

Definition one_document_result : ProcessedDocument :=
  match snd one_document_run with
  | Ok d => d
  | Raise _ =>
      {| pd_uuid := EmptyString; pd_dbidL := EmptyString; pd_dbidS := EmptyString;
         pd_title := None; pd_source := None; pd_sentence_count := 0;
         pd_sentences := [] |}
  end.

(** The same document under the identifier that [_cell_to_addr] gives
    to every cell, ["current_document"]. *)
Definition current_document_entropy (n : nat) : string :=
  match n with
  | O => "current_document"
  | _ => sample_entropy n
  end.

Definition current_document : World :=
  fst (process_document sample_hash two_sentences "Report" None None None None
         (empty_world current_document_entropy)).

(** The store after a second document, whose one sentence is the
    second of the first document, and what [process_document] returned
    for it. *)
Definition second_document_run : World * result ProcessedDocument :=
  process_document sample_hash "Dogs are mammals." "Note" None None None None
    one_document.

Definition second_document : World := fst second_document_run.

Definition second_document_result : ProcessedDocument :=
  match snd second_document_run with
  | Ok d => d
  | Raise _ => one_document_result
  end.

(** A stream of identifiers of the shape [uuid.uuid4()] prints; the
    last group counts the draws. *)
Definition hex_char (d : N) : ascii :=
  nth (N.to_nat d)
    ["0"; "1"; "2"; "3"; "4"; "5"; "6"; "7"; "8"; "9"; "a"; "b"; "c"; "d"; "e"; "f"]%char
    "0"%char.

Fixpoint hex_digits (k : nat) (n : N) : string :=
  match k with
  | O => EmptyString
  | S k' => hex_digits k' (n / 16) ++ String (hex_char (n mod 16)) EmptyString
  end.

Definition uuid4_entropy (n : nat) : string :=
  "3f2a1b4c-9d8e-4f70-a1b2-" ++ hex_digits 12 (N.of_nat n).

(** The store after one document of two sentences under that stream:
    the document is [3f2a1b4c-9d8e-4f70-a1b2-000000000000], and its
    sentences are registered at [doc:<document>-0] and
    [doc:<document>-1]. *)
Definition uuid4_document_run : World * result ProcessedDocument :=
  process_document sample_hash two_sentences "Report" None None None None
    (empty_world uuid4_entropy).

Definition uuid4_document : World := fst uuid4_document_run.

Definition uuid4_document_result : ProcessedDocument :=
  match snd uuid4_document_run with
  | Ok d => d
  | Raise _ => one_document_result
  end.

Definition uuid4_first_address : string :=
  "doc:3f2a1b4c-9d8e-4f70-a1b2-000000000000-0".

Definition uuid4_second_address : string :=
  "doc:3f2a1b4c-9d8e-4f70-a1b2-000000000000-1".

(** An alias table with two mappings; the first identifier the stream
    yields is in use, the second is not. *)
Definition two_mappings : LStableManager.LSWorld :=
  {| LStableManager.lstable :=
       [ {| LStableManager.ls_dbidL := "Report";
            LStableManager.ls_dbidS := "abc";
            LStableManager.ls_description := None |};
         {| LStableManager.ls_dbidL := "Other";
            LStableManager.ls_dbidS := "u0";
            LStableManager.ls_description := None |} ];
     LStableManager.ls_files := [];
     LStableManager.ls_base_dir := "data";
     LStableManager.ls_rng := {| entropy := sample_entropy; drawn := 0 |} |}.

End Sample.

(* ===================================================================== *)
(** * Part II: properties                                                 *)
(* ===================================================================== *)

Module PyStrFacts.

Lemma split_char_nonempty sep s : split_char sep s <> [].
Proof.
  destruct s as [|c r]; simpl; [discriminate|].
  destruct (Ascii.eqb c sep); [discriminate|].
  destruct (split_char sep r); discriminate.
Qed.

Lemma split_char_cons sep c r :
  Ascii.eqb c sep = false ->
  exists p ps, split_char sep r = p :: ps /\
               split_char sep (String c r) = String c p :: ps.
Proof.
  intros Hc. simpl. rewrite Hc.
  destruct (split_char sep r) as [|p ps] eqn:E.
  - exfalso. eapply split_char_nonempty; eauto.
  - eauto.
Qed.

(** Splitting a text with no separator gives the text. *)
Lemma split_char_nosep sep d :
  contains sep d = false -> split_char sep d = [d].
Proof.
  induction d as [|c r IH]; simpl; [reflexivity|].
  unfold contains in *. simpl. rewrite Ascii.eqb_sym.
  destruct (Ascii.eqb c sep) eqn:E; simpl; [discriminate|].
  intros H. rewrite (IH H). reflexivity.
Qed.

(** Splitting [u ++ sep ++ d], where [d] has no separator, gives the
    parts of [u] followed by [d]. *)
Lemma split_char_snoc sep u d :
  contains sep d = false ->
  split_char sep (u ++ String sep d)%string = split_char sep u ++ [d].
Proof.
  intros Hd. induction u as [|c r IH]; simpl.
  - rewrite Ascii.eqb_refl. rewrite (split_char_nosep _ _ Hd). reflexivity.
  - destruct (Ascii.eqb c sep) eqn:E.
    + rewrite IH. reflexivity.
    + rewrite IH. destruct (split_char sep r) as [|p ps] eqn:Er.
      * exfalso. eapply split_char_nonempty; eauto.
      * reflexivity.
Qed.

(** [sep.join(s.split(sep)) == s]. *)
Lemma join_split_char sep s :
  join (String sep EmptyString) (split_char sep s) = s.
Proof.
  unfold join. induction s as [|c r IH]; simpl; [reflexivity|].
  destruct (Ascii.eqb c sep) eqn:E.
  - apply Ascii.eqb_eq in E. subst c.
    destruct (split_char sep r) as [|p ps] eqn:Er.
    + exfalso. eapply split_char_nonempty; eauto.
    + change (String.concat (String sep "") ("" :: p :: ps))
        with (String sep (String.concat (String sep "") (p :: ps))).
      rewrite IH. reflexivity.
  - destruct (split_char sep r) as [|p ps] eqn:Er.
    + exfalso. eapply split_char_nonempty; eauto.
    + destruct ps as [|q qs]; simpl in *; rewrite <- IH; reflexivity.
Qed.

Lemma lstrip_no_space c r :
  is_space c = false -> lstrip (String c r) = String c r.
Proof. intros H. simpl. rewrite H. reflexivity. Qed.

(** A run of digits has no white space to strip. *)
Lemma digit_not_space c : is_digit c = true -> is_space c = false.
Proof.
  unfold is_digit, is_space, in_range. intros H.
  apply andb_true_iff in H. destruct H as [H1 H2].
  apply N.leb_le in H1. apply N.leb_le in H2.
  repeat rewrite orb_false_iff. repeat split.
  - apply andb_false_iff. right. apply N.leb_gt. lia.
  - apply andb_false_iff. right. apply N.leb_gt. lia.
  - apply N.eqb_neq. lia.
Qed.

Lemma digit_not_char c (d : ascii) :
  is_digit c = true -> is_digit d = false -> Ascii.eqb c d = false.
Proof.
  intros Hc Hd. destruct (Ascii.eqb c d) eqn:E; [|reflexivity].
  apply Ascii.eqb_eq in E. subst. congruence.
Qed.

Lemma rstrip_digits s :
  forallb_str is_digit s = true -> rstrip s = s.
Proof.
  induction s as [|c r IH]; simpl; [reflexivity|].
  intros H. apply andb_true_iff in H. destruct H as [Hc Hr].
  rewrite (IH Hr). rewrite (digit_not_space _ Hc).
  rewrite andb_false_r. reflexivity.
Qed.

Lemma strip_digits s :
  forallb_str is_digit s = true -> strip s = s.
Proof.
  intros H. unfold strip.
  destruct s as [|c r]; [reflexivity|].
  pose proof H as H'. simpl in H'. apply andb_true_iff in H'.
  destruct H' as [Hc _].
  rewrite (lstrip_no_space _ _ (digit_not_space _ Hc)).
  apply rstrip_digits. exact H.
Qed.

Lemma int_body_ok_digits s b :
  forallb_str is_digit s = true -> int_body_ok b s = match s with
                                                   | EmptyString => b
                                                   | _ => true
                                                   end.
Proof.
  revert b. induction s as [|c r IH]; intros b H; simpl; [reflexivity|].
  simpl in H. apply andb_true_iff in H. destruct H as [Hc Hr].
  rewrite Hc. rewrite (IH true Hr). destruct r; reflexivity.
Qed.

Lemma remove_underscores_digits s :
  forallb_str is_digit s = true -> remove_underscores s = s.
Proof.
  induction s as [|c r IH]; simpl; [reflexivity|].
  intros H. apply andb_true_iff in H. destruct H as [Hc Hr].
  rewrite (digit_not_char c "_" Hc eq_refl). rewrite (IH Hr). reflexivity.
Qed.

Lemma contains_digits sep s :
  is_digit sep = false ->
  forallb_str is_digit s = true -> contains sep s = false.
Proof.
  intros Hsep. unfold contains.
  induction s as [|c r IH]; simpl; [reflexivity|].
  intros H. apply andb_true_iff in H. destruct H as [Hc Hr].
  rewrite (IH Hr). rewrite Ascii.eqb_sym.
  rewrite (digit_not_char c sep Hc Hsep). reflexivity.
Qed.

(** The decimal numeral of a [uint] is a run of digits. *)
Lemma string_of_uint_digits d :
  forallb_str is_digit (NilEmpty.string_of_uint d) = true.
Proof. induction d; simpl; auto. Qed.

Lemma string_of_uint_nonempty d :
  d <> Decimal.Nil -> NilEmpty.string_of_uint d <> EmptyString.
Proof. destruct d; simpl; congruence. Qed.

(** [int] reads back a run of digits printed from a [uint]. *)
Lemma int_unsigned_string_of_uint d :
  d <> Decimal.Nil ->
  int_unsigned (NilEmpty.string_of_uint d) = Some (Z.of_uint d).
Proof.
  intros Hd. unfold int_unsigned.
  rewrite (int_body_ok_digits _ false (string_of_uint_digits d)).
  rewrite (remove_underscores_digits _ (string_of_uint_digits d)).
  rewrite NilEmpty.usu.
  destruct (NilEmpty.string_of_uint d) eqn:E; [|reflexivity].
  exfalso. eapply string_of_uint_nonempty; eauto.
Qed.

Lemma digit_not_c_space c : is_digit c = true -> is_c_space c = false.
Proof.
  unfold is_digit, is_c_space, in_range. intros H.
  apply andb_true_iff in H. destruct H as [H1 H2].
  apply N.leb_le in H1. apply N.leb_le in H2.
  apply orb_false_iff. split.
  - apply andb_false_iff. right. apply N.leb_gt. lia.
  - apply N.eqb_neq. lia.
Qed.

Lemma rstrip_c_digits s :
  forallb_str is_digit s = true -> rstrip_c s = s.
Proof.
  induction s as [|c r IH]; simpl; [reflexivity|].
  intros H. apply andb_true_iff in H. destruct H as [Hc Hr].
  rewrite (IH Hr). rewrite (digit_not_c_space _ Hc).
  rewrite andb_false_r. reflexivity.
Qed.

Lemma int_strip_digits s :
  forallb_str is_digit s = true -> int_strip s = s.
Proof.
  intros H. unfold int_strip.
  destruct s as [|c r]; [reflexivity|].
  pose proof H as H'. simpl in H'. apply andb_true_iff in H'.
  destruct H' as [Hc _].
  simpl lstrip_c. rewrite (digit_not_c_space _ Hc).
  apply rstrip_c_digits. exact H.
Qed.

Lemma py_int_digits s :
  forallb_str is_digit s = true -> py_int s = int_unsigned s.
Proof.
  intros H. unfold py_int. rewrite (int_strip_digits _ H).
  destruct s as [|c r]; [reflexivity|].
  simpl in H. apply andb_true_iff in H. destruct H as [Hc _].
  destruct (Ascii.eqb c "-") eqn:E1.
  { apply Ascii.eqb_eq in E1. subst c. discriminate. }
  destruct (Ascii.eqb c "+") eqn:E2.
  { apply Ascii.eqb_eq in E2. subst c. discriminate. }
  destruct c as [[|] [|] [|] [|] [|] [|] [|] [|]]; try reflexivity;
    discriminate.
Qed.

(** The numeral of a non-negative [int] is a non-empty run of digits
    that [int] reads back. *)
Lemma str_of_Z_nonneg z :
  (0 <= z)%Z ->
  exists d, str_of_Z z = NilEmpty.string_of_uint d /\ d <> Decimal.Nil /\
            Z.of_uint d = z.
Proof.
  intros Hz. unfold str_of_Z. destruct z as [|p|p]; [| |lia].
  - exists Decimal.zero. repeat split. discriminate.
  - exists (Pos.to_uint p). repeat split.
    + apply DecimalPos.Unsigned.to_uint_nonnil.
    + unfold Z.of_uint. rewrite DecimalPos.Unsigned.of_to. reflexivity.
Qed.

Lemma str_of_Z_digits z :
  (0 <= z)%Z -> forallb_str is_digit (str_of_Z z) = true.
Proof.
  intros Hz. destruct (str_of_Z_nonneg z Hz) as (d & -> & _ & _).
  apply string_of_uint_digits.
Qed.

Lemma py_int_str_of_Z z :
  (0 <= z)%Z -> py_int (str_of_Z z) = Some z.
Proof.
  intros Hz. rewrite (py_int_digits _ (str_of_Z_digits z Hz)).
  destruct (str_of_Z_nonneg z Hz) as (d & -> & Hd & <-).
  apply int_unsigned_string_of_uint. exact Hd.
Qed.

Lemma append_assoc (s t v : string) :
  ((s ++ t) ++ v)%string = (s ++ t ++ v)%string.
Proof. induction s; simpl; congruence. Qed.

Lemma concat_snoc sep l x :
  l <> [] ->
  String.concat sep (l ++ [x]) = (String.concat sep l ++ sep ++ x)%string.
Proof.
  induction l as [|a l IH]; [congruence|]. intros _.
  destruct l as [|b l].
  - simpl. reflexivity.
  - change (String.concat sep ((a :: b :: l) ++ [x]))
      with (a ++ sep ++ String.concat sep ((b :: l) ++ [x]))%string.
    rewrite IH by discriminate.
    change (String.concat sep (a :: b :: l))
      with (a ++ sep ++ String.concat sep (b :: l))%string.
    rewrite !append_assoc. reflexivity.
Qed.

Lemma length_append (s t : string) :
  String.length (s ++ t) = String.length s + String.length t.
Proof. induction s; simpl; auto. Qed.

Lemma lstrip_blank s : blank s -> lstrip s = EmptyString.
Proof.
  unfold blank. induction s as [|c r IH]; simpl; [reflexivity|].
  intros H. apply andb_true_iff in H. destruct H as [Hc Hr].
  rewrite Hc. exact (IH Hr).
Qed.

(** Stripping a text of white space only leaves nothing. *)
Lemma strip_blank s : blank s -> strip s = EmptyString.
Proof. intros H. unfold strip. rewrite (lstrip_blank _ H). reflexivity. Qed.

Lemma blank_cons c p : is_space c = true -> blank p -> blank (String c p).
Proof. unfold blank. simpl. intros -> ->. reflexivity. Qed.

(** Every piece of a split text of white space is white space. *)
Lemma split_str_aux_blank sep s :
  blank s -> forall skip, Forall blank (split_str_aux sep s skip).
Proof.
  induction s as [|c r IH]; intros H skip; simpl.
  - repeat constructor.
  - unfold blank in H. simpl in H. apply andb_true_iff in H.
    destruct H as [Hc Hr]. destruct skip as [|k]; [|apply IH; exact Hr].
    match goal with |- context [if ?b then _ else _] => destruct b end.
    + constructor; [reflexivity | apply IH; exact Hr].
    + pose proof (IH Hr 0) as F.
      destruct (split_str_aux sep r 0) as [|p ps].
      * repeat constructor. apply blank_cons; [exact Hc | reflexivity].
      * inversion F; subst. constructor; [|assumption].
        apply blank_cons; assumption.
Qed.

Lemma class_neq (p : ascii -> bool) c d :
  p c = true -> p d = false -> Ascii.eqb c d = false.
Proof.
  intros Hc Hd. destruct (Ascii.eqb c d) eqn:E; [|reflexivity].
  apply Ascii.eqb_eq in E. subst. congruence.
Qed.

Lemma alpha_not_space c : is_alpha c = true -> is_space c = false.
Proof.
  unfold is_alpha, is_upper, is_lower, is_space, in_range. intros H.
  apply orb_true_iff in H.
  repeat rewrite orb_false_iff. repeat split;
    try (apply andb_false_iff); try (apply N.eqb_neq);
    destruct H as [H|H]; apply andb_true_iff in H; destruct H as [H1 H2];
    apply N.leb_le in H1; apply N.leb_le in H2;
    try (right; apply N.leb_gt; lia); try lia;
    left; apply N.leb_gt; lia.
Qed.

Lemma last_char_snoc s c : last_char (s ++ String c EmptyString) = Some c.
Proof.
  induction s as [|a s IH]; simpl; [reflexivity|].
  rewrite IH. destruct (s ++ String c EmptyString)%string eqn:E; [|reflexivity].
  destruct s; discriminate.
Qed.

Lemma drop_last_snoc s c : drop_last (s ++ String c EmptyString) = s.
Proof.
  induction s as [|a s IH]; simpl; [reflexivity|].
  rewrite IH. destruct (s ++ String c EmptyString)%string eqn:E; [|reflexivity].
  destruct s; discriminate.
Qed.

Lemma last_char_app s t :
  t <> EmptyString -> last_char (s ++ t) = last_char t.
Proof.
  intros Ht. induction s as [|a s IH]; simpl; [reflexivity|].
  rewrite IH. destruct (s ++ t)%string eqn:E; [|reflexivity].
  destruct s; simpl in E; [contradiction | discriminate].
Qed.

Lemma last_char_some c r : last_char (String c r) <> None.
Proof.
  revert c. induction r as [|a r IH]; intros c; simpl; [discriminate|].
  apply IH.
Qed.

Lemma last_char_forall p s d :
  forallb_str p s = true -> last_char s = Some d -> p d = true.
Proof.
  induction s as [|a s IH]; simpl; [discriminate|].
  intros H. apply andb_true_iff in H. destruct H as [Ha Hs].
  destruct s; [intros [= <-]; exact Ha | apply IH; exact Hs].
Qed.

Lemma rstrip_last s d :
  last_char s = Some d -> is_space d = false -> rstrip s = s.
Proof.
  induction s as [|a s IH]; [discriminate|].
  intros Hl Hd. destruct s as [|b s].
  - simpl in *. injection Hl as ->. rewrite Hd. reflexivity.
  - change (last_char (String a (String b s))) with (last_char (String b s)) in Hl.
    change (rstrip (String a (String b s)))
      with (let r' := rstrip (String b s) in
            if is_empty r' && is_space a then EmptyString else String a r').
    rewrite (IH Hl Hd). reflexivity.
Qed.

(** A text that neither starts nor ends with white space is its own
    [strip]. *)
Lemma strip_id c r d :
  is_space c = false -> last_char (String c r) = Some d -> is_space d = false ->
  strip (String c r) = String c r.
Proof.
  intros Hc Hl Hd. unfold strip. rewrite (lstrip_no_space _ _ Hc).
  exact (rstrip_last _ _ Hl Hd).
Qed.

Lemma append_nil_r (s : string) : (s ++ EmptyString)%string = s.
Proof. induction s; simpl; congruence. Qed.

Lemma contains_cons d c s :
  contains d (String c s) = Ascii.eqb d c || contains d s.
Proof. reflexivity. Qed.

Lemma forallb_str_impl (p q : ascii -> bool) s :
  (forall c, p c = true -> q c = true) ->
  forallb_str p s = true -> forallb_str q s = true.
Proof.
  intros Hpq. induction s as [|c s IH]; simpl; [reflexivity|].
  intros H. apply andb_true_iff in H. destruct H as [Hc Hs].
  rewrite (Hpq _ Hc), (IH Hs). reflexivity.
Qed.

Lemma forallb_str_app p s t :
  forallb_str p (s ++ t) = forallb_str p s && forallb_str p t.
Proof.
  induction s as [|c s IH]; simpl; [reflexivity|].
  rewrite IH, andb_assoc. reflexivity.
Qed.

Lemma word_not_space c : is_word c = true -> is_space c = false.
Proof.
  unfold is_word. intros H. apply orb_true_iff in H. destruct H as [H|H].
  - apply orb_true_iff in H. destruct H as [H|H];
      auto using alpha_not_space, digit_not_space.
  - apply N.eqb_eq in H. unfold is_space, in_range. rewrite H. reflexivity.
Qed.

Lemma startswith_char c r d :
  startswith (String c r) (String d EmptyString) = Ascii.eqb d c.
Proof.
  unfold startswith. simpl. destruct (ascii_dec d c) as [->|N].
  - rewrite Ascii.eqb_refl. destruct r; reflexivity.
  - symmetry. apply Ascii.eqb_neq. exact N.
Qed.

Lemma existsb_str_app p s t :
  existsb_str p (s ++ t) = existsb_str p s || existsb_str p t.
Proof.
  induction s as [|c s IH]; simpl; [reflexivity|].
  rewrite IH, orb_assoc. reflexivity.
Qed.

Lemma existsb_lstrip p s : existsb_str p (lstrip s) = true -> existsb_str p s = true.
Proof.
  induction s as [|c r IH]; simpl; [auto|].
  destruct (is_space c); [|auto]. intros H. rewrite (IH H). apply orb_true_r.
Qed.

Lemma existsb_rstrip p s : existsb_str p (rstrip s) = true -> existsb_str p s = true.
Proof.
  induction s as [|c r IH]; simpl; [auto|].
  destruct (is_empty (rstrip r) && is_space c); simpl; [discriminate|].
  intros H. apply orb_true_iff in H. destruct H as [H|H].
  - rewrite H. reflexivity.
  - rewrite (IH H). apply orb_true_r.
Qed.

Lemma contains_strip c s : contains c s = false -> contains c (strip s) = false.
Proof.
  unfold contains, strip. intros H.
  destruct (existsb_str (Ascii.eqb c) (rstrip (lstrip s))) eqn:E; [|reflexivity].
  apply existsb_rstrip, existsb_lstrip in E. congruence.
Qed.

Lemma NoDup_snoc {A : Type} (l : list A) (x : A) :
  NoDup l -> ~ In x l -> NoDup (l ++ [x]).
Proof.
  intros Hl Hx. apply NoDup_rev in Hl.
  rewrite <- (rev_involutive (l ++ [x])). apply NoDup_rev.
  rewrite rev_app_distr. simpl. constructor; [|exact Hl].
  rewrite <- in_rev. exact Hx.
Qed.

End PyStrFacts.

Module ZeroIndexMapperFacts.
Import PyStrFacts ZeroIndexMapper.

(** C9. For every sentence identifier [u], dashes included, and every
    position [p >= 0], [resolve_token_addr (get_token_addr u p)] is
    [(u, p)]. *)
Theorem token_addr_round_trip (u : string) (p : Z) :
  (0 <= p)%Z ->
  resolve_token_addr (get_token_addr u p) = Some (u, p).
Proof.
  intros Hp. unfold resolve_token_addr, get_token_addr.
  change (u ++ "-" ++ str_of_Z p)%string
    with (u ++ String "-" (str_of_Z p))%string.
  rewrite split_char_snoc
    by (apply contains_digits; [reflexivity | apply str_of_Z_digits; exact Hp]).
  assert (Hlen : (List.length (split_char "-" u ++ [str_of_Z p]) <? 2)%nat = false).
  { rewrite length_app. simpl. apply Nat.ltb_ge.
    pose proof (split_char_nonempty "-" u).
    destruct (split_char "-" u); [congruence | simpl; lia]. }
  rewrite Hlen.
  unfold all_but_last, last_part.
  rewrite removelast_last, last_last.
  rewrite (py_int_str_of_Z p Hp).
  rewrite join_split_char. reflexivity.
Qed.

Lemma token_addr_round_trip_witness :
  (0 <= 3)%Z /\
  resolve_token_addr
    (get_token_addr "123e4567-e89b-42d3-a456-426614174000" 3)
  = Some ("123e4567-e89b-42d3-a456-426614174000", 3%Z).
Proof.
  split; [lia | apply (token_addr_round_trip _ 3); lia].
Defined.

End ZeroIndexMapperFacts.

Module AddressManagerFacts.
Import PyStrFacts ZeroIndexMapper AddressManager.

(** The parent parsed from an address is strictly shorter. *)
Lemma parent_of_shorter addr p :
  parent_of addr = Some p -> String.length p < String.length addr.
Proof.
  unfold parent_of. destruct (contains "-" addr); [|discriminate].
  destruct (1 <? List.length (split_char "-" addr))%nat eqn:E; [|discriminate].
  intros [= <-]. apply Nat.ltb_lt in E.
  pose proof (join_split_char "-" addr) as J.
  destruct (@exists_last _ (split_char "-" addr) (split_char_nonempty _ _))
    as (l & x & Hl).
  rewrite Hl in E, J |- *. unfold all_but_last, join in *.
  rewrite removelast_last.
  assert (l <> []).
  { destruct l; [simpl in E; lia | discriminate]. }
  rewrite concat_snoc in J by assumption.
  rewrite <- J. rewrite !length_append. simpl. lia.
Qed.

Lemma has_addr_update w addr uv ty zi a :
  has_addr (update_address addr uv ty zi w) a = has_addr w a.
Proof.
  unfold has_addr, update_address. simpl.
  induction (address_book w) as [|r l IH]; simpl; [reflexivity|].
  rewrite IH. destruct (String.eqb (ab_addr r) addr); reflexivity.
Qed.

Lemma has_addr_insert w row a :
  has_addr (set_address_book (address_book w ++ [row]) w) a
  = has_addr w a || String.eqb (ab_addr row) a.
Proof.
  unfold has_addr. simpl. rewrite existsb_app. simpl.
  rewrite orb_false_r. reflexivity.
Qed.

Lemma eqb_length_neq (s t : string) :
  String.length s <> String.length t -> String.eqb s t = false.
Proof.
  intros H. apply String.eqb_neq. intros ->. congruence.
Qed.

(** [ensure_parent] keeps the addresses longer than the parent, as
    soon as the recursive call does. *)
Lemma ensure_parent_has_addr create addr w w1 r1 a :
  (forall p w0 w2 r2, parent_of addr = Some p ->
                      create p w0 = (w2, r2) -> has_addr w2 a = has_addr w0 a) ->
  ensure_parent create (parent_of addr) w = (w1, r1) ->
  has_addr w1 a = has_addr w a.
Proof.
  intros Hc. unfold ensure_parent, bind, gets, ret.
  destruct (parent_of addr) as [p|] eqn:Hp; simpl.
  - destruct (negb (is_empty p)).
    + destruct (has_addr w p).
      * intros [= <- _]. reflexivity.
      * destruct (create p w) as [w2 r2] eqn:Hrec.
        pose proof (Hc p w w2 r2 eq_refl Hrec).
        destruct r2; intros [= <- _]; assumption.
    + intros [= <- _]. reflexivity.
  - intros [= <- _]. reflexivity.
Qed.

(** [create_address] only adds addresses that are no longer than its
    argument. *)
Lemma create_address_rec_has_addr fuel :
  forall addr uv ty zi w w' r a,
    create_address_rec fuel addr uv ty zi w = (w', r) ->
    String.length addr < String.length a ->
    has_addr w' a = has_addr w a.
Proof.
  induction fuel as [|fuel IH]; intros addr uv ty zi w w' r a Hrun Hlen.
  - simpl in Hrun. inversion Hrun; subst. reflexivity.
  - simpl in Hrun. unfold bind at 1, gets at 1 in Hrun.
    destruct (has_addr w addr) eqn:Hex.
    + unfold bind, modify, ret in Hrun.
      inversion Hrun; subst. apply has_addr_update.
    + unfold bind at 1 in Hrun.
      destruct (ensure_parent _ (parent_of addr) w) as [w1 r1] eqn:Hs.
      assert (Hstep : has_addr w1 a = has_addr w a).
      { eapply ensure_parent_has_addr; [|exact Hs].
        intros p w0 w2 r2 Hp Hrec. eapply IH; [exact Hrec|].
        apply parent_of_shorter in Hp. lia. }
      destruct r1 as [[]|e].
      * unfold bind, insert_address, ret in Hrun.
        destruct (has_addr w1 addr) eqn:Hin.
        -- inversion Hrun; subst. exact Hstep.
        -- inversion Hrun; subst. rewrite has_addr_insert. simpl.
           rewrite Hstep. rewrite eqb_length_neq by lia.
           apply orb_false_r.
      * inversion Hrun; subst. exact Hstep.
Qed.

Lemma row_of_update w addr u ty zi :
  has_addr w addr = true ->
  exists row, row_of (update_address addr (Some u) ty zi w) addr = Some row /\
              ab_uuid row = Some u.
Proof.
  unfold has_addr, row_of, update_address. simpl.
  induction (address_book w) as [|r l IH]; simpl; [discriminate|].
  destruct (String.eqb (ab_addr r) addr) eqn:E; simpl.
  - intros _. rewrite E. eexists; split; reflexivity.
  - rewrite E. exact IH.
Qed.

Lemma row_of_insert w row :
  has_addr w (ab_addr row) = false ->
  row_of (set_address_book (address_book w ++ [row]) w) (ab_addr row) = Some row.
Proof.
  unfold has_addr, row_of. simpl.
  induction (address_book w) as [|r l IH]; simpl.
  - intros _. rewrite String.eqb_refl. reflexivity.
  - destruct (String.eqb (ab_addr r) (ab_addr row)); simpl; [discriminate|].
    exact IH.
Qed.

(** With fuel above the length of the address, [create_address] returns
    the address, and the row of the address then holds the identifier
    that was passed. *)
Lemma create_address_rec_ok fuel :
  forall addr uv ty zi w,
    String.length addr < fuel ->
    exists w', create_address_rec fuel addr uv ty zi w = (w', Ok addr) /\
               forall u, uv = Some u ->
                         exists row, row_of w' addr = Some row /\
                                     ab_uuid row = Some u.
Proof.
  induction fuel as [|fuel IH]; intros addr uv ty zi w Hfuel; [lia|].
  simpl. unfold bind at 1, gets at 1.
  destruct (has_addr w addr) eqn:Hex.
  - unfold bind, modify, ret.
    eexists; split; [reflexivity|].
    intros u ->. apply row_of_update. exact Hex.
  - assert (Hstep : exists w1,
               ensure_parent
                 (fun parent => create_address_rec fuel parent None ty 0)
                 (parent_of addr) w = (w1, Ok tt) /\
               has_addr w1 addr = false).
    { unfold ensure_parent, bind, gets, ret.
      destruct (parent_of addr) as [p|] eqn:Hp; simpl.
      - destruct (negb (is_empty p)).
        + destruct (has_addr w p).
          * eexists; split; [reflexivity | exact Hex].
          * pose proof (parent_of_shorter _ _ Hp) as Hsh.
            destruct (IH p None ty 0%Z w ltac:(lia)) as (w2 & Hrec & _).
            rewrite Hrec. eexists; split; [reflexivity|].
            rewrite (create_address_rec_has_addr _ _ _ _ _ _ _ _ addr Hrec Hsh).
            exact Hex.
        + eexists; split; [reflexivity | exact Hex].
      - eexists; split; [reflexivity | exact Hex]. }
    destruct Hstep as (w1 & Hs & Hno).
    unfold bind at 1. rewrite Hs.
    unfold bind, insert_address, ret. rewrite Hno.
    eexists; split; [reflexivity|].
    intros u ->.
    match goal with
    | |- context [set_address_book (_ ++ [?row]) _] =>
        exists row; split; [apply (row_of_insert w1 row); exact Hno | reflexivity]
    end.
Qed.

Lemma get_address_uuid w addr row :
  row_of w addr = Some row ->
  exists info, get_address w addr = Some info /\ ai_uuid info = ab_uuid row.
Proof.
  unfold row_of, get_address. intros ->. eexists; split; reflexivity.
Qed.

(** *** What the lookups raise *)

Lemma map_addr_to_uuid_raises w a e :
  map_addr_to_uuid w a = Raise e ->
  e = ValueError "invalid literal for int() with base 10" \/ e = OverflowError.
Proof.
  unfold map_addr_to_uuid. destruct (_ <? 2)%nat; [discriminate|].
  destruct (py_int _) as [p|]; [|intros [= <-]; auto].
  destruct (sqlite_integer p); [discriminate | intros [= <-]; auto].
Qed.

Lemma get_token_info_raises w t e :
  get_token_info w t = Raise e -> e = OverflowError.
Proof.
  unfold get_token_info. destruct (resolve_token_addr t) as [[su p]|]; [|discriminate].
  destruct (sqlite_integer p); simpl; [|intros [= <-]; reflexivity].
  destruct (join_tokens _ _) as [|[tk m] rest]; [discriminate|].
  destruct (find _ _); discriminate.
Qed.

Lemma resolve_dotted_token_raises w a e :
  resolve_dotted_token w a = Raise e -> e = OverflowError.
Proof.
  unfold resolve_dotted_token. destruct (py_int _) as [p|]; [|discriminate].
  destruct (map_addr_to_uuid w _) as [[su|]|e0] eqn:Hm.
  - destruct (is_empty su); [discriminate|].
    destruct (get_token_info w _) as [[ti|]|e1] eqn:Ht; try discriminate.
    pose proof (get_token_info_raises _ _ _ Ht) as ->. intros [= <-]. reflexivity.
  - discriminate.
  - destruct (map_addr_to_uuid_raises _ _ _ Hm) as [-> | ->];
      [discriminate | intros [= <-]; reflexivity].
Qed.

(** Whatever [resolve_address] adds to a registered address, the
    ["uuid"] key stays the one of the address book; and the call
    returns, unless the address is of type ["token"] and a position
    cannot be bound. *)
Lemma resolve_plain_registered w addr info r :
  get_address w addr = Some info ->
  resolve_plain w addr = Ok r ->
  exists c o t s p, r = Registered info c o t s p.
Proof.
  intros H. unfold resolve_plain. rewrite H.
  destruct (is_type (ai_type info) "sentence" && truthy (ai_uuid info)).
  { destruct (get_sentence_info w _); intros [= <-]; repeat eexists. }
  destruct (is_type (ai_type info) "token" && truthy (ai_uuid info));
    [|intros [= <-]; repeat eexists].
  destruct (contains "." addr).
  - destruct (resolve_dotted_token w addr) as [[[[tx su] p]|]|e0];
      cbn [result_bind]; [| |discriminate]; intros [= <-]; repeat eexists.
  - destruct (contains "-" _); [|intros [= <-]; repeat eexists].
    destruct (get_token_info w _) as [[ti|]|e0];
      cbn [result_bind]; [| |discriminate]; intros [= <-]; repeat eexists.
Qed.

Lemma resolve_plain_returns w addr info :
  get_address w addr = Some info ->
  is_type (ai_type info) "token" = false ->
  exists c o t s p, resolve_plain w addr = Ok (Registered info c o t s p).
Proof.
  intros H Hty. unfold resolve_plain. rewrite H, Hty. cbn [andb].
  destruct (is_type (ai_type info) "sentence" && truthy (ai_uuid info));
    [destruct (get_sentence_info w _)|]; repeat eexists.
Qed.

Lemma resolve_plain_raises w addr info e :
  get_address w addr = Some info ->
  resolve_plain w addr = Raise e ->
  e = OverflowError /\ is_type (ai_type info) "token" = true.
Proof.
  intros H. unfold resolve_plain. rewrite H.
  destruct (is_type (ai_type info) "sentence" && truthy (ai_uuid info)).
  { destruct (get_sentence_info w _); discriminate. }
  destruct (is_type (ai_type info) "token") eqn:Hty; [|discriminate].
  destruct (truthy (ai_uuid info)); [|discriminate]. cbn [andb].
  destruct (contains "." addr).
  - destruct (resolve_dotted_token w addr) as [[[[tx su] p]|]|e0] eqn:Hd;
      try discriminate.
    pose proof (resolve_dotted_token_raises _ _ _ Hd) as ->.
    intros [= <-]. auto.
  - destruct (contains "-" _); [|discriminate].
    destruct (get_token_info w _) as [[ti|]|e0] eqn:Ht; try discriminate.
    pose proof (get_token_info_raises _ _ _ Ht) as ->.
    intros [= <-]. auto.
Qed.

(** After [create_address a u] with an identifier [u], the call returns
    [a] and [get_address a] has ["uuid"] equal to [u]; so has
    [resolve_address a] whenever it returns, and it returns for every
    address that is not of type ["token"]. *)
Lemma address_round_trip_or_overflow
      (w : World) (a u : string) (ty : option string) :
  exists w',
    create_address a (Some u) ty 0 w = (w', Ok a) /\
    exists info,
      get_address w' a = Some info /\ ai_uuid info = Some u /\
      match resolve_address w' a None with
      | Ok res => resolved_uuid (res_main res) = Some u
      | Raise e => e = OverflowError /\ is_type (ai_type info) "token" = true
      end.
Proof.
  unfold create_address.
  destruct (create_address_rec_ok (S (String.length a)) a (Some u) ty 0 w
              ltac:(lia)) as (w' & Hrun & Hrow).
  exists w'. split; [exact Hrun|].
  destruct (Hrow u eq_refl) as (row & Hfind & Hu).
  destruct (get_address_uuid _ _ _ Hfind) as (info & Hget & Hi).
  rewrite Hu in Hi. exists info. split; [exact Hget|]. split; [exact Hi|].
  unfold resolve_address.
  destruct (resolve_plain w' a) as [r|e] eqn:Hr; cbn [result_bind].
  - destruct (resolve_plain_registered _ _ _ _ Hget Hr) as (c & o & t & s & p & ->).
    cbn [truthy res_main resolved_uuid]. exact Hi.
  - exact (resolve_plain_raises _ _ _ _ Hget Hr).
Qed.

(** *** Relations: what [INSERT OR REPLACE] leaves *)

Lemma same_edge_refl a b c :
  same_edge a b c {| rel_source_uuid := a; rel_target_uuid := b;
                     rel_relation_type := c |} = true.
Proof. unfold same_edge. simpl. rewrite !String.eqb_refl. reflexivity. Qed.

Lemma filter_filter {A} (p : A -> bool) l :
  filter p (filter p l) = filter p l.
Proof.
  induction l as [|x l IH]; simpl; [reflexivity|].
  destruct (p x) eqn:E; simpl; rewrite ?E, IH; reflexivity.
Qed.

Lemma filter_none {A} (p : A -> bool) l :
  filter p (filter (fun x => negb (p x)) l) = [].
Proof.
  induction l as [|x l IH]; simpl; [reflexivity|].
  destruct (p x) eqn:E; simpl; rewrite ?E; exact IH.
Qed.

(** Replacing an edge twice is replacing it once. *)
Lemma insert_or_replace_twice a b c w :
  insert_or_replace_relation a b c (insert_or_replace_relation a b c w)
  = insert_or_replace_relation a b c w.
Proof.
  unfold insert_or_replace_relation. simpl.
  rewrite filter_app, filter_filter. simpl.
  rewrite same_edge_refl. simpl. rewrite app_nil_r. reflexivity.
Qed.

Lemma insert_or_replace_count a b c w :
  List.length (filter (same_edge a b c)
                 (relations (insert_or_replace_relation a b c w))) = 1.
Proof.
  unfold insert_or_replace_relation. simpl.
  rewrite filter_app, filter_none. simpl.
  rewrite same_edge_refl. reflexivity.
Qed.

(** The edges other than the one that is set are kept, in their order. *)
Lemma insert_or_replace_others a b c w :
  filter (fun r => negb (same_edge a b c r))
    (relations (insert_or_replace_relation a b c w))
  = filter (fun r => negb (same_edge a b c r)) (relations w).
Proof.
  unfold insert_or_replace_relation. simpl.
  rewrite filter_app, filter_filter. simpl.
  rewrite same_edge_refl. simpl. apply app_nil_r.
Qed.

(** On a store where the two addresses resolve to the identifiers [s]
    and [t], [set_relation] returns [True], the table then holds exactly
    one row for the edge [(s, t, ty)] and the other edges as they were,
    and a second call with the same arguments returns [True] again and
    leaves the store as the first call left it.  (Such a store has a
    document whose identifier holds no dash.) *)
Lemma insert_or_replace_relation_idempotent (w : World) (src tgt ty s t : string) :
  map_addr_to_uuid w src = Ok (Some s) -> is_empty s = false ->
  map_addr_to_uuid w tgt = Ok (Some t) -> is_empty t = false ->
  exists w1,
    set_relation src tgt ty w = (w1, Ok true) /\
    set_relation src tgt ty w1 = (w1, Ok true) /\
    List.length (filter (same_edge s t ty) (relations w1)) = 1 /\
    filter (fun r => negb (same_edge s t ty r)) (relations w1)
    = filter (fun r => negb (same_edge s t ty r)) (relations w).
Proof.
  intros Hs Hse Ht Hte.
  exists (insert_or_replace_relation s t ty (create_relations_table w)).
  assert (Hs1 : map_addr_to_uuid
                  (insert_or_replace_relation s t ty (create_relations_table w)) src
                = Ok (Some s)) by exact Hs.
  assert (Ht1 : map_addr_to_uuid
                  (insert_or_replace_relation s t ty (create_relations_table w)) tgt
                = Ok (Some t)) by exact Ht.
  unfold set_relation, bind, query, modify, ret.
  rewrite Hs, Ht, Hs1, Ht1. simpl. rewrite Hse, Hte. simpl.
  change (create_relations_table
            (insert_or_replace_relation s t ty (create_relations_table w)))
    with (insert_or_replace_relation s t ty (create_relations_table w)).
  rewrite insert_or_replace_twice.
  repeat split.
  - apply insert_or_replace_count.
  - apply (insert_or_replace_others s t ty (create_relations_table w)).
Qed.

End AddressManagerFacts.

(** ** Frame rules: what a method leaves alone *)

Module Frame.
Import AddressManager DocumentManager.
Export FrameVocabulary.

#[export] Instance doc_sentence_map_apart : Apart doc_sentence_map.
Proof. split; unfold ignores; intros; reflexivity. Qed.

#[export] Instance relations_apart : Apart relations.
Proof. split; unfold ignores; intros; reflexivity. Qed.

#[export] Instance relations_created_apart : Apart relations_created.
Proof. split; unfold ignores; intros; reflexivity. Qed.

#[export] Instance entropy_apart : Apart (fun w => entropy (rng w)).
Proof. split; unfold ignores; intros; reflexivity. Qed.

#[export] Instance sentences_apart : Apart sentences.
Proof. split; unfold ignores; intros; reflexivity. Qed.

#[export] Instance documents_apart : Apart documents.
Proof. split; unfold ignores; intros; reflexivity. Qed.

#[export] Instance pair_apart {X Y : Type} (p : World -> X) (q : World -> Y) :
  Apart p -> Apart q -> Apart (fun w => (p w, q w)).
Proof.
  intros [] []. split; unfold ignores in *; intros; f_equal; auto.
Qed.

Section Rules.
Context {X : Type} (proj : World -> X).

Lemma keeps_ret {A} (a : A) : keeps proj (ret a).
Proof. intros w w' r [= <- _]. reflexivity. Qed.

Lemma keeps_raise {A} e : keeps proj (@raise World A e).
Proof. intros w w' r [= <- _]. reflexivity. Qed.

Lemma keeps_gets {A} (f : World -> A) : keeps proj (gets f).
Proof. intros w w' r [= <- _]. reflexivity. Qed.

Lemma keeps_query {A} (q : World -> result A) : keeps proj (query q).
Proof. intros w w' r [= <- _]. reflexivity. Qed.

Lemma keeps_modify (f : World -> World) :
  (forall w, proj (f w) = proj w) -> keeps proj (modify f).
Proof. intros H w w' r [= <- _]. apply H. Qed.

Lemma keeps_bind {A B} (m : M World A) (f : A -> M World B) :
  keeps proj m -> (forall a, keeps proj (f a)) -> keeps proj (bind m f).
Proof.
  intros Hm Hf w w' r. unfold bind.
  destruct (m w) as [w1 [a|e]] eqn:E.
  - intros H. rewrite (Hf a _ _ _ H). eapply Hm; eauto.
  - intros [= <- _]. eapply Hm; eauto.
Qed.

Lemma keeps_if {A} (b : bool) (m1 m2 : M World A) :
  keeps proj m1 -> keeps proj m2 -> keeps proj (if b then m1 else m2).
Proof. destruct b; auto. Qed.

(** An invariant that reads [proj] only is preserved by what keeps
    [proj]. *)
Lemma preserves_keeps {A} (I : World -> Prop) (m : M World A) :
  (forall w w', proj w' = proj w -> I w -> I w') ->
  keeps proj m -> preserves I m.
Proof. intros HI Hk w w' r Hw Hm. exact (HI w w' (Hk _ _ _ Hm) Hw). Qed.
End Rules.

Section PreservesRules.
Context (I : World -> Prop).

Lemma preserves_ret {A} (a : A) : preserves I (ret a).
Proof. intros w w' r Hw [= <- _]. exact Hw. Qed.

Lemma preserves_bind {A B} (m : M World A) (f : A -> M World B) :
  preserves I m -> (forall a, preserves I (f a)) -> preserves I (bind m f).
Proof.
  intros Hm Hf w w' r Hw. unfold bind.
  destruct (m w) as [w1 [a|e]] eqn:E.
  - intros H. exact (Hf a _ _ _ (Hm _ _ _ Hw E) H).
  - intros [= <- _]. exact (Hm _ _ _ Hw E).
Qed.

Lemma preserves_if {A} (b : bool) (m1 m2 : M World A) :
  preserves I m1 -> preserves I m2 -> preserves I (if b then m1 else m2).
Proof. destruct b; auto. Qed.
End PreservesRules.

(** *** The writes of the document manager, one table each *)

Section Writes.
Context {X : Type} (proj : World -> X) `{!Apart proj}.

Lemma uuid4_keeps : keeps proj uuid4.
Proof. intros w w' r [= <- _]. apply apart_rng. Qed.

Lemma insert_document_keeps row :
  ignores proj set_documents -> keeps proj (insert_document row).
Proof.
  intros Hd w w' r. unfold insert_document.
  destruct (existsb _ _); intros [= <- _]; [reflexivity | apply Hd].
Qed.

Lemma insert_token_keeps t h : keeps proj (insert_token t h).
Proof.
  intros w w' r. unfold insert_token.
  destruct (existsb _ _); intros [= <- _]; [reflexivity | apply apart_tokens].
Qed.

Lemma insert_address_keeps a u t p z : keeps proj (insert_address a u t p z).
Proof.
  intros w w' r. unfold insert_address.
  destruct (has_addr w a); intros [= <- _]; [reflexivity | apply apart_address_book].
Qed.

Lemma h5_store_sentence_keeps u h t : keeps proj (h5_store_sentence u h t).
Proof.
  apply keeps_modify. intros w.
  destruct (h5_has _ _); [reflexivity | apply apart_h5_sentences].
Qed.

Lemma h5_store_token_keeps a u p t : keeps proj (h5_store_token a u p t).
Proof.
  apply keeps_modify. intros w.
  destruct (h5_has _ _); [reflexivity | apply apart_h5_tokens].
Qed.

Lemma h5_store_document_keeps u d : keeps proj (h5_store_document u d).
Proof.
  apply keeps_modify. intros w.
  destruct (h5_has _ _); [reflexivity | apply apart_h5_documents].
Qed.

Lemma map_token_keeps i u p : keeps proj (_map_token_to_sentence i u p).
Proof.
  apply keeps_modify. intros w.
  destruct (existsb _ _); [reflexivity | apply apart_sentence_token_map].
Qed.

Lemma create_address_rec_keeps fuel :
  forall a u t z, keeps proj (create_address_rec fuel a u t z).
Proof.
  induction fuel as [|fuel IH]; intros a u t z; simpl.
  - apply keeps_raise.
  - apply keeps_bind; [apply keeps_gets|]. intros [|].
    + apply keeps_bind; [apply keeps_modify; intros w; apply apart_address_book|].
      intros _. apply keeps_ret.
    + apply keeps_bind.
      * unfold ensure_parent. apply keeps_if; [|apply keeps_ret].
        apply keeps_bind; [apply keeps_gets|]. intros [|].
        -- apply keeps_ret.
        -- apply keeps_bind; [apply IH | intros _; apply keeps_ret].
      * intros _. apply keeps_bind; [apply insert_address_keeps|].
        intros _. apply keeps_ret.
Qed.

Lemma create_address_keeps a u t z : keeps proj (create_address a u t z).
Proof. apply create_address_rec_keeps. Qed.

Lemma insert_sentence_keeps row :
  ignores proj set_sentences -> keeps proj (insert_sentence row).
Proof.
  intros Hs w w' r. unfold insert_sentence.
  destruct (existsb _ _); intros [= <- _]; [reflexivity | apply Hs].
Qed.

Lemma map_sentence_keeps s d p :
  ignores proj set_doc_sentence_map -> keeps proj (_map_sentence_to_document s d p).
Proof.
  intros Hs. apply keeps_modify. intros w.
  destruct (existsb _ _); [reflexivity | apply Hs].
Qed.

Variable sha256_hex : string -> string.

Lemma get_or_create_sentence_keeps t :
  ignores proj set_sentences -> keeps proj (_get_or_create_sentence sha256_hex t).
Proof.
  intros Hs. unfold _get_or_create_sentence.
  apply keeps_bind; [apply keeps_gets|]. intros [row|].
  - apply keeps_ret.
  - apply keeps_bind; [apply uuid4_keeps|]. intros u.
    apply keeps_bind; [apply insert_sentence_keeps; exact Hs|]. intros _.
    apply keeps_bind; [apply h5_store_sentence_keeps|]. intros _.
    apply keeps_ret.
Qed.

Lemma get_or_create_token_keeps t : keeps proj (_get_or_create_token sha256_hex t).
Proof.
  unfold _get_or_create_token.
  apply keeps_bind; [apply keeps_gets|]. intros [id|].
  - apply keeps_ret.
  - apply keeps_bind; [apply insert_token_keeps|]. intros _.
    apply keeps_bind; [apply keeps_gets|]. intros [id|].
    + apply keeps_ret.
    + apply keeps_raise.
Qed.

Lemma process_tokens_keeps u toks :
  forall p, keeps proj (process_tokens_from sha256_hex u p toks).
Proof.
  induction toks as [|t rest IH]; intros p; simpl.
  - apply keeps_ret.
  - apply keeps_bind; [apply get_or_create_token_keeps|]. intros id.
    apply keeps_bind; [apply map_token_keeps|]. intros _.
    apply keeps_bind; [apply create_address_keeps|]. intros _.
    apply keeps_bind; [apply h5_store_token_keeps|]. intros _.
    apply keeps_bind; [apply IH|]. intros more. apply keeps_ret.
Qed.

End Writes.

(** Closes the side conditions of the lemmas above: the instance of
    [Apart], or a setter that is ignored. *)
Ltac frame := first [exact _ | intros ? ?; reflexivity].

End Frame.

Module DocumentManagerFacts.
Import PyStrFacts Schema ZeroIndexMapper AddressManager DocumentManager Frame.

Section WithHash.
Variable sha256_hex : string -> string.

(** *** Methods that leave [doc_sentence_map] alone *)

Lemma insert_document_keeps_dsm row : keeps doc_sentence_map (insert_document row).
Proof. apply insert_document_keeps. intros v w. reflexivity. Qed.

Lemma h5_store_document_keeps_dsm u d :
  keeps doc_sentence_map (h5_store_document u d).
Proof. apply h5_store_document_keeps. exact _. Qed.

Lemma create_address_keeps_dsm a u t z :
  keeps doc_sentence_map (create_address a u t z).
Proof. apply create_address_keeps. exact _. Qed.

Lemma get_or_create_sentence_keeps_dsm t :
  keeps doc_sentence_map (_get_or_create_sentence sha256_hex t).
Proof.
  apply get_or_create_sentence_keeps; [exact _ | intros v w; reflexivity].
Qed.

Lemma process_tokens_keeps_dsm u toks p :
  keeps doc_sentence_map (process_tokens_from sha256_hex u p toks).
Proof. apply process_tokens_keeps. exact _. Qed.

(** *** C1: deduplication of sentences *)

Lemma find_none_filter {A} (p : A -> bool) l :
  find p l = None -> filter p l = [].
Proof.
  induction l as [|x l IH]; simpl; [reflexivity|].
  destruct (p x); [discriminate | exact IH].
Qed.

Lemma find_app_none {A} (p : A -> bool) l x :
  find p l = None -> p x = true -> find p (l ++ [x]) = Some x.
Proof.
  induction l as [|y l IH]; simpl; intros Hn Hx.
  - rewrite Hx. reflexivity.
  - destruct (p y); [discriminate | auto].
Qed.

Lemma find_none_not_in l h :
  find (fun r => String.eqb (sent_hash r) h) l = None ->
  ~ In h (map sent_hash l).
Proof.
  induction l as [|x l IH]; simpl; [tauto|].
  destruct (String.eqb (sent_hash x) h) eqn:E; [discriminate|].
  intros Hn [Hx|Hin]; [|exact (IH Hn Hin)].
  apply String.eqb_neq in E. contradiction.
Qed.

Lemma nodup_filter_hash l h row :
  NoDup (map sent_hash l) ->
  find (fun r => String.eqb (sent_hash r) h) l = Some row ->
  filter (fun r => String.eqb (sent_hash r) h) l = [row].
Proof.
  induction l as [|x l IH]; simpl; [discriminate|].
  intros Hnd. inversion Hnd as [|? ? Hnot Hnd']; subst.
  destruct (String.eqb (sent_hash x) h) eqn:E.
  - intros [= ->]. apply String.eqb_eq in E. subst h.
    f_equal. destruct (filter _ l) as [|y ys] eqn:F; [reflexivity|].
    exfalso. apply Hnot.
    assert (Hy : In y (filter (fun r => String.eqb (sent_hash r) (sent_hash row)) l))
      by (rewrite F; left; reflexivity).
    apply filter_In in Hy. destruct Hy as [Hy1 Hy2].
    apply String.eqb_eq in Hy2. rewrite <- Hy2. apply in_map. exact Hy1.
  - intros Hf. apply IH; assumption.
Qed.

(** C1. When [_get_or_create_sentence t] has returned an identifier,
    calling it again on [t] returns the same identifier with
    [is_new = False] and leaves the whole store as it is; under the
    [UNIQUE] constraint on the hash, the store then holds exactly one
    sentence identifier for the hash of [t], and the constraint still
    holds. *)
Theorem sentence_dedup_idempotent (w w1 : World) (t u : string) (is_new : bool) :
  unique_hashes w ->
  _get_or_create_sentence sha256_hex t w = (w1, Ok (u, is_new)) ->
  _get_or_create_sentence sha256_hex t w1 = (w1, Ok (u, false)) /\
  uuids_with_hash w1 (sha256_hex t) = [u] /\
  unique_hashes w1.
Proof.
  intros Huniq. unfold _get_or_create_sentence, bind, gets, ret.
  destruct (find _ (sentences w)) as [row|] eqn:Hfind.
  - intros [= <- <- <-]. rewrite Hfind.
    repeat split; [|exact Huniq].
    unfold uuids_with_hash.
    rewrite (nodup_filter_hash _ _ _ Huniq Hfind). reflexivity.
  - unfold uuid4, insert_sentence, h5_store_sentence, modify. simpl.
    destruct (existsb _ (sentences w)) eqn:Hdup; [discriminate|].
    intros [= <- <- <-].
    assert (Hnew : find (fun r => String.eqb (sent_hash r) (sha256_hex t))
                     (sentences w ++
                        [{| sent_uuid := rng_next (rng w); sent_text := t;
                            sent_hash := sha256_hex t |}])
                   = Some {| sent_uuid := rng_next (rng w); sent_text := t;
                             sent_hash := sha256_hex t |}).
    { apply find_app_none; [exact Hfind | apply String.eqb_refl]. }
    repeat split.
    + destruct (h5_has _ _); simpl; rewrite Hnew; reflexivity.
    + unfold uuids_with_hash.
      destruct (h5_has _ _); simpl; rewrite filter_app;
        rewrite (find_none_filter _ _ Hfind); simpl;
        rewrite String.eqb_refl; reflexivity.
    + unfold unique_hashes.
      destruct (h5_has _ _); simpl; rewrite map_app; simpl;
        apply NoDup_snoc; auto using find_none_not_in.
Qed.

(** [_get_or_create_sentence] returns whenever the rows carry the
    digest of their text and the identifier drawn is not in the table:
    then no [UNIQUE] constraint can reject the [INSERT]. *)
Lemma get_or_create_sentence_returns (w : World) (t : string) :
  hashes_of_texts sha256_hex w ->
  ~ In (rng_next (rng w)) (map sent_uuid (sentences w)) ->
  exists w1 u is_new,
    _get_or_create_sentence sha256_hex t w = (w1, Ok (u, is_new)).
Proof.
  intros Hh Hfresh. unfold _get_or_create_sentence, bind, gets, ret.
  destruct (find _ (sentences w)) as [row|] eqn:Hfind; [eauto|].
  unfold uuid4, insert_sentence, h5_store_sentence, modify. simpl.
  assert (Hno : existsb
                  (fun r => String.eqb (sent_uuid r) (rng_next (rng w)) ||
                            String.eqb (sent_text r) t ||
                            String.eqb (sent_hash r) (sha256_hex t))
                  (sentences w) = false).
  { destruct (existsb _ (sentences w)) eqn:E; [|reflexivity]. exfalso.
    apply existsb_exists in E. destruct E as (r & Hin & Hr).
    pose proof (find_none _ _ Hfind r Hin) as Hnh. simpl in Hnh.
    apply orb_true_iff in Hr. destruct Hr as [Hr|Hr]; [|congruence].
    apply orb_true_iff in Hr. destruct Hr as [Hr|Hr].
    - apply String.eqb_eq in Hr. apply Hfresh. rewrite <- Hr.
      apply in_map. exact Hin.
    - apply String.eqb_eq in Hr. apply String.eqb_neq in Hnh. apply Hnh.
      rewrite (Hh r Hin), Hr. reflexivity. }
  rewrite Hno. eauto.
Qed.

(** *** C2: positions of the sentences of a document *)

Lemma positions_from_cons start n :
  positions_from start (S n) = start :: positions_from (start + 1) n.
Proof.
  unfold positions_from. simpl. rewrite Z.add_0_r. f_equal.
  rewrite <- seq_shift, map_map. apply map_ext. intros i. lia.
Qed.

Lemma map_sentence_positions s doc pos w w' r :
  (forall p, In p (positions_of doc w) -> (p < pos)%Z) ->
  _map_sentence_to_document s doc pos w = (w', r) ->
  positions_of doc w' = positions_of doc w ++ [pos].
Proof.
  intros Hlt. unfold _map_sentence_to_document, modify.
  destruct (existsb _ (doc_sentence_map w)) eqn:Hex.
  - exfalso. apply existsb_exists in Hex. destruct Hex as (m & Hin & Hm).
    apply andb_true_iff in Hm. destruct Hm as [Hm Hp].
    apply andb_true_iff in Hm. destruct Hm as [Hd _].
    apply Z.eqb_eq in Hp.
    assert (In (dsm_position m) (positions_of doc w)).
    { unfold positions_of. apply in_map. apply filter_In. auto. }
    specialize (Hlt _ H). lia.
  - intros [= <- _]. unfold positions_of. simpl.
    rewrite filter_app, map_app. simpl. rewrite String.eqb_refl. reflexivity.
Qed.

Lemma positions_of_keeps {A} (m : M World A) doc w w' r :
  keeps doc_sentence_map m -> m w = (w', r) ->
  positions_of doc w' = positions_of doc w.
Proof. intros K H. unfold positions_of. rewrite (K _ _ _ H). reflexivity. Qed.

(** The loop records the positions [position, position + 1, ...], one
    for each sentence, after those already there. *)
Lemma process_sentences_positions doc sents :
  forall pos w w' l,
    (forall p, In p (positions_of doc w) -> (p < pos)%Z) ->
    process_sentences_from sha256_hex doc pos sents w = (w', Ok l) ->
    positions_of doc w' =
    positions_of doc w ++ positions_from pos (List.length sents).
Proof.
  induction sents as [|t rest IH]; intros pos w w' l Hlt; simpl.
  - intros [= <- _]. unfold positions_from. simpl. rewrite app_nil_r. reflexivity.
  - unfold bind at 1.
    destruct (_get_or_create_sentence sha256_hex t w) as [w1 [[u b]|e]] eqn:H1;
      [|discriminate].
    pose proof (positions_of_keeps _ doc _ _ _
                  (get_or_create_sentence_keeps_dsm t) H1) as P1.
    simpl. unfold bind at 1.
    destruct (_map_sentence_to_document u doc pos w1) as [w2 [[]|e]] eqn:H2;
      [|discriminate].
    assert (P2 : positions_of doc w2 = positions_of doc w ++ [pos]).
    { rewrite <- P1. eapply map_sentence_positions; [|exact H2].
      rewrite P1. exact Hlt. }
    unfold bind at 1.
    destruct (create_address _ (Some u) (Some "sentence") 0 w2)
      as [w3 [a|e]] eqn:H3; [|discriminate].
    pose proof (positions_of_keeps _ doc _ _ _
                  (create_address_keeps_dsm _ _ _ _) H3) as P3.
    unfold bind at 1.
    destruct ((if b then _process_sentence_tokens sha256_hex t u else ret []) w3)
      as [w4 [toks|e]] eqn:H4; [|discriminate].
    assert (P4 : positions_of doc w4 = positions_of doc w3).
    { eapply positions_of_keeps; [|exact H4].
      apply keeps_if; [apply process_tokens_keeps_dsm | apply keeps_ret]. }
    unfold bind at 1.
    destruct (process_sentences_from sha256_hex doc (pos + 1) rest w4)
      as [w5 [more|e]] eqn:H5; [|discriminate].
    intros [= <- _].
    rewrite (IH (pos + 1)%Z w4 w5 more); [|
      intros p; rewrite P4, P3, P2; intros Hin;
      apply in_app_or in Hin; destruct Hin as [Hin|[<-|[]]];
      [specialize (Hlt _ Hin); lia | lia] | exact H5].
    rewrite P4, P3, P2, positions_from_cons, <- app_assoc. reflexivity.
Qed.

(** An accepted [INSERT INTO documents] shows that the identifier was
    in no row of [documents], hence in no row of [doc_sentence_map]. *)
Lemma accepted_document_is_new row w w1 :
  map_documents_exist w ->
  insert_document row w = (w1, Ok tt) ->
  forall m, In m (doc_sentence_map w) -> dsm_doc_uuid m <> doc_uuid row.
Proof.
  intros Hfk. unfold insert_document.
  destruct (existsb _ (documents w)) eqn:E; [discriminate|]. intros _ m Hm Heq.
  specialize (Hfk m Hm). apply in_map_iff in Hfk. destruct Hfk as (d & Hd & Hin).
  assert (existsb (fun d0 => String.eqb (doc_uuid d0) (doc_uuid row) ||
                             (String.eqb (doc_dbidL d0) (doc_dbidL row) &&
                              String.eqb (doc_dbidS d0) (doc_dbidS row)))
            (documents w) = true); [|congruence].
  apply existsb_exists. exists d. split; [exact Hin|].
  apply orb_true_iff. left. apply String.eqb_eq. congruence.
Qed.

(** C2. When [process_document] returns, the positions recorded in
    [doc_sentence_map] for the new document are [0, 1, ..., n-1], [n]
    being the number of sentences [_split_into_sentences] gives.  The
    store is one where the rows of [doc_sentence_map] reference rows of
    [documents], as the schema declares. *)
Theorem document_positions_contiguous
        (w w' : World) (content dbidL : string)
        (dbidS title source metadata : option string) (d : ProcessedDocument) :
  map_documents_exist w ->
  process_document sha256_hex content dbidL dbidS title source metadata w
  = (w', Ok d) ->
  positions_of (pd_uuid d) w' =
  map Z.of_nat (seq 0 (List.length (_split_into_sentences content))).
Proof.
  intros Hfk. unfold process_document.
  unfold bind at 1. unfold uuid4 at 1.
  set (doc := rng_next (rng w)) in *.
  set (w0 := set_rng (rng_advance (rng w)) w).
  unfold bind at 1.
  destruct (insert_document _ w0) as [w1 [[]|e]] eqn:H1; [|discriminate].
  assert (Hfresh : forall m, In m (doc_sentence_map w) -> dsm_doc_uuid m <> doc).
  { exact (accepted_document_is_new _ w0 w1 Hfk H1). }
  pose proof (positions_of_keeps _ doc _ _ _ (insert_document_keeps_dsm _) H1) as P1.
  unfold bind at 1.
  destruct (process_sentences_from sha256_hex doc 0 _ w1) as [w2 [l|e]] eqn:H2;
    [|discriminate].
  unfold bind at 1.
  destruct (h5_store_document doc _ w2) as [w3 [[]|e]] eqn:H3; [|discriminate].
  pose proof (positions_of_keeps _ doc _ _ _ (h5_store_document_keeps_dsm _ _) H3) as P3.
  intros [= <- <-]. simpl.
  assert (P0 : positions_of doc w0 = []).
  { unfold positions_of. simpl.
    assert (F : filter (fun m => String.eqb (dsm_doc_uuid m) doc)
                  (doc_sentence_map w) = []).
    { induction (doc_sentence_map w) as [|m ms IHm]; [reflexivity|]. simpl.
      destruct (String.eqb (dsm_doc_uuid m) doc) eqn:E.
      - apply String.eqb_eq in E. exfalso.
        apply (Hfresh m); [left; reflexivity | exact E].
      - apply IHm. intros m' Hin. apply Hfresh. right. exact Hin. }
    rewrite F. reflexivity. }
  rewrite P3.
  rewrite (process_sentences_positions doc (_split_into_sentences content)
             0%Z w1 w2 l); [| |exact H2].
  - rewrite P1, P0. simpl. unfold positions_from.
    apply map_ext. intros i. lia.
  - rewrite P1, P0. intros p [].
Qed.

End WithHash.

Lemma sentence_dedup_idempotent_witness :
  let t := "Dogs are mammals." in
  let w := empty_world Sample.sample_entropy in
  let w1 := fst (_get_or_create_sentence Sample.sample_hash t w) in
  _get_or_create_sentence Sample.sample_hash t w1 = (w1, Ok ("u0", false)) /\
  uuids_with_hash w1 (Sample.sample_hash t) = ["u0"] /\
  unique_hashes w1.
Proof.
  apply (sentence_dedup_idempotent Sample.sample_hash
           (empty_world Sample.sample_entropy) _ "Dogs are mammals." "u0" true).
  - constructor.
  - reflexivity.
Defined.

Lemma document_positions_contiguous_witness :
  positions_of (pd_uuid Sample.one_document_result) Sample.one_document =
  map Z.of_nat (seq 0 (List.length (_split_into_sentences Sample.two_sentences))).
Proof.
  apply (document_positions_contiguous Sample.sample_hash
           (empty_world Sample.sample_entropy) Sample.one_document
           Sample.two_sentences "Report" None None None None
           Sample.one_document_result).
  - intros m [].
  - vm_compute. reflexivity.
Defined.

End DocumentManagerFacts.

Module StoreInvariants.
Import PyStrFacts Schema ZeroIndexMapper AddressManager DocumentManager Frame Api.

(** *** The keys of the schema hold in every store the methods build *)

Lemma store_keys_reads w w' :
  (sentences w', relations w') = (sentences w, relations w) ->
  store_keys w -> store_keys w'.
Proof.
  unfold store_keys, sentence_uuids_unique, unique_hashes, targets_are_sentences.
  intros [= -> ->]. tauto.
Qed.

(** What writes neither [sentences] nor [relations] preserves the keys. *)
Lemma keeps_store_keys {A} (m : M World A) :
  keeps (fun w => (sentences w, relations w)) m -> preserves store_keys m.
Proof. apply preserves_keeps. exact store_keys_reads. Qed.

Lemma existsb_false_forall {A} (p : A -> bool) l :
  existsb p l = false -> forall x, In x l -> p x = false.
Proof.
  intros H x Hin. destruct (p x) eqn:E; [|reflexivity].
  assert (existsb p l = true) by (apply existsb_exists; eauto). congruence.
Qed.

(** [INSERT INTO sentences] checks the keys it could break. *)
Lemma insert_sentence_preserves row : preserves store_keys (insert_sentence row).
Proof.
  intros w w' r (Hpk & Hh & Hfk). unfold insert_sentence.
  destruct (existsb _ (sentences w)) eqn:E; intros [= <- _];
    [split; [|split]; assumption|].
  pose proof (existsb_false_forall _ _ E) as Hno.
  unfold store_keys, sentence_uuids_unique, unique_hashes, targets_are_sentences.
  simpl. rewrite !map_app. simpl. repeat split.
  - apply NoDup_snoc; [exact Hpk|]. intros Hin.
    apply in_map_iff in Hin. destruct Hin as (x & Hx & Hin).
    specialize (Hno x Hin). apply orb_false_iff in Hno. destruct Hno as [Hno _].
    apply orb_false_iff in Hno. destruct Hno as [Hno _].
    apply String.eqb_neq in Hno. contradiction.
  - apply NoDup_snoc; [exact Hh|]. intros Hin.
    apply in_map_iff in Hin. destruct Hin as (x & Hx & Hin).
    specialize (Hno x Hin). apply orb_false_iff in Hno. destruct Hno as [_ Hno].
    apply String.eqb_neq in Hno. contradiction.
  - intros r0 Hr0. apply in_or_app. left. apply Hfk. exact Hr0.
Qed.

(** [set_relation] only adds edges whose target is a stored sentence. *)
Lemma sentences_at_in w doc pos u :
  hd_error (sentences_at w doc pos) = Some u -> In u (map sent_uuid (sentences w)).
Proof.
  intros H. assert (Hin : In u (sentences_at w doc pos)).
  { destruct (sentences_at w doc pos); [discriminate|].
    injection H as ->. left. reflexivity. }
  unfold sentences_at in Hin. apply in_flat_map in Hin.
  destruct Hin as (m & _ & Hm).
  destruct (_ && _); [|contradiction].
  apply in_map_iff in Hm. destruct Hm as (s & <- & Hs).
  apply filter_In in Hs. apply in_map. tauto.
Qed.

Lemma map_addr_to_uuid_in w a u :
  map_addr_to_uuid w a = Ok (Some u) -> In u (map sent_uuid (sentences w)).
Proof.
  unfold map_addr_to_uuid.
  destruct (_ <? _)%nat; [discriminate|].
  destruct (py_int _) as [p|]; [|discriminate].
  destruct (sqlite_integer p); [|discriminate].
  intros [= H]. eapply sentences_at_in; eauto.
Qed.

Lemma set_relation_keeps_targets w w' r src tgt ty :
  targets_are_sentences w ->
  set_relation src tgt ty w = (w', r) ->
  targets_are_sentences w'.
Proof.
  unfold set_relation, bind, query, modify, ret. intros Hfk.
  destruct (map_addr_to_uuid w src) as [s|e] eqn:Hs; [|intros [= <- _]; exact Hfk].
  destruct (map_addr_to_uuid w tgt) as [t|e] eqn:Ht; [|intros [= <- _]; exact Hfk].
  destruct (negb (truthy s) || negb (truthy t)) eqn:E; [intros [= <- _]; exact Hfk|].
  intros [= <- _]. unfold targets_are_sentences, insert_or_replace_relation. simpl.
  intros r0 Hin. apply in_app_or in Hin. destruct Hin as [Hin|[<-|[]]].
  - apply filter_In in Hin. apply Hfk. tauto.
  - simpl. destruct t as [t|]; [|destruct (truthy s); discriminate].
    eapply map_addr_to_uuid_in; eauto.
Qed.

Lemma set_relation_preserves src tgt ty : preserves store_keys (set_relation src tgt ty).
Proof.
  intros w w' r (Hpk & Hh & Hfk) Hrun.
  pose proof (set_relation_keeps_targets _ _ _ _ _ _ Hfk Hrun) as Hfk'.
  assert (Hs : sentences w' = sentences w).
  { revert Hrun. unfold set_relation, bind, query, modify, ret.
    destruct (map_addr_to_uuid w src); [|intros [= <- _]; reflexivity].
    destruct (map_addr_to_uuid w tgt); [|intros [= <- _]; reflexivity].
    destruct (_ || _); intros [= <- _]; reflexivity. }
  unfold store_keys, sentence_uuids_unique, unique_hashes in *.
  rewrite Hs. split; [|split]; assumption.
Qed.

Lemma create_address_preserves a u t z : preserves store_keys (create_address a u t z).
Proof. apply keeps_store_keys, create_address_keeps; frame. Qed.

Section WithHash.
Variable sha256_hex : string -> string.

Lemma get_or_create_sentence_preserves t :
  preserves store_keys (_get_or_create_sentence sha256_hex t).
Proof.
  unfold _get_or_create_sentence.
  apply preserves_bind; [apply keeps_store_keys, keeps_gets|]. intros [row|].
  - apply preserves_ret.
  - apply preserves_bind; [apply keeps_store_keys, uuid4_keeps; frame|]. intros u.
    apply preserves_bind; [apply insert_sentence_preserves|]. intros _.
    apply preserves_bind;
      [apply keeps_store_keys, h5_store_sentence_keeps; frame|]. intros _.
    apply preserves_ret.
Qed.

Lemma process_sentences_preserves doc sents :
  forall pos, preserves store_keys (process_sentences_from sha256_hex doc pos sents).
Proof.
  induction sents as [|t rest IH]; intros pos; simpl.
  - apply preserves_ret.
  - apply preserves_bind; [apply get_or_create_sentence_preserves|]. intros [u b].
    apply preserves_bind.
    { apply keeps_store_keys, map_sentence_keeps; frame. }
    intros _. apply preserves_bind; [apply create_address_preserves|]. intros _.
    apply preserves_bind.
    { apply preserves_if; [|apply preserves_ret].
      apply keeps_store_keys. unfold _process_sentence_tokens.
      apply process_tokens_keeps; frame. }
    intros toks. apply preserves_bind; [apply IH|]. intros more.
    apply preserves_ret.
Qed.

Lemma process_document_preserves content dbidL dbidS title source metadata :
  preserves store_keys
    (process_document sha256_hex content dbidL dbidS title source metadata).
Proof.
  unfold process_document.
  apply preserves_bind; [apply keeps_store_keys, uuid4_keeps; frame|]. intros u.
  apply preserves_bind.
  { apply keeps_store_keys, insert_document_keeps; frame. }
  intros _. apply preserves_bind; [apply process_sentences_preserves|]. intros l.
  apply preserves_bind; [apply keeps_store_keys, h5_store_document_keeps; frame|].
  intros _. apply preserves_ret.
Qed.

(** *** The rows of [doc_sentence_map] reference documents *)

Lemma mapping_document_reads doc w w' :
  (documents w', doc_sentence_map w') = (documents w, doc_sentence_map w) ->
  mapping_document doc w -> mapping_document doc w'.
Proof.
  unfold mapping_document, map_documents_exist. intros [= -> ->]. tauto.
Qed.

Lemma keeps_mapping_document {A} doc (m : M World A) :
  keeps (fun w => (documents w, doc_sentence_map w)) m ->
  preserves (mapping_document doc) m.
Proof. apply preserves_keeps. exact (mapping_document_reads doc). Qed.

Lemma map_sentence_preserves s doc pos :
  preserves (mapping_document doc) (_map_sentence_to_document s doc pos).
Proof.
  intros w w' r [Hfk Hdoc]. unfold _map_sentence_to_document, modify.
  destruct (existsb _ (doc_sentence_map w)); intros [= <- _]; [split; assumption|].
  split; [|exact Hdoc]. intros m Hm. simpl in Hm.
  apply in_app_or in Hm. destruct Hm as [Hm|[<-|[]]]; [apply Hfk, Hm | exact Hdoc].
Qed.

Lemma process_sentences_mapping doc sents :
  forall pos, preserves (mapping_document doc)
                (process_sentences_from sha256_hex doc pos sents).
Proof.
  induction sents as [|t rest IH]; intros pos; simpl.
  - apply preserves_ret.
  - apply preserves_bind.
    { apply keeps_mapping_document, get_or_create_sentence_keeps; frame. }
    intros [u b]. apply preserves_bind; [apply map_sentence_preserves|]. intros _.
    apply preserves_bind; [apply keeps_mapping_document, create_address_keeps; frame|].
    intros _. apply preserves_bind.
    { apply preserves_if; [|apply preserves_ret].
      apply keeps_mapping_document. unfold _process_sentence_tokens.
      apply process_tokens_keeps; frame. }
    intros toks. apply preserves_bind; [apply IH|]. intros more.
    apply preserves_ret.
Qed.

Lemma process_document_mapping content dbidL dbidS title source metadata :
  preserves map_documents_exist
    (process_document sha256_hex content dbidL dbidS title source metadata).
Proof.
  intros w w' r Hfk. unfold process_document.
  unfold bind at 1. unfold uuid4 at 1.
  set (doc := rng_next (rng w)).
  set (w0 := set_rng (rng_advance (rng w)) w).
  unfold bind at 1. unfold insert_document at 1.
  destruct (existsb _ (documents w0)); [intros [= <- _]; exact Hfk|].
  match goal with
  | |- context [set_documents ?rows w0] => set (w1 := set_documents rows w0)
  end.
  assert (H1 : mapping_document doc w1).
  { split.
    - intros m Hm. simpl. rewrite map_app. apply in_or_app. left. exact (Hfk m Hm).
    - simpl. rewrite map_app. apply in_or_app. right. left. reflexivity. }
  unfold bind at 1.
  destruct (process_sentences_from sha256_hex doc 0 (_split_into_sentences content) w1)
    as [w2 r2] eqn:H2.
  pose proof (process_sentences_mapping _ _ _ _ _ _ H1 H2) as [Hfk2 _].
  destruct r2 as [l|e]; [|intros [= <- _]; exact Hfk2].
  unfold bind, h5_store_document, modify, ret.
  intros [= <- _]. destruct (h5_has _ _); exact Hfk2.
Qed.

Lemma map_documents_exist_reads w w' :
  (documents w', doc_sentence_map w') = (documents w, doc_sentence_map w) ->
  map_documents_exist w -> map_documents_exist w'.
Proof. unfold map_documents_exist. intros [= -> ->]. tauto. Qed.

(** *** The rows of [sentences] carry the digest of their text *)

Lemma hashes_of_texts_reads w w' :
  sentences w' = sentences w ->
  hashes_of_texts sha256_hex w -> hashes_of_texts sha256_hex w'.
Proof. unfold hashes_of_texts. intros ->. tauto. Qed.

Lemma keeps_hashes_of_texts {A} (m : M World A) :
  keeps sentences m -> preserves (hashes_of_texts sha256_hex) m.
Proof. apply preserves_keeps. exact hashes_of_texts_reads. Qed.

Lemma get_or_create_sentence_hashes t :
  preserves (hashes_of_texts sha256_hex) (_get_or_create_sentence sha256_hex t).
Proof.
  unfold _get_or_create_sentence.
  apply preserves_bind; [apply keeps_hashes_of_texts, keeps_gets|]. intros [row|].
  - apply preserves_ret.
  - apply preserves_bind; [apply keeps_hashes_of_texts, uuid4_keeps; frame|].
    intros u. apply preserves_bind.
    { intros w w' r Hh. unfold insert_sentence.
      destruct (existsb _ (sentences w)); intros [= <- _]; [exact Hh|].
      intros r0 Hr0. simpl in Hr0. apply in_app_or in Hr0.
      destruct Hr0 as [Hr0|[<-|[]]]; [exact (Hh r0 Hr0) | reflexivity]. }
    intros _. apply preserves_bind;
      [apply keeps_hashes_of_texts, h5_store_sentence_keeps; frame|].
    intros _. apply preserves_ret.
Qed.

Lemma process_sentences_hashes doc sents :
  forall pos, preserves (hashes_of_texts sha256_hex)
                (process_sentences_from sha256_hex doc pos sents).
Proof.
  induction sents as [|t rest IH]; intros pos; simpl.
  - apply preserves_ret.
  - apply preserves_bind; [apply get_or_create_sentence_hashes|]. intros [u b].
    apply preserves_bind; [apply keeps_hashes_of_texts, map_sentence_keeps; frame|].
    intros _. apply preserves_bind;
      [apply keeps_hashes_of_texts, create_address_keeps; frame|].
    intros _. apply preserves_bind.
    { apply preserves_if; [|apply preserves_ret].
      apply keeps_hashes_of_texts. unfold _process_sentence_tokens.
      apply process_tokens_keeps; frame. }
    intros toks. apply preserves_bind; [apply IH|]. intros more.
    apply preserves_ret.
Qed.

Theorem reachable_hashes_of_texts w :
  reachable sha256_hex w -> hashes_of_texts sha256_hex w.
Proof.
  induction 1 as [e | w c l s t so md Hr IH | w a u t z Hr IH | w sa ta ty Hr IH].
  - intros r [].
  - destruct (process_document sha256_hex c l s t so md w) as [w' r] eqn:E.
    revert E. unfold process_document. intros E.
    refine (preserves_bind _ _ _ _ _ w w' r IH E).
    + apply keeps_hashes_of_texts, uuid4_keeps; frame.
    + intros u. apply preserves_bind;
        [apply keeps_hashes_of_texts, insert_document_keeps; frame|].
      intros _. apply preserves_bind; [apply process_sentences_hashes|].
      intros p. apply preserves_bind;
        [apply keeps_hashes_of_texts, h5_store_document_keeps; frame|].
      intros _. apply preserves_ret.
  - destruct (create_address a u t z w) as [w' r] eqn:E.
    refine (hashes_of_texts_reads w w' _ IH).
    exact (create_address_keeps sentences a u t z _ _ _ E).
  - refine (hashes_of_texts_reads w _ _ IH).
    unfold set_relation, bind, query, modify, ret.
    destruct (map_addr_to_uuid w sa); [|reflexivity].
    destruct (map_addr_to_uuid w ta); [|reflexivity].
    destruct (_ || _); reflexivity.
Qed.

(** Every store built by the methods has the keys of the schema. *)
Theorem reachable_map_documents_exist w :
  reachable sha256_hex w -> map_documents_exist w.
Proof.
  induction 1 as [e | w c l s t so md Hr IH | w a u t z Hr IH | w sa ta ty Hr IH].
  - intros m [].
  - destruct (process_document sha256_hex c l s t so md w) as [w' r] eqn:E.
    exact (process_document_mapping _ _ _ _ _ _ _ _ _ IH E).
  - destruct (create_address a u t z w) as [w' r] eqn:E.
    refine (map_documents_exist_reads w w' _ IH).
    exact (create_address_keeps (fun w => (documents w, doc_sentence_map w))
             a u t z _ _ _ E).
  - refine (map_documents_exist_reads w _ _ IH).
    unfold set_relation, bind, query, modify, ret.
    destruct (map_addr_to_uuid w sa); [|reflexivity].
    destruct (map_addr_to_uuid w ta); [|reflexivity].
    destruct (_ || _); reflexivity.
Qed.

Theorem reachable_store_keys w : reachable sha256_hex w -> store_keys w.
Proof.
  induction 1 as [e | w c l s t so md Hr IH | w a u t z Hr IH | w sa ta ty Hr IH].
  - unfold store_keys, sentence_uuids_unique, unique_hashes, targets_are_sentences.
    simpl. repeat split; try constructor. intros r [].
  - destruct (process_document sha256_hex c l s t so md w) as [w' r] eqn:E.
    exact (process_document_preserves _ _ _ _ _ _ _ _ _ IH E).
  - destruct (create_address a u t z w) as [w' r] eqn:E.
    exact (create_address_preserves _ _ _ _ _ _ _ IH E).
  - destruct (set_relation sa ta ty w) as [w' r] eqn:E.
    exact (set_relation_preserves _ _ _ _ _ _ IH E).
Qed.

End WithHash.

End StoreInvariants.

Module LStableManagerFacts.
Import AddressManager LStableManager.

Lemma find_none_existsb {A} (p : A -> bool) l :
  find p l = None -> existsb p l = false.
Proof.
  induction l as [|x l IH]; simpl; [reflexivity|].
  destruct (p x); [discriminate | exact IH].
Qed.

Lemma existsb_orb {A} (p q : A -> bool) l :
  existsb (fun x => p x || q x) l = existsb p l || existsb q l.
Proof.
  induction l as [|x l IH]; simpl; [reflexivity|].
  rewrite IH. destruct (p x), (q x), (existsb p l); reflexivity.
Qed.

Lemma short_of_none w dbidL :
  short_of w dbidL = None ->
  existsb (fun r => String.eqb (ls_dbidL r) dbidL) (lstable w) = false.
Proof.
  unfold short_of. intros H. apply find_none_existsb.
  destruct (find _ (lstable w)); [discriminate | reflexivity].
Qed.

(** C6. If the long identifier [L] is registered with the short
    identifier [S1], [register_mapping L S2] returns [(L, S1)] for any
    [S2]; the table and the alias files are as before, and with an
    explicit [S2] nothing of the store changes. *)
Theorem register_existing_returns_first
        (w : LSWorld) (fuel : nat) (L S1 : string) (S2 description : option string) :
  short_of w L = Some S1 ->
  exists w',
    register_mapping fuel L S2 description w = (w', Ok (L, S1)) /\
    lstable w' = lstable w /\
    ls_files w' = ls_files w /\
    (truthy S2 = true -> w' = w).
Proof.
  intros H. unfold register_mapping, bind, gets, ret.
  destruct (truthy S2) eqn:E.
  - rewrite H. eexists; repeat split.
  - unfold new_short_id.
    assert (H' : short_of (set_ls_rng (rng_advance (ls_rng w)) w) L = Some S1)
      by exact H.
    rewrite H'. eexists; repeat split. discriminate.
Qed.

Lemma register_existing_returns_first_witness :
  exists w',
    register_mapping 1 "Report" (Some "xyz") None Sample.two_mappings
    = (w', Ok ("Report", "abc")) /\
    lstable w' = lstable Sample.two_mappings /\
    ls_files w' = ls_files Sample.two_mappings /\
    (truthy (Some "xyz") = true -> w' = Sample.two_mappings).
Proof.
  apply (register_existing_returns_first Sample.two_mappings 1 "Report" "abc"
           (Some "xyz") None).
  reflexivity.
Defined.




End LStableManagerFacts.

Module EmptyInputFacts.
Import PyStrFacts AddressManager DocumentManager DDManager.

Lemma sentence_pieces_blank s :
  blank s -> forall prev, Forall blank (sentence_pieces prev s).
Proof.
  induction s as [|c r IH]; intros H prev; simpl.
  - repeat constructor.
  - unfold blank in H. simpl in H. apply andb_true_iff in H.
    destruct H as [Hc Hr].
    destruct (split_point prev c).
    + constructor; [reflexivity | apply IH; exact Hr].
    + pose proof (IH Hr (c :: prev)) as F.
      destruct (sentence_pieces (c :: prev) r) as [|p ps].
      * repeat constructor. apply blank_cons; [exact Hc | reflexivity].
      * inversion F; subst. constructor; [|assumption].
        apply blank_cons; assumption.
Qed.

Lemma filter_nonblank pieces :
  Forall blank pieces ->
  filter (fun s => negb (is_empty (strip s))) pieces = [].
Proof.
  induction 1 as [|p ps Hp _ IH]; simpl; [reflexivity|].
  rewrite (strip_blank _ Hp). simpl. exact IH.
Qed.

(** A text of white space has no sentence and no unit. *)
Lemma split_into_sentences_blank s : blank s -> _split_into_sentences s = [].
Proof.
  intros H. unfold _split_into_sentences.
  rewrite (filter_nonblank _ (sentence_pieces_blank s H [])). reflexivity.
Qed.

Lemma stripped_units_blank sep s : blank s -> stripped_units sep s = [].
Proof.
  intros H. unfold stripped_units, split_str.
  rewrite (filter_nonblank _ (split_str_aux_blank sep s H 0)). reflexivity.
Qed.

Section WithParameters.
Variable sha256_hex : string -> string.
Variable bert_tokenize : string -> list string.
Variable embedding_bytes : string -> string.
Variable batch_type : string.

(** [process_input] rejects a text of white space with a [ValueError],
    having written no row and no HDF5 group. *)
Lemma process_input_rejects_blank (raw : string) (w : DDWorld) :
  blank raw ->
  exists w' msg,
    process_input sha256_hex bert_tokenize embedding_bytes batch_type raw w
    = (w', Raise (ValueError msg)) /\
    inputs w' = inputs w /\ units w' = units w /\
    mappings w' = mappings w /\ h5_inputs w' = h5_inputs w.
Proof.
  intros H. unfold process_input, bind, dd_uuid4, preprocess.
  rewrite !(stripped_units_blank _ _ H). simpl.
  destruct (String.eqb batch_type "sentence");
    [|destruct (String.eqb batch_type "paragraph");
      [|destruct (String.eqb batch_type "page")]];
    simpl; unfold raise; do 2 eexists; repeat split.
Qed.

(** C5. For a text of white space only, [process_input] raises a
    [ValueError] before any write, whereas [process_document] checks
    nothing: it inserts the [documents] row, stores the HDF5 group of
    the document when the name is free, and returns a document of no
    sentence. *)
Theorem blank_document_is_stored
        (raw dbidL : string) (dbidS title source metadata : option string)
        (dw : DDWorld) (w : World) :
  blank raw ->
  row_accepted (document_row w dbidL dbidS title source metadata) w ->
  (exists dw' msg,
      process_input sha256_hex bert_tokenize embedding_bytes batch_type raw dw
      = (dw', Raise (ValueError msg)) /\
      inputs dw' = inputs dw /\ units dw' = units dw /\
      mappings dw' = mappings dw /\ h5_inputs dw' = h5_inputs dw) /\
  (exists w' d,
      process_document sha256_hex raw dbidL dbidS title source metadata w
      = (w', Ok d) /\
      pd_sentence_count d = 0%Z /\
      documents w' =
      documents w ++ [document_row w dbidL dbidS title source metadata] /\
      (h5_has (rng_next (rng w)) (h5_documents w) = false ->
       exists blob, h5_documents w' =
                    h5_documents w ++ [(rng_next (rng w), blob)] /\
                    h5d_content blob = raw)).
Proof.
  intros H Hacc. split; [apply process_input_rejects_blank; exact H|].
  unfold process_document, row_accepted, document_row in *.
  rewrite (split_into_sentences_blank _ H).
  unfold bind, uuid4, insert_document. simpl in *. rewrite Hacc. simpl.
  unfold h5_store_document, modify, ret. simpl.
  do 2 eexists. split; [reflexivity|]. split; [reflexivity|].
  destruct (h5_has (rng_next (rng w)) (h5_documents w)); simpl.
  - split; [reflexivity | discriminate].
  - split; [reflexivity|]. intros _. eexists; split; reflexivity.
Qed.

End WithParameters.

Lemma blank_document_is_stored_witness :
  let raw := "   " in
  let w := empty_world Sample.sample_entropy in
  let dw := {| inputs := []; units := []; mappings := []; h5_inputs := [];
               dd_rng := {| entropy := Sample.sample_entropy; drawn := 0 |} |} in
  (exists dw' msg,
      process_input Sample.sample_hash (fun _ => []) (fun t => t) "sentence" raw dw
      = (dw', Raise (ValueError msg)) /\
      inputs dw' = inputs dw /\ units dw' = units dw /\
      mappings dw' = mappings dw /\ h5_inputs dw' = h5_inputs dw) /\
  (exists w' d,
      process_document Sample.sample_hash raw "Report" None None None None w
      = (w', Ok d) /\
      pd_sentence_count d = 0%Z /\
      documents w' =
      documents w ++ [document_row w "Report" None None None None] /\
      (h5_has (rng_next (rng w)) (h5_documents w) = false ->
       exists blob, h5_documents w' =
                    h5_documents w ++ [(rng_next (rng w), blob)] /\
                    h5d_content blob = raw)).
Proof.
  apply (blank_document_is_stored Sample.sample_hash (fun _ => []) (fun t => t)
           "sentence" "   " "Report" None None None None
           {| inputs := []; units := []; mappings := []; h5_inputs := [];
              dd_rng := {| entropy := Sample.sample_entropy; drawn := 0 |} |}
           (empty_world Sample.sample_entropy));
    reflexivity.
Defined.

End EmptyInputFacts.

Module FunctionServiceFacts.
Import PyStrFacts Schema ZeroIndexMapper AddressManager FunctionService.
Import StoreInvariants.

(** *** Texts *)

Lemma dollar_id s d :
  last_char s = Some d -> is_newline d = false -> dollar s = s.
Proof.
  intros Hl Hd. unfold dollar, ends_with_char. rewrite Hl.
  destruct (Ascii.eqb d "010") eqn:E; [|reflexivity].
  apply Ascii.eqb_eq in E. subst. discriminate.
Qed.

Lemma snoc_append s c r : (snoc s c ++ r)%string = (s ++ String c r)%string.
Proof. unfold snoc. rewrite append_assoc. reflexivity. Qed.

(** *** Cell references: letters, then digits *)

Lemma nonempty_all_inv p s :
  nonempty_all p s = true ->
  exists c r, s = String c r /\ p c = true /\ forallb_str p r = true.
Proof.
  unfold nonempty_all. destruct s as [|c r]; simpl; [discriminate|].
  intros H. apply andb_true_iff in H. destruct H. eauto.
Qed.

Lemma span_alpha col row :
  forallb_str is_alpha col = true -> nonempty_all is_digit row = true ->
  span is_alpha (col ++ row) = (col, row).
Proof.
  intros Hc Hr. induction col as [|c col IH]; simpl.
  - destruct (nonempty_all_inv _ _ Hr) as (d & r & -> & Hd & _). simpl.
    assert (is_alpha d = false) as ->; [|reflexivity].
    destruct (is_alpha d) eqn:E; [|reflexivity].
    revert Hd E. unfold is_alpha, is_upper, is_lower, is_digit, in_range.
    intros Hd E. apply andb_true_iff in Hd. destruct Hd as [H1 H2].
    apply N.leb_le in H1. apply N.leb_le in H2.
    apply orb_true_iff in E.
    destruct E as [E|E]; apply andb_true_iff in E; destruct E as [E1 E2];
      apply N.leb_le in E1; apply N.leb_le in E2; lia.
  - simpl in Hc. apply andb_true_iff in Hc. destruct Hc as [Hc Hcol].
    rewrite Hc, (IH Hcol). reflexivity.
Qed.

Lemma cell_ref_last col row :
  cell_ref col row ->
  exists d, last_char (col ++ row) = Some d /\ is_digit d = true.
Proof.
  intros [_ Hr]. destruct (nonempty_all_inv _ _ Hr) as (c & r & -> & Hc & Hrest).
  rewrite last_char_app by discriminate.
  destruct (last_char (String c r)) as [d|] eqn:E.
  - exists d. split; [reflexivity|].
    eapply last_char_forall; [|exact E]. simpl. rewrite Hc. exact Hrest.
  - exfalso. exact (last_char_some _ _ E).
Qed.

Lemma match_cell_ref_ok col row :
  cell_ref col row -> match_cell_ref (col ++ row) = Some (col, row).
Proof.
  intros H. pose proof H as [Hc Hr].
  destruct (cell_ref_last _ _ H) as (d & Hl & Hd).
  unfold match_cell_ref. rewrite (dollar_id _ d Hl).
  - unfold nonempty_all in Hc. apply andb_true_iff in Hc. destruct Hc as [Hne Hc].
    rewrite (span_alpha _ _ Hc Hr), Hne, Hr. reflexivity.
  - destruct (is_newline d) eqn:E; [|reflexivity].
    unfold is_newline in E. apply N.eqb_eq in E.
    unfold is_digit, in_range in Hd. apply andb_true_iff in Hd.
    destruct Hd as [H1 _]. apply N.leb_le in H1. lia.
Qed.

Lemma cell_ref_strip col row : cell_ref col row -> strip (col ++ row) = (col ++ row)%string.
Proof.
  intros H. destruct (cell_ref_last _ _ H) as (d & Hl & Hd).
  destruct H as [Hc _].
  destruct (nonempty_all_inv _ _ Hc) as (c & r & -> & Hca & _).
  simpl in *. apply (strip_id c _ d); auto using alpha_not_space, digit_not_space.
Qed.

(** *** The argument loop *)

Lemma parse_args_cons char rest args cur iq lvl :
  parse_args (String char rest) args cur iq lvl =
  if Ascii.eqb char dquote && negb iq then
    parse_args rest args (snoc cur char) true lvl
  else if Ascii.eqb char dquote && iq then
    parse_args rest args (snoc cur char) false lvl
  else if Ascii.eqb char "(" && negb iq then
    parse_args rest args (snoc cur char) iq (lvl + 1)
  else if Ascii.eqb char ")" && negb iq then
    parse_args rest args (snoc cur char) iq (lvl - 1)
  else if Ascii.eqb char "," && negb iq && (lvl =? 0)%Z then
    parse_args rest (args ++ [strip cur]) EmptyString iq lvl
  else
    parse_args rest args (snoc cur char) iq lvl.
Proof. reflexivity. Qed.

Lemma parse_args_plain s :
  forallb_str plain s = true ->
  forall rest args cur iq lvl,
    parse_args (s ++ rest) args cur iq lvl
    = parse_args rest args (cur ++ s) iq lvl.
Proof.
  induction s as [|c s IH]; intros H rest args cur iq lvl.
  - simpl. rewrite append_nil_r. reflexivity.
  - change (forallb_str plain (String c s))
      with (plain c && forallb_str plain s) in H.
    apply andb_true_iff in H. destruct H as [Hc Hs].
    unfold plain in Hc. repeat (apply andb_true_iff in Hc; destruct Hc as [Hc ?]).
    repeat match goal with
           | H : negb _ = true |- _ => apply negb_true_iff in H
           end.
    change (String c s ++ rest)%string with (String c (s ++ rest)).
    rewrite parse_args_cons, Hc, H, H0, H1. simpl.
    rewrite (IH Hs). unfold snoc. rewrite append_assoc. reflexivity.
Qed.

Lemma parse_args_quoted s :
  contains dquote s = false ->
  forall rest args cur lvl,
    parse_args (s ++ rest) args cur true lvl
    = parse_args rest args (cur ++ s) true lvl.
Proof.
  induction s as [|c s IH]; intros H rest args cur lvl.
  - simpl. rewrite append_nil_r. reflexivity.
  - rewrite contains_cons in H.
    apply orb_false_iff in H. destruct H as [Hc Hs].
    rewrite Ascii.eqb_sym in Hc.
    change (String c s ++ rest)%string with (String c (s ++ rest)).
    rewrite parse_args_cons, Hc. simpl negb. rewrite !andb_false_r. simpl.
    rewrite (IH Hs). unfold snoc. rewrite append_assoc. reflexivity.
Qed.

Lemma alpha_plain c : is_alpha c = true -> plain c = true.
Proof.
  intros H. unfold plain.
  rewrite (class_neq is_alpha c dquote H eq_refl),
    (class_neq is_alpha c "(" H eq_refl),
    (class_neq is_alpha c ")" H eq_refl),
    (class_neq is_alpha c "," H eq_refl). reflexivity.
Qed.

Lemma digit_plain c : is_digit c = true -> plain c = true.
Proof.
  intros H. unfold plain.
  rewrite (class_neq is_digit c dquote H eq_refl),
    (class_neq is_digit c "(" H eq_refl),
    (class_neq is_digit c ")" H eq_refl),
    (class_neq is_digit c "," H eq_refl). reflexivity.
Qed.

Lemma cell_ref_plain col row :
  cell_ref col row -> forallb_str plain (col ++ row) = true.
Proof.
  intros [Hc Hr]. unfold nonempty_all in *.
  apply andb_true_iff in Hc. apply andb_true_iff in Hr.
  rewrite forallb_str_app.
  rewrite (forallb_str_impl _ _ _ alpha_plain (proj2 Hc)).
  rewrite (forallb_str_impl _ _ _ digit_plain (proj2 Hr)). reflexivity.
Qed.

Lemma cell_ref_nonempty col row : cell_ref col row -> is_empty (col ++ row) = false.
Proof.
  intros [Hc _]. destruct (nonempty_all_inv _ _ Hc) as (c & r & -> & _).
  reflexivity.
Qed.

Lemma cell_ref_no_newline col row :
  cell_ref col row -> existsb_str is_newline (col ++ row) = false.
Proof.
  intros [Hc Hr]. unfold nonempty_all in *.
  apply andb_true_iff in Hc. apply andb_true_iff in Hr.
  destruct Hc as [_ Hc]. destruct Hr as [_ Hr].
  induction col as [|c col IH]; simpl.
  - clear Hc. induction row as [|d row IHr]; simpl; [reflexivity|].
    simpl in Hr. apply andb_true_iff in Hr. destruct Hr as [Hd Hrow].
    rewrite (IHr Hrow), orb_false_r.
    destruct (is_newline d) eqn:E; [|reflexivity].
    unfold is_newline in E. apply N.eqb_eq in E.
    unfold is_digit, in_range in Hd. apply andb_true_iff in Hd.
    destruct Hd as [H1 _]. apply N.leb_le in H1. lia.
  - simpl in Hc. apply andb_true_iff in Hc. destruct Hc as [Hc Hcol].
    rewrite (IH Hcol), orb_false_r.
    destruct (is_newline c) eqn:E; [|reflexivity].
    unfold is_newline in E. apply N.eqb_eq in E.
    unfold is_alpha, is_upper, is_lower, in_range in Hc.
    apply orb_true_iff in Hc.
    destruct Hc as [Hc|Hc]; apply andb_true_iff in Hc; destruct Hc as [H1 _];
      apply N.leb_le in H1; lia.
Qed.

(** A cell reference alone: one argument. *)
Lemma parse_args_cell col row :
  cell_ref col row ->
  parse_args (col ++ row) [] EmptyString false 0 = [(col ++ row)%string].
Proof.
  intros H.
  rewrite <- (append_nil_r (col ++ row)) at 1.
  rewrite (parse_args_plain _ (cell_ref_plain _ _ H)). simpl.
  rewrite (cell_ref_nonempty _ _ H), (cell_ref_strip _ _ H). reflexivity.
Qed.

(** A cell reference, a comma, a space and a quoted text: two
    arguments. *)
Lemma parse_args_cell_quoted col row ty :
  cell_ref col row -> contains dquote ty = false ->
  parse_args ((col ++ row) ++ String "," (String " " (quoted ty)))
    [] EmptyString false 0
  = [(col ++ row)%string; quoted ty].
Proof.
  intros H Hty.
  rewrite (parse_args_plain _ (cell_ref_plain _ _ H)). simpl.
  rewrite (cell_ref_strip _ _ H).
  rewrite (parse_args_quoted _ Hty). simpl.
  change (snoc (String " " (String dquote ty)) dquote)
    with (String " " (quoted ty)).
  unfold strip.
  change (lstrip (String " " (quoted ty))) with (quoted ty).
  rewrite (rstrip_last (quoted ty) dquote); [reflexivity | | reflexivity].
  change (quoted ty) with ((String dquote ty) ++ String dquote EmptyString)%string.
  apply last_char_snoc.
Qed.

(** *** The formula pattern *)

Lemma split_at_paren_app name rest :
  contains "(" name = false ->
  split_at_paren (name ++ String "(" rest) = Some (name, rest).
Proof.
  induction name as [|c name IH]; intros H.
  - reflexivity.
  - rewrite contains_cons in H. apply orb_false_iff in H. destruct H as [Hc Hn].
    rewrite Ascii.eqb_sym in Hc.
    change (String c name ++ String "(" rest)%string
      with (String c (name ++ String "(" rest)).
    change (split_at_paren (String c (name ++ String "(" rest)))
      with (if Ascii.eqb c "(" then Some (EmptyString, (name ++ String "(" rest)%string)
            else match split_at_paren (name ++ String "(" rest) with
                 | Some (n, r) => Some (String c n, r)
                 | None => None
                 end).
    rewrite Hc, (IH Hn). reflexivity.
Qed.

Lemma match_formula_call name args_str :
  name_ok name = true ->
  existsb_str is_newline args_str = false ->
  match_formula (call_text name args_str) = Some (name, args_str).
Proof.
  unfold name_ok, call_text. intros Hn Hnl.
  apply andb_true_iff in Hn. destruct Hn as [Hn _].
  apply andb_true_iff in Hn. destruct Hn as [Hd Hp].
  apply negb_true_iff in Hp.
  unfold match_formula. rewrite (split_at_paren_app _ _ Hp).
  rewrite (dollar_id _ ")"); [| apply last_char_snoc | reflexivity].
  unfold ends_with_char. rewrite last_char_snoc, drop_last_snoc, Hd, Hnl.
  reflexivity.
Qed.

Lemma call_text_last name args_str :
  last_char (call_text name args_str) = Some ")"%char.
Proof.
  unfold call_text. rewrite last_char_app by discriminate.
  change (String "(" (args_str ++ ")"))
    with ((String "(" args_str) ++ String ")" EmptyString)%string.
  apply last_char_snoc.
Qed.

(** [_parse_formula] on [=name(args)] and on [name(args)]. *)
Lemma parse_formula_eq name args_str :
  name_ok name = true ->
  existsb_str is_newline args_str = false ->
  _parse_formula (String "=" (call_text name args_str))
  = Ok (name, parse_args args_str [] EmptyString false 0).
Proof.
  intros Hn Hnl. unfold _parse_formula.
  rewrite startswith_char, Ascii.eqb_refl.
  change (drop_first (String "=" (call_text name args_str)))
    with (call_text name args_str).
  assert (Hs : strip (call_text name args_str) = call_text name args_str).
  { pose proof (call_text_last name args_str) as Hl.
    unfold name_ok in Hn. apply andb_true_iff in Hn. destruct Hn as [_ Hc].
    destruct name as [|c n]; [discriminate|].
    unfold call_text in *. simpl in *.
    apply (strip_id c _ ")"); auto using word_not_space. }
  rewrite Hs, (match_formula_call _ _ Hn Hnl). reflexivity.
Qed.

Lemma parse_formula_plain name args_str :
  name_ok name = true ->
  existsb_str is_newline args_str = false ->
  _parse_formula (call_text name args_str)
  = Ok (name, parse_args args_str [] EmptyString false 0).
Proof.
  intros Hn Hnl. unfold _parse_formula.
  assert (Hs : startswith (call_text name args_str) "=" = false).
  { unfold name_ok in Hn. apply andb_true_iff in Hn. destruct Hn as [_ Hc].
    destruct name as [|c n]; [discriminate|].
    unfold call_text. simpl append. rewrite startswith_char, Ascii.eqb_sym.
    exact (class_neq is_word c "=" Hc eq_refl). }
  rewrite Hs, (match_formula_call _ _ Hn Hnl). reflexivity.
Qed.

(** *** Arguments *)

Lemma resolve_arg_cell nested col row :
  cell_ref col row ->
  resolve_arg nested (col ++ row)
  = result_bind (_cell_to_addr (col ++ row)) (fun a => Ok (VStr a)).
Proof.
  intros H. unfold resolve_arg. rewrite (match_cell_ref_ok _ _ H).
  destruct H as [Hc _].
  destruct (nonempty_all_inv _ _ Hc) as (c & r & -> & Hca & _).
  simpl append. rewrite startswith_char, Ascii.eqb_sym.
  rewrite (class_neq is_alpha c dquote Hca eq_refl). reflexivity.
Qed.

Lemma resolve_arg_quoted nested ty :
  resolve_arg nested (quoted ty) = Ok (VStr ty).
Proof.
  unfold resolve_arg, quoted. rewrite startswith_char, Ascii.eqb_refl.
  unfold ends_with_char.
  change (String dquote (ty ++ String dquote EmptyString))
    with ((String dquote ty) ++ String dquote EmptyString)%string.
  rewrite last_char_snoc, Ascii.eqb_refl. cbn [andb].
  change (drop_first (String dquote ty ++ String dquote EmptyString))
    with (ty ++ String dquote EmptyString)%string.
  rewrite drop_last_snoc. reflexivity.
Qed.

Lemma evaluate_rec_S fuel w formula cc :
  evaluate_rec (S fuel) w formula cc =
  result_bind (_parse_formula formula)
    (fun parsed =>
       if negb (registered (fst parsed))
       then Raise (ValueError ("Unknown function: " ++ fst parsed))
       else result_bind
              (_resolve_args (fun arg => evaluate_rec fuel w arg cc) (snd parsed))
              (fun resolved_args => call w (fst parsed) resolved_args)).
Proof. reflexivity. Qed.

(** *** C8: a cell reference with no mapping *)

Lemma cell_to_addr_row col row :
  cell_ref col row ->
  _cell_to_addr (col ++ row) =
  match py_int row with
  | None => Raise (ValueError "invalid literal for int() with base 10")
  | Some v => Ok ("doc:current_document-" ++ str_of_Z (v - 1))%string
  end.
Proof.
  intros H. unfold _cell_to_addr. rewrite (match_cell_ref_ok _ _ H).
  destruct (py_int row); reflexivity.
Qed.

(** The address of a cell is looked up in the document
    ["current_document"], at the position one below its row. *)
Lemma map_addr_to_uuid_cell w p :
  (0 <= p)%Z ->
  map_addr_to_uuid w ("doc:current_document-" ++ str_of_Z p) =
  if sqlite_integer p then Ok (hd_error (sentences_at w "current_document" p))
  else Raise OverflowError.
Proof.
  intros Hp. unfold map_addr_to_uuid.
  change ("doc:current_document-" ++ str_of_Z p)%string
    with ("doc:current_document" ++ String "-" (str_of_Z p))%string.
  rewrite split_char_snoc
    by (apply contains_digits; [reflexivity | apply str_of_Z_digits; exact Hp]).
  change (split_char "-" "doc:current_document") with ["doc:current_document"%string].
  cbn [app List.length Nat.ltb Nat.leb nth].
  change (contains ":" "doc:current_document") with true. cbv iota.
  change (nth 1 (split_char ":" "doc:current_document") EmptyString)
    with "current_document"%string.
  rewrite (py_int_str_of_Z _ Hp). reflexivity.
Qed.

(** C8, as the code has it. For a cell reference [C] (letters, then a
    row from 1 to 2^63) and a type text free of quotes and newlines:
    when no sentence is mapped at the position of the cell (its row
    less one, in the document ["current_document"]), [evaluate] of
    [=rel(C, "type")] returns [None]; it does not raise. *)
Theorem rel_unmapped_cell_returns_none
        (w : World) (col row ty : string) (r : Z) (cc : option (Z * Z)) :
  cell_ref col row ->
  py_int row = Some r ->
  (1 <= r <= 2 ^ 63)%Z ->
  sentences_at w "current_document" (r - 1) = [] ->
  contains dquote ty = false ->
  existsb_str is_newline ty = false ->
  evaluate w (rel_formula (col ++ row) ty) cc = Ok VNone.
Proof.
  intros Hcell Hrow Hr Hnone Hq Hnl.
  assert (Haddr : _cell_to_addr (col ++ row)
                  = Ok ("doc:current_document-" ++ str_of_Z (r - 1))%string).
  { rewrite (cell_to_addr_row _ _ Hcell), Hrow. reflexivity. }
  assert (Hmap : map_addr_to_uuid w ("doc:current_document-" ++ str_of_Z (r - 1))
                 = Ok None).
  { rewrite map_addr_to_uuid_cell by lia. rewrite Hnone.
    assert (Hfit : sqlite_integer (r - 1) = true).
    { unfold sqlite_integer. apply andb_true_iff. split; apply Z.leb_le; lia. }
    rewrite Hfit. reflexivity. }
  set (a := ("doc:current_document-" ++ str_of_Z (r - 1))%string) in *.
  unfold evaluate, rel_formula. rewrite evaluate_rec_S.
  rewrite parse_formula_eq; [|reflexivity|].
  - cbn [result_bind fst snd].
    rewrite (parse_args_cell_quoted _ _ _ Hcell Hq).
    change (registered "rel") with true. cbn [negb].
    cbn [_resolve_args].
    rewrite (resolve_arg_cell _ _ _ Hcell), Haddr, resolve_arg_quoted.
    cbn [result_bind].
    change (call w "rel" [VStr a; VStr ty]) with (_rel_function w (VStr a) (VStr ty)).
    unfold _rel_function, resolve_source, as_address. cbn [result_bind].
    rewrite Hmap. reflexivity.
  - rewrite existsb_str_app, (cell_ref_no_newline _ _ Hcell).
    unfold quoted. cbn [existsb_str orb].
    change (is_newline ",") with false. change (is_newline " ") with false.
    change (is_newline dquote) with false. cbn [orb].
    rewrite existsb_str_app, Hnl. reflexivity.
Qed.

Lemma rel_unmapped_cell_returns_none_witness :
  evaluate (empty_world Sample.sample_entropy)
    (rel_formula ("A" ++ "1") "translation") None = Ok VNone.
Proof.
  apply (rel_unmapped_cell_returns_none (empty_world Sample.sample_entropy)
           "A" "1" "translation" 1 None);
    try reflexivity; [split; reflexivity | lia].
Defined.

(** C8, as the claim has it, fails: on an empty store the cell [A1] is
    the address [doc:current_document-0], which no identifier is mapped
    to, and [evaluate('=rel(A1, "translation")')] returns [None]: no
    exception is raised. *)
Lemma rel_unmapped_cell_counterexample :
  _cell_to_addr "A1" = Ok "doc:current_document-0" /\
  map_addr_to_uuid (empty_world Sample.sample_entropy) "doc:current_document-0"
  = Ok None /\
  evaluate (empty_world Sample.sample_entropy) (rel_formula "A1" "translation") None
  = Ok VNone /\
  ~ (exists e, evaluate (empty_world Sample.sample_entropy)
                 (rel_formula "A1" "translation") None = Raise e).
Proof.
  repeat split; try reflexivity.
  intros [e He]. vm_compute in He. discriminate.
Qed.

(** *** Counting and listing the relations of an address *)

Lemma filter_key_once (S : list SentenceRow) x :
  NoDup (map sent_uuid S) -> In x (map sent_uuid S) ->
  List.length (filter (fun t => String.eqb (sent_uuid t) x) S) = 1.
Proof.
  induction S as [|s S IH]; simpl; [tauto|].
  intros Hnd Hin. inversion Hnd as [|? ? Hnot Hnd']; subst.
  destruct (String.eqb (sent_uuid s) x) eqn:E.
  - apply String.eqb_eq in E. subst x. simpl. f_equal.
    destruct (filter _ S) as [|y ys] eqn:F; [reflexivity|].
    exfalso. apply Hnot.
    assert (Hy : In y (filter (fun t => String.eqb (sent_uuid t) (sent_uuid s)) S))
      by (rewrite F; left; reflexivity).
    apply filter_In in Hy. destruct Hy as [Hy1 Hy2].
    apply String.eqb_eq in Hy2. rewrite <- Hy2. apply in_map. exact Hy1.
  - apply IH; [exact Hnd'|]. destruct Hin as [Hin|Hin]; [|exact Hin].
    apply String.eqb_neq in E. contradiction.
Qed.

(** With the keys in place each matching relation joins exactly one
    sentence. *)
Lemma related_texts_length w u ty :
  sentence_uuids_unique w -> targets_are_sentences w ->
  List.length (related_texts w u (Some ty)) =
  List.length (filter (fun r => String.eqb (rel_source_uuid r) u &&
                                String.eqb (rel_relation_type r) ty)
                 (relations w)).
Proof.
  unfold related_texts, sql_eq, sentence_uuids_unique, targets_are_sentences.
  intros Hpk Hfk.
  induction (relations w) as [|r R IH]; [reflexivity|].
  cbn [flat_map filter]. rewrite length_app.
  rewrite IH by (intros; apply Hfk; right; assumption).
  destruct (String.eqb (rel_source_uuid r) u && String.eqb (rel_relation_type r) ty).
  - rewrite length_map, (filter_key_once _ _ Hpk (Hfk r (or_introl eq_refl))).
    reflexivity.
  - reflexivity.
Qed.

Lemma sum_indicator x T :
  NoDup T -> In x T ->
  list_sum (map (fun ty => if String.eqb x ty then 1 else 0) T) = 1.
Proof.
  induction T as [|t T IH]; simpl; [tauto|].
  intros Hnd Hin. inversion Hnd as [|? ? Hnot Hnd']; subst.
  destruct (String.eqb x t) eqn:E.
  - apply String.eqb_eq in E. subst t. f_equal.
    clear IH Hin Hnd Hnd'. induction T as [|t T IH]; [reflexivity|]. simpl.
    destruct (String.eqb x t) eqn:E.
    + apply String.eqb_eq in E. subst. exfalso. apply Hnot. left. reflexivity.
    + apply IH. intros H. apply Hnot. right. exact H.
  - apply IH; [exact Hnd'|]. destruct Hin as [Hin|Hin]; [|exact Hin].
    apply String.eqb_neq in E. congruence.
Qed.

Lemma sum_indicator_zero T :
  list_sum (map (fun _ : string => 0) T) = 0.
Proof. induction T; simpl; auto. Qed.

Lemma list_sum_map_add {A} (f g : A -> nat) l :
  list_sum (map (fun x => f x + g x) l) = list_sum (map f l) + list_sum (map g l).
Proof. induction l as [|x l IH]; simpl; [reflexivity|]. rewrite IH. lia. Qed.

(** Counting the relations of a source type by type, over types that
    are distinct and cover the table, counts each relation once. *)
Lemma count_by_type src R T :
  NoDup T -> (forall r, In r R -> In (rel_relation_type r) T) ->
  list_sum (map (count_type src R) T) = List.length (filter src R).
Proof.
  intros Hnd. induction R as [|r R IH]; intros Hcov.
  - unfold count_type. simpl. apply sum_indicator_zero.
  - assert (Hrec := IH (fun r' H => Hcov r' (or_intror H))).
    assert (Hstep : forall ty,
               count_type src (r :: R) ty =
               (if src r then if String.eqb (rel_relation_type r) ty then 1 else 0
                else 0) + count_type src R ty).
    { intros ty. unfold count_type. simpl.
      destruct (src r), (String.eqb (rel_relation_type r) ty); reflexivity. }
    rewrite (map_ext _ _ Hstep), list_sum_map_add, Hrec. simpl.
    destruct (src r); simpl.
    + rewrite (sum_indicator _ _ Hnd (Hcov r (or_introl eq_refl))). reflexivity.
    + rewrite sum_indicator_zero. reflexivity.
Qed.

Lemma length_flat_map_sum {A B} (f : A -> list B) l :
  List.length (flat_map f l) = list_sum (map (fun x => List.length (f x)) l).
Proof.
  induction l as [|x l IH]; simpl; [reflexivity|].
  rewrite length_app, IH. reflexivity.
Qed.

(** The count and the lists agree where the table [relations] exists
    and the address resolves: for an address [a] that [map_addr_to_uuid]
    takes to the identifier [u], in a store where [sentences.uuid] is a
    key and every relation target is a sentence, [rel.count] without a
    type returns the number of relations whose source is [u], and that
    number is the length of the content [rel.all] lists for [a] over
    all relation types. *)
Lemma rel_count_counts_edges (w : World) (a u : string) :
  relations_created w = true ->
  map_addr_to_uuid w a = Ok (Some u) ->
  is_empty u = false ->
  sentence_uuids_unique w ->
  targets_are_sentences w ->
  let n := Z.of_nat (List.length
                       (filter (fun r => String.eqb (rel_source_uuid r) u)
                          (relations w))) in
  _rel_count_function w (VStr a) VNone = Ok (VInt n) /\
  Z.of_nat (List.length (related_all_types w a)) = n.
Proof.
  intros Hrc Hmap Hu Hpk Hfk n.
  assert (Hsrc : resolve_source w (VStr a) = Ok (Some u)).
  { unfold resolve_source, as_address. cbn [result_bind]. rewrite Hmap.
    cbn [result_bind]. unfold truthy. rewrite Hu. reflexivity. }
  split.
  - unfold _rel_count_function, with_relations. rewrite Hsrc, Hrc. reflexivity.
  - unfold n. f_equal. unfold related_all_types.
    rewrite length_flat_map_sum.
    rewrite (map_ext _ (count_type (fun r => String.eqb (rel_source_uuid r) u)
                          (relations w))).
    + apply count_by_type.
      * apply NoDup_nodup.
      * intros r Hr. apply nodup_In. apply in_map. exact Hr.
    + intros ty. unfold _rel_all_function, with_relations. rewrite Hsrc, Hrc.
      cbn [result_bind sql_text_param].
      apply related_texts_length; assumption.
Qed.

End FunctionServiceFacts.

(** ** The fuel of [evaluate] is never used up *)

Module EvaluateFuel.
Import PyStrFacts ZeroIndexMapper AddressManager FunctionService.

Lemma lstrip_length s : String.length (lstrip s) <= String.length s.
Proof.
  induction s as [|c s IH]; simpl; [lia|].
  destruct (is_space c); simpl; lia.
Qed.

Lemma rstrip_length s : String.length (rstrip s) <= String.length s.
Proof.
  induction s as [|c s IH]; simpl; [lia|].
  destruct (is_empty (rstrip s) && is_space c); simpl; lia.
Qed.

Lemma strip_length s : String.length (strip s) <= String.length s.
Proof.
  unfold strip. pose proof (rstrip_length (lstrip s)). pose proof (lstrip_length s).
  lia.
Qed.

Lemma drop_last_length s : String.length (drop_last s) <= String.length s.
Proof.
  induction s as [|c s IH]; simpl; [lia|].
  destruct s; simpl in *; lia.
Qed.

Lemma dollar_length s : String.length (dollar s) <= String.length s.
Proof. unfold dollar. destruct (ends_with_char s "010"); [apply drop_last_length | lia]. Qed.

Lemma snoc_length s c : String.length (snoc s c) = S (String.length s).
Proof. unfold snoc. rewrite length_append. simpl. lia. Qed.

Lemma split_at_paren_length s name rest :
  split_at_paren s = Some (name, rest) -> String.length rest < String.length s.
Proof.
  revert name rest. induction s as [|c s IH]; intros name rest; simpl; [discriminate|].
  destruct (Ascii.eqb c "(").
  - intros [= _ <-]. lia.
  - destruct (split_at_paren s) as [[n r]|]; [|discriminate].
    intros [= _ <-]. specialize (IH n r eq_refl). lia.
Qed.

Lemma match_formula_length s name args_str :
  match_formula s = Some (name, args_str) ->
  String.length args_str < String.length s.
Proof.
  unfold match_formula.
  destruct (split_at_paren s) as [[n rest]|] eqn:E; [|discriminate].
  destruct (_ && _); [|discriminate]. intros [= _ <-].
  pose proof (split_at_paren_length _ _ _ E).
  pose proof (drop_last_length (dollar rest)). pose proof (dollar_length rest). lia.
Qed.

(** Every argument the loop cuts is no longer than the text it is cut
    from. *)
Lemma parse_args_lengths bound s :
  forall args cur iq lvl,
    Forall (fun a => String.length a <= bound) args ->
    String.length cur + String.length s <= bound ->
    Forall (fun a => String.length a <= bound) (parse_args s args cur iq lvl).
Proof.
  induction s as [|c s IH]; intros args cur iq lvl Hargs Hlen.
  - simpl. destruct (is_empty cur); [exact Hargs|].
    apply Forall_app. split; [exact Hargs|]. constructor; [|constructor].
    pose proof (strip_length cur). simpl in Hlen. lia.
  - rewrite FunctionServiceFacts.parse_args_cons.
    assert (Hsn : String.length (snoc cur c) + String.length s <= bound)
      by (rewrite snoc_length; simpl in Hlen; lia).
    repeat match goal with
           | |- context [if ?b then _ else _] => destruct b
           end; try (apply IH; assumption).
    apply IH; [|simpl in *; lia].
    apply Forall_app. split; [exact Hargs|]. constructor; [|constructor].
    pose proof (strip_length cur). simpl in Hlen. lia.
Qed.

Lemma parse_formula_lengths formula name args :
  _parse_formula formula = Ok (name, args) ->
  Forall (fun a => String.length a < String.length formula) args.
Proof.
  unfold _parse_formula.
  set (f := if startswith formula "=" then strip (drop_first formula) else formula).
  assert (Hf : String.length f <= String.length formula).
  { unfold f. destruct (startswith formula "="); [|lia].
    pose proof (strip_length (drop_first formula)).
    destruct formula; simpl in *; lia. }
  destruct (match_formula f) as [[n a]|] eqn:E; [|discriminate].
  intros [= _ <-]. pose proof (match_formula_length _ _ _ E) as Hlt.
  eapply Forall_impl;
    [| apply (parse_args_lengths (String.length a) a [] EmptyString false 0);
       [constructor | simpl; lia]].
  intros x Hx. simpl in Hx. lia.
Qed.

(** [_resolve_args] asks [nested] about its own arguments only. *)
Lemma resolve_args_ext nested1 nested2 args :
  Forall (fun a => nested1 a = nested2 a) args ->
  _resolve_args nested1 args = _resolve_args nested2 args.
Proof.
  induction 1 as [|a args Ha _ IH]; [reflexivity|].
  simpl. rewrite IH. unfold resolve_arg. rewrite Ha. reflexivity.
Qed.

Lemma evaluate_rec_stable w cc n :
  forall formula fuel1 fuel2,
    String.length formula < n ->
    String.length formula < fuel1 -> String.length formula < fuel2 ->
    evaluate_rec fuel1 w formula cc = evaluate_rec fuel2 w formula cc.
Proof.
  induction n as [|n IH]; intros formula fuel1 fuel2 Hn H1 H2; [lia|].
  destruct fuel1 as [|f1]; [lia|]. destruct fuel2 as [|f2]; [lia|].
  simpl. destruct (_parse_formula formula) as [[name args]|e] eqn:E; [|reflexivity].
  simpl. destruct (negb (registered name)); [reflexivity|].
  rewrite (resolve_args_ext (fun arg => evaluate_rec f1 w arg cc)
             (fun arg => evaluate_rec f2 w arg cc)); [reflexivity|].
  eapply Forall_impl; [|exact (parse_formula_lengths _ _ _ E)].
  intros a Ha. cbv beta in Ha. apply IH; lia.
Qed.

(** More fuel than the length of the formula changes nothing: the
    recursion of [evaluate] ends before its fuel does. *)
Theorem evaluate_fuel_enough w formula cc fuel :
  String.length formula < fuel ->
  evaluate_rec fuel w formula cc = evaluate w formula cc.
Proof.
  intros H. unfold evaluate.
  apply (evaluate_rec_stable w cc (S (String.length formula))); lia.
Qed.

End EvaluateFuel.

(** ** Token addresses and occurrence addresses as texts *)

Module AddressTextFacts.
Import PyStrFacts ZeroIndexMapper.

Lemma split_char_parts sep s :
  Forall (fun p => contains sep p = false) (split_char sep s).
Proof.
  induction s as [|c r IH]; simpl.
  - repeat constructor.
  - destruct (Ascii.eqb c sep) eqn:E.
    + constructor; [reflexivity | exact IH].
    + destruct (split_char sep r) as [|p ps]; inversion IH; subst.
      * repeat constructor. rewrite contains_cons, Ascii.eqb_sym, E. reflexivity.
      * constructor; [|assumption].
        rewrite contains_cons, Ascii.eqb_sym, E. assumption.
Qed.

Lemma split_char_two sep s :
  (List.length (split_char sep s) <? 2)%nat = false ->
  exists front d, split_char sep s = front ++ [d] /\ front <> [].
Proof.
  intros H. apply Nat.ltb_ge in H.
  destruct (split_char sep s) as [|a l] eqn:E; [simpl in H; lia|].
  destruct l as [|b l]; [simpl in H; lia|].
  exists (removelast (a :: b :: l)), (last (a :: b :: l) EmptyString). split.
  - apply app_removelast_last. discriminate.
  - simpl. destruct l; discriminate.
Qed.

(** An address made of [u], a dash and a dash-free [d] that [int]
    reads is resolved to [u] and the value of [d]. *)
Lemma resolve_token_addr_joined u d p :
  contains "-" d = false -> py_int d = Some p ->
  resolve_token_addr (u ++ String "-" d) = Some (u, p).
Proof.
  intros Hd Hp. unfold resolve_token_addr.
  rewrite (split_char_snoc _ _ _ Hd).
  assert (Hlen : (List.length (split_char "-" u ++ [d]) <? 2)%nat = false).
  { rewrite length_app. simpl. apply Nat.ltb_ge.
    pose proof (split_char_nonempty "-" u).
    destruct (split_char "-" u); [congruence | simpl; lia]. }
  rewrite Hlen. unfold all_but_last, last_part.
  rewrite removelast_last, last_last, Hp, join_split_char. reflexivity.
Qed.

(** X1. [resolve_token_addr] returns [(u, p)] exactly on the texts
    [u-d] where [d] holds no dash and [int(d)] is [p]: nothing of the
    address is lost but the spelling of the numeral, and every other
    text gives [None]. *)
Theorem resolve_token_addr_reads_joined (a u : string) (p : Z) :
  resolve_token_addr a = Some (u, p) <->
  exists d, a = (u ++ "-" ++ d)%string /\ contains "-" d = false /\
            py_int d = Some p.
Proof.
  split.
  - unfold resolve_token_addr.
    destruct (List.length (split_char "-" a) <? 2)%nat eqn:Hlen; [discriminate|].
    destruct (split_char_two _ _ Hlen) as (front & d & Hsplit & Hfront).
    pose proof (split_char_parts "-" a) as Hparts.
    pose proof (join_split_char "-" a) as Hjoin.
    rewrite Hsplit in *. unfold all_but_last, last_part.
    rewrite removelast_last, last_last.
    destruct (py_int d) as [q|] eqn:Hq; [|discriminate].
    intros [= <- <-]. exists d. repeat split.
    + rewrite <- Hjoin. unfold join. apply concat_snoc. exact Hfront.
    + apply Forall_app in Hparts. destruct Hparts as [_ Hd].
      inversion Hd; assumption.
    + exact Hq.
  - intros (d & -> & Hd & Hp). apply resolve_token_addr_joined; assumption.
Qed.

(** X2. Below zero the token address does not read back: for [p < 0]
    the numeral brings its own dash, and [resolve_token_addr] of
    [get_token_addr u p] is the identifier [u-] at the position [-p]. *)
Theorem token_addr_negative_position (u : string) (p : Z) :
  (p < 0)%Z ->
  resolve_token_addr (get_token_addr u p) = Some ((u ++ "-")%string, (- p)%Z).
Proof.
  intros Hp. destruct p as [|q|q]; try lia.
  unfold get_token_addr, str_of_Z.
  change (NilEmpty.string_of_int (Z.to_int (Z.neg q)))
    with (String "-" (NilEmpty.string_of_uint (Pos.to_uint q))).
  change (u ++ "-" ++ String "-" (NilEmpty.string_of_uint (Pos.to_uint q)))%string
    with (u ++ ("-" ++ String "-" (NilEmpty.string_of_uint (Pos.to_uint q))))%string.
  rewrite <- append_assoc.
  apply resolve_token_addr_joined.
  - apply contains_digits; [reflexivity | apply string_of_uint_digits].
  - rewrite (py_int_digits _ (string_of_uint_digits _)).
    rewrite int_unsigned_string_of_uint
      by apply DecimalPos.Unsigned.to_uint_nonnil.
    unfold Z.of_uint. rewrite DecimalPos.Unsigned.of_to. reflexivity.
Qed.

Lemma resolve_token_addr_reads_joined_witness :
  resolve_token_addr "ab-cd-007" = Some ("ab-cd", 7%Z).
Proof.
  apply (proj2 (resolve_token_addr_reads_joined "ab-cd-007" "ab-cd" 7)).
  exists "007". repeat split; reflexivity.
Defined.

Lemma token_addr_negative_position_witness :
  (-2 < 0)%Z /\
  resolve_token_addr (get_token_addr "ab" (-2)) = Some ("ab-", 2%Z).
Proof.
  split; [lia | apply (token_addr_negative_position "ab" (-2)); lia].
Defined.

Lemma split_char_app_sep sep a r :
  contains sep a = false ->
  split_char sep (a ++ String sep r) = a :: split_char sep r.
Proof.
  intros Ha. induction a as [|c a IH].
  - simpl. rewrite Ascii.eqb_refl. reflexivity.
  - rewrite contains_cons in Ha. apply orb_false_iff in Ha. destruct Ha as [Hc Ha].
    rewrite Ascii.eqb_sym in Hc.
    change (String c a ++ String sep r)%string with (String c (a ++ String sep r)).
    simpl. rewrite Hc, (IH Ha). reflexivity.
Qed.

Lemma contains_first sep s :
  contains sep s = true ->
  exists a r, s = (a ++ String sep r)%string /\ contains sep a = false.
Proof.
  induction s as [|c s IH]; [discriminate|].
  rewrite contains_cons. destruct (Ascii.eqb sep c) eqn:E.
  - intros _. apply Ascii.eqb_eq in E. subst c.
    exists EmptyString, s. split; reflexivity.
  - simpl. intros H. destruct (IH H) as (a & r & -> & Ha).
    exists (String c a), r. split; [reflexivity|].
    rewrite contains_cons, E. exact Ha.
Qed.

(** The first part of a split text is settled before the first
    separator. *)
Lemma split_char_hd_app sep r t :
  hd EmptyString (split_char sep (r ++ String sep t))
  = hd EmptyString (split_char sep r).
Proof.
  induction r as [|c r IH].
  - simpl. rewrite Ascii.eqb_refl. reflexivity.
  - change (String c r ++ String sep t)%string with (String c (r ++ String sep t)).
    simpl. destruct (Ascii.eqb c sep); [reflexivity|].
    pose proof (split_char_nonempty sep (r ++ String sep t)).
    pose proof (split_char_nonempty sep r).
    destruct (split_char sep (r ++ String sep t)); [congruence|].
    destruct (split_char sep r); [congruence|].
    simpl in *. congruence.
Qed.

Lemma map_addr_to_uuid_parts w address x y rest :
  split_char "-" address = x :: y :: rest ->
  map_addr_to_uuid w address =
  match py_int y with
  | None => Raise (ValueError "invalid literal for int() with base 10")
  | Some position =>
      if sqlite_integer position
      then Ok (hd_error
                 (sentences_at w
                    (if contains ":" x then nth 1 (split_char ":" x) EmptyString
                     else x)
                    position))
      else Raise OverflowError
  end.
Proof. intros H. unfold map_addr_to_uuid. rewrite H. reflexivity. Qed.

(** X3. [map_addr_to_uuid] reads the document and the position from
    the first two dash-separated parts of the address.  For a document
    identifier that holds a dash (every [uuid4] does) the position
    written after the identifier is therefore never read: the occurrence
    address [doc:D-p] that [process_document] and [map_uuid_to_addr]
    build gives what [doc:D] alone gives, whatever [p] is. *)
Theorem dashed_document_position_ignored (w : World) (m : DocSentenceRow) :
  contains "-" (dsm_doc_uuid m) = true ->
  map_addr_to_uuid w (occurrence_addr m)
  = map_addr_to_uuid w ("doc:" ++ dsm_doc_uuid m).
Proof.
  intros HD. unfold occurrence_addr.
  destruct (contains_first _ _ HD) as (a & r & -> & Ha).
  assert (Hdoc : contains "-" ("doc:" ++ a) = false) by exact Ha.
  pose proof (split_char_nonempty "-" (r ++ String "-" (str_of_Z (dsm_position m))))
    as Hne1.
  pose proof (split_char_nonempty "-" r) as Hne2.
  pose proof (split_char_hd_app "-" r (str_of_Z (dsm_position m))) as Hhd.
  assert (E1 : split_char "-"
                 ("doc:" ++ (a ++ String "-" r) ++ "-" ++ str_of_Z (dsm_position m))
               = ("doc:" ++ a)%string
                 :: split_char "-" (r ++ String "-" (str_of_Z (dsm_position m)))).
  { rewrite <- (split_char_app_sep "-" ("doc:" ++ a) _ Hdoc).
    f_equal. simpl. f_equal. f_equal. f_equal. f_equal.
    rewrite append_assoc. reflexivity. }
  assert (E2 : split_char "-" ("doc:" ++ (a ++ String "-" r))
               = ("doc:" ++ a)%string :: split_char "-" r).
  { rewrite <- (split_char_app_sep "-" ("doc:" ++ a) _ Hdoc). reflexivity. }
  destruct (split_char "-" (r ++ String "-" (str_of_Z (dsm_position m))))
    as [|y1 rest1]; [congruence|].
  destruct (split_char "-" r) as [|y2 rest2]; [congruence|].
  simpl in Hhd. subst y2.
  rewrite (map_addr_to_uuid_parts _ _ _ _ _ E1),
    (map_addr_to_uuid_parts _ _ _ _ _ E2).
  reflexivity.
Qed.

Lemma dashed_document_position_ignored_witness :
  let m := {| dsm_doc_uuid := "12345678-1234-4abc-8def-123456789abc";
              dsm_sentence_uuid := "s"; dsm_position := 5 |} in
  map_addr_to_uuid (empty_world Sample.sample_entropy) (occurrence_addr m)
  = map_addr_to_uuid (empty_world Sample.sample_entropy)
      ("doc:" ++ dsm_doc_uuid m).
Proof.
  apply (dashed_document_position_ignored (empty_world Sample.sample_entropy)
           {| dsm_doc_uuid := "12345678-1234-4abc-8def-123456789abc";
              dsm_sentence_uuid := "s"; dsm_position := 5 |}).
  reflexivity.
Defined.

End AddressTextFacts.

(** ** Formulas: what [evaluate] reads of a cell and what it rejects *)

Module FormulaFacts.
Import PyStrFacts ZeroIndexMapper AddressManager FunctionService.
Import FunctionServiceFacts.

(** [evaluate] of [name(C)] for a cell reference [C]. *)
Lemma evaluate_cell w name col row cc :
  name_ok name = true -> cell_ref col row ->
  evaluate w (call_text name (col ++ row)) cc =
  if negb (registered name) then Raise (ValueError ("Unknown function: " ++ name))
  else result_bind (_cell_to_addr (col ++ row))
         (fun a => call w name [VStr a]).
Proof.
  intros Hn Hcell. unfold evaluate. rewrite evaluate_rec_S.
  rewrite (parse_formula_plain _ _ Hn (cell_ref_no_newline _ _ Hcell)).
  cbn [result_bind fst snd].
  destruct (negb (registered name)); [reflexivity|].
  rewrite (parse_args_cell _ _ Hcell). cbn [_resolve_args].
  rewrite (resolve_arg_cell _ _ _ Hcell).
  destruct (_cell_to_addr (col ++ row)); reflexivity.
Qed.

(** X4. The column of a cell reference and the context cell never
    reach the result: [name(C)] evaluates alike for two cells of the
    same row, whatever the columns and the context cells. *)
Theorem evaluate_ignores_column
        (w : World) (name col1 col2 row : string) (cc1 cc2 : option (Z * Z)) :
  name_ok name = true -> cell_ref col1 row -> cell_ref col2 row ->
  evaluate w (call_text name (col1 ++ row)) cc1
  = evaluate w (call_text name (col2 ++ row)) cc2.
Proof.
  intros Hn H1 H2.
  rewrite (evaluate_cell _ _ _ _ _ Hn H1), (evaluate_cell _ _ _ _ _ Hn H2).
  rewrite (cell_to_addr_row _ _ H1), (cell_to_addr_row _ _ H2). reflexivity.
Qed.

(** X5. Row zero is out of range: a cell of row [0] is the address
    [doc:current_document--1], whose second part is empty, and [uuid(C)]
    and [rel.count(C)] leave [evaluate] with the [ValueError] of [int]
    instead of a value. *)
Theorem evaluate_row_zero_raises
        (w : World) (col row : string) (cc : option (Z * Z)) :
  cell_ref col row -> py_int row = Some 0%Z ->
  evaluate w (call_text "uuid" (col ++ row)) cc
  = Raise (ValueError "invalid literal for int() with base 10") /\
  evaluate w (call_text "rel.count" (col ++ row)) cc
  = Raise (ValueError "invalid literal for int() with base 10").
Proof.
  intros Hcell Hrow.
  rewrite (evaluate_cell w "uuid" col row cc eq_refl Hcell).
  rewrite (evaluate_cell w "rel.count" col row cc eq_refl Hcell).
  rewrite (cell_to_addr_row _ _ Hcell), Hrow.
  split; reflexivity.
Qed.

(** X6. What [evaluate] rejects before it looks at any argument: a
    text with no opening parenthesis is an invalid formula, and the
    message shows the text as it was matched, which for a text that
    starts with [=] is what follows the [=], stripped; and a
    well-formed call of a name that is not registered is an unknown
    function, whatever its arguments are. *)
Theorem evaluate_rejects
        (w : World) (cc : option (Z * Z)) :
  (forall formula,
      contains "(" formula = false ->
      evaluate w formula cc
      = Raise (ValueError
                 ("Invalid formula format: " ++
                  (if startswith formula "=" then strip (drop_first formula)
                   else formula)))) /\
  (forall name args_str,
      name_ok name = true -> registered name = false ->
      existsb_str is_newline args_str = false ->
      evaluate w (call_text name args_str) cc
      = Raise (ValueError ("Unknown function: " ++ name))).
Proof.
  split.
  - intros formula Hp. unfold evaluate. rewrite evaluate_rec_S.
    unfold _parse_formula. cbv zeta.
    set (f := if startswith formula "=" then strip (drop_first formula)
              else formula).
    assert (Hf : contains "(" f = false).
    { unfold f. destruct (startswith formula "="); [|exact Hp].
      apply contains_strip. destruct formula as [|c r]; [reflexivity|].
      rewrite contains_cons in Hp. apply orb_false_iff in Hp. exact (proj2 Hp). }
    assert (Hs : split_at_paren f = None).
    { clearbody f. clear Hp. induction f as [|c f IH]; [reflexivity|].
      rewrite contains_cons in Hf. apply orb_false_iff in Hf.
      destruct Hf as [Hc Hf]. rewrite Ascii.eqb_sym in Hc.
      simpl. rewrite Hc, (IH Hf). reflexivity. }
    unfold match_formula. rewrite Hs. reflexivity.
  - intros name args_str Hn Hr Hnl. unfold evaluate. rewrite evaluate_rec_S.
    rewrite (parse_formula_plain _ _ Hn Hnl). cbn [result_bind fst snd].
    rewrite Hr. reflexivity.
Qed.

Lemma evaluate_ignores_column_witness :
  evaluate Sample.current_document (call_text "uuid" ("A" ++ "2")) None
  = evaluate Sample.current_document (call_text "uuid" ("ZZ" ++ "2")) (Some (7, 7)%Z).
Proof.
  apply (evaluate_ignores_column Sample.current_document "uuid" "A" "ZZ" "2");
    [reflexivity | split; reflexivity | split; reflexivity].
Defined.

Lemma evaluate_row_zero_raises_witness :
  evaluate Sample.current_document (call_text "uuid" ("A" ++ "0")) None
  = Raise (ValueError "invalid literal for int() with base 10") /\
  evaluate Sample.current_document (call_text "rel.count" ("A" ++ "0")) None
  = Raise (ValueError "invalid literal for int() with base 10").
Proof.
  apply (evaluate_row_zero_raises Sample.current_document "A" "0" None);
    [split; reflexivity | reflexivity].
Defined.

Lemma evaluate_rejects_witness :
  evaluate Sample.current_document "rel A1" None
  = Raise (ValueError "Invalid formula format: rel A1") /\
  evaluate Sample.current_document "= rel A1 " None
  = Raise (ValueError "Invalid formula format: rel A1") /\
  evaluate Sample.current_document (call_text "sum" "A1, A2") None
  = Raise (ValueError "Unknown function: sum").
Proof.
  destruct (evaluate_rejects Sample.current_document None) as [H1 H2].
  split; [|split].
  - apply (H1 "rel A1"%string). reflexivity.
  - apply (H1 "= rel A1 "%string). reflexivity.
  - apply H2; reflexivity.
Defined.

End FormulaFacts.

(** ** Sentences, tokens and units as texts *)

Module TextFacts.
Import PyStrFacts DocumentManager DDManager.

Lemma rstrip_last_not_space s d :
  last_char (rstrip s) = Some d -> is_space d = false.
Proof.
  induction s as [|c r IH]; [discriminate|].
  simpl. destruct (rstrip r) as [|e r'] eqn:E.
  - simpl. destruct (is_space c) eqn:Hc; [discriminate|].
    simpl. intros [= <-]. exact Hc.
  - cbn [is_empty andb]. intros H. apply IH.
    simpl in H. exact H.
Qed.

Lemma rstrip_cons c r :
  rstrip (String c r) <> EmptyString -> rstrip (String c r) = String c (rstrip r).
Proof.
  simpl. destruct (is_empty (rstrip r) && is_space c); [congruence|reflexivity].
Qed.

Lemma lstrip_head s :
  lstrip s = EmptyString \/ exists c r, lstrip s = String c r /\ is_space c = false.
Proof.
  induction s as [|c r IH]; [left; reflexivity|].
  simpl. destruct (is_space c) eqn:E; [exact IH|].
  right. exists c, r. split; [reflexivity | exact E].
Qed.

(** A stripped text is empty or begins and ends outside white space,
    so stripping again changes nothing. *)
Lemma strip_strip s : strip (strip s) = strip s.
Proof.
  unfold strip at 2 3. destruct (lstrip_head s) as [E | (c & r & E & Hc)]; rewrite E.
  - reflexivity.
  - destruct (rstrip (String c r)) as [|c' r'] eqn:R; [reflexivity|].
    assert (Hne : rstrip (String c r) <> EmptyString) by (rewrite R; discriminate).
    pose proof (rstrip_cons c r Hne) as Hr. rewrite R in Hr.
    injection Hr as -> ->.
    destruct (last_char (String c (rstrip r))) as [d|] eqn:L.
    + apply (strip_id c _ d Hc L).
      apply (rstrip_last_not_space (String c r)). rewrite R. exact L.
    + exfalso. exact (last_char_some _ _ L).
Qed.

(** X7. The sentences that [_split_into_sentences] returns are never
    empty and carry no white space at either end. *)
Theorem split_sentences_are_stripped (text : string) :
  Forall (fun s => is_empty s = false /\ strip s = s) (_split_into_sentences text).
Proof.
  unfold _split_into_sentences. apply Forall_forall. intros s Hs.
  apply in_map_iff in Hs. destruct Hs as (piece & <- & Hin).
  apply filter_In in Hin. destruct Hin as [_ Hne].
  apply negb_true_iff in Hne. split; [exact Hne | apply strip_strip].
Qed.

Lemma sentence_pieces_no_end s :
  existsb_str is_sentence_end s = false ->
  forall prev,
    match prev with
    | p1 :: _ => is_sentence_end p1 = false
    | [] => True
    end ->
    sentence_pieces prev s = [s].
Proof.
  induction s as [|c r IH]; intros H prev Hprev; [reflexivity|].
  simpl in H. apply orb_false_iff in H. destruct H as [Hc Hr].
  cbn [sentence_pieces].
  assert (Hsp : split_point prev c = false).
  { unfold split_point. destruct prev as [|p1 prev'].
    - rewrite andb_false_r. reflexivity.
    - rewrite Hprev, andb_false_r. reflexivity. }
  rewrite Hsp, (IH Hr (c :: prev) Hc). reflexivity.
Qed.

(** X8. A text without ['.'], ['?'] and ['!'] is one sentence, the
    stripped text, and no sentence at all when it is blank. *)
Theorem split_without_terminator (text : string) :
  existsb_str is_sentence_end text = false ->
  _split_into_sentences text
  = if is_empty (strip text) then [] else [strip text].
Proof.
  intros H. unfold _split_into_sentences.
  rewrite (sentence_pieces_no_end _ H [] I). simpl.
  destruct (is_empty (strip text)); reflexivity.
Qed.

Lemma split_without_terminator_witness :
  _split_into_sentences "  no full stop here  " = ["no full stop here"].
Proof.
  exact (split_without_terminator "  no full stop here  " eq_refl).
Defined.

(** *** Tokens *)

Lemma to_lower_not_upper c : is_upper (to_lower c) = false.
Proof.
  unfold to_lower. destruct (is_upper c) eqn:E; [|exact E].
  unfold is_upper, in_range, code in *.
  apply andb_true_iff in E. destruct E as [E1 E2].
  apply N.leb_le in E1. apply N.leb_le in E2.
  rewrite N_ascii_embedding by lia.
  apply andb_false_iff. right. apply N.leb_gt. lia.
Qed.

Lemma lower_no_upper s : forallb_str (fun c => negb (is_upper c)) (lower s) = true.
Proof.
  induction s as [|c r IH]; [reflexivity|].
  simpl. rewrite to_lower_not_upper. exact IH.
Qed.

Lemma word_runs_words s :
  Forall (fun t => is_empty t = false /\ forallb_str is_word t = true) (word_runs s).
Proof.
  induction s as [|c r IH]; [constructor|].
  cbn [word_runs]. destruct (is_word c) eqn:Hc; [|exact IH].
  destruct r as [|d r']; [repeat constructor; simpl; rewrite Hc; reflexivity|].
  destruct (is_word d) eqn:Hd.
  - destruct (word_runs (String d r')) as [|p ps].
    + repeat constructor. simpl. rewrite Hc. reflexivity.
    + inversion IH as [|? ? [_ Hp] Hps]; subst.
      constructor; [|exact Hps]. split; [reflexivity|].
      simpl. rewrite Hc. exact Hp.
  - constructor; [|exact IH]. split; [reflexivity|]. simpl. rewrite Hc. reflexivity.
Qed.

Lemma word_runs_chars (P : ascii -> bool) s :
  forallb_str P s = true -> Forall (fun t => forallb_str P t = true) (word_runs s).
Proof.
  induction s as [|c r IH]; intros H; [constructor|].
  simpl in H. apply andb_true_iff in H. destruct H as [Hc Hr].
  specialize (IH Hr).
  cbn [word_runs]. destruct (is_word c); [|exact IH].
  destruct r as [|d r']; [repeat constructor; simpl; rewrite Hc; reflexivity|].
  destruct (is_word d).
  - destruct (word_runs (String d r')) as [|p ps].
    + repeat constructor. simpl. rewrite Hc. reflexivity.
    + inversion IH as [|? ? Hp Hps]; subst.
      constructor; [|exact Hps]. simpl. rewrite Hc. exact Hp.
  - constructor; [|exact IH]. simpl. rewrite Hc. reflexivity.
Qed.

(** X9. Every token of [_tokenize_sentence] is a non-empty run of
    word characters without an upper-case letter: punctuation and
    white space never reach a token, and case is folded before the
    split. *)
Theorem tokens_are_lower_case_words (sentence : string) :
  Forall (fun t => is_empty t = false /\ forallb_str is_word t = true /\
                   forallb_str (fun c => negb (is_upper c)) t = true)
    (_tokenize_sentence sentence).
Proof.
  unfold _tokenize_sentence.
  pose proof (word_runs_words (lower sentence)) as H1.
  pose proof (word_runs_chars _ _ (lower_no_upper sentence)) as H2.
  rewrite Forall_forall in *. intros t Ht.
  destruct (H1 t Ht) as [Ha Hb]. repeat split; auto.
Qed.

End TextFacts.

(** ** The address book: registrations, attributes, origins *)

Module AddressBookFacts.
Import PyStrFacts Schema ZeroIndexMapper AddressManager DocumentManager Frame Api.
Import AddressManagerFacts.

Lemma has_addr_in w a :
  has_addr w a = true <-> In a (map ab_addr (address_book w)).
Proof.
  unfold has_addr. rewrite existsb_exists, in_map_iff. split.
  - intros (r & Hin & E). apply String.eqb_eq in E. eauto.
  - intros (r & E & Hin). exists r. split; [exact Hin|]. apply String.eqb_eq. exact E.
Qed.

Lemma book_well_formed_reads w w' :
  address_book w' = address_book w -> book_well_formed w -> book_well_formed w'.
Proof.
  unfold book_well_formed, has_addr. intros ->. tauto.
Qed.

Lemma grows_refl w : grows w w.
Proof. split; auto. Qed.

Lemma grows_trans w1 w2 w3 : grows w1 w2 -> grows w2 w3 -> grows w1 w3.
Proof. intros [A1 B1] [A2 B2]. split; auto. Qed.

Lemma grows_update addr uv ty zi w : grows w (update_address addr uv ty zi w).
Proof.
  split.
  - intros [Hnd Hrows]. split.
    + unfold update_address. simpl. rewrite map_map.
      erewrite map_ext; [exact Hnd|].
      intros r. simpl. destruct (String.eqb (ab_addr r) addr); reflexivity.
    + intros r Hin. unfold update_address in Hin. simpl in Hin.
      apply in_map_iff in Hin. destruct Hin as (r0 & <- & Hin0).
      destruct (Hrows r0 Hin0) as [Hp Hc].
      assert (E : (ab_addr (if String.eqb (ab_addr r0) addr
                            then {| ab_addr := ab_addr r0;
                                    ab_uuid := coalesce uv (ab_uuid r0);
                                    ab_type := coalesce ty (ab_type r0);
                                    ab_parent_addr := ab_parent_addr r0;
                                    ab_coordinate_system := ab_coordinate_system r0;
                                    ab_is_origin := ab_is_origin r0;
                                    ab_zero_index := zi |}
                            else r0) = ab_addr r0) /\
                  (ab_parent_addr (if String.eqb (ab_addr r0) addr
                            then {| ab_addr := ab_addr r0;
                                    ab_uuid := coalesce uv (ab_uuid r0);
                                    ab_type := coalesce ty (ab_type r0);
                                    ab_parent_addr := ab_parent_addr r0;
                                    ab_coordinate_system := ab_coordinate_system r0;
                                    ab_is_origin := ab_is_origin r0;
                                    ab_zero_index := zi |}
                            else r0) = ab_parent_addr r0)).
      { destruct (String.eqb (ab_addr r0) addr); split; reflexivity. }
      destruct E as [E1 E2]. rewrite E1, E2. split; [exact Hp|].
      intros p Hpar Hne. rewrite has_addr_update. exact (Hc p Hpar Hne).
  - intros a Ha. rewrite has_addr_update. exact Ha.
Qed.

(** Adding the row of an address whose non-empty parent is in the
    book. *)
Lemma grows_insert addr uv ty zi w :
  has_addr w addr = false ->
  (forall p, parent_of addr = Some p -> is_empty p = false -> has_addr w p = true) ->
  grows w
    (set_address_book
       (address_book w ++
          [{| ab_addr := addr; ab_uuid := uv; ab_type := ty;
              ab_parent_addr := parent_of addr;
              ab_coordinate_system := None; ab_is_origin := 0;
              ab_zero_index := zi |}])
       w).
Proof.
  intros Hno Hpar. split.
  - intros [Hnd Hrows]. split.
    + simpl. rewrite map_app. simpl. apply NoDup_snoc; [exact Hnd|].
      intros Hin. apply has_addr_in in Hin. congruence.
    + intros r Hin. simpl in Hin. apply in_app_or in Hin.
      destruct Hin as [Hin | [<- | []]].
      * destruct (Hrows r Hin) as [Hp Hc]. split; [exact Hp|].
        intros p Hpp Hne. rewrite has_addr_insert, (Hc p Hpp Hne). reflexivity.
      * simpl. split; [reflexivity|].
        intros p Hpp Hne. rewrite has_addr_insert, (Hpar p Hpp Hne). reflexivity.
  - intros a Ha. rewrite has_addr_insert, Ha. reflexivity.
Qed.

Lemma create_address_rec_grows fuel :
  forall addr uv ty zi w w' r,
    create_address_rec fuel addr uv ty zi w = (w', r) ->
    grows w w' /\ (forall x, r = Ok x -> has_addr w' addr = true).
Proof.
  induction fuel as [|fuel IH]; intros addr uv ty zi w w' r Hrun.
  - simpl in Hrun. inversion Hrun; subst. split; [apply grows_refl | discriminate].
  - simpl in Hrun. unfold bind at 1, gets at 1 in Hrun.
    destruct (has_addr w addr) eqn:Hex.
    + unfold bind, modify, ret in Hrun. inversion Hrun; subst.
      split; [apply grows_update|]. intros _ _. rewrite has_addr_update. exact Hex.
    + unfold bind at 1 in Hrun.
      destruct (ensure_parent _ (parent_of addr) w) as [w1 r1] eqn:Hs.
      assert (Hstep : grows w w1 /\
                      (r1 = Ok tt ->
                       forall p, parent_of addr = Some p -> is_empty p = false ->
                                 has_addr w1 p = true)).
      { revert Hs. unfold ensure_parent, bind, gets, ret.
        destruct (parent_of addr) as [p|] eqn:Hp; simpl.
        - destruct (is_empty p) eqn:Hempty; simpl.
          + intros [= <- <-]. split; [apply grows_refl|].
            intros _ q [= <-] Hq. congruence.
          + destruct (has_addr w p) eqn:Hhas.
            * intros [= <- <-]. split; [apply grows_refl|].
              intros _ q [= <-] _. exact Hhas.
            * destruct (create_address_rec fuel p None ty 0 w) as [w2 r2] eqn:Hrec.
              destruct (IH _ _ _ _ _ _ _ Hrec) as [Hg Hok].
              destruct r2 as [x|e]; intros [= <- <-].
              -- split; [exact Hg|]. intros _ q [= <-] _. exact (Hok x eq_refl).
              -- split; [exact Hg | discriminate].
        - intros [= <- <-]. split; [apply grows_refl|]. intros _ q [=]. }
      destruct Hstep as [Hg1 Hpar].
      destruct r1 as [[]|e].
      * unfold bind, insert_address, ret in Hrun.
        destruct (has_addr w1 addr) eqn:Hin.
        -- inversion Hrun; subst. split; [exact Hg1 | discriminate].
        -- inversion Hrun; subst. split.
           ++ eapply grows_trans; [exact Hg1|].
              apply grows_insert; [exact Hin | exact (Hpar eq_refl)].
           ++ intros _ _. rewrite has_addr_insert. simpl.
              rewrite String.eqb_refl. apply orb_true_r.
      * inversion Hrun; subst. split; [exact Hg1 | discriminate].
Qed.

Lemma create_address_preserves_book a u t z :
  preserves book_well_formed (create_address a u t z).
Proof.
  intros w w' r Hw Hrun.
  destruct (create_address_rec_grows _ _ _ _ _ _ _ _ Hrun) as [[Hg _] _]. auto.
Qed.

(** The writes that do not touch the book. *)
Ltac book_kept :=
  intros ? ? ?;
  repeat match goal with
         | |- context [if ?b then _ else _] => destruct b
         end;
  intros [= <- _]; reflexivity.

Section WithHash.
Variable sha256_hex : string -> string.

Lemma get_or_create_sentence_keeps_book t :
  keeps address_book (_get_or_create_sentence sha256_hex t).
Proof.
  unfold _get_or_create_sentence.
  apply keeps_bind; [apply keeps_gets|]. intros [row|]; [apply keeps_ret|].
  apply keeps_bind; [unfold uuid4; book_kept|]. intros u.
  apply keeps_bind; [unfold insert_sentence; book_kept|]. intros _.
  apply keeps_bind; [unfold h5_store_sentence, modify; book_kept|]. intros _.
  apply keeps_ret.
Qed.

Lemma get_or_create_token_keeps_book t :
  keeps address_book (_get_or_create_token sha256_hex t).
Proof.
  unfold _get_or_create_token.
  apply keeps_bind; [apply keeps_gets|]. intros [id|]; [apply keeps_ret|].
  apply keeps_bind; [unfold insert_token; book_kept|]. intros _.
  apply keeps_bind; [apply keeps_gets|]. intros [id|];
    [apply keeps_ret | apply keeps_raise].
Qed.

Lemma process_tokens_preserves_book u toks :
  forall p, preserves book_well_formed (process_tokens_from sha256_hex u p toks).
Proof.
  induction toks as [|t rest IH]; intros p; simpl.
  - apply preserves_ret.
  - apply preserves_bind.
    { eapply preserves_keeps; [exact book_well_formed_reads|].
      apply get_or_create_token_keeps_book. }
    intros id. apply preserves_bind.
    { eapply preserves_keeps; [exact book_well_formed_reads|].
      unfold _map_token_to_sentence, modify. book_kept. }
    intros _. apply preserves_bind; [apply create_address_preserves_book|].
    intros _. apply preserves_bind.
    { eapply preserves_keeps; [exact book_well_formed_reads|].
      unfold h5_store_token, modify. book_kept. }
    intros _. apply preserves_bind; [apply IH|]. intros more. apply preserves_ret.
Qed.

Lemma process_sentences_preserves_book doc sents :
  forall p, preserves book_well_formed
              (process_sentences_from sha256_hex doc p sents).
Proof.
  induction sents as [|t rest IH]; intros p; simpl.
  - apply preserves_ret.
  - apply preserves_bind.
    { eapply preserves_keeps; [exact book_well_formed_reads|].
      apply get_or_create_sentence_keeps_book. }
    intros created. apply preserves_bind.
    { eapply preserves_keeps; [exact book_well_formed_reads|].
      unfold _map_sentence_to_document, modify. book_kept. }
    intros _. apply preserves_bind; [apply create_address_preserves_book|].
    intros _. apply preserves_bind.
    { apply preserves_if; [apply process_tokens_preserves_book | apply preserves_ret]. }
    intros toks. apply preserves_bind; [apply IH|]. intros more. apply preserves_ret.
Qed.

Lemma process_document_preserves_book content dbidL dbidS title source metadata :
  preserves book_well_formed
    (process_document sha256_hex content dbidL dbidS title source metadata).
Proof.
  unfold process_document.
  apply preserves_bind.
  { eapply preserves_keeps; [exact book_well_formed_reads|]. unfold uuid4. book_kept. }
  intros doc. apply preserves_bind.
  { eapply preserves_keeps; [exact book_well_formed_reads|].
    unfold insert_document. book_kept. }
  intros _. apply preserves_bind; [apply process_sentences_preserves_book|].
  intros processed. apply preserves_bind.
  { eapply preserves_keeps; [exact book_well_formed_reads|].
    unfold h5_store_document, modify. book_kept. }
  intros _. apply preserves_ret.
Qed.

(** X10. The address book of every store built by [process_document],
    [create_address] and [set_relation] holds one row per address, each
    row records as its parent the address without its last dash-separated
    part, and every such parent that is not the empty text has a row of
    its own: [create_address] registers the missing ancestors before the
    address itself. *)
Theorem reachable_book_well_formed (w : World) :
  reachable sha256_hex w -> book_well_formed w.
Proof.
  induction 1 as [e | w content dbidL dbidS title source metadata _ IH
                    | w addr uv ty zi _ IH | w src tgt ty _ IH].
  - split; [constructor | intros r []].
  - destruct (process_document _ _ _ _ _ _ _ w) as [w' r] eqn:E.
    exact (process_document_preserves_book _ _ _ _ _ _ _ _ _ IH E).
  - destruct (create_address addr uv ty zi w) as [w' r] eqn:E.
    exact (create_address_preserves_book _ _ _ _ _ _ _ IH E).
  - destruct (set_relation src tgt ty w) as [w' r] eqn:E.
    refine (book_well_formed_reads w w' _ IH).
    revert E. unfold set_relation, bind, query, modify, ret.
    destruct (map_addr_to_uuid w src) as [s|e]; [|intros [= <- _]; reflexivity].
    destruct (map_addr_to_uuid w tgt) as [t|e]; [|intros [= <- _]; reflexivity].
    destruct (negb (truthy s) || negb (truthy t)); intros [= <- _]; reflexivity.
Qed.

End WithHash.

Lemma reachable_book_well_formed_witness : book_well_formed Sample.one_document.
Proof.
  apply (reachable_book_well_formed Sample.sample_hash).
  exact (reach_process_document Sample.sample_hash _ Sample.two_sentences "Report"
           None None None None (reach_empty _ Sample.sample_entropy)).
Defined.

(** *** Registering an address again *)

Lemma find_update addr uv ty zi (l : list AddressRow) b :
  find (fun r => String.eqb (ab_addr r) b)
    (map (fun r =>
            if String.eqb (ab_addr r) addr
            then {| ab_addr := ab_addr r;
                    ab_uuid := coalesce uv (ab_uuid r);
                    ab_type := coalesce ty (ab_type r);
                    ab_parent_addr := ab_parent_addr r;
                    ab_coordinate_system := ab_coordinate_system r;
                    ab_is_origin := ab_is_origin r;
                    ab_zero_index := zi |}
            else r) l)
  = option_map
      (fun r =>
         if String.eqb b addr
         then {| ab_addr := ab_addr r;
                 ab_uuid := coalesce uv (ab_uuid r);
                 ab_type := coalesce ty (ab_type r);
                 ab_parent_addr := ab_parent_addr r;
                 ab_coordinate_system := ab_coordinate_system r;
                 ab_is_origin := ab_is_origin r;
                 ab_zero_index := zi |}
         else r)
      (find (fun r => String.eqb (ab_addr r) b) l).
Proof.
  induction l as [|r l IH]; [reflexivity|]. simpl.
  destruct (String.eqb (ab_addr r) addr) eqn:Ea; simpl.
  - destruct (String.eqb (ab_addr r) b) eqn:Eb.
    + apply String.eqb_eq in Ea. apply String.eqb_eq in Eb.
      assert (b = addr) as -> by congruence.
      rewrite String.eqb_refl. reflexivity.
    + exact IH.
  - destruct (String.eqb (ab_addr r) b) eqn:Eb.
    + apply String.eqb_eq in Eb. subst b. rewrite Ea. reflexivity.
    + exact IH.
Qed.




(** *** Looking addresses up by identifier *)



(** *** Attributes *)

(** X13. [add_address_attribute] always answers [True].  On an
    address of the book, [get_address] then shows the value under the
    key, and shows no other value under that key: the last write wins.
    On an address that is not in the book the row is stored all the same
    and [get_address] keeps answering [None]. *)
Theorem attribute_last_write_wins (w : World) (a k v : string) :
  exists w',
    add_address_attribute a k v w = (w', Ok true) /\
    address_book w' = address_book w /\
    (has_addr w a = true ->
     exists info attrs,
       get_address w' a = Some info /\ ai_attributes info = Some attrs /\
       In (k, v) attrs /\ forall v', In (k, v') attrs -> v' = v) /\
    (has_addr w a = false -> get_address w' a = None).
Proof.
  unfold add_address_attribute, bind, modify, ret.
  eexists. split; [reflexivity|]. split; [reflexivity|].
  unfold get_address, has_addr. simpl. split.
  - intros Hex. destruct (find _ (address_book w)) as [row|] eqn:E.
    + rewrite filter_app, map_app. simpl.
      rewrite !String.eqb_refl. simpl.
      set (old := map _ (filter _ (filter _ (address_attributes w)))).
      assert (Hold : forall v', ~ In (k, v') old).
      { intros v' Hin. subst old. apply in_map_iff in Hin.
        destruct Hin as (x & Hx & Hin). apply filter_In in Hin.
        destruct Hin as [Hin Hadd]. apply filter_In in Hin.
        destruct Hin as [_ Hnot]. injection Hx as Hk _.
        unfold same_attribute in Hnot. rewrite Hadd, Hk, String.eqb_refl in Hnot.
        discriminate. }
      assert (Hm : match old ++ [(k, v)] with
                   | [] => None
                   | _ :: _ => Some (old ++ [(k, v)])
                   end = Some (old ++ [(k, v)]))
        by (destruct old; reflexivity).
      rewrite Hm.
      eexists. exists (old ++ [(k, v)]). split; [reflexivity|].
      split; [reflexivity|]. split; [apply in_or_app; right; left; reflexivity|].
      intros v' Hin. apply in_app_or in Hin.
      destruct Hin as [Hin | [[= ->] | []]]; [|reflexivity].
      exfalso. exact (Hold v' Hin).
    + exfalso. apply existsb_exists in Hex. destruct Hex as (r & Hin & Hr).
      pose proof (find_none _ _ E r Hin) as Hf. simpl in Hf. congruence.
  - intros Hno. destruct (find _ (address_book w)) as [row|] eqn:E; [|reflexivity].
    exfalso. apply find_some in E.
    assert (existsb (fun r => String.eqb (ab_addr r) a) (address_book w) = true).
    { apply existsb_exists. exists row. exact E. }
    congruence.
Qed.

Lemma attribute_last_write_wins_witness :
  let w := fst (create_address "lib" None None 0
                  (empty_world Sample.sample_entropy)) in
  exists w' info attrs,
    add_address_attribute "lib" "color" "red" w = (w', Ok true) /\
    get_address w' "lib" = Some info /\ ai_attributes info = Some attrs /\
    In ("color", "red") attrs /\ forall v', In ("color", v') attrs -> v' = "red".
Proof.
  intros w.
  destruct (attribute_last_write_wins w "lib" "color" "red")
    as (w' & Hrun & _ & Hin & _).
  destruct (Hin eq_refl) as (info & attrs & Hget & Hattrs & Hmem & Hlast).
  exists w', info, attrs. repeat split; assumption.
Defined.

(** *** Origins *)

Lemma find_mark_origin name addr (l : list AddressRow) :
  find (fun r => String.eqb (ab_addr r) addr)
    (map (fun r =>
            if String.eqb (ab_addr r) addr
            then {| ab_addr := ab_addr r; ab_uuid := ab_uuid r;
                    ab_type := ab_type r; ab_parent_addr := ab_parent_addr r;
                    ab_coordinate_system := Some name;
                    ab_is_origin := 1;
                    ab_zero_index := ab_zero_index r |}
            else r) l)
  = option_map
      (fun r => {| ab_addr := ab_addr r; ab_uuid := ab_uuid r;
                   ab_type := ab_type r; ab_parent_addr := ab_parent_addr r;
                   ab_coordinate_system := Some name;
                   ab_is_origin := 1;
                   ab_zero_index := ab_zero_index r |})
      (find (fun r => String.eqb (ab_addr r) addr) l).
Proof.
  induction l as [|r l IH]; [reflexivity|]. simpl.
  destruct (String.eqb (ab_addr r) addr) eqn:E; simpl; rewrite E;
    [reflexivity | exact IH].
Qed.

(** X14. [create_coordinate_system] on an address that is not in the
    book raises [ValueError] and writes nothing.  On an address of the
    book it returns the name, the origin and the dimensions (none when
    left out), and [get_address] then shows the address as an origin of
    that system, with its identifier, type, parent, zero-index and
    attributes as they were. *)
Theorem coordinate_system_marks_origin
        {D : Type} (w : World) (name a : string) (dimensions : option (list D)) :
  (get_address w a = None ->
   create_coordinate_system name a dimensions w
   = (w, Raise (ValueError ("Origin address not found: " ++ a)))) /\
  (forall info,
      get_address w a = Some info ->
      exists w',
        create_coordinate_system name a dimensions w
        = (w', Ok {| cs_name := name; cs_origin_addr := a;
                     cs_dimensions := match dimensions with
                                      | Some ds => ds
                                      | None => []
                                      end |}) /\
        get_address w' a
        = Some {| ai_addr := ai_addr info; ai_uuid := ai_uuid info;
                  ai_type := ai_type info;
                  ai_parent_addr := ai_parent_addr info;
                  ai_coordinate_system := Some name;
                  ai_is_origin := true;
                  ai_zero_index := ai_zero_index info;
                  ai_attributes := ai_attributes info |}).
Proof.
  unfold create_coordinate_system, bind, gets, raise, modify, ret. split.
  - intros ->. reflexivity.
  - intros info Hget. rewrite Hget. eexists. split; [reflexivity|].
    unfold get_address in *. unfold mark_origin. simpl.
    rewrite find_mark_origin.
    destruct (find _ (address_book w)) as [row|]; [|discriminate].
    injection Hget as <-. reflexivity.
Qed.

Lemma coordinate_system_marks_origin_witness :
  let w := fst (create_address "lib-shelf" (Some "u7") (Some "sentence") 3
                  (empty_world Sample.sample_entropy)) in
  create_coordinate_system "plane" "nowhere" (@None (list string)) w
  = (w, Raise (ValueError "Origin address not found: nowhere")) /\
  exists w',
    create_coordinate_system "plane" "lib-shelf" (@None (list string)) w
    = (w', Ok {| cs_name := "plane"; cs_origin_addr := "lib-shelf";
                 cs_dimensions := [] |}) /\
    get_address w' "lib-shelf"
    = Some {| ai_addr := "lib-shelf"; ai_uuid := Some "u7";
              ai_type := Some "sentence"; ai_parent_addr := Some "lib";
              ai_coordinate_system := Some "plane"; ai_is_origin := true;
              ai_zero_index := 3; ai_attributes := None |}.
Proof.
  split.
  - apply (proj1 (coordinate_system_marks_origin
                    (fst (create_address "lib-shelf" (Some "u7") (Some "sentence") 3
                            (empty_world Sample.sample_entropy)))
                    "plane" "nowhere" (@None (list string)))).
    reflexivity.
  - exact (proj2 (coordinate_system_marks_origin
                    (fst (create_address "lib-shelf" (Some "u7") (Some "sentence") 3
                            (empty_world Sample.sample_entropy)))
                    "plane" "lib-shelf" (@None (list string))) _ eq_refl).
Defined.

(** *** Addresses that do not resolve *)

Lemma map_addr_to_uuid_no_dash w a :
  contains "-" a = false -> map_addr_to_uuid w a = Ok None.
Proof.
  intros H. unfold map_addr_to_uuid. rewrite (split_char_nosep _ _ H). reflexivity.
Qed.

Lemma get_address_none w a : has_addr w a = false -> get_address w a = None.
Proof.
  intros H. unfold get_address.
  destruct (find _ (address_book w)) as [row|] eqn:E; [|reflexivity].
  apply find_some in E.
  assert (has_addr w a = true) by (apply existsb_exists; exists row; exact E).
  congruence.
Qed.

Lemma resolve_plain_unknown w a :
  has_addr w a = false -> contains "-" a = false ->
  resolve_plain w a = Raise (ValueError ("Address not found: " ++ a)).
Proof.
  intros Hno Hdash. unfold resolve_plain.
  rewrite (get_address_none _ _ Hno), (map_addr_to_uuid_no_dash _ _ Hdash).
  reflexivity.
Qed.

(** X15. [set_relation] answers [False] and writes nothing when
    either address resolves to no sentence; but an address whose second
    dash-separated part is not a numeral does not give [False]: the
    [ValueError] of [int] leaves the method before its [try] is
    entered. *)
Theorem set_relation_failure_modes (w : World) (src tgt ty : string) :
  (forall s t,
      map_addr_to_uuid w src = Ok s -> map_addr_to_uuid w tgt = Ok t ->
      s = None \/ t = None ->
      set_relation src tgt ty w = (w, Ok false)) /\
  (forall x y rest,
      split_char "-" src = x :: y :: rest -> py_int y = None ->
      set_relation src tgt ty w
      = (w, Raise (ValueError "invalid literal for int() with base 10"))).
Proof.
  unfold set_relation, bind, query, ret. split.
  - intros s t -> -> [-> | ->]; [reflexivity|].
    destruct (truthy s); reflexivity.
  - intros x y rest Hsplit Hint.
    rewrite (AddressTextFacts.map_addr_to_uuid_parts _ _ _ _ _ Hsplit), Hint.
    reflexivity.
Qed.

Lemma set_relation_failure_modes_witness :
  set_relation "doc:current_document-0" "doc:current_document-7" "synonym"
    Sample.current_document
  = (Sample.current_document, Ok false) /\
  set_relation "doc:current_document-first" "doc:current_document-1" "synonym"
    Sample.current_document
  = (Sample.current_document,
     Raise (ValueError "invalid literal for int() with base 10")).
Proof.
  split.
  - apply (proj1 (set_relation_failure_modes Sample.current_document
                    "doc:current_document-0" "doc:current_document-7" "synonym")
             (Some "u1") None); [reflexivity | reflexivity | right; reflexivity].
  - apply (proj2 (set_relation_failure_modes Sample.current_document
                    "doc:current_document-first" "doc:current_document-1" "synonym")
             "doc:current_document" "first" []); reflexivity.
Defined.

(** X16. [resolve_address] of an address that holds no dash and is
    not in the book raises [ValueError] with the address in the message;
    and a reference address of that kind makes the call fail for an
    address that is in the book: where the address resolves on its own,
    the call with the reference raises that [ValueError], and where the
    address raises on its own (the [OverflowError] of a token address)
    the call with the reference raises the same. *)
Theorem resolve_unknown_address (w : World) (a : string) :
  has_addr w a = false -> contains "-" a = false ->
  (forall relative_to,
      resolve_address w a relative_to
      = Raise (ValueError ("Address not found: " ++ a))) /\
  (forall b info,
      get_address w b = Some info -> is_empty a = false ->
      resolve_address w b (Some a)
      = match resolve_address w b None with
        | Ok _ => Raise (ValueError ("Address not found: " ++ a))
        | Raise e => Raise e
        end).
Proof.
  intros Hno Hdash. pose proof (resolve_plain_unknown _ _ Hno Hdash) as Hplain.
  split.
  - intros rel. unfold resolve_address. rewrite Hplain. reflexivity.
  - intros b info Hget Hne. unfold resolve_address.
    destruct (resolve_plain w b) as [r|e] eqn:Hb; [|reflexivity].
    destruct (resolve_plain_registered _ _ _ _ Hget Hb) as (c & o & t & s & p & ->).
    cbn [result_bind]. unfold truthy. rewrite Hne. cbn [negb].
    rewrite Hplain. reflexivity.
Qed.

Lemma resolve_unknown_address_witness :
  let w := fst (create_address "lib-shelf" (Some "u7") (Some "sentence") 3
                  (empty_world Sample.sample_entropy)) in
  (forall relative_to,
      resolve_address w "nowhere" relative_to
      = Raise (ValueError "Address not found: nowhere")) /\
  (forall b info,
      get_address w b = Some info -> is_empty "nowhere" = false ->
      resolve_address w b (Some "nowhere")
      = match resolve_address w b None with
        | Ok _ => Raise (ValueError "Address not found: nowhere")
        | Raise e => Raise e
        end).
Proof.
  exact (resolve_unknown_address
           (fst (create_address "lib-shelf" (Some "u7") (Some "sentence") 3
                   (empty_world Sample.sample_entropy)))
           "nowhere" eq_refl eq_refl).
Defined.

(** *** The chain of levels *)

Lemma parent_of_joined x l :
  contains "-" l = false -> parent_of (x ++ String "-" l) = Some x.
Proof.
  intros Hl. unfold parent_of.
  assert (Hc : contains "-" (x ++ String "-" l) = true).
  { unfold contains. rewrite existsb_str_app. simpl. apply orb_true_r. }
  rewrite Hc, (split_char_snoc _ _ _ Hl).
  assert (Hlen : (1 <? List.length (split_char "-" x ++ [l]))%nat = true).
  { apply Nat.ltb_lt. rewrite length_app. simpl.
    pose proof (split_char_nonempty "-" x).
    destruct (split_char "-" x); [congruence | simpl; lia]. }
  rewrite Hlen. unfold all_but_last. rewrite removelast_last, join_split_char.
  reflexivity.
Qed.

Lemma join_snoc init l :
  init <> [] -> join "-" (init ++ [l]) = (join "-" init ++ String "-" l)%string.
Proof. intros H. unfold join. rewrite (concat_snoc _ _ _ H). reflexivity. Qed.

Lemma join_snoc_nonempty init l :
  init <> [] -> is_empty (join "-" (init ++ [l])) = false.
Proof.
  intros H. rewrite (join_snoc _ _ H).
  destruct (join "-" init); reflexivity.
Qed.

(** In a well-formed book the prefixes of a registered chain of
    dash-free levels are registered. *)
Lemma ancestors_registered w rest :
  book_well_formed w ->
  Forall (fun l => contains "-" l = false) rest ->
  forall init,
    init <> [] -> is_empty (join "-" init) = false ->
    has_addr w (join "-" (init ++ rest)) = true ->
    has_addr w (join "-" init) = true.
Proof.
  intros [_ Hrows] Hrest. induction Hrest as [|l rest Hl _ IH]; intros init Hne Hjoin Hhas.
  - rewrite app_nil_r in Hhas. exact Hhas.
  - assert (Hsnoc : init ++ [l] <> []) by (destruct init; discriminate).
    assert (Hstep : has_addr w (join "-" (init ++ [l])) = true).
    { apply IH; [exact Hsnoc | apply join_snoc_nonempty; exact Hne|].
      rewrite <- app_assoc. exact Hhas. }
    apply has_addr_in in Hstep. apply in_map_iff in Hstep.
    destruct Hstep as (r & Hr & Hin).
    destruct (Hrows r Hin) as [_ Hparent].
    apply (Hparent (join "-" init)); [|exact Hjoin].
    rewrite Hr, (join_snoc _ _ Hne). apply parent_of_joined. exact Hl.
Qed.

Lemma contains_join sep c parts :
  contains c sep = false -> Forall (fun p => contains c p = false) parts ->
  contains c (join sep parts) = false.
Proof.
  intros Hsep H. unfold join, contains in *.
  induction H as [|p parts Hp _ IH]; [reflexivity|].
  simpl. destruct parts as [|q parts]; [exact Hp|].
  rewrite !existsb_str_app, Hp, Hsep. exact IH.
Qed.

(** X17. The service registers a list of levels as the levels joined
    by dashes (with the attributes, joined by underscores, after them).
    On a well-formed book, and for levels and attributes without dashes,
    the call returns that address, registers it, and registers every
    shorter chain of the levels that is not the empty text: the levels
    form a path of registered addresses, each the parent of the next. *)
Theorem levels_chain_registered
        (w : World) (levels : list string) (attributes : option (list string))
        (uuid_value addr_type : option string) :
  book_well_formed w ->
  Forall (fun l => contains "-" l = false) levels ->
  (forall attrs, attributes = Some attrs ->
                 Forall (fun a => contains "-" a = false) attrs) ->
  exists w',
    DDService.create_address levels attributes uuid_value addr_type w
    = (w', Ok (DDService.full_address levels attributes)) /\
    book_well_formed w' /\
    has_addr w' (DDService.full_address levels attributes) = true /\
    forall init rest,
      levels = init ++ rest -> init <> [] -> rest <> [] ->
      is_empty (join "-" init) = false ->
      has_addr w' (join "-" init) = true.
Proof.
  intros Hw Hlevels Hattrs. unfold DDService.create_address.
  set (full := DDService.full_address levels attributes).
  destruct (create_address_rec_ok (S (String.length full)) full
              uuid_value addr_type 0%Z w) as (w' & Hrun & _); [lia|].
  exists w'. split; [exact Hrun|].
  destruct (create_address_rec_grows _ _ _ _ _ _ _ _ Hrun) as [[Hg _] Hhas].
  specialize (Hg Hw). specialize (Hhas full eq_refl).
  split; [exact Hg|]. split; [exact Hhas|].
  intros init rest Hsplit Hinit Hrest Hjoin.
  destruct (@exists_last _ rest Hrest) as (mid & l & ->).
  (* the suffix that the attributes add to the last level *)
  set (suffix := match attributes with
                 | Some (a :: more) => ("_" ++ join "_" (a :: more))%string
                 | _ => EmptyString
                 end).
  assert (Hfull : full = join "-" (init ++ (mid ++ [(l ++ suffix)%string]))).
  { subst full suffix. unfold DDService.full_address. rewrite Hsplit.
    rewrite !app_assoc.
    assert (Hne : init ++ mid <> []) by (destruct init; [congruence | discriminate]).
    rewrite !(join_snoc _ _ Hne).
    destruct attributes as [[|a more]|];
      rewrite ?append_nil_r; try reflexivity.
    rewrite append_assoc. simpl. reflexivity. }
  apply (ancestors_registered w' (mid ++ [(l ++ suffix)%string]) Hg);
    [| exact Hinit | exact Hjoin | rewrite <- Hfull; exact Hhas].
  rewrite Hsplit in Hlevels. apply Forall_app in Hlevels.
  destruct Hlevels as [_ Hl]. apply Forall_app in Hl. destruct Hl as [Hmid Hl].
  apply Forall_app. split; [exact Hmid|]. constructor; [|constructor].
  inversion Hl as [|? ? Hl0 _]; subst.
  assert (Hsuffix : contains "-" suffix = false).
  { subst suffix. destruct attributes as [[|a more]|]; try reflexivity.
    change (contains "-" ("_" ++ join "_" (a :: more)))
      with (contains "-" (join "_" (a :: more))).
    apply contains_join; [reflexivity|]. exact (Hattrs _ eq_refl). }
  unfold contains in *. rewrite existsb_str_app, Hl0, Hsuffix. reflexivity.
Qed.

Lemma levels_chain_registered_witness :
  exists w',
    DDService.create_address ["lib"; "shelf"; "book"] (Some ["red"; "old"])
      (Some "u7") None (empty_world Sample.sample_entropy)
    = (w', Ok "lib-shelf-book_red_old") /\
    book_well_formed w' /\
    has_addr w' "lib-shelf-book_red_old" = true /\
    forall init rest,
      ["lib"; "shelf"; "book"] = init ++ rest -> init <> [] -> rest <> [] ->
      is_empty (join "-" init) = false ->
      has_addr w' (join "-" init) = true.
Proof.
  apply (levels_chain_registered (empty_world Sample.sample_entropy)
           ["lib"; "shelf"; "book"] (Some ["red"; "old"]) (Some "u7") None).
  - split; [constructor | intros r []].
  - repeat constructor.
  - intros attrs [= <-]. repeat constructor.
Defined.

End AddressBookFacts.

(** ** What [process_document] leaves in the store *)

Module ProcessingFacts.
Import PyStrFacts Schema ZeroIndexMapper AddressManager DocumentManager Frame.
Import AddressManagerFacts DocumentManagerFacts AddressBookFacts.

(** *** Lists and texts *)

Lemma find_app_some {A} (f : A -> bool) l x r :
  find f l = Some r -> find f (l ++ x) = Some r.
Proof.
  induction l as [|a l IH]; [discriminate|]. simpl.
  destruct (f a); [auto | exact IH].
Qed.

Lemma insert_sorted_in {A} (le : A -> A -> bool) x y l :
  In y (insert_sorted le x l) <-> y = x \/ In y l.
Proof.
  induction l as [|a l IH]; simpl.
  - split; [intros [<-|[]]; left; reflexivity | intros [->|[]]; left; reflexivity].
  - destruct (le x a); simpl.
    + split; [intros [<-|H]; [left; reflexivity | right; exact H]
             | intros [->|H]; [left; reflexivity | right; exact H]].
    + rewrite IH. split.
      * intros [<-|[->|H]]; [right; left | left | right; right]; auto.
      * intros [->|[<-|H]]; [right; left | left | right; right]; auto.
Qed.

Lemma order_by_in {A} (le : A -> A -> bool) y l :
  In y (order_by le l) <-> In y l.
Proof.
  unfold order_by. induction l as [|a l IH]; simpl; [tauto|].
  rewrite insert_sorted_in, IH. split; intros [H|H]; auto.
Qed.

Lemma append_inj_l (s t u : string) : (s ++ t)%string = (s ++ u)%string -> t = u.
Proof. induction s as [|c s IH]; simpl; [auto|]. intros [= H]. exact (IH H). Qed.

Lemma str_of_Z_inj p q :
  (0 <= p)%Z -> (0 <= q)%Z -> str_of_Z p = str_of_Z q -> p = q.
Proof.
  intros Hp Hq E. pose proof (py_int_str_of_Z p Hp) as A.
  rewrite E, (py_int_str_of_Z q Hq) in A. congruence.
Qed.

(** Two texts that end in a separator and a run of digits are equal
    only if the separators are. *)
Lemma last_separator x y (c d : ascii) ds es :
  is_digit c = false -> is_digit d = false ->
  forallb_str is_digit ds = true -> forallb_str is_digit es = true ->
  (x ++ String c ds)%string = (y ++ String d es)%string -> c = d.
Proof.
  intros Hc Hd Hds Hes. revert y.
  induction x as [|a x IH]; intros [|b y]; simpl.
  - intros [= -> _]. reflexivity.
  - intros [= _ E]. exfalso. rewrite E, forallb_str_app in Hds. simpl in Hds.
    rewrite Hd in Hds. rewrite andb_false_r in Hds. discriminate.
  - intros [= _ E]. exfalso. rewrite <- E, forallb_str_app in Hes. simpl in Hes.
    rewrite Hc in Hes. rewrite andb_false_r in Hes. discriminate.
  - intros [= _ E]. exact (IH _ E).
Qed.

(** The address of a sentence in a document is the address of no
    token, and two positions of a document have two addresses. *)
Lemma sentence_addr_not_token doc i u k :
  (0 <= i)%Z -> (0 <= k)%Z ->
  ("doc:" ++ doc ++ "-" ++ str_of_Z i)%string <> (u ++ "." ++ str_of_Z k)%string.
Proof.
  intros Hi Hk E.
  change ("doc:" ++ doc ++ "-" ++ str_of_Z i)%string
    with ("doc:" ++ (doc ++ String "-" (str_of_Z i)))%string in E.
  rewrite <- append_assoc in E.
  change (u ++ "." ++ str_of_Z k)%string with (u ++ String "." (str_of_Z k))%string in E.
  apply last_separator in E; try reflexivity; try (apply str_of_Z_digits; assumption).
  discriminate.
Qed.

Lemma sentence_addr_inj doc i j :
  (0 <= i)%Z -> (0 <= j)%Z ->
  ("doc:" ++ doc ++ "-" ++ str_of_Z i)%string
  = ("doc:" ++ doc ++ "-" ++ str_of_Z j)%string -> i = j.
Proof.
  intros Hi Hj E. apply (append_inj_l "doc:") in E.
  apply append_inj_l in E. apply (append_inj_l "-") in E.
  exact (str_of_Z_inj _ _ Hi Hj E).
Qed.

(** *** What [create_address] leaves alone *)

Lemma create_address_rec_keeps_off {X} (proj : World -> X) fuel :
  ignores proj set_address_book ->
  forall a u t z, keeps proj (create_address_rec fuel a u t z).
Proof.
  intros Hb. induction fuel as [|fuel IH]; intros a u t z; simpl.
  - apply keeps_raise.
  - apply keeps_bind; [apply keeps_gets|]. intros [|].
    + apply keeps_bind; [apply keeps_modify; intros w; apply Hb|].
      intros _. apply keeps_ret.
    + apply keeps_bind.
      * unfold ensure_parent. apply keeps_if; [|apply keeps_ret].
        apply keeps_bind; [apply keeps_gets|]. intros [|].
        -- apply keeps_ret.
        -- apply keeps_bind; [apply IH | intros _; apply keeps_ret].
      * intros _. apply keeps_bind; [|intros _; apply keeps_ret].
        intros w w' r. unfold insert_address.
        destruct (has_addr w a); intros [= <- _]; [reflexivity | apply Hb].
Qed.

Lemma row_of_app w row b :
  has_addr w b = true ->
  row_of (set_address_book (address_book w ++ [row]) w) b = row_of w b.
Proof.
  unfold has_addr, row_of. simpl. intros H.
  destruct (find (fun r => String.eqb (ab_addr r) b) (address_book w)) as [r|] eqn:E.
  - exact (find_app_some _ _ _ _ E).
  - exfalso. apply existsb_exists in H. destruct H as (r & Hin & Hr).
    pose proof (find_none _ _ E r Hin) as Hf. simpl in Hf. congruence.
Qed.

Lemma row_of_update_other w a uv ty z b :
  b <> a -> row_of (update_address a uv ty z w) b = row_of w b.
Proof.
  intros Hne. unfold row_of, update_address. simpl.
  rewrite find_update. apply String.eqb_neq in Hne. rewrite Hne.
  destruct (find _ (address_book w)); reflexivity.
Qed.

(** [create_address] on one address leaves the row of every other
    address of the book as it is. *)
Lemma create_address_rec_keeps_row fuel :
  forall a uv ty z w w' r b,
    create_address_rec fuel a uv ty z w = (w', r) ->
    has_addr w b = true -> b <> a ->
    row_of w' b = row_of w b.
Proof.
  induction fuel as [|fuel IH]; intros a uv ty z w w' r b Hrun Hb Hne.
  - simpl in Hrun. injection Hrun as <- _. reflexivity.
  - simpl in Hrun. unfold bind at 1, gets at 1 in Hrun.
    destruct (has_addr w a) eqn:Hex.
    + unfold bind, modify, ret in Hrun. injection Hrun as <- _.
      apply row_of_update_other. exact Hne.
    + unfold bind at 1 in Hrun.
      destruct (ensure_parent _ (parent_of a) w) as [w1 r1] eqn:Hs.
      assert (Hstep : row_of w1 b = row_of w b /\ has_addr w1 b = true).
      { revert Hs. unfold ensure_parent, bind, gets, ret.
        destruct (parent_of a) as [p|]; simpl; [|intros [= <- _]; auto].
        destruct (is_empty p); simpl; [intros [= <- _]; auto|].
        destruct (has_addr w p) eqn:Hp; [intros [= <- _]; auto|].
        destruct (create_address_rec fuel p None ty 0 w) as [w2 r2] eqn:Hrec.
        assert (row_of w2 b = row_of w b /\ has_addr w2 b = true).
        { split.
          - eapply IH; [exact Hrec | exact Hb|]. intros ->. congruence.
          - exact (proj2 (proj1 (create_address_rec_grows _ _ _ _ _ _ _ _ Hrec)) b Hb). }
        destruct r2; intros [= <- _]; assumption. }
      destruct Hstep as [Hrow Hb1].
      destruct r1 as [[]|e]; [|injection Hrun as <- _; exact Hrow].
      unfold bind, insert_address, ret in Hrun.
      destruct (has_addr w1 a); injection Hrun as <- _; [exact Hrow|].
      rewrite row_of_app by exact Hb1. exact Hrow.
Qed.

Lemma row_of_reads w w' b :
  address_book w' = address_book w -> row_of w' b = row_of w b.
Proof. unfold row_of. intros ->. reflexivity. Qed.

Lemma row_of_has_addr w b row : row_of w b = Some row -> has_addr w b = true.
Proof.
  unfold row_of, has_addr. intros E. apply find_some in E.
  apply existsb_exists. exists row. exact E.
Qed.

Lemma create_address_preserves_row a uv ty z b row :
  b <> a -> preserves (fun w => row_of w b = Some row) (create_address a uv ty z).
Proof.
  intros Hne w w' r Hw Hrun.
  rewrite (create_address_rec_keeps_row _ _ _ _ _ _ _ _ b Hrun); auto.
  exact (row_of_has_addr _ _ _ Hw).
Qed.

(** The row that [create_address] leaves at the address, when an
    identifier and a type are given. *)
Lemma create_address_row a u ty z w w' x :
  create_address a (Some u) (Some ty) z w = (w', Ok x) ->
  exists row, row_of w' a = Some row /\ ab_uuid row = Some u /\
              ab_type row = Some ty /\ ab_zero_index row = z.
Proof.
  unfold create_address. simpl. unfold bind at 1, gets at 1.
  destruct (has_addr w a) eqn:Hex.
  - unfold bind, modify, ret. intros [= <- _].
    assert (Hrow : row_of (update_address a (Some u) (Some ty) z w) a
                   = option_map
                       (fun r => {| ab_addr := ab_addr r;
                                    ab_uuid := Some u; ab_type := Some ty;
                                    ab_parent_addr := ab_parent_addr r;
                                    ab_coordinate_system := ab_coordinate_system r;
                                    ab_is_origin := ab_is_origin r;
                                    ab_zero_index := z |})
                       (row_of w a)).
    { unfold row_of, update_address. cbn [address_book set_address_book].
      rewrite find_update, String.eqb_refl. reflexivity. }
    rewrite Hrow. unfold row_of.
    destruct (find _ (address_book w)) as [r0|] eqn:E.
    + eexists. split; [reflexivity|]. repeat split.
    + exfalso. unfold has_addr in Hex. apply existsb_exists in Hex.
      destruct Hex as (r & Hin & Hr).
      pose proof (find_none _ _ E r Hin) as Hf. simpl in Hf. congruence.
  - unfold bind at 1.
    destruct (ensure_parent _ (parent_of a) w) as [w1 [[]|e]]; [|discriminate].
    unfold bind, insert_address, ret.
    destruct (has_addr w1 a) eqn:Hno; [discriminate|]. intros [= <- _].
    match goal with
    | |- context [set_address_book (_ ++ [?row]) _] =>
        exists row; split; [apply (row_of_insert w1 row); exact Hno | repeat split]
    end.
Qed.

Section WithHash.
Variable sha256_hex : string -> string.

(** *** One turn of the loops *)

Lemma process_sentences_step doc pos t rest w w' ps :
  process_sentences_from sha256_hex doc pos (t :: rest) w = (w', Ok ps) ->
  exists u b w1 w2 w3 w4 a toks more,
    _get_or_create_sentence sha256_hex t w = (w1, Ok (u, b)) /\
    _map_sentence_to_document u doc pos w1 = (w2, Ok tt) /\
    create_address ("doc:" ++ doc ++ "-" ++ str_of_Z pos)
      (Some u) (Some "sentence") 0 w2 = (w3, Ok a) /\
    (if b then _process_sentence_tokens sha256_hex t u else ret []) w3
    = (w4, Ok toks) /\
    process_sentences_from sha256_hex doc (pos + 1) rest w4 = (w', Ok more) /\
    ps = {| ps_uuid := u; ps_text := t; ps_position := pos;
            ps_address := ("doc:" ++ doc ++ "-" ++ str_of_Z pos)%string;
            ps_is_new := b; ps_tokens := toks |} :: more.
Proof.
  simpl. unfold bind at 1.
  destruct (_get_or_create_sentence sha256_hex t w) as [w1 [[u b]|e]] eqn:H1;
    [|discriminate].
  simpl. unfold bind at 1.
  destruct (_map_sentence_to_document u doc pos w1) as [w2 [[]|e]] eqn:H2;
    [|discriminate].
  unfold bind at 1.
  destruct (create_address _ (Some u) (Some "sentence") 0 w2)
    as [w3 [a|e]] eqn:H3; [|discriminate].
  unfold bind at 1.
  destruct ((if b then _process_sentence_tokens sha256_hex t u else ret []) w3)
    as [w4 [toks|e]] eqn:H4; [|discriminate].
  unfold bind at 1.
  destruct (process_sentences_from sha256_hex doc (pos + 1) rest w4)
    as [w5 [more|e]] eqn:H5; [|discriminate].
  intros [= <- <-].
  exists u, b, w1, w2, w3, w4, a, toks, more. repeat split; assumption.
Qed.

Lemma process_document_steps content dbidL dbidS title source metadata w w' d :
  process_document sha256_hex content dbidL dbidS title source metadata w
  = (w', Ok d) ->
  exists w1 w2 ps,
    insert_document (document_row w dbidL dbidS title source metadata)
      (set_rng (rng_advance (rng w)) w) = (w1, Ok tt) /\
    process_sentences_from sha256_hex (rng_next (rng w)) 0
      (_split_into_sentences content) w1 = (w2, Ok ps) /\
    documents w' = documents w2 /\ sentences w' = sentences w2 /\
    doc_sentence_map w' = doc_sentence_map w2 /\
    tokens w' = tokens w2 /\ address_book w' = address_book w2 /\
    address_attributes w' = address_attributes w2 /\
    sentence_token_map w' = sentence_token_map w2 /\
    relations w' = relations w2 /\
    d = {| pd_uuid := rng_next (rng w); pd_dbidL := dbidL;
           pd_dbidS := doc_dbidS (document_row w dbidL dbidS title source metadata);
           pd_title := title; pd_source := source;
           pd_sentence_count := Z.of_nat (List.length ps);
           pd_sentences := ps |}.
Proof.
  unfold process_document. unfold bind at 1. unfold uuid4 at 1.
  unfold bind at 1.
  change {| doc_uuid := rng_next (rng w); doc_dbidL := dbidL;
            doc_dbidS := if truthy dbidS then or_empty dbidS
                         else take 8 (rng_next (rng w));
            doc_title := title; doc_source := source; doc_metadata := metadata |}
    with (document_row w dbidL dbidS title source metadata).
  destruct (insert_document _ (set_rng (rng_advance (rng w)) w))
    as [w1 [[]|e]] eqn:H1; [|discriminate].
  unfold bind at 1.
  destruct (process_sentences_from sha256_hex _ 0 _ w1) as [w2 [ps|e]] eqn:H2;
    [|discriminate].
  unfold bind at 1. unfold h5_store_document at 1, modify at 1.
  unfold ret. intros [= <- <-].
  exists w1, w2, ps. split; [reflexivity|]. split; [exact H2|].
  destruct (h5_has _ _); repeat split.
Qed.

(** *** What the call returns *)

Lemma process_sentences_shape doc sents :
  forall pos w w' ps,
    process_sentences_from sha256_hex doc pos sents w = (w', Ok ps) ->
    map ps_text ps = sents /\
    map ps_position ps = positions_from pos (List.length sents) /\
    Forall (fun s => ps_address s
                     = ("doc:" ++ doc ++ "-" ++ str_of_Z (ps_position s))%string) ps.
Proof.
  induction sents as [|t rest IH]; intros pos w w' ps Hrun.
  - simpl in Hrun. injection Hrun as _ <-. repeat split. constructor.
  - destruct (process_sentences_step _ _ _ _ _ _ _ Hrun)
      as (u & b & w1 & w2 & w3 & w4 & a & toks & more & _ & _ & _ & _ & H5 & ->).
    destruct (IH _ _ _ _ H5) as (Ht & Hp & Ha).
    simpl List.length. rewrite positions_from_cons. simpl.
    rewrite Ht, Hp. repeat split. constructor; [reflexivity | exact Ha].
Qed.

(** X18. What [process_document] returns when it returns: the
    sentences of [_split_into_sentences], in their order, at the
    positions [0, 1, ...], each with the address [doc:<uuid>-<position>]
    of the new document; their number as [sentence_count]; and, as short
    identifier, the one that was passed or, when none was, the first
    eight characters of the identifier of the document. *)
Theorem processed_document_lists_sentences
        (w w' : World) (content dbidL : string)
        (dbidS title source metadata : option string) (d : ProcessedDocument) :
  process_document sha256_hex content dbidL dbidS title source metadata w
  = (w', Ok d) ->
  map ps_text (pd_sentences d) = _split_into_sentences content /\
  map ps_position (pd_sentences d)
  = map Z.of_nat (seq 0 (List.length (_split_into_sentences content))) /\
  pd_sentence_count d = Z.of_nat (List.length (_split_into_sentences content)) /\
  Forall (fun s => ps_address s
                   = ("doc:" ++ pd_uuid d ++ "-" ++ str_of_Z (ps_position s))%string)
    (pd_sentences d) /\
  pd_dbidS d = (if truthy dbidS then or_empty dbidS else take 8 (pd_uuid d)).
Proof.
  intros Hrun.
  destruct (process_document_steps _ _ _ _ _ _ _ _ _ Hrun)
    as (w1 & w2 & ps & _ & H2 & _ & _ & _ & _ & _ & _ & _ & _ & ->).
  destruct (process_sentences_shape _ _ _ _ _ _ H2) as (Ht & Hp & Ha).
  cbn [pd_sentences pd_sentence_count pd_uuid pd_dbidS].
  repeat split.
  - exact Ht.
  - rewrite Hp. unfold positions_from. apply map_ext. intros i. lia.
  - rewrite <- Ht, length_map. reflexivity.
  - exact Ha.
Qed.

End WithHash.

Lemma processed_document_lists_sentences_witness :
  map ps_text (pd_sentences Sample.one_document_result)
  = _split_into_sentences Sample.two_sentences /\
  map ps_position (pd_sentences Sample.one_document_result)
  = map Z.of_nat (seq 0 (List.length (_split_into_sentences Sample.two_sentences))) /\
  pd_sentence_count Sample.one_document_result
  = Z.of_nat (List.length (_split_into_sentences Sample.two_sentences)) /\
  Forall (fun s => ps_address s
                   = ("doc:" ++ pd_uuid Sample.one_document_result ++ "-"
                        ++ str_of_Z (ps_position s))%string)
    (pd_sentences Sample.one_document_result) /\
  pd_dbidS Sample.one_document_result
  = (if truthy None then or_empty None
     else take 8 (pd_uuid Sample.one_document_result)).
Proof.
  apply (processed_document_lists_sentences Sample.sample_hash
           (empty_world Sample.sample_entropy) Sample.one_document
           Sample.two_sentences "Report" None None None None
           Sample.one_document_result).
  vm_compute. reflexivity.
Defined.

Section Stored.
Variable sha256_hex : string -> string.

(** *** Rows stay *)

Lemma found_reads {A} (proj : World -> list A) f (row : A) w w' :
  proj w' = proj w -> find f (proj w) = Some row -> find f (proj w') = Some row.
Proof. intros ->. auto. Qed.

Lemma get_or_create_sentence_preserves_found f row t :
  preserves (fun w => find f (sentences w) = Some row)
    (_get_or_create_sentence sha256_hex t).
Proof.
  intros w w' r Hw. unfold _get_or_create_sentence, bind, gets, ret.
  destruct (find (fun r0 => String.eqb (sent_hash r0) (sha256_hex t)) (sentences w))
    as [hit|]; [intros [= <- _]; exact Hw|].
  unfold uuid4, insert_sentence, h5_store_sentence, modify. simpl.
  destruct (existsb _ (sentences w)); [intros [= <- _]; exact Hw|].
  simpl. destruct (h5_has _ _); intros [= <- _]; simpl;
    apply find_app_some; exact Hw.
Qed.

Lemma process_sentences_preserves_found f row doc sents :
  forall p, preserves (fun w => find f (sentences w) = Some row)
              (process_sentences_from sha256_hex doc p sents).
Proof.
  induction sents as [|t rest IH]; intros p; simpl.
  - apply preserves_ret.
  - apply preserves_bind; [apply get_or_create_sentence_preserves_found|].
    intros created. apply preserves_bind.
    { eapply preserves_keeps; [exact (found_reads sentences f row)|].
      apply map_sentence_keeps; frame. }
    intros _. apply preserves_bind.
    { eapply preserves_keeps; [exact (found_reads sentences f row)|].
      apply create_address_keeps; frame. }
    intros _. apply preserves_bind.
    { eapply preserves_keeps; [exact (found_reads sentences f row)|].
      apply keeps_if; [apply process_tokens_keeps; frame | apply keeps_ret]. }
    intros toks. apply preserves_bind; [apply IH|]. intros more. apply preserves_ret.
Qed.

Lemma in_reads {A} (proj : World -> list A) (x : A) w w' :
  proj w' = proj w -> In x (proj w) -> In x (proj w').
Proof. intros ->. auto. Qed.

Lemma map_sentence_preserves_in m s doc p :
  preserves (fun w => In m (doc_sentence_map w)) (_map_sentence_to_document s doc p).
Proof.
  intros w w' r Hw. unfold _map_sentence_to_document, modify.
  destruct (existsb _ _); intros [= <- _]; [exact Hw|].
  simpl. apply in_or_app. left. exact Hw.
Qed.

Lemma process_sentences_preserves_in m doc sents :
  forall p, preserves (fun w => In m (doc_sentence_map w))
              (process_sentences_from sha256_hex doc p sents).
Proof.
  induction sents as [|t rest IH]; intros p; simpl.
  - apply preserves_ret.
  - apply preserves_bind.
    { eapply preserves_keeps; [exact (in_reads doc_sentence_map m)|].
      apply get_or_create_sentence_keeps; frame. }
    intros created. apply preserves_bind; [apply map_sentence_preserves_in|].
    intros _. apply preserves_bind.
    { eapply preserves_keeps; [exact (in_reads doc_sentence_map m)|].
      apply create_address_keeps; frame. }
    intros _. apply preserves_bind.
    { eapply preserves_keeps; [exact (in_reads doc_sentence_map m)|].
      apply keeps_if; [apply process_tokens_keeps; frame | apply keeps_ret]. }
    intros toks. apply preserves_bind; [apply IH|]. intros more. apply preserves_ret.
Qed.

Lemma process_sentences_keeps_documents doc sents :
  forall p, keeps documents (process_sentences_from sha256_hex doc p sents).
Proof.
  induction sents as [|t rest IH]; intros p; simpl.
  - apply keeps_ret.
  - apply keeps_bind; [apply get_or_create_sentence_keeps; frame|].
    intros created. apply keeps_bind; [apply map_sentence_keeps; frame|].
    intros _. apply keeps_bind; [apply create_address_keeps; frame|].
    intros _. apply keeps_bind.
    { apply keeps_if; [apply process_tokens_keeps; frame | apply keeps_ret]. }
    intros toks. apply keeps_bind; [apply IH|]. intros more. apply keeps_ret.
Qed.

(** The sentence that [_get_or_create_sentence] answers with is the
    first row of its hash. *)
Lemma get_or_create_sentence_finds t w w1 u b :
  _get_or_create_sentence sha256_hex t w = (w1, Ok (u, b)) ->
  exists row,
    find (fun r => String.eqb (sent_hash r) (sha256_hex t)) (sentences w1) = Some row /\
    sent_uuid row = u.
Proof.
  unfold _get_or_create_sentence, bind, gets, ret.
  destruct (find _ (sentences w)) as [hit|] eqn:Hfind.
  - intros [= <- <- _]. eauto.
  - unfold uuid4, insert_sentence, h5_store_sentence, modify. simpl.
    destruct (existsb _ (sentences w)); [discriminate|]. simpl.
    destruct (h5_has _ _); intros [= <- <- _]; simpl;
      (eexists; split;
       [apply find_app_none; [exact Hfind | simpl; apply String.eqb_refl]
       | reflexivity]).
Qed.

Lemma tokens_turn_keeps {X} (proj : World -> X) `{!Apart proj} (b : bool) t u :
  keeps proj (if b then _process_sentence_tokens sha256_hex t u else ret []).
Proof.
  apply keeps_if; [apply process_tokens_keeps; frame | apply keeps_ret].
Qed.

(** What the loop leaves for each sentence it returns: the first row
    of [sentences] with the hash of the text carries the identifier, and
    [doc_sentence_map] holds the occurrence. *)
Lemma process_sentences_stored doc sents :
  forall pos w w' ps,
    process_sentences_from sha256_hex doc pos sents w = (w', Ok ps) ->
    Forall (fun s =>
              (exists row,
                  find (fun r => String.eqb (sent_hash r) (sha256_hex (ps_text s)))
                    (sentences w') = Some row /\
                  sent_uuid row = ps_uuid s) /\
              In {| dsm_doc_uuid := doc; dsm_sentence_uuid := ps_uuid s;
                    dsm_position := ps_position s |} (doc_sentence_map w')) ps.
Proof.
  induction sents as [|t rest IH]; intros pos w w' ps Hrun.
  - simpl in Hrun. injection Hrun as _ <-. constructor.
  - destruct (process_sentences_step _ _ _ _ _ _ _ _ Hrun)
      as (u & b & w1 & w2 & w3 & w4 & a & toks & more
          & H1 & H2 & H3 & H4 & H5 & ->).
    constructor; [|exact (IH _ _ _ _ H5)]. cbn [ps_text ps_uuid ps_position].
    destruct (get_or_create_sentence_finds _ _ _ _ _ H1) as (row & Hfind & Hu).
    pose proof (map_sentence_keeps sentences u doc pos (fun _ _ => eq_refl)
                  _ _ _ H2) as S2.
    pose proof (create_address_keeps sentences _ _ _ _ _ _ _ H3) as S3.
    pose proof (tokens_turn_keeps sentences _ _ _ _ _ _ H4) as S4.
    pose proof (create_address_keeps doc_sentence_map _ _ _ _ _ _ _ H3) as D3.
    pose proof (tokens_turn_keeps doc_sentence_map _ _ _ _ _ _ H4) as D4.
    split.
    + exists row. split; [|exact Hu].
      assert (F4 : find (fun r => String.eqb (sent_hash r) (sha256_hex t))
                     (sentences w4) = Some row)
        by (rewrite S4, S3, S2; exact Hfind).
      exact (process_sentences_preserves_found _ row _ _ _ _ _ _ F4 H5).
    + refine (process_sentences_preserves_in _ _ _ _ _ _ _ _ H5).
      cbv beta. rewrite D4, D3.
      revert H2. unfold _map_sentence_to_document, modify.
      destruct (existsb _ (doc_sentence_map w1)) eqn:Hex; intros [= <-].
      * apply existsb_exists in Hex. destruct Hex as (m & Hin & Hm).
        apply andb_true_iff in Hm. destruct Hm as [Hm Hp].
        apply andb_true_iff in Hm. destruct Hm as [Hd Hs].
        apply String.eqb_eq in Hd. apply String.eqb_eq in Hs. apply Z.eqb_eq in Hp.
        destruct m as [md ms mp]. simpl in *. subst. exact Hin.
      * simpl. apply in_or_app. right. left. reflexivity.
Qed.

End Stored.

Section Registered.
Variable sha256_hex : string -> string.

(** *** The rows of the address book that the loops leave alone *)

Lemma row_reads b (row : AddressRow) w w' :
  address_book w' = address_book w -> row_of w b = Some row -> row_of w' b = Some row.
Proof. unfold row_of. intros ->. auto. Qed.

Lemma process_tokens_preserves_row u b row :
  (forall k, (0 <= k)%Z -> b <> (u ++ "." ++ str_of_Z k)%string) ->
  forall toks p,
    (0 <= p)%Z ->
    preserves (fun w => row_of w b = Some row)
      (process_tokens_from sha256_hex u p toks).
Proof.
  intros Hb. induction toks as [|t rest IH]; intros p Hp; simpl.
  - apply preserves_ret.
  - apply preserves_bind.
    { eapply preserves_keeps; [exact (row_reads b row)|].
      apply get_or_create_token_keeps_book. }
    intros id. apply preserves_bind.
    { eapply preserves_keeps; [exact (row_reads b row)|].
      unfold _map_token_to_sentence, modify. book_kept. }
    intros _. apply preserves_bind.
    { apply create_address_preserves_row. apply Hb. exact Hp. }
    intros _. apply preserves_bind.
    { eapply preserves_keeps; [exact (row_reads b row)|].
      unfold h5_store_token, modify. book_kept. }
    intros _. apply preserves_bind; [apply IH; lia|].
    intros more. apply preserves_ret.
Qed.

Lemma tokens_turn_preserves_row doc i row (b : bool) t u :
  (0 <= i)%Z ->
  preserves (fun w => row_of w ("doc:" ++ doc ++ "-" ++ str_of_Z i) = Some row)
    (if b then _process_sentence_tokens sha256_hex t u else ret []).
Proof.
  intros Hi. apply preserves_if; [|apply preserves_ret].
  unfold _process_sentence_tokens.
  apply process_tokens_preserves_row; [|lia].
  intros k Hk. apply sentence_addr_not_token; assumption.
Qed.

Lemma process_sentences_preserves_row doc i row :
  (0 <= i)%Z ->
  forall sents p,
    (i < p)%Z ->
    preserves (fun w => row_of w ("doc:" ++ doc ++ "-" ++ str_of_Z i) = Some row)
      (process_sentences_from sha256_hex doc p sents).
Proof.
  intros Hi. induction sents as [|t rest IH]; intros p Hp; simpl.
  - apply preserves_ret.
  - apply preserves_bind.
    { eapply preserves_keeps; [exact (row_reads _ row)|].
      apply get_or_create_sentence_keeps_book. }
    intros created. apply preserves_bind.
    { eapply preserves_keeps; [exact (row_reads _ row)|].
      unfold _map_sentence_to_document, modify. book_kept. }
    intros _. apply preserves_bind.
    { apply create_address_preserves_row. intros E.
      apply sentence_addr_inj in E; lia. }
    intros _. apply preserves_bind.
    { apply tokens_turn_preserves_row. exact Hi. }
    intros toks. apply preserves_bind; [apply IH; lia|].
    intros more. apply preserves_ret.
Qed.

(** Each sentence the loop returns is bound to its address in the
    book. *)
Lemma process_sentences_bound doc sents :
  forall pos w w' ps,
    (0 <= pos)%Z ->
    process_sentences_from sha256_hex doc pos sents w = (w', Ok ps) ->
    Forall (fun s =>
              exists row,
                row_of w' (ps_address s) = Some row /\
                ab_uuid row = Some (ps_uuid s) /\
                ab_type row = Some "sentence" /\ ab_zero_index row = 0%Z) ps.
Proof.
  induction sents as [|t rest IH]; intros pos w w' ps Hpos Hrun.
  - simpl in Hrun. injection Hrun as _ <-. constructor.
  - destruct (process_sentences_step _ _ _ _ _ _ _ _ Hrun)
      as (u & b & w1 & w2 & w3 & w4 & a & toks & more
          & H1 & H2 & H3 & H4 & H5 & ->).
    constructor; [|apply (IH (pos + 1)%Z _ _ _ ltac:(lia) H5)].
    cbn [ps_address ps_uuid].
    destruct (create_address_row _ _ _ _ _ _ _ H3) as (row & Hrow & Hu & Hty & Hz).
    exists row. split; [|auto].
    pose proof (tokens_turn_preserves_row doc pos row b t u Hpos _ _ _ Hrow H4) as R4.
    cbv beta in R4.
    exact (process_sentences_preserves_row doc pos row Hpos rest (pos + 1)%Z
             ltac:(lia) _ _ _ R4 H5).
Qed.

(** A sentence that [process_document] returns is in the book under
    its address, and [resolve_address] resolves the address to it. *)
Lemma processed_sentence_resolves
      (w w' : World) (content dbidL : string)
      (dbidS title source metadata : option string) (d : ProcessedDocument)
      (s : ProcessedSentence) :
  process_document sha256_hex content dbidL dbidS title source metadata w
  = (w', Ok d) ->
  In s (pd_sentences d) ->
  (exists info,
      get_address w' (ps_address s) = Some info /\
      ai_uuid info = Some (ps_uuid s) /\
      ai_type info = Some "sentence") /\
  (exists res,
      resolve_address w' (ps_address s) None = Ok res /\
      resolved_uuid (res_main res) = Some (ps_uuid s)).
Proof.
  intros Hrun Hs.
  destruct (process_document_steps _ _ _ _ _ _ _ _ _ _ Hrun)
    as (w1 & w2 & ps & _ & H2 & _ & _ & _ & _ & Hbook & Hattr & _ & _ & ->).
  cbn [pd_sentences] in Hs.
  pose proof (process_sentences_bound _ _ _ _ _ _ (Z.le_refl 0) H2) as Hb.
  rewrite Forall_forall in Hb.
  destruct (Hb s Hs) as (row & Hrow & Hu & Hty & _).
  assert (Hget : exists info,
             get_address w' (ps_address s) = Some info /\
             ai_uuid info = Some (ps_uuid s) /\ ai_type info = Some "sentence").
  { unfold get_address. unfold row_of in Hrow. rewrite Hbook, Hrow.
    eexists. split; [reflexivity|]. split; assumption. }
  split; [exact Hget|].
  destruct Hget as (info & Hget & Hiu & Hit).
  assert (Hnot : is_type (ai_type info) "token" = false) by (rewrite Hit; reflexivity).
  destruct (resolve_plain_returns _ _ _ Hget Hnot) as (c & o & t & su & p & Hreg).
  unfold resolve_address. rewrite Hreg.
  cbn [result_bind truthy]. eexists. split; [reflexivity|].
  cbn [res_main resolved_uuid]. exact Hiu.
Qed.

(** X19. After [process_document] every sentence it returns is
    registered under its address [doc:<uuid>-<position>]: [get_address]
    shows the identifier of the sentence and the type ["sentence"], and
    [resolve_address] resolves the address to that identifier.  This
    holds for every document identifier, dashes included. *)
Theorem processed_sentences_are_registered
        (w w' : World) (content dbidL : string)
        (dbidS title source metadata : option string) (d : ProcessedDocument) :
  process_document sha256_hex content dbidL dbidS title source metadata w
  = (w', Ok d) ->
  Forall (fun s =>
            (exists info,
                get_address w' (ps_address s) = Some info /\
                ai_uuid info = Some (ps_uuid s) /\
                ai_type info = Some "sentence") /\
            (exists res,
                resolve_address w' (ps_address s) None = Ok res /\
                resolved_uuid (res_main res) = Some (ps_uuid s)))
    (pd_sentences d).
Proof.
  intros Hrun. rewrite Forall_forall. intros s Hs.
  exact (processed_sentence_resolves _ _ _ _ _ _ _ _ _ s Hrun Hs).
Qed.

(** X20. After [process_document] every sentence it returns is listed
    at its address: [map_uuid_to_addr] of the sentence, which [addr()]
    and the occurrences of [get_all_sentences] are made of, holds
    [doc:<uuid>-<position>] of the new document. *)
Theorem processed_sentences_list_occurrence
        (w w' : World) (content dbidL : string)
        (dbidS title source metadata : option string) (d : ProcessedDocument) :
  process_document sha256_hex content dbidL dbidS title source metadata w
  = (w', Ok d) ->
  Forall (fun s =>
            In (ps_address s) (map_uuid_to_addr w' (ps_uuid s) None) /\
            exists summary,
              In summary (get_all_sentences w') /\
              ss_hash summary = sha256_hex (ps_text s) /\
              ss_uuid summary = ps_uuid s /\
              In (ps_address s) (ss_occurrences summary))
    (pd_sentences d).
Proof.
  intros Hrun.
  destruct (process_document_steps _ _ _ _ _ _ _ _ _ _ Hrun)
    as (w1 & w2 & ps & _ & H2 & _ & Hsent & Hmap & _ & _ & _ & _ & _ & ->).
  cbn [pd_sentences].
  pose proof (process_sentences_stored _ _ _ _ _ _ _ H2) as Hst.
  pose proof (process_sentences_shape _ _ _ _ _ _ _ H2) as (_ & _ & Haddr).
  rewrite Forall_forall in *. intros s Hs.
  destruct (Hst s Hs) as ((row & Hfind & Hu) & Hin).
  assert (Hocc : In (ps_address s) (map_uuid_to_addr w' (ps_uuid s) None)).
  { unfold map_uuid_to_addr. cbn match. rewrite (Haddr s Hs).
    apply in_map_iff.
    exists {| dsm_doc_uuid := rng_next (rng w); dsm_sentence_uuid := ps_uuid s;
              dsm_position := ps_position s |}.
    split; [reflexivity|]. apply order_by_in. apply filter_In.
    split; [rewrite Hmap; exact Hin | simpl; apply String.eqb_refl]. }
  split; [exact Hocc|].
  apply find_some in Hfind. destruct Hfind as [Hrow Hhash].
  apply String.eqb_eq in Hhash.
  exists {| ss_uuid := sent_uuid row; ss_text := sent_text row;
            ss_hash := sent_hash row;
            ss_occurrences := map_uuid_to_addr w' (sent_uuid row) None |}.
  split.
  - unfold get_all_sentences. apply in_map_iff. exists row.
    split; [reflexivity | rewrite Hsent; exact Hrow].
  - cbn [ss_hash ss_uuid ss_occurrences]. rewrite Hu. auto.
Qed.

End Registered.

Section Readers.
Variable sha256_hex : string -> string.

(** *** The document row after the call *)

Lemma insert_document_appends row w w1 :
  insert_document row w = (w1, Ok tt) -> documents w1 = documents w ++ [row].
Proof.
  unfold insert_document. destruct (existsb _ _); [discriminate|].
  intros [= <-]. reflexivity.
Qed.

Lemma processed_document_row content dbidL dbidS title source metadata w w' d :
  process_document sha256_hex content dbidL dbidS title source metadata w
  = (w', Ok d) ->
  In (document_row w dbidL dbidS title source metadata) (documents w').
Proof.
  intros Hrun.
  destruct (process_document_steps _ _ _ _ _ _ _ _ _ _ Hrun)
    as (w1 & w2 & ps & H1 & H2 & Hdocs & _).
  rewrite Hdocs, (process_sentences_keeps_documents _ _ _ _ _ _ _ H2).
  rewrite (insert_document_appends _ _ _ H1). apply in_or_app. right. left.
  reflexivity.
Qed.

Lemma find_in_some {A} (f : A -> bool) l x :
  In x l -> f x = true -> exists y, find f l = Some y.
Proof.
  intros Hin Hf. destruct (find f l) as [y|] eqn:E; [eauto|].
  pose proof (find_none _ _ E x Hin) as Hn. congruence.
Qed.

Lemma take_nonempty n s : is_empty s = false -> is_empty (take (S n) s) = false.
Proof. destruct s; [discriminate|]. intros _. reflexivity. Qed.

Lemma fresh_document_no_positions doc w :
  (forall m, In m (doc_sentence_map w) -> dsm_doc_uuid m <> doc) ->
  positions_of doc w = [].
Proof.
  unfold positions_of. induction (doc_sentence_map w) as [|m ms IH]; intros Hfresh;
    [reflexivity|].
  simpl. destruct (String.eqb (dsm_doc_uuid m) doc) eqn:E.
  - apply String.eqb_eq in E. exfalso. apply (Hfresh m); [left; reflexivity | exact E].
  - apply IH. intros m' Hin. apply Hfresh. right. exact Hin.
Qed.

(** X21. [find_documents_with_sentence] on the text of a sentence that
    [process_document] returned finds the new document at the position
    and with the address and the identifier of that sentence. *)
Theorem processed_sentences_are_found
        (w w' : World) (content dbidL : string)
        (dbidS title source metadata : option string) (d : ProcessedDocument) :
  process_document sha256_hex content dbidL dbidS title source metadata w
  = (w', Ok d) ->
  Forall (fun s =>
            exists hit,
              In hit (find_documents_with_sentence sha256_hex w' (ps_text s)) /\
              sh_uuid hit = pd_uuid d /\ sh_dbidL hit = pd_dbidL d /\
              sh_dbidS hit = pd_dbidS d /\
              sh_position hit = ps_position s /\
              sh_sentence_uuid hit = ps_uuid s /\
              sh_address hit = ps_address s)
    (pd_sentences d).
Proof.
  intros Hrun. pose proof (processed_document_row _ _ _ _ _ _ _ _ _ Hrun) as Hdoc.
  destruct (process_document_steps _ _ _ _ _ _ _ _ _ _ Hrun)
    as (w1 & w2 & ps & _ & H2 & _ & Hsent & Hmap & _ & _ & _ & _ & _ & ->).
  cbn [pd_sentences pd_uuid pd_dbidL pd_dbidS].
  pose proof (process_sentences_stored _ _ _ _ _ _ _ H2) as Hst.
  pose proof (process_sentences_shape _ _ _ _ _ _ _ H2) as (_ & _ & Haddr).
  rewrite Forall_forall in *. intros s Hs.
  destruct (Hst s Hs) as ((row & Hfind & Hu) & Hin).
  apply find_some in Hfind. destruct Hfind as [Hrow Hhash].
  eexists. split.
  - unfold find_documents_with_sentence. apply in_flat_map.
    exists (document_row w dbidL dbidS title source metadata).
    split; [exact Hdoc|]. apply in_flat_map.
    exists {| dsm_doc_uuid := rng_next (rng w); dsm_sentence_uuid := ps_uuid s;
              dsm_position := ps_position s |}.
    split.
    + apply order_by_in. apply filter_In.
      split; [rewrite Hmap; exact Hin | simpl; apply String.eqb_refl].
    + apply in_map. apply filter_In. split; [rewrite Hsent; exact Hrow|].
      cbn [dsm_sentence_uuid]. rewrite Hu, String.eqb_refl. exact Hhash.
  - cbn. rewrite (Haddr s Hs). repeat split. exact Hu.
Qed.

(** X22. In a store whose rows of [doc_sentence_map] reference rows of
    [documents], [get_all_documents] after [process_document] lists the
    new document with the [sentence_count] that the call returned. *)
Theorem processed_document_is_counted
        (w w' : World) (content dbidL : string)
        (dbidS title source metadata : option string) (d : ProcessedDocument) :
  map_documents_exist w ->
  process_document sha256_hex content dbidL dbidS title source metadata w
  = (w', Ok d) ->
  exists e,
    In e (get_all_documents w') /\
    ds_uuid e = pd_uuid d /\ ds_dbidL e = pd_dbidL d /\ ds_dbidS e = pd_dbidS d /\
    ds_title e = pd_title d /\ ds_source e = pd_source d /\
    ds_sentence_count e = pd_sentence_count d.
Proof.
  intros Hfk Hrun. pose proof (processed_document_row _ _ _ _ _ _ _ _ _ Hrun) as Hdoc.
  destruct (process_document_steps _ _ _ _ _ _ _ _ _ _ Hrun)
    as (w1 & w2 & ps & H1 & H2 & _ & _ & Hmap & _ & _ & _ & _ & _ & ->).
  cbn [pd_sentences pd_uuid pd_dbidL pd_dbidS pd_title pd_source pd_sentence_count].
  eexists. split; [unfold get_all_documents; apply in_map; exact Hdoc|].
  cbn. repeat split. f_equal.
  rewrite <- (length_map dsm_position).
  change (map dsm_position
            (filter (fun m => String.eqb (dsm_doc_uuid m) (rng_next (rng w)))
               (doc_sentence_map w')))
    with (positions_of (rng_next (rng w)) w').
  assert (P' : positions_of (rng_next (rng w)) w' = positions_of (rng_next (rng w)) w2).
  { unfold positions_of. rewrite Hmap. reflexivity. }
  assert (P1 : positions_of (rng_next (rng w)) w1 = []).
  { rewrite (positions_of_keeps _ _ _ _ _ (insert_document_keeps_dsm _) H1).
    apply fresh_document_no_positions.
    exact (accepted_document_is_new _ (set_rng (rng_advance (rng w)) w) _ Hfk H1). }
  rewrite P'.
  rewrite (process_sentences_positions _ _ _ _ _ _ _
             ltac:(rewrite P1; intros p []) H2).
  rewrite P1. simpl. unfold positions_from. rewrite length_map, length_seq.
  destruct (process_sentences_shape _ _ _ _ _ _ _ H2) as (Ht & _).
  rewrite <- Ht, length_map. reflexivity.
Qed.

(** X23. The document that [process_document] has just stored cannot
    be read back: [get_document] finds its row, by the identifier as by
    the pair of names, and then ends in the [NameError] of its last
    statement; the service passes the error on and the endpoint answers
    500. *)
Theorem stored_document_cannot_be_read
        (w w' : World) (content dbidL : string)
        (dbidS title source metadata : option string) (d : ProcessedDocument) :
  is_empty (rng_next (rng w)) = false ->
  is_empty dbidL = false ->
  process_document sha256_hex content dbidL dbidS title source metadata w
  = (w', Ok d) ->
  DocumentManager.get_document w' (Some (pd_uuid d)) None None = NameError "results" /\
  DocumentManager.get_document w' None (Some (pd_dbidL d)) (Some (pd_dbidS d))
  = NameError "results" /\
  (contains ":" (pd_uuid d) = false ->
   DDService.get_document w' (pd_uuid d) = NameError "results") /\
  Endpoints.get_document w' (pd_uuid d) = Endpoints.HTTPException 500.
Proof.
  intros Hu HL Hrun. pose proof (processed_document_row _ _ _ _ _ _ _ _ _ Hrun) as Hdoc.
  destruct (process_document_steps _ _ _ _ _ _ _ _ _ _ Hrun)
    as (w1 & w2 & ps & _ & _ & _ & _ & _ & _ & _ & _ & _ & _ & ->).
  cbn [pd_uuid pd_dbidL pd_dbidS].
  assert (HS : is_empty (doc_dbidS (document_row w dbidL dbidS title source metadata))
               = false).
  { cbn [document_row doc_dbidS]. destruct (truthy dbidS) eqn:E.
    - destruct dbidS as [s|]; [|discriminate]. simpl in *.
      destruct (is_empty s); [discriminate | reflexivity].
    - apply take_nonempty. exact Hu. }
  assert (A : DocumentManager.get_document w' (Some (rng_next (rng w))) None None
              = NameError "results").
  { unfold DocumentManager.get_document. cbn [truthy or_empty]. rewrite Hu.
    cbn [negb andb].
    destruct (find_in_some (fun d => String.eqb (doc_uuid d) (rng_next (rng w)))
                _ _ Hdoc (String.eqb_refl _)) as (y & ->).
    reflexivity. }
  split; [exact A|]. split; [|split].
  - unfold DocumentManager.get_document. cbn [truthy or_empty]. rewrite HL, HS.
    cbn [negb andb orb].
    destruct (find_in_some
                (fun d0 => String.eqb (doc_dbidL d0) dbidL &&
                           String.eqb (doc_dbidS d0)
                             (doc_dbidS (document_row w dbidL dbidS title source
                                           metadata)))
                _ _ Hdoc) as (y & ->); [|reflexivity].
    cbn [document_row doc_dbidL doc_dbidS]. rewrite !String.eqb_refl. reflexivity.
  - intros Hc. unfold DDService.get_document. rewrite Hc. exact A.
  - unfold Endpoints.get_document, DDService.get_document.
    destruct (contains ":" (rng_next (rng w))).
    + destruct (split_once ":" (rng_next (rng w))) as [l r].
      destruct (DocumentManager.get_document w' None (Some l) (Some r))
        as [[info|]|e|n] eqn:E; try reflexivity.
      exfalso. revert E. unfold DocumentManager.get_document.
      destruct (_ && _); [discriminate|].
      destruct (if truthy None then _ else _); discriminate.
    + rewrite A. reflexivity.
Qed.

(** *** Sentences that are already stored *)

Lemma map_sentence_keeps_tokens s doc p :
  keeps (fun w => (tokens w, sentence_token_map w)) (_map_sentence_to_document s doc p).
Proof. unfold _map_sentence_to_document, modify. book_kept. Qed.

Lemma process_sentences_known doc sents :
  forall pos w w' ps,
    (forall t, In t sents ->
               exists row,
                 find (fun r => String.eqb (sent_hash r) (sha256_hex t)) (sentences w)
                 = Some row) ->
    process_sentences_from sha256_hex doc pos sents w = (w', Ok ps) ->
    sentences w' = sentences w /\ tokens w' = tokens w /\
    sentence_token_map w' = sentence_token_map w /\
    Forall (fun s =>
              ps_is_new s = false /\ ps_tokens s = [] /\
              exists row,
                find (fun r => String.eqb (sent_hash r) (sha256_hex (ps_text s)))
                  (sentences w) = Some row /\ sent_uuid row = ps_uuid s) ps.
Proof.
  induction sents as [|t rest IH]; intros pos w w' ps Hknown Hrun.
  - simpl in Hrun. injection Hrun as <- <-. repeat split. constructor.
  - destruct (process_sentences_step _ _ _ _ _ _ _ _ Hrun)
      as (u & b & w1 & w2 & w3 & w4 & a & toks & more
          & H1 & H2 & H3 & H4 & H5 & ->).
    destruct (Hknown t (or_introl eq_refl)) as (row & Hrow).
    revert H1. unfold _get_or_create_sentence, bind, gets, ret. rewrite Hrow.
    intros [= <- <- <-].
    unfold ret in H4. injection H4 as <- <-.
    pose proof (map_sentence_keeps sentences _ doc pos
                  (fun _ _ => eq_refl) _ _ _ H2) as S2.
    pose proof (map_sentence_keeps_tokens _ _ _ _ _ _ H2) as T2.
    pose proof (create_address_keeps sentences _ _ _ _ _ _ _ H3) as S3.
    pose proof (create_address_rec_keeps_off
                  (fun w => (tokens w, sentence_token_map w)) _
                  (fun _ _ => eq_refl) _ _ _ _ _ _ _ H3) as T3.
    cbv beta in T2, T3.
    destruct (IH (pos + 1)%Z w3 w' more) as (Hs & Ht & Hm & Hall); [|exact H5|].
    { intros t' Hin. rewrite S3, S2. apply Hknown. right. exact Hin. }
    assert (E3 : sentences w3 = sentences w) by congruence.
    assert (F3 : tokens w3 = tokens w /\ sentence_token_map w3 = sentence_token_map w).
    { split; congruence. }
    destruct F3 as [F3 G3].
    split; [congruence|]. split; [congruence|]. split; [congruence|].
    constructor.
    + cbn. repeat split. exists row. split; [exact Hrow | reflexivity].
    + rewrite Forall_forall in *. intros s Hin.
      destruct (Hall s Hin) as (A & B & r & Hr & Hru).
      split; [exact A|]. split; [exact B|]. exists r. rewrite <- E3. auto.
Qed.

(** X24. A document all of whose sentences are sentences of a document
    processed before adds no sentence and no token to the store: every
    sentence it returns is marked as not new, carries no tokens, and has
    the identifier that the first call returned for that text. *)
Theorem shared_sentences_are_reused
        (w w1 w2 : World) (content1 dbidL1 content2 dbidL2 : string)
        (dbidS1 title1 source1 metadata1 dbidS2 title2 source2 metadata2 : option string)
        (d1 d2 : ProcessedDocument) :
  process_document sha256_hex content1 dbidL1 dbidS1 title1 source1 metadata1 w
  = (w1, Ok d1) ->
  process_document sha256_hex content2 dbidL2 dbidS2 title2 source2 metadata2 w1
  = (w2, Ok d2) ->
  incl (_split_into_sentences content2) (_split_into_sentences content1) ->
  sentences w2 = sentences w1 /\ tokens w2 = tokens w1 /\
  sentence_token_map w2 = sentence_token_map w1 /\
  Forall (fun s2 =>
            ps_is_new s2 = false /\ ps_tokens s2 = [] /\
            exists s1, In s1 (pd_sentences d1) /\ ps_text s1 = ps_text s2 /\
                       ps_uuid s1 = ps_uuid s2)
    (pd_sentences d2).
Proof.
  intros Hrun1 Hrun2 Hincl.
  destruct (process_document_steps _ _ _ _ _ _ _ _ _ _ Hrun1)
    as (a1 & a2 & ps1 & _ & A2 & _ & Asent & _ & _ & _ & _ & _ & _ & ->).
  destruct (process_document_steps _ _ _ _ _ _ _ _ _ _ Hrun2)
    as (b1 & b2 & ps2 & B1 & B2 & _ & Bsent & _ & Btok & _ & _ & Bstm & _ & ->).
  cbn [pd_sentences].
  pose proof (process_sentences_stored _ _ _ _ _ _ _ A2) as Hst.
  destruct (process_sentences_shape _ _ _ _ _ _ _ A2) as (Htext1 & _).
  assert (S1 : sentences b1 = sentences w1).
  { exact (insert_document_keeps sentences _ (fun _ _ => eq_refl) _ _ _ B1). }
  assert (T1 : (tokens b1, sentence_token_map b1) = (tokens w1, sentence_token_map w1)).
  { revert B1. unfold insert_document. destruct (existsb _ _); intros [= <-].
    reflexivity. }
  injection T1 as T1 M1.
  assert (Hfound : forall t, In t (_split_into_sentences content1) ->
             exists s1 row, In s1 ps1 /\ ps_text s1 = t /\
               find (fun r => String.eqb (sent_hash r) (sha256_hex t)) (sentences w1)
               = Some row /\ sent_uuid row = ps_uuid s1).
  { intros t Hin. rewrite <- Htext1 in Hin. apply in_map_iff in Hin.
    destruct Hin as (s1 & <- & Hs1). rewrite Forall_forall in Hst.
    destruct (Hst s1 Hs1) as ((row & Hrow & Hu) & _).
    exists s1, row. rewrite Asent. auto. }
  destruct (process_sentences_known _ _ _ _ _ _
              ltac:(intros t Hin; destruct (Hfound t (Hincl t Hin))
                      as (s1 & row & _ & _ & Hrow & _);
                    exists row; rewrite S1; exact Hrow) B2)
    as (Hs & Ht & Hm & Hall).
  split; [congruence|]. split; [congruence|]. split; [congruence|].
  destruct (process_sentences_shape _ _ _ _ _ _ _ B2) as (Htext2 & _).
  rewrite Forall_forall in *. intros s2 Hin2.
  destruct (Hall s2 Hin2) as (A & B & row & Hrow & Hu).
  split; [exact A|]. split; [exact B|].
  assert (Hin : In (ps_text s2) (_split_into_sentences content1)).
  { apply Hincl. rewrite <- Htext2. apply in_map. exact Hin2. }
  destruct (Hfound _ Hin) as (s1 & row1 & Hs1 & Ht1 & Hrow1 & Hu1).
  exists s1. split; [exact Hs1|]. split; [exact Ht1|].
  rewrite S1 in Hrow. congruence.
Qed.

End Readers.

Lemma processed_sentences_are_registered_witness :
  Forall (fun s =>
            (exists info,
                get_address Sample.one_document (ps_address s) = Some info /\
                ai_uuid info = Some (ps_uuid s) /\
                ai_type info = Some "sentence") /\
            (exists res,
                resolve_address Sample.one_document (ps_address s) None = Ok res /\
                resolved_uuid (res_main res) = Some (ps_uuid s)))
    (pd_sentences Sample.one_document_result).
Proof.
  apply (processed_sentences_are_registered Sample.sample_hash
           (empty_world Sample.sample_entropy) Sample.one_document
           Sample.two_sentences "Report" None None None None
           Sample.one_document_result).
  vm_compute. reflexivity.
Defined.

Lemma processed_sentences_list_occurrence_witness :
  Forall (fun s =>
            In (ps_address s) (map_uuid_to_addr Sample.one_document (ps_uuid s) None) /\
            exists summary,
              In summary (get_all_sentences Sample.one_document) /\
              ss_hash summary = Sample.sample_hash (ps_text s) /\
              ss_uuid summary = ps_uuid s /\
              In (ps_address s) (ss_occurrences summary))
    (pd_sentences Sample.one_document_result).
Proof.
  apply (processed_sentences_list_occurrence Sample.sample_hash
           (empty_world Sample.sample_entropy) Sample.one_document
           Sample.two_sentences "Report" None None None None
           Sample.one_document_result).
  vm_compute. reflexivity.
Defined.

Lemma processed_sentences_are_found_witness :
  Forall (fun s =>
            exists hit,
              In hit (find_documents_with_sentence Sample.sample_hash
                        Sample.one_document (ps_text s)) /\
              sh_uuid hit = pd_uuid Sample.one_document_result /\
              sh_dbidL hit = pd_dbidL Sample.one_document_result /\
              sh_dbidS hit = pd_dbidS Sample.one_document_result /\
              sh_position hit = ps_position s /\
              sh_sentence_uuid hit = ps_uuid s /\
              sh_address hit = ps_address s)
    (pd_sentences Sample.one_document_result).
Proof.
  apply (processed_sentences_are_found Sample.sample_hash
           (empty_world Sample.sample_entropy) Sample.one_document
           Sample.two_sentences "Report" None None None None
           Sample.one_document_result).
  vm_compute. reflexivity.
Defined.

Lemma processed_document_is_counted_witness :
  exists e,
    In e (get_all_documents Sample.one_document) /\
    ds_uuid e = pd_uuid Sample.one_document_result /\
    ds_dbidL e = pd_dbidL Sample.one_document_result /\
    ds_dbidS e = pd_dbidS Sample.one_document_result /\
    ds_title e = pd_title Sample.one_document_result /\
    ds_source e = pd_source Sample.one_document_result /\
    ds_sentence_count e = pd_sentence_count Sample.one_document_result.
Proof.
  apply (processed_document_is_counted Sample.sample_hash
           (empty_world Sample.sample_entropy) Sample.one_document
           Sample.two_sentences "Report" None None None None
           Sample.one_document_result).
  - intros m [].
  - vm_compute. reflexivity.
Defined.

Lemma stored_document_cannot_be_read_witness :
  DocumentManager.get_document Sample.one_document
    (Some (pd_uuid Sample.one_document_result)) None None = NameError "results" /\
  DocumentManager.get_document Sample.one_document None
    (Some (pd_dbidL Sample.one_document_result))
    (Some (pd_dbidS Sample.one_document_result)) = NameError "results" /\
  (contains ":" (pd_uuid Sample.one_document_result) = false ->
   DDService.get_document Sample.one_document (pd_uuid Sample.one_document_result)
   = NameError "results") /\
  Endpoints.get_document Sample.one_document (pd_uuid Sample.one_document_result)
  = Endpoints.HTTPException 500.
Proof.
  apply (stored_document_cannot_be_read Sample.sample_hash
           (empty_world Sample.sample_entropy) Sample.one_document
           Sample.two_sentences "Report" None None None None
           Sample.one_document_result).
  - reflexivity.
  - reflexivity.
  - vm_compute. reflexivity.
Defined.

Lemma shared_sentences_are_reused_witness :
  sentences Sample.second_document = sentences Sample.one_document /\
  tokens Sample.second_document = tokens Sample.one_document /\
  sentence_token_map Sample.second_document
  = sentence_token_map Sample.one_document /\
  Forall (fun s2 =>
            ps_is_new s2 = false /\ ps_tokens s2 = [] /\
            exists s1, In s1 (pd_sentences Sample.one_document_result) /\
                       ps_text s1 = ps_text s2 /\ ps_uuid s1 = ps_uuid s2)
    (pd_sentences Sample.second_document_result).
Proof.
  apply (shared_sentences_are_reused Sample.sample_hash
           (empty_world Sample.sample_entropy) Sample.one_document
           Sample.second_document
           Sample.two_sentences "Report" "Dogs are mammals." "Note"
           None None None None None None None None
           Sample.one_document_result Sample.second_document_result).
  - vm_compute. reflexivity.
  - vm_compute. reflexivity.
  - intros t [<-|[]]. vm_compute. right. left. reflexivity.
Defined.

End ProcessingFacts.

(** ** The round trip of an address through [resolve_address] *)

Module RoundTripFacts.
Import PyStrFacts ZeroIndexMapper AddressManager.
Import AddressManagerFacts ProcessingFacts.

(** C3. The round trip through [resolve_address] fails on a token
    address whose sentence position does not fit a 64-bit integer:
    [create_address] returns the address and [get_address] shows the
    identifier, but [resolve_address] raises [OverflowError], which its
    [except ValueError] does not catch.  This holds on every store and
    for every identifier that is not empty. *)
Theorem address_round_trip_overflows (w : World) (u : string) :
  is_empty u = false ->
  exists w',
    create_address "s-99999999999999999999.0" (Some u) (Some "token") 0 w
    = (w', Ok "s-99999999999999999999.0") /\
    (exists info, get_address w' "s-99999999999999999999.0" = Some info /\
                  ai_uuid info = Some u) /\
    resolve_address w' "s-99999999999999999999.0" None = Raise OverflowError.
Proof.
  intros Hu. unfold create_address.
  destruct (create_address_rec_ok (S (String.length "s-99999999999999999999.0"))
              "s-99999999999999999999.0" (Some u) (Some "token") 0 w
              ltac:(lia)) as (w' & Hrun & Hrow).
  exists w'. split; [exact Hrun|].
  destruct (Hrow u eq_refl) as (row & Hfind & Hrowu).
  assert (Hty : ab_type row = Some "token").
  { destruct (create_address_row _ _ _ _ _ _ _ Hrun) as (row' & Hfind' & _ & Hty & _).
    rewrite Hfind in Hfind'. injection Hfind' as <-. exact Hty. }
  destruct (get_address_uuid _ _ _ Hfind) as (info & Hget & Hi).
  rewrite Hrowu in Hi. split; [eauto|].
  assert (Hit : ai_type info = Some "token").
  { revert Hget. unfold get_address. unfold row_of in Hfind. rewrite Hfind.
    intros [= <-]. exact Hty. }
  unfold resolve_address, resolve_plain. rewrite Hget, Hit, Hi.
  cbn [is_type truthy]. rewrite Hu.
  reflexivity.
Qed.

Lemma address_round_trip_overflows_witness :
  exists w',
    create_address "s-99999999999999999999.0" (Some "u1") (Some "token") 0
      (empty_world Sample.sample_entropy)
    = (w', Ok "s-99999999999999999999.0") /\
    (exists info, get_address w' "s-99999999999999999999.0" = Some info /\
                  ai_uuid info = Some "u1") /\
    resolve_address w' "s-99999999999999999999.0" None = Raise OverflowError.
Proof.
  apply (address_round_trip_overflows (empty_world Sample.sample_entropy) "u1").
  reflexivity.
Defined.

End RoundTripFacts.

(** ** The alias table: reading back and deleting *)

Module AliasTableFacts.
Import AddressManager LStableManager LStableManagerFacts.

(** *** Lists with a key *)

Lemma nodup_key_eq {A B} (f : A -> B) l a b :
  NoDup (map f l) -> In a l -> In b l -> f a = f b -> a = b.
Proof.
  induction l as [|x l IH]; simpl; [intros _ []|].
  intros Hnd Ha Hb E. inversion Hnd as [|? ? Hx Hl]; subst.
  destruct Ha as [<-|Ha], Hb as [<-|Hb]; auto.
  - exfalso. apply Hx. rewrite E. apply in_map. exact Hb.
  - exfalso. apply Hx. rewrite <- E. apply in_map. exact Ha.
Qed.

Lemma nodup_key_snoc {A B} (f : A -> B) l x :
  NoDup (map f l) -> ~ In (f x) (map f l) -> NoDup (map f (l ++ [x])).
Proof.
  intros Hnd Hx. rewrite map_app. simpl.
  induction (map f l) as [|y ys IH]; simpl.
  - constructor; [intros [] | constructor].
  - inversion Hnd as [|? ? Hy Hys]; subst. constructor.
    + intros Hin. apply in_app_or in Hin. destruct Hin as [Hin|[E|[]]].
      * exact (Hy Hin).
      * apply Hx. left. symmetry. exact E.
    + apply IH; [exact Hys|]. intros Hin. apply Hx. right. exact Hin.
Qed.

Lemma nodup_key_filter {A B} (f : A -> B) (p : A -> bool) l :
  NoDup (map f l) -> NoDup (map f (filter p l)).
Proof.
  induction l as [|x l IH]; simpl; [auto|].
  intros Hnd. inversion Hnd as [|? ? Hx Hl]; subst.
  destruct (p x); simpl; [|auto]. constructor; [|auto].
  intros Hin. apply Hx. apply in_map_iff in Hin. destruct Hin as (y & E & Hy).
  apply filter_In in Hy. apply in_map_iff. exists y. tauto.
Qed.

Lemma existsb_false_not_in {A} (key : A -> string) k l :
  existsb (fun r => String.eqb (key r) k) l = false -> ~ In k (map key l).
Proof.
  intros Hex Hin. apply in_map_iff in Hin. destruct Hin as (r & E & Hr).
  assert (existsb (fun r => String.eqb (key r) k) l = true); [|congruence].
  apply existsb_exists. exists r. split; [exact Hr | apply String.eqb_eq; exact E].
Qed.



(** *** What the methods do to the table *)

Lemma regenerate_keeps_table fuel :
  forall w w' r, regenerate fuel w = (w', r) -> lstable w' = lstable w.
Proof.
  induction fuel as [|fuel IH]; intros w w' r; simpl.
  - intros [= <- _]. reflexivity.
  - unfold bind, new_short_id, gets, ret.
    destruct (short_in_use _ _).
    + intros H. rewrite (IH _ _ _ H). reflexivity.
    + intros [= <- _]. reflexivity.
Qed.

Lemma remove_from_file_keeps_table path dbidL w :
  lstable (remove_from_file path dbidL w) = lstable w.
Proof. unfold remove_from_file. destruct (read_lines w path); reflexivity. Qed.

(** The three ways [register_mapping] ends. *)
Lemma register_mapping_cases fuel L S d w w' r :
  register_mapping fuel L S d w = (w', r) ->
  (exists s0, short_of w L = Some s0 /\ r = Ok (L, s0) /\ lstable w' = lstable w) \/
  (exists s, short_of w L = None /\ r = Ok (L, s) /\
             short_in_use w s = false /\
             lstable w' = lstable w ++ [{| ls_dbidL := L; ls_dbidS := s;
                                           ls_description := d |}]) \/
  (exists e, r = Raise e /\ lstable w' = lstable w).
Proof.
  unfold register_mapping. unfold bind at 1.
  destruct ((if truthy S
             then ret match S with Some s => s | None => EmptyString end
             else new_short_id) w) as [w0 r0] eqn:H0.
  assert (T0 : lstable w0 = lstable w).
  { destruct (truthy S); [|unfold new_short_id in H0];
      injection H0 as <- _; reflexivity. }
  assert (K0 : short_of w0 L = short_of w L) by (unfold short_of; rewrite T0; reflexivity).
  destruct r0 as [s1|e].
  2:{ intros [= <- <-]. right. right. eauto. }
  unfold bind at 1, gets at 1. rewrite K0.
  destruct (short_of w L) as [s0|] eqn:HL.
  - intros [= <- <-]. left. eauto.
  - unfold bind at 1, gets at 1. unfold bind at 1.
    destruct ((if short_in_use w0 s1 then regenerate fuel else ret s1) w0)
      as [w2 r2] eqn:H2.
    assert (T2 : lstable w2 = lstable w /\
                 (forall s, r2 = Ok s -> short_in_use w s = false \/
                                         short_in_use w0 s1 = true)).
    { destruct (short_in_use w0 s1) eqn:Hin.
      - rewrite (regenerate_keeps_table _ _ _ _ H2). auto.
      - injection H2 as <- <-. split; [exact T0|]. intros s [= <-]. left.
        unfold short_in_use in *. rewrite <- T0. exact Hin. }
    destruct T2 as [T2 _].
    destruct r2 as [s|e]; [|intros [= <- <-]; right; right; eauto].
    unfold bind at 1, insert_mapping. cbn [ls_dbidL ls_dbidS].
    destruct (existsb _ (lstable w2)) eqn:Hex.
    + intros [= <- <-]. right. right. eauto.
    + unfold bind, _update_lstable_file, modify, ret. intros [= <- <-].
      right. left. exists s. split; [reflexivity|]. split; [reflexivity|].
      rewrite existsb_orb in Hex. apply orb_false_iff in Hex.
      split; [unfold short_in_use; rewrite <- T2; tauto|].
      cbn. rewrite T2. reflexivity.
Qed.

(** X25. What [register_mapping] returns can be read back: for a
    long identifier that is not empty, [get_mapping] by the long
    identifier gives the row of the returned pair, the row is in
    [list_mappings], and in a table with the keys of the schema
    [get_mapping] by the returned short identifier gives the same row. *)
Theorem registered_mapping_is_read_back
        (w w' : LSWorld) (fuel : nat) (L : string) (S description : option string)
        (l s : string) :
  is_empty L = false ->
  one_to_one w ->
  register_mapping fuel L S description w = (w', Ok (l, s)) ->
  l = L /\
  exists row,
    ls_dbidL row = L /\ ls_dbidS row = s /\
    get_mapping w' (Some L) None = Ok (Some row) /\
    In row (list_mappings w') /\
    (is_empty s = false -> get_mapping w' None (Some s) = Ok (Some row)).
Proof.
  intros HL [_ HndS] Hrun.
  unfold get_mapping, list_mappings. cbn [truthy]. rewrite HL. cbn [negb andb].
  destruct (register_mapping_cases _ _ _ _ _ _ _ Hrun)
    as [(s0 & Hs0 & [= -> <-] & Ht) | [(s1 & Hnone & [= -> <-] & Hfree & Ht)
                                      | (e & [=] & _)]].
  - split; [reflexivity|]. unfold short_of in Hs0.
    destruct (find (fun r => String.eqb (ls_dbidL r) L) (lstable w)) as [row|] eqn:E;
      [|discriminate].
    injection Hs0 as Hs0. pose proof (find_some _ _ E) as [Hin HrL].
    apply String.eqb_eq in HrL.
    exists row. rewrite Ht, E. repeat split; auto.
    intros Hs. rewrite Hs. cbn [negb]. f_equal.
    destruct (ProcessingFacts.find_in_some
                (fun r => String.eqb (ls_dbidS r) s) _ _ Hin
                ltac:(apply String.eqb_eq; exact Hs0)) as (row' & E').
    rewrite E'. f_equal. pose proof (find_some _ _ E') as [Hin' HrS].
    apply String.eqb_eq in HrS.
    apply (nodup_key_eq ls_dbidS (lstable w)); auto. congruence.
  - split; [reflexivity|].
    exists {| ls_dbidL := L; ls_dbidS := s; ls_description := description |}.
    rewrite Ht.
    split; [reflexivity|]. split; [reflexivity|]. split; [|split].
    + f_equal. apply DocumentManagerFacts.find_app_none;
        [|cbn; apply String.eqb_refl].
      unfold short_of in Hnone.
      destruct (find _ (lstable w)); [discriminate | reflexivity].
    + apply in_or_app. right. left. reflexivity.
    + intros Hs. rewrite Hs. cbn [negb]. f_equal.
      apply DocumentManagerFacts.find_app_none; [|cbn; apply String.eqb_refl].
      unfold short_in_use in Hfree.
      destruct (find (fun r => String.eqb (ls_dbidS r) s) (lstable w)) as [r|] eqn:E;
        [|reflexivity].
      exfalso. pose proof (find_some _ _ E) as [Hin Hr].
      assert (existsb (fun r => String.eqb (ls_dbidS r) s) (lstable w) = true);
        [|congruence].
      apply existsb_exists. eauto.
Qed.

Lemma registered_mapping_is_read_back_witness :
  "New" = "New" /\
  exists row,
    ls_dbidL row = "New" /\ ls_dbidS row = "xyz" /\
    get_mapping (fst (register_mapping 1 "New" (Some "xyz") None Sample.two_mappings))
      (Some "New") None = Ok (Some row) /\
    In row (list_mappings
              (fst (register_mapping 1 "New" (Some "xyz") None Sample.two_mappings))) /\
    (is_empty "xyz" = false ->
     get_mapping (fst (register_mapping 1 "New" (Some "xyz") None Sample.two_mappings))
       None (Some "xyz") = Ok (Some row)).
Proof.
  apply (registered_mapping_is_read_back Sample.two_mappings
           (fst (register_mapping 1 "New" (Some "xyz") None Sample.two_mappings))
           1 "New" (Some "xyz") None "New" "xyz").
  - reflexivity.
  - split; simpl; repeat constructor; simpl; intuition discriminate.
  - vm_compute. reflexivity.
Defined.

(** X26. The keys of the alias table are kept by its two writers: in a
    table where no long and no short identifier occurs twice, neither
    does one after [register_mapping] or [delete_mapping], however the
    call ends. *)
Theorem alias_table_stays_one_to_one (w : LSWorld) :
  one_to_one w ->
  (forall fuel L S description w' r,
      register_mapping fuel L S description w = (w', r) -> one_to_one w') /\
  (forall L S w' r, delete_mapping L S w = (w', r) -> one_to_one w').
Proof.
  intros [HndL HndS]. split.
  - intros fuel L S d w' r Hrun.
    destruct (register_mapping_cases _ _ _ _ _ _ _ Hrun)
      as [(s0 & _ & _ & Ht) | [(s1 & Hnone & _ & Hfree & Ht) | (e & _ & Ht)]];
      unfold one_to_one; rewrite Ht; try (split; assumption).
    split; apply nodup_key_snoc; try assumption; cbn.
    + apply existsb_false_not_in. exact (short_of_none _ _ Hnone).
    + apply existsb_false_not_in. exact Hfree.
  - intros L S w' r. unfold delete_mapping.
    destruct (negb (truthy L) && negb (truthy S));
      [intros [= <- _]; split; assumption|].
    unfold bind at 1, query.
    destruct (get_mapping w L S) as [[row|]|e];
      try (intros [= <- _]; split; assumption).
    unfold bind, modify, _remove_from_lstable_file, ret. intros [= <- _].
    unfold one_to_one. rewrite !remove_from_file_keeps_table. cbn [lstable set_lstable].
    split; apply nodup_key_filter; assumption.
Qed.

Lemma alias_table_stays_one_to_one_witness :
  (forall fuel L S description w' r,
      register_mapping fuel L S description Sample.two_mappings = (w', r) ->
      one_to_one w') /\
  (forall L S w' r, delete_mapping L S Sample.two_mappings = (w', r) -> one_to_one w').
Proof.
  apply (alias_table_stays_one_to_one Sample.two_mappings).
  split; simpl; repeat constructor; simpl; intuition discriminate.
Defined.



End AliasTableFacts.

(** ** Relations read by formulas, and the answers of the endpoints *)

Module ServiceFacts.
Import ZeroIndexMapper AddressManager DocumentManager FunctionService.

(** X29. The endpoints answer no client error.  Whatever the store and
    the request, [GET /documents/{doc_id}] and a search of type
    ["token"] answer 500; and the 404 of a sentence that is not there,
    the 400 of a search type that is not supported and the 400 of a
    relation that could not be set are raised inside the [try] whose
    [except Exception] turns them into 500. *)
Theorem endpoints_answer_no_client_error
        (sha256_hex : string -> string) (w : World)
        (doc_id sentence_uuid query search_type : string)
        (source_addr target_addr relation_type : string) :
  Endpoints.get_document w doc_id = Endpoints.HTTPException 500 /\
  Endpoints.search sha256_hex w query "token" = Endpoints.HTTPException 500 /\
  (get_sentence_info w sentence_uuid = None ->
   Endpoints.get_sentence w sentence_uuid = Endpoints.HTTPException 500) /\
  (search_type <> "token" -> search_type <> "sentence" ->
   Endpoints.search sha256_hex w query search_type = Endpoints.HTTPException 500) /\
  (forall w',
      set_relation source_addr target_addr relation_type w = (w', Ok false) ->
      Endpoints.create_relation source_addr target_addr relation_type w
      = (w', Ok (Endpoints.HTTPException 500))) /\
  (forall c,
      Endpoints.get_sentence w sentence_uuid = Endpoints.HTTPException c \/
      Endpoints.search sha256_hex w query search_type = Endpoints.HTTPException c \/
      snd (Endpoints.create_relation source_addr target_addr relation_type w)
      = Ok (Endpoints.HTTPException c) ->
      c = 500%Z).
Proof.
  split; [|split; [|split; [|split; [|split]]]].
  - unfold Endpoints.get_document, DDService.get_document.
    assert (H : forall a b c,
               match DocumentManager.get_document w a b c with
               | Returned (Some _) => False
               | _ => True
               end).
    { intros a b c. unfold DocumentManager.get_document.
      destruct (_ && _); [exact I|].
      destruct (if truthy a then _ else _); exact I. }
    destruct (contains ":" doc_id).
    + destruct (split_once ":" doc_id) as [l r].
      specialize (H None (Some l) (Some r)).
      destruct (DocumentManager.get_document w None (Some l) (Some r))
        as [[info|]|e|n]; [destruct H | | |]; reflexivity.
    + specialize (H (Some doc_id) None None).
      destruct (DocumentManager.get_document w (Some doc_id) None None)
        as [[info|]|e|n]; [destruct H | | |]; reflexivity.
  - reflexivity.
  - intros H. unfold Endpoints.get_sentence, DDService.get_sentence,
      DocumentManager.get_sentence. rewrite H. reflexivity.
  - intros Ht Hs. unfold Endpoints.search.
    apply String.eqb_neq in Ht. apply String.eqb_neq in Hs. rewrite Ht, Hs.
    reflexivity.
  - intros w' H. unfold Endpoints.create_relation, DDService.set_relation.
    rewrite H. reflexivity.
  - intros c [H|[H|H]]; revert H.
    + unfold Endpoints.get_sentence.
      destruct (DDService.get_sentence w sentence_uuid); [discriminate|].
      intros [= <-]. reflexivity.
    + unfold Endpoints.search.
      destruct (String.eqb search_type "token").
      * destruct (DDService.search_by_token w query);
          [discriminate | intros [= <-]; reflexivity].
      * destruct (String.eqb search_type "sentence");
          [discriminate | intros [= <-]; reflexivity].
    + unfold Endpoints.create_relation.
      destruct (DDService.set_relation source_addr target_addr relation_type w)
        as [w' [[|]|e]]; cbn; [discriminate | |]; intros [= <-]; reflexivity.
Qed.

Lemma endpoints_answer_no_client_error_witness :
  Endpoints.get_sentence (empty_world Sample.sample_entropy) "u1"
  = Endpoints.HTTPException 500 /\
  Endpoints.search Sample.sample_hash (empty_world Sample.sample_entropy)
    "cats" "document" = Endpoints.HTTPException 500 /\
  Endpoints.create_relation "a" "b" "synonym" (empty_world Sample.sample_entropy)
  = (empty_world Sample.sample_entropy, Ok (Endpoints.HTTPException 500)).
Proof.
  pose proof (endpoints_answer_no_client_error Sample.sample_hash
                (empty_world Sample.sample_entropy)
                "u0" "u1" "cats" "document" "a" "b" "synonym")
    as (_ & _ & H3 & H4 & H5 & _).
  split; [apply H3; reflexivity|]. split; [apply H4; discriminate|].
  apply H5. reflexivity.
Defined.

End ServiceFacts.

(** ** The units of [preprocess] *)

Module InputFacts.
Import PyStrFacts DDManager TextFacts.

Lemma prefix_dot c r : String.prefix "." (String c r) = Ascii.eqb "." c.
Proof.
  change (String.prefix "." (String c r))
    with (if Ascii.ascii_dec "." c then String.prefix EmptyString r else false).
  destruct (Ascii.ascii_dec "." c) as [<-|Hne].
  - destruct r; reflexivity.
  - apply Ascii.eqb_neq in Hne. rewrite Hne. reflexivity.
Qed.

(** No piece of [split(".")] holds a full stop. *)
Lemma split_dot_pieces s :
  Forall (fun p => contains "." p = false) (split_str "." s).
Proof.
  unfold split_str. induction s as [|c r IH].
  - repeat constructor.
  - cbn [split_str_aux]. rewrite prefix_dot.
    change (String.length "." - 1) with 0.
    destruct (Ascii.eqb "." c) eqn:Hc.
    + constructor; [reflexivity | exact IH].
    + destruct (split_str_aux "." r 0) as [|p ps].
      * constructor; [|constructor]. unfold contains. cbn [existsb_str].
        rewrite Hc. reflexivity.
      * inversion IH as [|? ? Hp Hps]; subst. constructor; [|exact Hps].
        unfold contains in *. cbn [existsb_str]. rewrite Hc, Hp. reflexivity.
Qed.

Lemma enumerate_from_fst {A} (l : list A) :
  forall i, map fst (enumerate_from i l)
            = map (fun k => str_of_Z (i + Z.of_nat k)) (seq 0 (List.length l)).
Proof.
  induction l as [|x l IH]; intros i; simpl; [reflexivity|].
  rewrite Z.add_0_r. f_equal. rewrite IH, <- seq_shift, map_map.
  apply map_ext. intros k. f_equal. lia.
Qed.

Lemma enumerate_from_snd {A} (l : list A) :
  forall i, map snd (enumerate_from i l) = l.
Proof. induction l as [|x l IH]; intros i; simpl; [reflexivity|]. rewrite IH. reflexivity. Qed.

(** X30. The units that [preprocess] gives for the batch type
    ["sentence"]: their addresses are the numerals ["0"], ["1"], ...
    in order, each text is stripped, not empty and without a full stop,
    and each hash is the digest of the text. *)
Theorem preprocess_sentence_units (sha256_hex : string -> string) (raw_content : string) :
  exists us,
    preprocess sha256_hex "sentence" raw_content = Ok us /\
    map (fun u => fst (fst u)) us
    = map (fun k => str_of_Z (Z.of_nat k)) (seq 0 (List.length us)) /\
    Forall (fun u =>
              is_empty (snd (fst u)) = false /\
              strip (snd (fst u)) = snd (fst u) /\
              contains "." (snd (fst u)) = false /\
              snd u = sha256_hex (snd (fst u))) us.
Proof.
  unfold preprocess. cbn [String.eqb Ascii.eqb Bool.eqb andb].
  eexists. split; [reflexivity|]. split.
  - rewrite map_map. cbn [fst].
    rewrite length_map, <- (length_map snd), enumerate_from_snd.
    change (map (fun x : string * string => fst x)) with (map (@fst string string)).
    rewrite enumerate_from_fst. apply map_ext. intros k. reflexivity.
  - rewrite Forall_map. cbn [fst snd].
    rewrite <- (Forall_map snd
                  (fun t => is_empty t = false /\ strip t = t /\
                            contains "." t = false /\ sha256_hex t = sha256_hex t)).
    rewrite enumerate_from_snd. unfold stripped_units. rewrite Forall_map.
    apply Forall_forall. intros p Hp. apply filter_In in Hp. destruct Hp as [Hin Hne].
    split; [destruct (is_empty (strip p)); [discriminate | reflexivity]|].
    split; [apply strip_strip|]. split; [|reflexivity].
    apply contains_strip.
    pose proof (split_dot_pieces raw_content) as Hall.
    rewrite Forall_forall in Hall. exact (Hall p Hin).
Qed.

End InputFacts.

(** ** Stores built under a stream of version-4 identifiers *)

Module BuiltStoreFacts.
Import PyStrFacts Schema ZeroIndexMapper AddressManager DocumentManager.
Import FunctionService Frame Api.
Import AddressManagerFacts AddressTextFacts FunctionServiceFacts FormulaFacts.
Import ProcessingFacts.

(** *** The texts of [uuid.uuid4()] *)

Lemma uuid4_text_dashed s : uuid4_text s = true -> contains "-" s = true.
Proof.
  intros H. destruct (contains "-" s) eqn:E; [reflexivity|].
  unfold uuid4_text in H. rewrite (split_char_nosep _ _ E) in H. discriminate.
Qed.

Lemma hex_no_dash s : forallb_str is_hex s = true -> contains "-" s = false.
Proof.
  induction s as [|c s IH]; [reflexivity|]. simpl. intros H.
  apply andb_true_iff in H. destruct H as [Hc Hs].
  rewrite contains_cons, (IH Hs), Ascii.eqb_sym.
  rewrite (class_neq is_hex c "-" Hc eq_refl). reflexivity.
Qed.

Lemma hex_char_is_hex d : is_hex (Sample.hex_char d) = true.
Proof.
  unfold Sample.hex_char. generalize (N.to_nat d). intros n.
  do 16 (destruct n as [|n]; [reflexivity|]). destruct n; reflexivity.
Qed.

Lemma hex_digits_length k : forall n, String.length (Sample.hex_digits k n) = k.
Proof.
  induction k as [|k IH]; intros n; simpl; [reflexivity|].
  rewrite length_append, IH. simpl. lia.
Qed.

Lemma hex_digits_hex k : forall n, forallb_str is_hex (Sample.hex_digits k n) = true.
Proof.
  induction k as [|k IH]; intros n; simpl; [reflexivity|].
  rewrite forallb_str_app, IH. simpl. rewrite hex_char_is_hex. reflexivity.
Qed.

(** The sample stream yields texts of [uuid.uuid4()] only. *)
Lemma uuid4_entropy_stream (k : nat) :
  uuid4_stream {| entropy := Sample.uuid4_entropy; drawn := k |}.
Proof.
  intros n. cbn [entropy]. unfold uuid4_text, Sample.uuid4_entropy.
  set (t := Sample.hex_digits 12 (N.of_nat n)).
  change ("3f2a1b4c-9d8e-4f70-a1b2-" ++ t)%string
    with ("3f2a1b4c-9d8e-4f70-a1b2" ++ String "-" t)%string.
  rewrite split_char_snoc by (apply hex_no_dash, hex_digits_hex).
  change (split_char "-" "3f2a1b4c-9d8e-4f70-a1b2")
    with ["3f2a1b4c"; "9d8e"; "4f70"; "a1b2"]%string.
  cbn [app].
  change (hex_group 8 "3f2a1b4c") with true.
  change (hex_group 4 "9d8e") with true.
  change (hex_group 4 "4f70") with true.
  change (hex_group 4 "a1b2") with true.
  change (startswith "4f70" "4") with true.
  change (startswith "a1b2" "a") with true.
  unfold hex_group, t. rewrite hex_digits_length, hex_digits_hex.
  cbn [andb orb]. rewrite !orb_true_r. reflexivity.
Qed.

(** *** An address never reaches a document that is named with a dash *)

Lemma split_char_keeps_absent c sep s :
  contains c s = false ->
  Forall (fun p => contains c p = false) (split_char sep s).
Proof.
  induction s as [|a s IH]; intros H.
  - repeat constructor.
  - rewrite contains_cons in H. apply orb_false_iff in H. destruct H as [Ha Hs].
    specialize (IH Hs). simpl. destruct (Ascii.eqb a sep).
    + constructor; [reflexivity | exact IH].
    + destruct (split_char sep s) as [|p ps].
      * constructor; [|constructor]. rewrite contains_cons, Ha. reflexivity.
      * inversion IH as [|? ? Hp Hps]; subst. constructor; [|exact Hps].
        rewrite contains_cons, Ha. exact Hp.
Qed.

Lemma nth_forall {A} (P : A -> Prop) l n d :
  Forall P l -> P d -> P (nth n l d).
Proof.
  intros Hl Hd. revert n. induction Hl as [|x l Hx _ IH]; intros [|n]; simpl; auto.
Qed.

Lemma sentences_at_dashed w doc pos :
  documents_dashed w -> contains "-" doc = false -> sentences_at w doc pos = [].
Proof.
  unfold documents_dashed, sentences_at. intros Hw Hdoc.
  induction (doc_sentence_map w) as [|m l IH]; [reflexivity|].
  cbn [flat_map]. rewrite IH by (intros m' Hm'; apply Hw; right; exact Hm').
  destruct (String.eqb (dsm_doc_uuid m) doc) eqn:E; [|reflexivity].
  apply String.eqb_eq in E. rewrite <- E, (Hw m (or_introl eq_refl)) in Hdoc.
  discriminate.
Qed.

(** The document [map_addr_to_uuid] looks for is read before the first
    dash of the address: it holds none. *)
Lemma map_addr_to_uuid_dashed w a r :
  documents_dashed w -> map_addr_to_uuid w a = Ok r -> r = None.
Proof.
  intros Hw. unfold map_addr_to_uuid.
  destruct (_ <? _)%nat; [intros [= <-]; reflexivity|].
  destruct (py_int _) as [p|]; [|discriminate].
  destruct (sqlite_integer p); [|discriminate].
  rewrite sentences_at_dashed; [intros [= <-]; reflexivity | exact Hw |].
  pose proof (split_char_parts "-" a) as Hparts.
  assert (H0 : contains "-" (nth 0 (split_char "-" a) EmptyString) = false)
    by (apply (nth_forall (fun p => contains "-" p = false)); [exact Hparts | reflexivity]).
  destruct (contains ":" _); [|exact H0].
  apply (nth_forall (fun p => contains "-" p = false)); [|reflexivity].
  apply split_char_keeps_absent. exact H0.
Qed.

Lemma resolve_source_dashed w a :
  documents_dashed w ->
  resolve_source w (VStr a)
  = match map_addr_to_uuid w a with
    | Ok _ => Ok None
    | Raise e => Raise e
    end.
Proof.
  intros Hw. unfold resolve_source, as_address. cbn [result_bind].
  destruct (map_addr_to_uuid w a) as [r|e] eqn:E; [|reflexivity].
  rewrite (map_addr_to_uuid_dashed _ _ _ Hw E). reflexivity.
Qed.

(** On such a store [set_relation] writes nothing and does not return
    [True]. *)
Lemma set_relation_dashed w src tgt ty :
  documents_dashed w ->
  set_relation src tgt ty w
  = (w, match map_addr_to_uuid w src with
        | Raise e => Raise e
        | Ok _ => match map_addr_to_uuid w tgt with
                  | Raise e => Raise e
                  | Ok _ => Ok false
                  end
        end).
Proof.
  intros Hw. unfold set_relation, bind, query, ret.
  destruct (map_addr_to_uuid w src) as [s|e] eqn:Es; [|reflexivity].
  rewrite (map_addr_to_uuid_dashed _ _ _ Hw Es).
  destruct (map_addr_to_uuid w tgt) as [t|e] eqn:Et; reflexivity.
Qed.

(** *** The second group of an identifier, read as a position *)

Lemma is_hex_cases c :
  is_hex c = true ->
  In c ["0"; "1"; "2"; "3"; "4"; "5"; "6"; "7"; "8"; "9";
        "a"; "b"; "c"; "d"; "e"; "f"]%char.
Proof.
  destruct c as [[] [] [] [] [] [] [] []]; intros H;
    try discriminate H; simpl; tauto.
Qed.

Lemma hex_group_four b :
  hex_group 4 b = true ->
  exists c1 c2 c3 c4,
    b = String c1 (String c2 (String c3 (String c4 EmptyString))) /\
    is_hex c1 = true /\ is_hex c2 = true /\ is_hex c3 = true /\ is_hex c4 = true.
Proof.
  unfold hex_group. intros H. apply andb_true_iff in H. destruct H as [Hl Hh].
  apply Nat.eqb_eq in Hl.
  destruct b as [|c1 [|c2 [|c3 [|c4 [|c5 b]]]]]; try discriminate Hl.
  simpl in Hh. rewrite !andb_true_iff in Hh.
  exists c1, c2, c3, c4. tauto.
Qed.

(** A group of four hexadecimal digits is a numeral when all four are
    decimal digits, and then a position that fits; otherwise [int]
    raises. *)
Lemma py_int_hex_group b :
  hex_group 4 b = true ->
  match py_int b with
  | Some p => forallb_str is_digit b = true /\ sqlite_integer p = true
  | None => forallb_str is_digit b = false
  end.
Proof.
  intros H. destruct (hex_group_four _ H) as (c1 & c2 & c3 & c4 & -> & H1 & H2 & H3 & H4).
  set (hexes := ["0"; "1"; "2"; "3"; "4"; "5"; "6"; "7"; "8"; "9";
                 "a"; "b"; "c"; "d"; "e"; "f"]%char).
  set (good := fun b => match py_int b with
                        | Some p => forallb_str is_digit b && sqlite_integer p
                        | None => negb (forallb_str is_digit b)
                        end).
  assert (Hall : forallb (fun a1 => forallb (fun a2 => forallb (fun a3 =>
                   forallb (fun a4 =>
                     good (String a1 (String a2 (String a3 (String a4 EmptyString)))))
                   hexes) hexes) hexes) hexes = true) by (vm_compute; reflexivity).
  rewrite forallb_forall in Hall.
  pose proof (Hall c1 (is_hex_cases _ H1)) as Ha. rewrite forallb_forall in Ha.
  pose proof (Ha c2 (is_hex_cases _ H2)) as Hb. rewrite forallb_forall in Hb.
  pose proof (Hb c3 (is_hex_cases _ H3)) as Hc. rewrite forallb_forall in Hc.
  pose proof (Hc c4 (is_hex_cases _ H4)) as Hd. unfold good in Hd.
  destruct (py_int _) as [p|].
  - apply andb_true_iff in Hd. exact Hd.
  - apply negb_true_iff in Hd. exact Hd.
Qed.

(** The address of a sentence in a document named by a version-4
    identifier: the document that is looked for is the first group, the
    position is the second. *)
Lemma map_addr_to_uuid_occurrence w doc pos :
  documents_dashed w -> uuid4_text doc = true ->
  map_addr_to_uuid w ("doc:" ++ doc ++ "-" ++ pos)
  = if forallb_str is_digit (nth 1 (split_char "-" doc) EmptyString)
    then Ok None
    else Raise (ValueError "invalid literal for int() with base 10").
Proof.
  intros Hw Hdoc. pose proof Hdoc as Hshape. unfold uuid4_text in Hshape.
  pose proof (join_split_char "-" doc) as Hjoin.
  pose proof (split_char_parts "-" doc) as Hparts.
  destruct (split_char "-" doc) as [|a [|b [|c [|d [|e [|f l]]]]]] eqn:Hsplit;
    try discriminate Hshape.
  rewrite !andb_true_iff in Hshape.
  destruct Hshape as ((((((_ & Hb) & _) & _) & _) & _) & _).
  apply Forall_cons_iff in Hparts. destruct Hparts as [Ha Hparts].
  apply Forall_cons_iff in Hparts. destruct Hparts as [Hbd _].
  assert (Hda : contains "-" ("doc:" ++ a) = false) by exact Ha.
  cbn [nth].
  assert (Hsplit' : exists rest,
             split_char "-" ("doc:" ++ doc ++ "-" ++ pos) = ("doc:" ++ a)%string :: b :: rest).
  { rewrite <- Hjoin. unfold join. cbn [String.concat].
    change ("doc:" ++ (a ++ "-" ++ b ++ "-" ++ c ++ "-" ++ d ++ "-" ++ e) ++ "-" ++ pos)%string
      with ("doc:" ++ (a ++ String "-" (b ++ String "-" (c ++ "-" ++ d ++ "-" ++ e)))
                   ++ "-" ++ pos)%string.
    rewrite !append_assoc.
    change ("doc:" ++ a ++ String "-" (b ++ String "-" (c ++ "-" ++ d ++ "-" ++ e)) ++ "-" ++ pos)%string
      with (("doc:" ++ a) ++ String "-" ((b ++ String "-" (c ++ "-" ++ d ++ "-" ++ e)) ++ "-" ++ pos))%string.
    rewrite (split_char_app_sep "-" _ _ Hda).
    rewrite append_assoc.
    change (b ++ String "-" (c ++ "-" ++ d ++ "-" ++ e) ++ "-" ++ pos)%string
      with (b ++ String "-" ((c ++ "-" ++ d ++ "-" ++ e) ++ "-" ++ pos))%string.
    rewrite (split_char_app_sep "-" _ _ Hbd). eauto. }
  destruct Hsplit' as (rest & Hsplit').
  pose proof (map_addr_to_uuid_parts w _ _ _ _ Hsplit') as Hmap.
  pose proof (py_int_hex_group _ Hb) as Hint.
  destruct (py_int b) as [p|].
  - destruct Hint as [Hdig Hfit]. rewrite Hdig.
    rewrite Hfit in Hmap. rewrite Hmap.
    rewrite sentences_at_dashed; [reflexivity | exact Hw |].
    change (contains ":" ("doc:" ++ a)) with true. cbv iota.
    apply (nth_forall (fun p => contains "-" p = false)); [|reflexivity].
    apply split_char_keeps_absent. exact Hda.
  - rewrite Hint. exact Hmap.
Qed.

Section WithHash.
Variable sha256_hex : string -> string.

(** *** What [process_document] leaves as it was *)

Section Kept.
Context {X : Type} (proj : World -> X) `{!Apart proj}.
Hypothesis no_documents : ignores proj set_documents.
Hypothesis no_sentences : ignores proj set_sentences.
Hypothesis no_map : ignores proj set_doc_sentence_map.

Lemma process_sentences_keeps doc sents :
  forall p, keeps proj (process_sentences_from sha256_hex doc p sents).
Proof.
  induction sents as [|t rest IH]; intros p; simpl.
  - apply keeps_ret.
  - apply keeps_bind; [apply get_or_create_sentence_keeps; first [assumption | frame]|].
    intros created.
    apply keeps_bind; [apply map_sentence_keeps; first [assumption | frame]|].
    intros _. apply keeps_bind; [apply create_address_keeps; frame|].
    intros _. apply keeps_bind.
    { apply keeps_if; [apply process_tokens_keeps; frame | apply keeps_ret]. }
    intros toks. apply keeps_bind; [apply IH|]. intros more. apply keeps_ret.
Qed.

Lemma process_document_keeps content dbidL dbidS title source metadata :
  keeps proj (process_document sha256_hex content dbidL dbidS title source metadata).
Proof.
  unfold process_document.
  apply keeps_bind; [apply uuid4_keeps; frame|]. intros u.
  apply keeps_bind; [apply insert_document_keeps; first [assumption | frame]|].
  intros _. apply keeps_bind; [apply process_sentences_keeps|]. intros l.
  apply keeps_bind; [apply h5_store_document_keeps; frame|]. intros _.
  apply keeps_ret.
Qed.

End Kept.

Lemma set_relation_keeps_rng src tgt ty : keeps rng (set_relation src tgt ty).
Proof.
  intros w w' r. unfold set_relation, bind, query, modify, ret.
  destruct (map_addr_to_uuid w src); [|intros [= <- _]; reflexivity].
  destruct (map_addr_to_uuid w tgt); [|intros [= <- _]; reflexivity].
  destruct (_ || _); intros [= <- _]; reflexivity.
Qed.

(** *** The documents of a built store are named with dashes *)

Lemma documents_dashed_reads w w' :
  doc_sentence_map w' = doc_sentence_map w -> documents_dashed w -> documents_dashed w'.
Proof. unfold documents_dashed. intros ->. auto. Qed.

Lemma keeps_documents_dashed {A} (m : M World A) :
  keeps doc_sentence_map m -> preserves documents_dashed m.
Proof. apply preserves_keeps. exact documents_dashed_reads. Qed.

Lemma map_sentence_dashed s doc pos :
  contains "-" doc = true ->
  preserves documents_dashed (_map_sentence_to_document s doc pos).
Proof.
  intros Hdoc w w' r Hw. unfold _map_sentence_to_document, modify.
  destruct (existsb _ (doc_sentence_map w)); intros [= <- _]; [exact Hw|].
  intros m Hm. simpl in Hm. apply in_app_or in Hm.
  destruct Hm as [Hm|[<-|[]]]; [apply Hw, Hm | exact Hdoc].
Qed.

Lemma process_sentences_dashed doc sents :
  contains "-" doc = true ->
  forall pos, preserves documents_dashed
                (process_sentences_from sha256_hex doc pos sents).
Proof.
  intros Hdoc. induction sents as [|t rest IH]; intros pos; simpl.
  - apply preserves_ret.
  - apply preserves_bind.
    { apply keeps_documents_dashed, get_or_create_sentence_keeps; frame. }
    intros [u b]. apply preserves_bind; [apply map_sentence_dashed; exact Hdoc|].
    intros _. apply preserves_bind.
    { apply keeps_documents_dashed, create_address_keeps; frame. }
    intros _. apply preserves_bind.
    { apply preserves_if; [|apply preserves_ret].
      apply keeps_documents_dashed. unfold _process_sentence_tokens.
      apply process_tokens_keeps; frame. }
    intros toks. apply preserves_bind; [apply IH|]. intros more.
    apply preserves_ret.
Qed.

Lemma process_document_dashed content dbidL dbidS title source metadata w w' r :
  contains "-" (rng_next (rng w)) = true -> documents_dashed w ->
  process_document sha256_hex content dbidL dbidS title source metadata w = (w', r) ->
  documents_dashed w'.
Proof.
  intros Hdoc Hw. unfold process_document.
  unfold bind at 1. unfold uuid4 at 1. cbv beta iota. intros Hrun.
  assert (Hw0 : documents_dashed (set_rng (rng_advance (rng w)) w)) by exact Hw.
  refine (preserves_bind documents_dashed _ _ _ _ _ w' r Hw0 Hrun).
  - apply keeps_documents_dashed, insert_document_keeps; frame.
  - intros _. apply preserves_bind; [apply process_sentences_dashed; exact Hdoc|].
    intros l. apply preserves_bind; [|intros _; apply preserves_ret].
    apply keeps_documents_dashed, h5_store_document_keeps; frame.
Qed.

(** Under a stream of version-4 identifiers every store the methods
    build names its documents with dashes, and holds no relation: the
    table [relations] has not even been created. *)
Lemma built_store w :
  reachable sha256_hex w -> uuid4_stream (rng w) ->
  documents_dashed w /\ relations w = [] /\ relations_created w = false.
Proof.
  induction 1 as [e | w c l s t so md Hr IH | w a u t z Hr IH | w sa ta ty Hr IH];
    intros Hstream.
  - repeat split. intros m [].
  - destruct (process_document sha256_hex c l s t so md w) as [w' r] eqn:E.
    cbn [fst] in *.
    assert (He : entropy (rng w') = entropy (rng w))
      by (exact (process_document_keeps (fun w => entropy (rng w))
                   ltac:(frame) ltac:(frame) ltac:(frame) _ _ _ _ _ _ _ _ _ E)).
    assert (Hs : uuid4_stream (rng w)) by (intros n; rewrite <- He; apply Hstream).
    destruct (IH Hs) as (Hd & Hrel & Hcr).
    split; [|split].
    + eapply process_document_dashed; [|exact Hd|exact E].
      apply uuid4_text_dashed. apply Hs.
    + rewrite (process_document_keeps relations
                 ltac:(frame) ltac:(frame) ltac:(frame) _ _ _ _ _ _ _ _ _ E).
      exact Hrel.
    + rewrite (process_document_keeps relations_created
                 ltac:(frame) ltac:(frame) ltac:(frame) _ _ _ _ _ _ _ _ _ E).
      exact Hcr.
  - destruct (create_address a u t z w) as [w' r] eqn:E. cbn [fst] in *.
    assert (He : entropy (rng w') = entropy (rng w))
      by (exact (create_address_keeps (fun w => entropy (rng w)) _ _ _ _ _ _ _ E)).
    assert (Hs : uuid4_stream (rng w)) by (intros n; rewrite <- He; apply Hstream).
    destruct (IH Hs) as (Hd & Hrel & Hcr).
    split; [|split].
    + apply (documents_dashed_reads w w'); [|exact Hd].
      exact (create_address_keeps doc_sentence_map _ _ _ _ _ _ _ E).
    + rewrite (create_address_keeps relations _ _ _ _ _ _ _ E). exact Hrel.
    + rewrite (create_address_keeps relations_created _ _ _ _ _ _ _ E). exact Hcr.
  - destruct (set_relation sa ta ty w) as [w' r] eqn:E. cbn [fst] in *.
    assert (Hs : uuid4_stream (rng w))
      by (rewrite <- (set_relation_keeps_rng _ _ _ _ _ _ E); exact Hstream).
    destruct (IH Hs) as (Hd & Hrel & Hcr).
    rewrite (set_relation_dashed _ _ _ _ Hd) in E. injection E as <- _.
    auto.
Qed.

(** *** Relations on a built store *)

(** C4. On the stores the methods build, [set_relation] links nothing.
    Every document is named by a version-4 identifier, and
    [map_addr_to_uuid] takes the dashes of the identifier for the dash
    before the position; so no address reaches a sentence, and a call
    of [set_relation], whatever its addresses, raises or returns
    [False].  Two calls with the same arguments give the same answer
    and leave no edge for the triple: the store is as it was, and
    [relations] is empty. *)
Theorem set_relation_never_links
        (w : World) (source_addr target_addr relation_type : string) :
  reachable sha256_hex w -> uuid4_stream (rng w) ->
  let first := set_relation source_addr target_addr relation_type w in
  let second := set_relation source_addr target_addr relation_type (fst first) in
  snd first <> Ok true /\ snd second = snd first /\
  fst second = w /\ relations (fst second) = [].
Proof.
  intros Hr Hs. destruct (built_store w Hr Hs) as (Hd & Hrel & _).
  cbv zeta. rewrite (set_relation_dashed _ _ _ _ Hd). cbn [fst snd].
  rewrite (set_relation_dashed _ _ _ _ Hd). cbn [fst snd].
  repeat split; [|exact Hrel].
  destruct (map_addr_to_uuid w source_addr); [|discriminate].
  destruct (map_addr_to_uuid w target_addr); discriminate.
Qed.

(** C7. On the stores the methods build, [rel.count] does not count
    the relations of a sentence.  For every sentence that
    [process_document] returns, [resolve_address] resolves its address
    to its identifier, but [map_addr_to_uuid] does not: it reads the
    second group of the identifier of the document as the position.
    [rel.count] and [rel.all] of the address raise the [ValueError] of
    [int] unless that group is made of decimal digits, and then they
    answer [0] and the empty list for an address that resolved to
    nothing.  No relation is counted or listed; the store holds
    none. *)
Theorem rel_count_misses_processed_sentences
        (w w' : World) (content dbidL : string)
        (dbidS title source metadata : option string) (d : ProcessedDocument) :
  reachable sha256_hex w -> uuid4_stream (rng w) ->
  process_document sha256_hex content dbidL dbidS title source metadata w
  = (w', Ok d) ->
  relations w' = [] /\
  Forall (fun s =>
            (exists res,
                resolve_address w' (ps_address s) None = Ok res /\
                resolved_uuid (res_main res) = Some (ps_uuid s)) /\
            map_addr_to_uuid w' (ps_address s) <> Ok (Some (ps_uuid s)) /\
            _rel_count_function w' (VStr (ps_address s)) VNone
            = (if forallb_str is_digit (nth 1 (split_char "-" (pd_uuid d)) EmptyString)
               then Ok (VInt 0)
               else Raise (ValueError "invalid literal for int() with base 10")) /\
            forall ty,
              _rel_all_function w' (VStr (ps_address s)) ty
              = (if forallb_str is_digit
                      (nth 1 (split_char "-" (pd_uuid d)) EmptyString)
                 then Ok (VList [])
                 else Raise (ValueError "invalid literal for int() with base 10")))
         (pd_sentences d).
Proof.
  intros Hr Hs Hrun.
  assert (Hr' : reachable sha256_hex w').
  { pose proof (reach_process_document sha256_hex w content dbidL dbidS title source
                  metadata Hr) as H. rewrite Hrun in H. exact H. }
  assert (He : entropy (rng w') = entropy (rng w))
    by (exact (process_document_keeps (fun w => entropy (rng w))
                 ltac:(frame) ltac:(frame) ltac:(frame) _ _ _ _ _ _ _ _ _ Hrun)).
  assert (Hs' : uuid4_stream (rng w')) by (intros n; rewrite He; apply Hs).
  destruct (built_store w' Hr' Hs') as (Hd & Hrel & _).
  split; [exact Hrel|].
  rewrite Forall_forall. intros s Hin.
  destruct (processed_sentence_resolves _ _ _ _ _ _ _ _ _ _ s Hrun Hin) as [_ Hres].
  split; [exact Hres|].
  destruct (process_document_steps _ _ _ _ _ _ _ _ _ _ Hrun)
    as (w1 & w2 & ps & _ & H2 & _ & _ & _ & _ & _ & _ & _ & _ & ->).
  cbn [pd_sentences pd_uuid] in *.
  pose proof (process_sentences_shape _ _ _ _ _ _ _ H2) as (_ & _ & Haddr).
  rewrite Forall_forall in Haddr. rewrite (Haddr s Hin).
  assert (Hdoc : uuid4_text (rng_next (rng w)) = true) by apply Hs.
  pose proof (map_addr_to_uuid_occurrence w' _ (str_of_Z (ps_position s)) Hd Hdoc)
    as Hmap.
  split; [|split].
  - rewrite Hmap. destruct (forallb_str is_digit _); discriminate.
  - unfold _rel_count_function. rewrite (resolve_source_dashed _ _ Hd), Hmap.
    destruct (forallb_str is_digit _); reflexivity.
  - intros ty. unfold _rel_all_function.
    rewrite (resolve_source_dashed _ _ Hd), Hmap.
    destruct (forallb_str is_digit _); reflexivity.
Qed.

(** X28. On the stores the methods build no cell holds a sentence.
    Every cell is an address of the document ["current_document"],
    which is no version-4 identifier; so for every cell reference [C]
    of a row from 1 to 2^63 no sentence is mapped at its position,
    [uuid(C)] is [None] and [rel.count(C)] is [0]. *)
Theorem built_store_cells_are_unmapped
        (w : World) (col row : string) (r : Z) (cc : option (Z * Z)) :
  reachable sha256_hex w -> uuid4_stream (rng w) ->
  cell_ref col row -> py_int row = Some r -> (1 <= r <= 2 ^ 63)%Z ->
  sentences_at w "current_document" (r - 1) = [] /\
  evaluate w (call_text "uuid" (col ++ row)) cc = Ok VNone /\
  evaluate w (rel_count_formula (col ++ row)) cc = Ok (VInt 0).
Proof.
  intros Hr Hs Hcell Hrow Hrange.
  destruct (built_store w Hr Hs) as (Hd & _ & _).
  assert (Hnone : sentences_at w "current_document" (r - 1) = [])
    by (apply sentences_at_dashed; [exact Hd | reflexivity]).
  set (a := ("doc:current_document-" ++ str_of_Z (r - 1))%string).
  assert (Hmap : map_addr_to_uuid w a = Ok None).
  { unfold a. rewrite map_addr_to_uuid_cell by lia. rewrite Hnone.
    assert (Hfit : sqlite_integer (r - 1) = true).
    { unfold sqlite_integer. apply andb_true_iff. split; apply Z.leb_le; lia. }
    rewrite Hfit. reflexivity. }
  split; [exact Hnone|]. unfold rel_count_formula.
  rewrite (evaluate_cell w "uuid" col row cc eq_refl Hcell).
  rewrite (evaluate_cell w "rel.count" col row cc eq_refl Hcell).
  rewrite (cell_to_addr_row _ _ Hcell), Hrow. fold a.
  change (registered "uuid") with true. change (registered "rel.count") with true.
  cbn [negb result_bind].
  change (call w "uuid" [VStr a]) with (_uuid_function w (VStr a)).
  change (call w "rel.count" [VStr a]) with (_rel_count_function w (VStr a) VNone).
  unfold _uuid_function, _rel_count_function, resolve_source, as_address.
  cbn [result_bind]. rewrite Hmap. split; reflexivity.
Qed.

End WithHash.

Lemma uuid4_document_built :
  reachable Sample.sample_hash Sample.uuid4_document /\
  uuid4_stream (rng Sample.uuid4_document).
Proof.
  split.
  - exact (reach_process_document Sample.sample_hash _ Sample.two_sentences "Report"
             None None None None (reach_empty _ Sample.uuid4_entropy)).
  - assert (E : rng Sample.uuid4_document
                = {| entropy := Sample.uuid4_entropy; drawn := 3 |})
      by (vm_compute; reflexivity).
    rewrite E. apply uuid4_entropy_stream.
Qed.

Lemma set_relation_never_links_witness :
  let first := set_relation Sample.uuid4_first_address Sample.uuid4_second_address
                 "synonym" Sample.uuid4_document in
  let second := set_relation Sample.uuid4_first_address Sample.uuid4_second_address
                  "synonym" (fst first) in
  (snd first <> Ok true /\ snd second = snd first /\
   fst second = Sample.uuid4_document /\ relations (fst second) = []) /\
  snd first = Raise (ValueError "invalid literal for int() with base 10") /\
  (exists info,
      get_address Sample.uuid4_document Sample.uuid4_first_address = Some info /\
      ai_uuid info = Some "3f2a1b4c-9d8e-4f70-a1b2-000000000001"%string) /\
  (exists info,
      get_address Sample.uuid4_document Sample.uuid4_second_address = Some info /\
      ai_uuid info = Some "3f2a1b4c-9d8e-4f70-a1b2-000000000002"%string).
Proof.
  split; [|split; [|split]].
  - apply (set_relation_never_links Sample.sample_hash Sample.uuid4_document
             Sample.uuid4_first_address Sample.uuid4_second_address "synonym");
      apply uuid4_document_built.
  - vm_compute. reflexivity.
  - eexists. split; vm_compute; reflexivity.
  - eexists. split; vm_compute; reflexivity.
Defined.

Lemma rel_count_misses_processed_sentences_witness :
  let w' := Sample.uuid4_document in
  let d := Sample.uuid4_document_result in
  (relations w' = [] /\
   Forall (fun s =>
             (exists res,
                 resolve_address w' (ps_address s) None = Ok res /\
                 resolved_uuid (res_main res) = Some (ps_uuid s)) /\
             map_addr_to_uuid w' (ps_address s) <> Ok (Some (ps_uuid s)) /\
             _rel_count_function w' (VStr (ps_address s)) VNone
             = (if forallb_str is_digit
                     (nth 1 (split_char "-" (pd_uuid d)) EmptyString)
                then Ok (VInt 0)
                else Raise (ValueError "invalid literal for int() with base 10")) /\
             forall ty,
               _rel_all_function w' (VStr (ps_address s)) ty
               = (if forallb_str is_digit
                       (nth 1 (split_char "-" (pd_uuid d)) EmptyString)
                  then Ok (VList [])
                  else Raise (ValueError "invalid literal for int() with base 10")))
          (pd_sentences d)) /\
  map ps_address (pd_sentences d)
  = [Sample.uuid4_first_address; Sample.uuid4_second_address] /\
  evaluate w' (rel_count_formula Sample.uuid4_first_address) None
  = Raise (ValueError "invalid literal for int() with base 10").
Proof.
  split; [|split].
  - apply (rel_count_misses_processed_sentences Sample.sample_hash
             (empty_world Sample.uuid4_entropy) Sample.uuid4_document
             Sample.two_sentences "Report" None None None None
             Sample.uuid4_document_result).
    + apply reach_empty.
    + apply uuid4_entropy_stream.
    + vm_compute. reflexivity.
  - vm_compute. reflexivity.
  - vm_compute. reflexivity.
Defined.

Lemma built_store_cells_are_unmapped_witness :
  sentences_at Sample.uuid4_document "current_document" (1 - 1) = [] /\
  evaluate Sample.uuid4_document (call_text "uuid" ("A" ++ "1")) None = Ok VNone /\
  evaluate Sample.uuid4_document (rel_count_formula ("A" ++ "1")) None
  = Ok (VInt 0).
Proof.
  apply (built_store_cells_are_unmapped Sample.sample_hash Sample.uuid4_document
           "A" "1" 1 None);
    [apply uuid4_document_built | apply uuid4_document_built
     | split; reflexivity | reflexivity | lia].
Defined.

End BuiltStoreFacts.
